(** * Bluetooth Mesh access layer (subsys/bluetooth/mesh/access.c)

    A shallow embedding of the access layer: composition data pages 0, 1
    and 2 with their offset-based streaming, the model relation table
    (extension and correspondence), the high-pages store on top of the
    settings backend, opcode decoding and message dispatch, and the
    publication trigger.

    Conventions.  Sizes, offsets and array indices ([size_t], loop
    counters) are [nat]; no composition can make them wrap.  Octets, ids,
    addresses and opcodes are [Z], and every C conversion to a narrower
    type is written out ([u8], [u16], [i8]).  A pointer to a model is its
    position in the composition ([mref]).  A C function returning a
    negative errno returns [Err e] here. *)

From Stdlib Require Import ZArith List Lia Bool String.
From stdpp Require Import base numbers option list gmap strings.
Import ListNotations.

(** ** Machine integers *)

Definition u8 (z : Z) : Z := (z mod 256)%Z.
Definition u16 (z : Z) : Z := (z mod 65536)%Z.
Definition u32 (z : Z) : Z := (z mod 4294967296)%Z.

(** Conversion to [int8_t] (two's complement). *)
Definition i8 (z : Z) : Z :=
  let r := (z mod 256)%Z in if (r <? 128)%Z then r else (r - 256)%Z.

Definition is_u8 (z : Z) : Prop := (0 ≤ z < 256)%Z.
Definition is_u16 (z : Z) : Prop := (0 ≤ z < 65536)%Z.

(** [BIT(n)] *)
Definition BIT (n : Z) : Z := Z.shiftl 1 n.

(** ** Return codes *)

Inductive errno : Set :=
  | EINVAL | ENOENT | ENOMEM | ENOTSUP | ENOBUFS | ENODEV
  | EADDRNOTAVAIL | EMSGSIZE | EALREADY | EBUSY | EIO.

Global Instance errno_eq_dec : EqDecision errno.
Proof. solve_decision. Defined.

(** An [int] result: [0] or a negative errno. *)
Inductive status : Set :=
  | Ok
  | Err (e : errno).

Global Instance status_eq_dec : EqDecision status.
Proof. solve_decision. Defined.

Definition is_err (s : status) : bool :=
  match s with Ok => false | Err _ => true end.

(** ** net_buf_simple

    [data] holds the [len] valid octets from the data pointer on; [size]
    is the room from the data pointer to the end of the storage, so that
    the tailroom is [size - len]. *)

Record net_buf_simple : Type := {
  data : list Z;
  size : nat;
}.

Definition net_buf_simple_tailroom (buf : net_buf_simple) : nat :=
  size buf - length (data buf).

Definition net_buf_simple_add_mem (buf : net_buf_simple) (mem : list Z)
  : net_buf_simple :=
  {| data := data buf ++ mem; size := size buf |}.

(** Removing [n] octets from the front moves the data pointer. *)
Definition net_buf_simple_pull (buf : net_buf_simple) (n : nat)
  : net_buf_simple :=
  {| data := drop n (data buf); size := size buf - n |}.

Definition net_buf_simple_pull_mem (buf : net_buf_simple) (n : nat)
  : list Z * net_buf_simple :=
  (take n (data buf), net_buf_simple_pull buf n).

Definition sys_get_be16 (b0 b1 : Z) : Z := Z.lor (Z.shiftl b0 8) b1.
Definition sys_get_le16 (b0 b1 : Z) : Z := Z.lor (Z.shiftl b1 8) b0.

(** [sys_put_le16] *)
Definition sys_put_le16 (val : Z) : list Z :=
  [u8 val; u8 (Z.shiftr val 8)].

(** A buffer of [n] octets of storage, reset. *)
Definition NET_BUF_SIMPLE (n : nat) : net_buf_simple :=
  {| data := []; size := n |}.

(** ** Opcode decoding *)

(** [get_opcode]: the leading octet is read without a length check, so
    an empty buffer has no defined result ([None]).  Otherwise the result
    is [-EINVAL] or the opcode with the buffer advanced past it. *)
Definition get_opcode (buf : net_buf_simple)
  : option (errno + Z * net_buf_simple) :=
  match data buf with
  | [] => None
  | b0 :: _ =>
    let len := length (data buf) in
    match Z.shiftr b0 6 with
    | 0%Z | 1%Z =>
      if (b0 =? 0x7f)%Z then Some (inl EINVAL)
      else Some (inr (b0, net_buf_simple_pull buf 1))
    | 2%Z =>
      if len <? 2 then Some (inl EINVAL)
      else
        match data buf with
        | d0 :: d1 :: _ =>
          Some (inr (sys_get_be16 d0 d1, net_buf_simple_pull buf 2))
        | _ => None
        end
    | 3%Z =>
      if len <? 3 then Some (inl EINVAL)
      else
        match data buf with
        | d0 :: d1 :: d2 :: _ =>
          let opcode := Z.shiftl d0 16 in
          Some (inr (Z.lor opcode (sys_get_le16 d1 d2),
                     net_buf_simple_pull buf 3))
        | _ => None
        end
    | _ => None
    end
  end.

(** ** Build configuration

    The Kconfig options the modelled functions test ([IS_ENABLED],
    [#ifdef]) and the two constants they use. *)

Record Kconfig : Type := {
  CONFIG_BT_MESH_RELAY : bool;
  CONFIG_BT_MESH_GATT_PROXY : bool;
  CONFIG_BT_MESH_FRIEND : bool;
  CONFIG_BT_MESH_LOW_POWER : bool;
  CONFIG_BT_MESH_CRPL : Z;
  CONFIG_BT_MESH_COMP_PAGE_1 : bool;
  CONFIG_BT_MESH_COMP_PAGE_2 : bool;
  CONFIG_BT_MESH_LARGE_COMP_DATA_SRV : bool;
  CONFIG_BT_MESH_HIGH_DATA_PAGES : bool;
  CONFIG_BT_SETTINGS : bool;
  CONFIG_BT_MESH_COMP_PST_BUF_SIZE : nat;
  CONFIG_BT_MESH_MODEL_EXTENSIONS : bool;
  CONFIG_BT_MESH_MODEL_VND_MSG_CID_FORCE : bool;
  CONFIG_BT_MESH_ACCESS_LAYER_MSG : bool;
  CONFIG_BT_MESH_ACCESS_DELAYABLE_MSG_CTX_ENABLED : bool;
  CONFIG_BT_MESH_DELAYABLE_PUBLICATION : bool;
  CONFIG_BT_MESH_LABEL_COUNT : nat;
  BT_MESH_TX_SDU_MAX : nat;
}.

Definition BT_MESH_MIC_SHORT : nat := 4.

Definition BT_MESH_FEAT_RELAY : Z := BIT 0.
Definition BT_MESH_FEAT_PROXY : Z := BIT 1.
Definition BT_MESH_FEAT_FRIEND : Z := BIT 2.
Definition BT_MESH_FEAT_LOW_POWER : Z := BIT 3.

(** ** Composition *)

(** A pointer to a model: [&dev_comp->elem[mr_elem].models[mr_idx]], or
    into [vnd_models] when [mr_vnd]. *)
Record mref : Set := {
  mr_elem : nat;
  mr_vnd : bool;
  mr_idx : nat;
}.

Global Instance mref_eq_dec : EqDecision mref.
Proof. solve_decision. Defined.

(** An opcode table entry; [func] names the handler. *)
Record bt_mesh_model_op : Set := {
  opcode : Z;
  len : Z;
  func : nat;
}.

Record bt_mesh_model_pub : Type := {
  pub_addr : Z;
  pub_key : Z;
  pub_ttl : Z;
  pub_cred : bool;
  retransmit : Z;
  period : Z;
  period_div : Z;
  fast_period : bool;
  delayable : bool;
  count : Z;
  period_start : Z;
  update : option nat;
  pub_msg : option net_buf_simple;
  timer : option Z;
}.

(** A Models Metadata entry [{len, id, data}]: [data] is either a
    pointer to [len] octets or [NULL]. *)
Inductive bt_mesh_models_metadata_entry : Set :=
  | MD_ENTRY (md_id : Z) (md_data : list Z)
  | MD_NULL (md_len : nat) (md_id : Z).

Definition entry_len (e : bt_mesh_models_metadata_entry) : nat :=
  match e with
  | MD_ENTRY _ d => length d
  | MD_NULL l _ => l
  end.

Definition entry_id (e : bt_mesh_models_metadata_entry) : Z :=
  match e with
  | MD_ENTRY i _ => i
  | MD_NULL _ i => i
  end.

Record bt_mesh_model_rt_ctx : Set := {
  elem_idx : Z;
  mod_idx : Z;
  flags : Z;
  next : option mref;
}.

(** The id union is flattened: SIG models use [id], vendor models
    [vnd_company] and [vnd_id].  [op] is the opcode table up to its
    terminating entry; [keys], [groups] and [uuids] are the arrays of
    [keys_cnt], [groups_cnt] and [CONFIG_BT_MESH_LABEL_COUNT] slots;
    [metadata] is the entry array, its terminating entry included. *)
Record bt_mesh_model : Type := {
  id : Z;
  vnd_company : Z;
  vnd_id : Z;
  op : list bt_mesh_model_op;
  keys : list Z;
  groups : list Z;
  uuids : list (option nat);
  pub : option bt_mesh_model_pub;
  metadata : option (list bt_mesh_models_metadata_entry);
  rt : bt_mesh_model_rt_ctx;
}.

(** [addr] is [elem->rt->addr]; [model_count] and [vnd_model_count] are
    the lengths of the two lists. *)
Record bt_mesh_elem : Type := {
  loc : Z;
  addr : Z;
  models : list bt_mesh_model;
  vnd_models : list bt_mesh_model;
}.

Definition model_count (elem : bt_mesh_elem) : nat := length (models elem).
Definition vnd_model_count (elem : bt_mesh_elem) : nat :=
  length (vnd_models elem).

Record bt_mesh_comp : Type := {
  cid : Z;
  pid : Z;
  vid : Z;
  elem : list bt_mesh_elem;
}.

Definition elem_count (comp : bt_mesh_comp) : nat := length (elem comp).

Record bt_mesh_comp2_record : Type := {
  rec_id : Z;
  version_x : Z;
  version_y : Z;
  version_z : Z;
  elem_offset : list Z;
  rec_data : list Z;
}.

Definition elem_offset_cnt (r : bt_mesh_comp2_record) : nat :=
  length (elem_offset r).
Definition data_len (r : bt_mesh_comp2_record) : nat := length (rec_data r).

Record bt_mesh_comp2 : Type := {
  record : list bt_mesh_comp2_record;
}.

Definition record_cnt (c : bt_mesh_comp2) : nat := length (record c).

(** Statically allocated objects start zeroed. *)
Definition rt_zero : bt_mesh_model_rt_ctx :=
  {| elem_idx := 0; mod_idx := 0; flags := 0; next := None |}.

Definition model_zero : bt_mesh_model :=
  {| id := 0; vnd_company := 0; vnd_id := 0; op := []; keys := [];
     groups := []; uuids := []; pub := None; metadata := None;
     rt := rt_zero |}.

Definition elem_zero : bt_mesh_elem :=
  {| loc := 0; addr := 0; models := []; vnd_models := [] |}.

(** ** Model relations *)

Record mod_relation : Set := {
  elem_base : Z;
  idx_base : Z;
  elem_ext : Z;
  idx_ext : Z;
  type : Z;
}.

Global Instance mod_relation_eq_dec : EqDecision mod_relation.
Proof. solve_decision. Defined.

Definition RELATION_TYPE_EXT : Z := 0xFF.

Definition mod_relation_zero : mod_relation :=
  {| elem_base := 0; idx_base := 0; elem_ext := 0; idx_ext := 0; type := 0 |}.

(** The test that ends [MOD_REL_LIST_FOR_EACH] and that
    [mod_rel_register] uses to find a free slot. *)
Definition rel_unused (r : mod_relation) : bool :=
  (elem_base r =? 0)%Z && (idx_base r =? 0)%Z &&
  (elem_ext r =? 0)%Z && (idx_ext r =? 0)%Z.

(** The entries [MOD_REL_LIST_FOR_EACH] visits, in order. *)
Fixpoint MOD_REL_LIST_FOR_EACH (l : list mod_relation) : list mod_relation :=
  match l with
  | [] => []
  | r :: l' => if rel_unused r then [] else r :: MOD_REL_LIST_FOR_EACH l'
  end.

Definition IS_MOD_BASE (m : bt_mesh_model) (r : mod_relation) (offset : Z)
  : bool :=
  (elem_base r =? elem_idx (rt m))%Z &&
  (idx_base r =? mod_idx (rt m) + offset)%Z.

Definition IS_MOD_EXTENSION (m : bt_mesh_model) (r : mod_relation)
  (offset : Z) : bool :=
  (elem_ext r =? elem_idx (rt m))%Z &&
  (idx_ext r =? mod_idx (rt m) + offset)%Z.

(** ** Global state of the access layer *)

(** Modelled from the spec: the settings backend ([settings_save_one],
    [settings_delete], [settings_load_subtree_direct]) is an external
    collaborator.  [records] maps a path to its stored value;
    [keep_empty] tells whether saving a zero-length value leaves an
    empty record or removes the record; [save_err] and [load_err] are
    the results the backend gives to the next save and load. *)
Record settings_store : Type := {
  records : gmap string (list Z);
  keep_empty : bool;
  save_err : status;
  load_err : status;
}.

Record access_state : Type := {
  dev_comp : bt_mesh_comp;
  dev_comp2 : option bt_mesh_comp2;
  dev_primary_addr : Z;
  msg_cb : option nat;
  mod_rel_list : list mod_relation;
  settings : settings_store;
}.

Definition elem_at (comp : bt_mesh_comp) (i : nat) : bt_mesh_elem :=
  nth i (elem comp) elem_zero.

(** Dereference of a model pointer. *)
Definition model_at (comp : bt_mesh_comp) (m : mref) : bt_mesh_model :=
  let e := elem_at comp (mr_elem m) in
  nth (mr_idx m) (if mr_vnd m then vnd_models e else models e) model_zero.

(** ** Relation table queries used by page 1 *)

(** [count_mod_ext]: the number of extension records of the model (an
    [uint8_t]) and the recorded element offset of largest magnitude (an
    [int8_t]). *)
Definition count_mod_ext (rels : list mod_relation) (m : bt_mesh_model)
  (sig_offset : Z) : Z * Z :=
  fold_left
    (λ (acc : Z * Z) (r : mod_relation),
       let '(extensions, offset_record) := acc in
       if IS_MOD_EXTENSION m r sig_offset && (type r =? RELATION_TYPE_EXT)%Z
       then
         let offset := i8 (elem_ext r - elem_base r) in
         (u8 (extensions + 1),
          if (Z.abs offset >? Z.abs offset_record)%Z then offset
          else offset_record)
       else acc)
    (MOD_REL_LIST_FOR_EACH rels) (0%Z, 0%Z).

(** [is_cor_present]: [Some cor_id] when the function returns true (the
    id it stores through [cor_id]), [None] when it returns false. *)
Fixpoint is_cor_present_loop (l : list mod_relation) (m : bt_mesh_model)
  (sig_offset : Z) : option Z :=
  match l with
  | [] => None
  | r :: l' =>
    if (IS_MOD_BASE m r sig_offset || IS_MOD_EXTENSION m r sig_offset)
       && (type r <? RELATION_TYPE_EXT)%Z
    then Some (type r)
    else is_cor_present_loop l' m sig_offset
  end.

Definition is_cor_present (rels : list mod_relation) (m : bt_mesh_model)
  (sig_offset : Z) : option Z :=
  is_cor_present_loop (MOD_REL_LIST_FOR_EACH rels) m sig_offset.

(** ** Page serializer *)

(** The output buffer together with the offset still to be skipped
    ([*offset]). *)
Definition writer : Type := net_buf_simple * nat.

Definition data_buf_add_mem_offset (w : writer) (mem : list Z) : writer :=
  let '(buf, offset) := w in
  let len := length mem in
  if len <=? offset then (buf, offset - len)
  else
    let real_offset := offset in
    let len := min (net_buf_simple_tailroom buf) (len - real_offset) in
    (net_buf_simple_add_mem buf (take len (drop real_offset mem)), 0).

Definition data_buf_add_le16_offset (w : writer) (val : Z) : writer :=
  data_buf_add_mem_offset w (sys_put_le16 val).

Definition data_buf_add_u8_offset (w : writer) (val : Z) : writer :=
  data_buf_add_mem_offset w [u8 val].

Definition bt_mesh_comp_elem_size (elem : bt_mesh_elem) : nat :=
  4 + model_count elem * 2 + vnd_model_count elem * 4.

Definition comp_add_model (w : writer) (m : bt_mesh_model) (vnd : bool)
  : writer :=
  if vnd then
    let w := data_buf_add_le16_offset w (vnd_company m) in
    data_buf_add_le16_offset w (vnd_id m)
  else data_buf_add_le16_offset w (id m).

Definition comp_add_elem (w : writer) (elem : bt_mesh_elem)
  (allow_partial_elems : bool) : status * writer :=
  let '(buf, offset) := w in
  let elem_size := bt_mesh_comp_elem_size elem in
  if elem_size <=? offset then (Ok, (buf, offset - elem_size))
  else if (negb allow_partial_elems &&
           (net_buf_simple_tailroom buf
            <? (elem_size - offset) + BT_MESH_MIC_SHORT))
          || (net_buf_simple_tailroom buf <=? 0)
  then (Err ENOBUFS, w)
  else
    let w := data_buf_add_le16_offset w (loc elem) in
    let w := data_buf_add_u8_offset w (Z.of_nat (model_count elem)) in
    let w := data_buf_add_u8_offset w (Z.of_nat (vnd_model_count elem)) in
    let w := fold_left (λ w m, comp_add_model w m false) (models elem) w in
    let w := fold_left (λ w m, comp_add_model w m true) (vnd_models elem) w in
    (Ok, w).

Definition comp_feat (cfg : Kconfig) : Z :=
  let feat := 0%Z in
  let feat :=
    if CONFIG_BT_MESH_RELAY cfg then Z.lor feat BT_MESH_FEAT_RELAY
    else feat in
  let feat :=
    if CONFIG_BT_MESH_GATT_PROXY cfg then Z.lor feat BT_MESH_FEAT_PROXY
    else feat in
  let feat :=
    if CONFIG_BT_MESH_FRIEND cfg then Z.lor feat BT_MESH_FEAT_FRIEND
    else feat in
  if CONFIG_BT_MESH_LOW_POWER cfg then Z.lor feat BT_MESH_FEAT_LOW_POWER
  else feat.

(** The element loop of page 0; it stops at the first element that
    [comp_add_elem] refuses. *)
Fixpoint comp_add_elems (w : writer) (elems : list bt_mesh_elem)
  (allow_partial_elems : bool) : writer :=
  match elems with
  | [] => w
  | e :: elems' =>
    match comp_add_elem w e allow_partial_elems with
    | (Ok, w') => comp_add_elems w' elems' allow_partial_elems
    | (Err _, w') => w'
    end
  end.

Definition bt_mesh_comp_data_get_page_0 (cfg : Kconfig) (st : access_state)
  (buf : net_buf_simple) (offset : nat) (allow_partial_elems : bool)
  : status * net_buf_simple :=
  let comp := dev_comp st in
  let feat := comp_feat cfg in
  let w := (buf, offset) in
  let w := data_buf_add_le16_offset w (cid comp) in
  let w := data_buf_add_le16_offset w (pid comp) in
  let w := data_buf_add_le16_offset w (vid comp) in
  let w := data_buf_add_le16_offset w (CONFIG_BT_MESH_CRPL cfg) in
  let w := data_buf_add_le16_offset w feat in
  (Ok, fst (comp_add_elems w (elem comp) allow_partial_elems)).

(** [prep_model_item_header]: writes the header octet and the
    correspondence id when present; the result carries [*mod_cnt]. *)
Definition prep_model_item_header (rels : list mod_relation)
  (m : bt_mesh_model) (w : writer) (sig_offset : Z) : Z * writer :=
  let '(ext_mod_cnt, max_offset) := count_mod_ext rels m sig_offset in
  let cor_present := is_cor_present rels m sig_offset in
  let mod_elem_info := u8 (Z.shiftl ext_mod_cnt 2) in
  let mod_elem_info :=
    if (ext_mod_cnt >? 31)%Z || (max_offset >? 3)%Z || (max_offset <? -4)%Z
    then Z.lor mod_elem_info (BIT 1) else mod_elem_info in
  let mod_elem_info :=
    if is_Some_dec cor_present then Z.lor mod_elem_info (BIT 0)
    else mod_elem_info in
  let w := data_buf_add_u8_offset w mod_elem_info in
  let w :=
    match cor_present with
    | Some cor_id => data_buf_add_u8_offset w cor_id
    | None => w
    end in
  (ext_mod_cnt, w).

Definition add_items_to_page (rels : list mod_relation) (w : writer)
  (m : bt_mesh_model) (ext_mod_cnt : Z) (sig_offset : Z) : writer :=
  fold_left
    (λ (w : writer) (r : mod_relation),
       if IS_MOD_EXTENSION m r sig_offset && (type r =? RELATION_TYPE_EXT)%Z
       then
         let elem_offset := (elem_idx (rt m) - elem_base r)%Z in
         let mod_idx := idx_base r in
         if (ext_mod_cnt <? 32)%Z && (elem_offset <? 4)%Z
            && (elem_offset >? -5)%Z
         then
           let elem_offset :=
             if (elem_offset <? 0)%Z then (elem_offset + 8)%Z
             else elem_offset in
           let elem_offset := Z.lor elem_offset (Z.shiftl mod_idx 3) in
           data_buf_add_u8_offset w elem_offset
         else
           let elem_offset :=
             if (elem_offset <? 0)%Z then (elem_offset + 256)%Z
             else elem_offset in
           let w := data_buf_add_u8_offset w elem_offset in
           data_buf_add_u8_offset w mod_idx
       else w)
    (MOD_REL_LIST_FOR_EACH rels) w.

Definition mod_items_size (rels : list mod_relation) (m : bt_mesh_model)
  (sig_offset : Z) : nat :=
  let ext_mod_cnt := fst (count_mod_ext rels m sig_offset) in
  if (ext_mod_cnt =? 0)%Z then 0
  else
    fold_left
      (λ (temp_size : nat) (r : mod_relation),
         if IS_MOD_EXTENSION m r sig_offset then
           let offset := (elem_idx (rt m) - elem_base r)%Z in
           temp_size +
           (if (ext_mod_cnt <? 32)%Z && (offset <? 4)%Z && (offset >? -5)%Z
            then 1 else 2)
         else temp_size)
      (MOD_REL_LIST_FOR_EACH rels) 0.

Definition page1_elem_size (rels : list mod_relation) (elem : bt_mesh_elem)
  : nat :=
  let temp_size := 2 in
  let temp_size :=
    fold_left
      (λ (temp_size : nat) (m : bt_mesh_model),
         temp_size + (if is_Some_dec (is_cor_present rels m 0) then 2 else 1)
         + mod_items_size rels m 0)
      (models elem) temp_size in
  fold_left
    (λ (temp_size : nat) (m : bt_mesh_model),
       let sig_offset := Z.of_nat (model_count elem) in
       temp_size
       + (if is_Some_dec (is_cor_present rels m sig_offset) then 2 else 1)
       + mod_items_size rels m sig_offset)
    (vnd_models elem) temp_size.

(** One model item of page 1: header, then the extension entries when
    there are any. *)
Definition page1_add_model (rels : list mod_relation) (sig_offset : Z)
  (w : writer) (m : bt_mesh_model) : writer :=
  let '(ext_mod_cnt, w) := prep_model_item_header rels m w sig_offset in
  if (ext_mod_cnt =? 0)%Z then w
  else add_items_to_page rels w m ext_mod_cnt sig_offset.

(** The element loop of page 1. *)
Fixpoint page1_add_elems (rels : list mod_relation) (w : writer)
  (elems : list bt_mesh_elem) (allow_partial_elems : bool) : writer :=
  match elems with
  | [] => w
  | e :: elems' =>
    let '(buf, offset) := w in
    let elem_size := page1_elem_size rels e in
    if elem_size <=? offset then
      page1_add_elems rels (buf, offset - elem_size) elems'
        allow_partial_elems
    else if (negb allow_partial_elems &&
             (net_buf_simple_tailroom buf
              <? (elem_size - offset) + BT_MESH_MIC_SHORT))
            || (net_buf_simple_tailroom buf <=? 0)
    then w
    else
      let w := data_buf_add_u8_offset w (Z.of_nat (model_count e)) in
      let w := data_buf_add_u8_offset w (Z.of_nat (vnd_model_count e)) in
      let w := fold_left (page1_add_model rels 0) (models e) w in
      let w :=
        fold_left (page1_add_model rels (Z.of_nat (model_count e)))
          (vnd_models e) w in
      page1_add_elems rels w elems' allow_partial_elems
  end.

Definition bt_mesh_comp_data_get_page_1 (st : access_state)
  (buf : net_buf_simple) (offset : nat) (allow_partial_elems : bool)
  : status * net_buf_simple :=
  (Ok, fst (page1_add_elems (mod_rel_list st) (buf, offset)
              (elem (dev_comp st)) allow_partial_elems)).

Definition comp2_record_size (r : bt_mesh_comp2_record) : nat :=
  8 + elem_offset_cnt r + data_len r.

(** The record loop of page 2. *)
Fixpoint page2_add_records (w : writer) (recs : list bt_mesh_comp2_record)
  (allow_partial_elems : bool) : writer :=
  match recs with
  | [] => w
  | r :: recs' =>
    let '(buf, offset) := w in
    let elem_size := comp2_record_size r in
    if elem_size <=? offset then
      page2_add_records (buf, offset - elem_size) recs' allow_partial_elems
    else if (negb allow_partial_elems &&
             (net_buf_simple_tailroom buf
              <? (elem_size - offset) + BT_MESH_MIC_SHORT))
            || (net_buf_simple_tailroom buf <=? 0)
    then w
    else
      let w := data_buf_add_le16_offset w (rec_id r) in
      let w := data_buf_add_u8_offset w (version_x r) in
      let w := data_buf_add_u8_offset w (version_y r) in
      let w := data_buf_add_u8_offset w (version_z r) in
      let w := data_buf_add_u8_offset w (Z.of_nat (elem_offset_cnt r)) in
      let w :=
        if 0 <? elem_offset_cnt r
        then data_buf_add_mem_offset w (elem_offset r) else w in
      let w := data_buf_add_le16_offset w (Z.of_nat (data_len r)) in
      let w :=
        if 0 <? data_len r
        then data_buf_add_mem_offset w (rec_data r) else w in
      page2_add_records w recs' allow_partial_elems
  end.

Definition bt_mesh_comp_data_get_page_2 (st : access_state)
  (buf : net_buf_simple) (offset : nat) (allow_partial_elems : bool)
  : status * net_buf_simple :=
  match dev_comp2 st with
  | None => (Err ENODEV, buf)
  | Some comp2 =>
    (Ok, fst (page2_add_records (buf, offset) (record comp2)
                allow_partial_elems))
  end.

Definition comp_page_0_size (st : access_state) : nat :=
  fold_left (λ (size : nat) (e : bt_mesh_elem), size + bt_mesh_comp_elem_size e)
    (elem (dev_comp st)) 10.

Definition comp_page_1_size (st : access_state) : nat :=
  fold_left
    (λ (size : nat) (e : bt_mesh_elem),
       size + page1_elem_size (mod_rel_list st) e)
    (elem (dev_comp st)) 0.

Definition comp_page_2_size (st : access_state) : nat :=
  match dev_comp2 st with
  | None => 0
  | Some comp2 =>
    fold_left
      (λ (size : nat) (r : bt_mesh_comp2_record),
         size + (8 + elem_offset_cnt r + data_len r))
      (record comp2) 0
  end.

(** ** Models Metadata page 0 *)

Fixpoint metadata_entries_size (l : list bt_mesh_models_metadata_entry)
  : nat :=
  match l with
  | [] => 0
  | e :: l' =>
    if entry_len e =? 0 then 0
    else 2 + 2 + entry_len e + metadata_entries_size l'
  end.

Definition metadata_model_size (m : bt_mesh_model) (vnd : bool) : nat :=
  match metadata m with
  | None => 0
  | Some entries =>
    (if vnd then 2 + 2 else 2) + 1 + metadata_entries_size entries
  end.

Definition bt_mesh_metadata_page_0_size (st : access_state) : nat :=
  fold_left
    (λ (size : nat) (e : bt_mesh_elem),
       let size := size + (1 + 1) in
       let size :=
         fold_left (λ size m, size + metadata_model_size m false)
           (models e) size in
       fold_left (λ size m, size + metadata_model_size m true)
         (vnd_models e) size)
    (elem (dev_comp st)) 0.

(** The pointer [data_buf_add_mem_offset] returns: [NULL] when the
    octets were skipped, otherwise the position of the old tail. *)
Definition added_at (w : writer) (n : nat) : option nat :=
  let '(buf, offset) := w in
  if n <=? offset then None else Some (length (data buf)).

(** A store through a pointer to an octet inside the buffer; a position
    past the valid octets does not change them. *)
Definition poke (w : writer) (ptr : option nat) (f : Z → Z) : writer :=
  match ptr with
  | None => w
  | Some p =>
    let '(buf, offset) := w in
    ({| data := alter (λ v, u8 (f v)) p (data buf); size := size buf |},
     offset)
  end.

Fixpoint metadata_add_entries (w : writer)
  (l : list bt_mesh_models_metadata_entry) (count : Z) : writer * Z :=
  match l with
  | MD_ENTRY i d :: l' =>
    let w := data_buf_add_le16_offset w (Z.of_nat (length d)) in
    let w := data_buf_add_le16_offset w i in
    let w := data_buf_add_mem_offset w d in
    metadata_add_entries w l' (u8 (count + 1))
  | _ => (w, count)
  end.

Definition metadata_add_model (w : writer) (m : bt_mesh_model) (vnd : bool)
  : writer :=
  let '(buf, offset) := w in
  let model_size := metadata_model_size m vnd in
  if model_size <=? offset then (buf, offset - model_size)
  else
    let w := comp_add_model w m vnd in
    let count_ptr := added_at w 1 in
    let w := data_buf_add_u8_offset w 0 in
    let '(w, count) :=
      match metadata m with
      | Some entries => metadata_add_entries w entries 0
      | None => (w, 0%Z)
      end in
    poke w count_ptr (λ _, count).

Definition metadata_add_models (w : writer) (l : list bt_mesh_model)
  (vnd : bool) (cnt_ptr : option nat) : writer :=
  fold_left
    (λ (w : writer) (m : bt_mesh_model),
       match metadata m with
       | None => w
       | Some _ =>
         let w := metadata_add_model w m vnd in
         poke w cnt_ptr (λ v, (v + 1)%Z)
       end)
    l w.

Fixpoint metadata_add_elems (w : writer) (elems : list bt_mesh_elem)
  : writer :=
  match elems with
  | [] => w
  | e :: elems' =>
    if net_buf_simple_tailroom (fst w) =? 0 then w
    else
      let mod_count_ptr := added_at w 1 in
      let w := data_buf_add_u8_offset w 0 in
      let vnd_count_ptr := added_at w 1 in
      let w := data_buf_add_u8_offset w 0 in
      let w := metadata_add_models w (models e) false mod_count_ptr in
      let w := metadata_add_models w (vnd_models e) true vnd_count_ptr in
      metadata_add_elems w elems'
  end.

Definition bt_mesh_metadata_get_page_0 (st : access_state)
  (buf : net_buf_simple) (offset : nat) : status * net_buf_simple :=
  (Ok, fst (metadata_add_elems (buf, offset) (elem (dev_comp st)))).

(** ** Current pages *)

Inductive page_type : Set :=
  | PAGE_TYPE_COMP
  | PAGE_TYPE_METADATA.

Global Instance page_type_eq_dec : EqDecision page_type.
Proof. solve_decision. Defined.

Definition current_page_size (cfg : Kconfig) (st : access_state)
  (type : page_type) (page : Z) : nat :=
  match type with
  | PAGE_TYPE_COMP =>
    if (page =? 0)%Z then comp_page_0_size st
    else if CONFIG_BT_MESH_COMP_PAGE_1 cfg && (page =? 1)%Z
    then comp_page_1_size st
    else if CONFIG_BT_MESH_COMP_PAGE_2 cfg && (page =? 2)%Z
    then comp_page_2_size st
    else 0
  | PAGE_TYPE_METADATA =>
    if CONFIG_BT_MESH_LARGE_COMP_DATA_SRV cfg then
      if (page =? 0)%Z then bt_mesh_metadata_page_0_size st else 0
    else 0
  end.

Definition current_page_contents (cfg : Kconfig) (st : access_state)
  (buf : net_buf_simple) (type : page_type) (page : Z) (offset : nat)
  (allow_partial_elems : bool) : status * net_buf_simple :=
  match type with
  | PAGE_TYPE_COMP =>
    if (page =? 0)%Z
    then bt_mesh_comp_data_get_page_0 cfg st buf offset allow_partial_elems
    else if CONFIG_BT_MESH_COMP_PAGE_1 cfg && (page =? 1)%Z
    then bt_mesh_comp_data_get_page_1 st buf offset allow_partial_elems
    else if CONFIG_BT_MESH_COMP_PAGE_2 cfg && (page =? 2)%Z
    then bt_mesh_comp_data_get_page_2 st buf offset allow_partial_elems
    else (Err ENOENT, buf)
  | PAGE_TYPE_METADATA =>
    if CONFIG_BT_MESH_LARGE_COMP_DATA_SRV cfg then
      if negb allow_partial_elems then (Err EINVAL, buf)
      else if (page =? 0)%Z then bt_mesh_metadata_get_page_0 st buf offset
      else (Err ENOENT, buf)
    else (Err ENOENT, buf)
  end.

(** ** Settings backend *)

(** Modelled from the spec: [settings_save_one(path, value, len)] stores
    the value under the path, or fails with the backend's error. *)
Definition settings_save_one (s : settings_store) (path : string)
  (value : list Z) : status * settings_store :=
  match save_err s with
  | Err e => (Err e, s)
  | Ok =>
    let records' :=
      if (length value =? 0) && negb (keep_empty s)
      then delete path (records s)
      else <[path := value]> (records s) in
    (Ok, {| records := records'; keep_empty := keep_empty s;
            save_err := save_err s; load_err := load_err s |})
  end.

(** Modelled from the spec: [settings_delete(path)] removes the record. *)
Definition settings_delete (s : settings_store) (path : string)
  : status * settings_store :=
  match save_err s with
  | Err e => (Err e, s)
  | Ok =>
    (Ok, {| records := delete path (records s); keep_empty := keep_empty s;
            save_err := save_err s; load_err := load_err s |})
  end.

(** Modelled from the spec: [settings_load_subtree_direct(path, cb,
    param)] calls [cb] on the record stored under the path, when there
    is one, with a reader that yields the whole value; the result is the
    backend's, not the callback's. *)
Definition settings_load_subtree_direct {P : Type} (s : settings_store)
  (path : string) (cb : list Z → P → P) (param : P) : status * P :=
  match load_err s with
  | Err e => (Err e, param)
  | Ok =>
    match records s !! path with
    | Some value => (Ok, cb value param)
    | None => (Ok, param)
    end
  end.

(** ** High-pages store *)

Definition stored_pages (cfg : Kconfig) : list (page_type * Z * string) :=
  [(PAGE_TYPE_COMP, 128%Z, "bt/mesh/cmp/128"%string)]
  ++ (if CONFIG_BT_MESH_COMP_PAGE_1 cfg
      then [(PAGE_TYPE_COMP, 129%Z, "bt/mesh/cmp/129"%string)] else [])
  ++ (if CONFIG_BT_MESH_COMP_PAGE_2 cfg
      then [(PAGE_TYPE_COMP, 130%Z, "bt/mesh/cmp/130"%string)] else [])
  ++ (if CONFIG_BT_MESH_LARGE_COMP_DATA_SRV cfg
      then [(PAGE_TYPE_METADATA, 128%Z, "bt/mesh/metadata/128"%string)]
      else []).

Fixpoint stored_page_path_loop (l : list (page_type * Z * string))
  (type : page_type) (page : Z) : option string :=
  match l with
  | [] => None
  | (t, p, path) :: l' =>
    if bool_decide (t = type) && (p =? page)%Z then Some path
    else stored_page_path_loop l' type page
  end.

Definition stored_page_path (cfg : Kconfig) (type : page_type) (page : Z)
  : option string :=
  stored_page_path_loop (stored_pages cfg) type page.

(** [new_page_data_is_equal]: [None] when [memcmp] would read octets of
    the local buffer that were never written. *)
Definition new_page_data_is_equal (cfg : Kconfig) (st : access_state)
  (type : page_type) (page : Z) (new_data : list Z) : option bool :=
  let new_len := length new_data in
  let old_page := (page mod 128)%Z in
  let old_page_size := current_page_size cfg st type old_page in
  if negb (old_page_size =? new_len) then Some false
  else
    let buf := NET_BUF_SIMPLE (CONFIG_BT_MESH_COMP_PST_BUF_SIZE cfg) in
    match current_page_contents cfg st buf type old_page 0 true with
    | (Err _, _) => Some false
    | (Ok, buf) =>
      if length (data buf) <? new_len then None
      else Some (bool_decide (take new_len (data buf) = new_data))
    end.

Definition set_settings (st : access_state) (s : settings_store)
  : access_state :=
  {| dev_comp := dev_comp st; dev_comp2 := dev_comp2 st;
     dev_primary_addr := dev_primary_addr st; msg_cb := msg_cb st;
     mod_rel_list := mod_rel_list st; settings := s |}.

(** [stored_page_write(type, page, data, len)] with [len] the length of
    [data]. *)
Definition stored_page_write (cfg : Kconfig) (st : access_state)
  (type : page_type) (page : Z) (data : list Z)
  : option (status * access_state) :=
  let len := length data in
  let page_empty := 0%Z in
  if negb (CONFIG_BT_SETTINGS cfg) then Some (Err ENOTSUP, st)
  else
    match stored_page_path cfg type page with
    | None => Some (Err ENOENT, st)
    | Some path =>
      match new_page_data_is_equal cfg st type page data with
      | None => None
      | Some equal =>
        let data := if equal then None else Some data in
        let '(err, s) :=
          if len =? 0 then settings_save_one (settings st) path [page_empty]
          else
            settings_save_one (settings st) path
              (match data with Some d => take len d | None => [] end) in
        match err with
        | Err e => Some (Err e, st)
        | Ok => Some (Ok, set_settings st s)
        end
      end
    end.

Definition next_elem_size_cdp128 (buf : net_buf_simple) : nat :=
  match data buf with
  | _ :: _ :: d2 :: d3 :: _ => 4 + Z.to_nat d2 * 2 + Z.to_nat d3 * 4
  | _ => 0
  end.

(** The model-item loop of [next_elem_size_cdp129]; [None] stands for
    the early [return 0]. *)
Fixpoint next_elem_size_cdp129_loop (n : nat) (buf : net_buf_simple)
  (size : nat) : option nat :=
  match n with
  | 0 => Some size
  | S n' =>
    match data buf !! size with
    | None => None
    | Some hdr =>
      let cor_present := if Z.testbit hdr 0 then 1 else 0 in
      let fmt := if Z.testbit hdr 1 then 1 else 0 in
      let ext_item_cnt := Z.to_nat (Z.shiftr hdr 2) in
      next_elem_size_cdp129_loop n' buf
        (size + (1 + cor_present + (1 + fmt) * ext_item_cnt))
    end
  end.

Definition next_elem_size_cdp129 (buf : net_buf_simple) : nat :=
  match data buf with
  | nsig :: nvnd :: _ =>
    default 0
      (next_elem_size_cdp129_loop (Z.to_nat nsig + Z.to_nat nvnd) buf 2)
  | _ => 0
  end.

Definition next_elem_size_cdp130 (buf : net_buf_simple) : nat :=
  let size := 6 in
  if length (data buf) <? 8 then 0
  else
    let size := size + Z.to_nat (nth 5 (data buf) 0%Z) in
    if length (data buf) <? size + 2 then 0
    else
      size + 2 +
      Z.to_nat (sys_get_le16 (nth size (data buf) 0%Z)
                  (nth (size + 1) (data buf) 0%Z)).

Definition next_elem_size (cfg : Kconfig) (buf : net_buf_simple) (page : Z)
  : nat :=
  if (page =? 128)%Z then next_elem_size_cdp128 buf
  else if CONFIG_BT_MESH_COMP_PAGE_1 cfg && (page =? 129)%Z
  then next_elem_size_cdp129 buf
  else if CONFIG_BT_MESH_COMP_PAGE_2 cfg && (page =? 130)%Z
  then next_elem_size_cdp130 buf
  else 0.

(** The [while] loop of [write_cdp_elems] and what follows it.  Every
    round removes at least one octet from [read_buf], so [fuel] at least
    its length is never used up. *)
Fixpoint write_cdp_elems_loop (cfg : Kconfig) (fuel : nat)
  (buf read_buf : net_buf_simple) (page : Z) : status * net_buf_simple :=
  let size := next_elem_size cfg read_buf page in
  match size, fuel with
  | S _, S fuel' =>
    if length (data read_buf) <? size then (Err EINVAL, buf)
    else if net_buf_simple_tailroom buf <? size then (Ok, buf)
    else
      let '(mem, read_buf) := net_buf_simple_pull_mem read_buf size in
      write_cdp_elems_loop cfg fuel' (net_buf_simple_add_mem buf mem)
        read_buf page
  | _, _ =>
    if negb (length (data read_buf) =? 0) then (Err EINVAL, buf)
    else (Ok, buf)
  end.

Definition write_cdp_elems (cfg : Kconfig) (buf read_buf : net_buf_simple)
  (page : Z) : status * net_buf_simple :=
  if (page =? 128)%Z then
    if length (data read_buf) <? 10 then (Err EINVAL, buf)
    else
      let '(mem, read_buf) := net_buf_simple_pull_mem read_buf 10 in
      write_cdp_elems_loop cfg (length (data read_buf))
        (net_buf_simple_add_mem buf mem) read_buf page
  else
    write_cdp_elems_loop cfg (length (data read_buf)) buf read_buf page.

Definition stored_page_read_cb (value : list Z) (buf : net_buf_simple)
  : net_buf_simple :=
  if net_buf_simple_tailroom buf <? length value then buf
  else net_buf_simple_add_mem buf value.

Definition stored_page_read (cfg : Kconfig) (st : access_state)
  (buf : net_buf_simple) (type : page_type) (page : Z) (offset : nat)
  (allow_partial_elems : bool) : status * net_buf_simple :=
  let read_buf := NET_BUF_SIMPLE (CONFIG_BT_MESH_COMP_PST_BUF_SIZE cfg) in
  if negb (CONFIG_BT_SETTINGS cfg) then (Err ENOTSUP, buf)
  else if negb allow_partial_elems &&
          (negb (bool_decide (type = PAGE_TYPE_COMP)) || negb (offset =? 0))
  then (Err EINVAL, buf)
  else
    match stored_page_path cfg type page with
    | None => (Err ENOENT, buf)
    | Some path =>
      match settings_load_subtree_direct (settings st) path
              stored_page_read_cb read_buf with
      | (Err e, _) => (Err e, buf)
      | (Ok, read_buf) =>
        if length (data read_buf) =? 0 then (Err ENOENT, buf)
        else if bool_decide (data read_buf = [0%Z]) then (Ok, buf)
        else if length (data read_buf) <? offset then (Ok, buf)
        else if negb allow_partial_elems
        then write_cdp_elems cfg buf read_buf page
        else
          let len :=
            min (net_buf_simple_tailroom buf)
              (length (data read_buf) - offset) in
          (Ok, net_buf_simple_add_mem buf
                 (take len (drop offset (data read_buf))))
      end
    end.

Definition stored_page_size_cb (value : list Z) (size : nat) : nat :=
  if 0 <? length value then length value else size.

Definition stored_page_size_get (cfg : Kconfig) (st : access_state)
  (type : page_type) (page : Z) : nat :=
  let size := 0 in
  match stored_page_path cfg type page with
  | None => 0
  | Some path =>
    match settings_load_subtree_direct (settings st) path
            stored_page_size_cb size with
    | (Err _, _) => 0
    | (Ok, size) => size
    end
  end.

Definition page_size_get (cfg : Kconfig) (st : access_state)
  (type : page_type) (page : Z) : nat :=
  if CONFIG_BT_MESH_HIGH_DATA_PAGES cfg then
    let stored :=
      if CONFIG_BT_SETTINGS cfg && (128 <=? page)%Z
      then Some (stored_page_size_get cfg st type page) else None in
    match stored with
    | Some 1 => 0
    | Some (S (S n)) => S (S n)
    | _ => current_page_size cfg st type (page mod 128)%Z
    end
  else current_page_size cfg st type page.

Definition get_page_contents (cfg : Kconfig) (st : access_state)
  (buf : net_buf_simple) (type : page_type) (page : Z) (offset : nat)
  (allow_partial_elems : bool) : status * net_buf_simple :=
  if CONFIG_BT_MESH_HIGH_DATA_PAGES cfg then
    let stored :=
      if CONFIG_BT_SETTINGS cfg && (128 <=? page)%Z
      then Some (stored_page_read cfg st buf type page offset
                   allow_partial_elems)
      else None in
    match stored with
    | Some (Ok, buf') => (Ok, buf')
    | Some (Err e, buf') =>
      if bool_decide (e = ENOENT)
      then current_page_contents cfg st buf type (page mod 128)%Z offset
             allow_partial_elems
      else (Err e, buf')
    | None =>
      current_page_contents cfg st buf type (page mod 128)%Z offset
        allow_partial_elems
    end
  else current_page_contents cfg st buf type page offset allow_partial_elems.

Definition bt_mesh_comp_page_size (cfg : Kconfig) (st : access_state)
  (page : Z) : nat :=
  page_size_get cfg st PAGE_TYPE_COMP page.


Definition bt_mesh_comp_128_changed (cfg : Kconfig) (st : access_state)
  : bool :=
  if CONFIG_BT_MESH_HIGH_DATA_PAGES cfg && CONFIG_BT_SETTINGS cfg
  then negb (stored_page_size_get cfg st PAGE_TYPE_COMP 128 =? 0)
  else false.

Definition bt_mesh_elem_count (st : access_state) : Z :=
  u8 (Z.of_nat (elem_count (dev_comp st))).

(** The [while] loop of [bt_mesh_comp_128_elem_count] and what follows
    it; [fuel] as in [write_cdp_elems_loop]. *)
Fixpoint comp_128_elem_count_loop (fuel : nat) (buf : net_buf_simple)
  (elem_count : Z) : Z :=
  let size := next_elem_size_cdp128 buf in
  match size, fuel with
  | S _, S fuel' =>
    if length (data buf) <? size then 0%Z
    else
      comp_128_elem_count_loop fuel' (net_buf_simple_pull buf size)
        (u8 (elem_count + 1))
  | _, _ =>
    if negb (length (data buf) =? 0) then 0%Z else elem_count
  end.

Definition bt_mesh_comp_128_elem_count (cfg : Kconfig) (st : access_state)
  : Z :=
  if CONFIG_BT_MESH_HIGH_DATA_PAGES cfg then
    if CONFIG_BT_SETTINGS cfg then
      let buf := NET_BUF_SIMPLE (CONFIG_BT_MESH_COMP_PST_BUF_SIZE cfg) in
      let elem_count := 0%Z in
      let path :=
        default ""%string (stored_page_path cfg PAGE_TYPE_COMP 128) in
      match settings_load_subtree_direct (settings st) path
              stored_page_read_cb buf with
      | (Err _, _) => 0%Z
      | (Ok, buf) =>
        if length (data buf) =? 0 then bt_mesh_elem_count st
        else comp_128_elem_count_loop (length (data buf)) buf elem_count
      end
    else bt_mesh_elem_count st
  else 0%Z.

Definition bt_mesh_comp_data_get_elems (cfg : Kconfig) (st : access_state)
  (buf : net_buf_simple) (page : Z) : status * net_buf_simple :=
  get_page_contents cfg st buf PAGE_TYPE_COMP page 0 false.

Definition bt_mesh_comp_data_get_page (cfg : Kconfig) (st : access_state)
  (buf : net_buf_simple) (page : Z) (offset : nat)
  : status * net_buf_simple :=
  if CONFIG_BT_MESH_LARGE_COMP_DATA_SRV cfg
  then get_page_contents cfg st buf PAGE_TYPE_COMP page offset true
  else (Err EINVAL, buf).

Definition bt_mesh_comp_data_set (cfg : Kconfig) (st : access_state)
  (page : Z) (data : list Z) : option (status * access_state) :=
  if CONFIG_BT_MESH_HIGH_DATA_PAGES cfg && CONFIG_BT_SETTINGS cfg
  then stored_page_write cfg st PAGE_TYPE_COMP page data
  else Some (Err ENOTSUP, st).

Definition bt_mesh_models_metadata_set (cfg : Kconfig) (st : access_state)
  (page : Z) (data : list Z) : option (status * access_state) :=
  if CONFIG_BT_MESH_HIGH_DATA_PAGES cfg && CONFIG_BT_SETTINGS cfg
  then stored_page_write cfg st PAGE_TYPE_METADATA page data
  else Some (Err ENOTSUP, st).

(** ** Relation graph *)

Definition set_dev_comp (st : access_state) (comp : bt_mesh_comp)
  : access_state :=
  {| dev_comp := comp; dev_comp2 := dev_comp2 st;
     dev_primary_addr := dev_primary_addr st; msg_cb := msg_cb st;
     mod_rel_list := mod_rel_list st; settings := settings st |}.

Definition set_mod_rel_list (st : access_state) (l : list mod_relation)
  : access_state :=
  {| dev_comp := dev_comp st; dev_comp2 := dev_comp2 st;
     dev_primary_addr := dev_primary_addr st; msg_cb := msg_cb st;
     mod_rel_list := l; settings := settings st |}.

Definition set_rt (m : bt_mesh_model) (r : bt_mesh_model_rt_ctx)
  : bt_mesh_model :=
  {| id := id m; vnd_company := vnd_company m; vnd_id := vnd_id m;
     op := op m; keys := keys m; groups := groups m; uuids := uuids m;
     pub := pub m; metadata := metadata m; rt := r |}.

(** A store through a model pointer. *)
Definition update_model (comp : bt_mesh_comp) (m : mref)
  (f : bt_mesh_model → bt_mesh_model) : bt_mesh_comp :=
  {| cid := cid comp; pid := pid comp; vid := vid comp;
     elem :=
       alter
         (λ e : bt_mesh_elem,
            if mr_vnd m then
              {| loc := loc e; addr := addr e; models := models e;
                 vnd_models := alter f (mr_idx m) (vnd_models e) |}
            else
              {| loc := loc e; addr := addr e;
                 models := alter f (mr_idx m) (models e);
                 vnd_models := vnd_models e |})
         (mr_elem m) (elem comp) |}.

Definition set_next (comp : bt_mesh_comp) (m : mref) (n : option mref)
  : bt_mesh_comp :=
  update_model comp m
    (λ x, set_rt x {| elem_idx := elem_idx (rt x); mod_idx := mod_idx (rt x);
                      flags := flags (rt x); next := n |}).

Definition set_flags (comp : bt_mesh_comp) (m : mref) (f : Z → Z)
  : bt_mesh_comp :=
  update_model comp m
    (λ x, set_rt x {| elem_idx := elem_idx (rt x); mod_idx := mod_idx (rt x);
                      flags := f (flags (rt x)); next := next (rt x) |}).

(** Modelled from the spec: the EXTENDED status flag of a model; the bit
    is declared in access.h. *)
Definition BT_MESH_MOD_EXTENDED : Z := BIT 3.

Definition bt_mesh_model_elem (comp : bt_mesh_comp) (m : bt_mesh_model)
  : bt_mesh_elem :=
  elem_at comp (Z.to_nat (elem_idx (rt m))).

(** [get_sig_offset]: [&elem->vnd_models[i] == mod] compares the pointer
    with the [i]-th vendor model of the element named by
    [mod->rt->elem_idx]. *)
Definition get_sig_offset (comp : bt_mesh_comp) (m : mref) : Z :=
  let e_idx := Z.to_nat (elem_idx (rt (model_at comp m))) in
  let elem := elem_at comp e_idx in
  if existsb
       (λ i, bool_decide
               ({| mr_elem := e_idx; mr_vnd := true; mr_idx := i |} = m))
       (seq 0 (vnd_model_count elem))
  then u8 (Z.of_nat (model_count elem))
  else 0%Z.

(** The slot search of [mod_rel_register]: the table with the record
    copied into the first unused slot, or [None] when there is none. *)
Fixpoint mod_rel_list_put (l : list mod_relation) (r : mod_relation)
  : option (list mod_relation) :=
  match l with
  | [] => None
  | x :: l' =>
    if rel_unused x then Some (r :: l')
    else cons x <$> mod_rel_list_put l' r
  end.

(** The record [mod_rel_register] builds: [struct mod_relation
    extension = { ... }], each field converted to [uint8_t]. *)
Definition extension_record (comp : bt_mesh_comp) (base ext : mref)
  (type : Z) : mod_relation :=
  {| elem_base := u8 (elem_idx (rt (model_at comp base)));
     idx_base :=
       u8 (mod_idx (rt (model_at comp base)) + get_sig_offset comp base);
     elem_ext := u8 (elem_idx (rt (model_at comp ext)));
     idx_ext :=
       u8 (mod_idx (rt (model_at comp ext)) + get_sig_offset comp ext);
     type := u8 type |}.

Definition mod_rel_register (st : access_state) (base ext : mref)
  (type : Z) : status * access_state :=
  let extension := extension_record (dev_comp st) base ext type in
  match mod_rel_list_put (mod_rel_list st) extension with
  | Some l => (Ok, set_mod_rel_list st l)
  | None => (Err ENOMEM, st)
  end.

(** The membership loop of [bt_mesh_model_extend]:
    [for (it = a; it != NULL && it->rt->next != a; it = it->rt->next)]
    with [if (it == b) goto register_extension] as its body.  [Some true]
    is the jump; [None] is a loop that has not ended within [fuel]
    rounds. *)
Fixpoint extend_list_contains (fuel : nat) (comp : bt_mesh_comp)
  (a b : mref) (it : option mref) : option bool :=
  match fuel with
  | 0 => None
  | S fuel' =>
    match it with
    | None => Some false
    | Some i =>
      if bool_decide (next (rt (model_at comp i)) = Some a) then Some false
      else if bool_decide (i = b) then Some true
      else extend_list_contains fuel' comp a b (next (rt (model_at comp i)))
    end
  end.

Definition bt_mesh_model_extend (cfg : Kconfig) (fuel : nat)
  (st : access_state) (extending_mod base_mod : mref)
  : option (status * access_state) :=
  let a := extending_mod in
  let b := base_mod in
  let a_next := next (rt (model_at (dev_comp st) a)) in
  let b_next := next (rt (model_at (dev_comp st) b)) in
  let comp :=
    set_flags (dev_comp st) base_mod (λ f, Z.lor f BT_MESH_MOD_EXTENDED) in
  let register_extension (comp : bt_mesh_comp) :=
    let st := set_dev_comp st comp in
    if 0 <? length (mod_rel_list st)
    then mod_rel_register st base_mod extending_mod RELATION_TYPE_EXT
    else if CONFIG_BT_MESH_COMP_PAGE_1 cfg then (Err ENOMEM, st)
    else (Ok, st) in
  if bool_decide (a = b) then Some (Ok, set_dev_comp st comp)
  else
    match extend_list_contains fuel comp a b (Some a) with
    | None => None
    | Some true => Some (register_extension comp)
    | Some false =>
      let comp :=
        match a_next with
        | Some n => set_next comp b (Some n)
        | None => set_next comp b (Some a)
        end in
      let comp :=
        match b_next with
        | Some n => set_next comp a (Some n)
        | None => set_next comp a (Some b)
        end in
      Some (register_extension comp)
    end.

(** The scan of [bt_mesh_model_correspond]; it ends in the
    [mod_rel_register] call the function returns from. *)
Fixpoint correspond_scan (st : access_state) (l : list mod_relation)
  (corresponding_mod base_mod : mref) (base_offset corresponding_offset : Z)
  (cor_id : Z) : status * access_state :=
  match l with
  | [] => mod_rel_register st base_mod corresponding_mod cor_id
  | r :: l' =>
    let cor_id :=
      if (type r <? RELATION_TYPE_EXT)%Z && (type r >? cor_id)%Z
      then type r else cor_id in
    let b := model_at (dev_comp st) base_mod in
    let c := model_at (dev_comp st) corresponding_mod in
    if (IS_MOD_BASE b r base_offset || IS_MOD_EXTENSION b r base_offset
        || IS_MOD_BASE c r corresponding_offset
        || IS_MOD_EXTENSION c r corresponding_offset)
       && (type r <? RELATION_TYPE_EXT)%Z
    then mod_rel_register st base_mod corresponding_mod (type r)
    else
      correspond_scan st l' corresponding_mod base_mod base_offset
        corresponding_offset cor_id
  end.

Definition bt_mesh_model_correspond (st : access_state)
  (corresponding_mod base_mod : mref) : status * access_state :=
  let cor_id := 0%Z in
  if length (mod_rel_list st) =? 0 then (Err ENOTSUP, st)
  else
    let base_offset := get_sig_offset (dev_comp st) base_mod in
    let corresponding_offset :=
      get_sig_offset (dev_comp st) corresponding_mod in
    correspond_scan st (MOD_REL_LIST_FOR_EACH (mod_rel_list st))
      corresponding_mod base_mod base_offset corresponding_offset cor_id.

Definition bt_mesh_model_is_extended (comp : bt_mesh_comp) (m : mref)
  : bool :=
  negb (Z.land (flags (rt (model_at comp m))) BT_MESH_MOD_EXTENDED =? 0)%Z.

(** ** Addresses, keys and opcode lengths *)

Definition BT_MESH_ADDR_UNASSIGNED : Z := 0x0000.

(** Modelled from the spec: the address classes of the Mesh address
    space (unicast 0x0001..0x7FFF, virtual 0x8000..0xBFFF, group
    0xC000..0xFEFF, fixed group 0xFF00..0xFFFE); the macros are declared
    in the public mesh header. *)
Definition BT_MESH_ADDR_IS_UNICAST (addr : Z) : bool :=
  negb (addr =? 0)%Z && (addr <? 0x8000)%Z.
Definition BT_MESH_ADDR_IS_GROUP (addr : Z) : bool :=
  (0xc000 <=? addr)%Z && (addr <? 0xff00)%Z.
Definition BT_MESH_ADDR_IS_FIXED_GROUP (addr : Z) : bool :=
  (0xff00 <=? addr)%Z && (addr <? 0xffff)%Z.
Definition BT_MESH_ADDR_IS_VIRTUAL (addr : Z) : bool :=
  (0x8000 <=? addr)%Z && (addr <? 0xc000)%Z.

(** Modelled from the spec: the key index sentinels ([UNUSED], the
    device-key wildcard and the two device keys); declared in the public
    mesh header. *)
Definition BT_MESH_KEY_UNUSED : Z := 0xffff.
Definition BT_MESH_KEY_DEV_ANY : Z := 0xfffc.
Definition BT_MESH_KEY_DEV_REMOTE : Z := 0xfffd.
Definition BT_MESH_KEY_DEV_LOCAL : Z := 0xfffe.
Definition BT_MESH_IS_DEV_KEY (key : Z) : bool :=
  (key =? BT_MESH_KEY_DEV_LOCAL)%Z || (key =? BT_MESH_KEY_DEV_REMOTE)%Z.

(** Modelled from the spec: the number of octets of an opcode (1, 2 or
    3); [BT_MESH_MODEL_OP_LEN] is declared in the public mesh header. *)
Definition BT_MESH_MODEL_OP_LEN (op : Z) : nat :=
  if (op <=? 0xff)%Z then 1 else if (op <=? 0xffff)%Z then 2 else 3.

(** ** Dispatch *)

(** Modelled from the spec: the access status set of section 7. *)
Inductive access_status : Set :=
  | ACCESS_STATUS_SUCCESS
  | ACCESS_STATUS_INVALID_ADDRESS
  | ACCESS_STATUS_WRONG_KEY
  | ACCESS_STATUS_WRONG_OPCODE
  | ACCESS_STATUS_MESSAGE_NOT_UNDERSTOOD.

Global Instance access_status_eq_dec : EqDecision access_status.
Proof. solve_decision. Defined.

Record bt_mesh_msg_ctx : Set := {
  net_idx : Z;
  app_idx : Z;
  ctx_addr : Z;
  recv_dst : Z;
  uuid : option nat;
  rnd_delay : bool;
}.

(** What the application supplies: the handlers of the opcode tables
    and the raw-message callback, acting on the application's own state
    [W].  [run_handler f model ctx buf] is the call
    [op->func(model, ctx, buf)] with its [int] result; the handlers leave
    the composition, the context and the octets of the buffer as they
    are. *)
Record app_env (W : Type) : Type := {
  run_handler : nat → mref → bt_mesh_msg_ctx → net_buf_simple → W → W * Z;
  run_msg_cb : nat → Z → bt_mesh_msg_ctx → net_buf_simple → W → W;
}.

Arguments run_handler {W}.
Arguments run_msg_cb {W}.

Inductive bt_mesh_walk : Set :=
  | BT_MESH_WALK_STOP
  | BT_MESH_WALK_CONTINUE.

(** The [for] loop of [bt_mesh_model_extensions_walk].  [None]: the
    loop has not ended within [fuel] rounds, or it ran into a [NULL]
    link. *)
Fixpoint extensions_walk_loop {S : Type} (fuel : nat) (comp : bt_mesh_comp)
  (model : mref) (cb : mref → S → bt_mesh_walk * S) (user_data : S)
  (it : option mref) : option S :=
  match fuel with
  | 0 => None
  | S fuel' =>
    match it with
    | None => None
    | Some i =>
      if bool_decide (i = model) then Some user_data
      else
        match cb i user_data with
        | (BT_MESH_WALK_STOP, user_data) => Some user_data
        | (BT_MESH_WALK_CONTINUE, user_data) =>
          extensions_walk_loop fuel' comp model cb user_data
            (next (rt (model_at comp i)))
        end
    end
  end.

Definition bt_mesh_model_extensions_walk {S : Type} (cfg : Kconfig)
  (fuel : nat) (comp : bt_mesh_comp) (model : mref)
  (cb : mref → S → bt_mesh_walk * S) (user_data : S) : option S :=
  if negb (CONFIG_BT_MESH_MODEL_EXTENSIONS cfg)
  then Some (snd (cb model user_data))
  else
    match cb model user_data with
    | (BT_MESH_WALK_STOP, user_data) => Some user_data
    | (BT_MESH_WALK_CONTINUE, user_data) =>
      match next (rt (model_at comp model)) with
      | None => Some user_data
      | Some n =>
        extensions_walk_loop fuel comp model cb user_data (Some n)
      end
    end.

(** [model_group_get]: the index of the first slot holding [addr]. *)
Fixpoint model_group_get_loop (l : list Z) (addr : Z) (i : nat)
  : option nat :=
  match l with
  | [] => None
  | g :: l' =>
    if (g =? addr)%Z then Some i else model_group_get_loop l' addr (S i)
  end.

Definition model_group_get (m : bt_mesh_model) (addr : Z) : option nat :=
  model_group_get_loop (groups m) addr 0.

Record find_group_visitor_ctx : Set := {
  fg_entry : option nat;
  fg_mod : mref;
  fg_addr : Z;
}.

Definition find_group_mod_visitor (comp : bt_mesh_comp) (m : mref)
  (ctx : find_group_visitor_ctx) : bt_mesh_walk * find_group_visitor_ctx :=
  if negb (elem_idx (rt (model_at comp m))
           =? elem_idx (rt (model_at comp (fg_mod ctx))))%Z
  then (BT_MESH_WALK_CONTINUE, ctx)
  else
    let entry := model_group_get (model_at comp m) (fg_addr ctx) in
    match entry with
    | Some _ =>
      (BT_MESH_WALK_STOP,
       {| fg_entry := entry; fg_mod := m; fg_addr := fg_addr ctx |})
    | None =>
      (BT_MESH_WALK_CONTINUE,
       {| fg_entry := entry; fg_mod := fg_mod ctx; fg_addr := fg_addr ctx |})
    end.

(** [bt_mesh_model_find_group]: the model it leaves in [*mod] and the
    entry it returns. *)
Definition bt_mesh_model_find_group (cfg : Kconfig) (fuel : nat)
  (comp : bt_mesh_comp) (m : mref) (addr : Z) : option (mref * option nat) :=
  let ctx := {| fg_entry := None; fg_mod := m; fg_addr := addr |} in
  ctx ← bt_mesh_model_extensions_walk cfg fuel comp m
          (find_group_mod_visitor comp) ctx;
  Some (fg_mod ctx, fg_entry ctx).

(** [model_uuid_get]: the index of the slot found. *)
Fixpoint model_uuid_get_loop (m : bt_mesh_model) (l : list (option nat))
  (uuid : option nat) (i : nat) : option nat :=
  match l with
  | [] => None
  | u :: l' =>
    if bool_decide (u = uuid) then
      if bool_decide (uuid = None)
         && negb (bool_decide
                    (is_Some (model_group_get m BT_MESH_ADDR_UNASSIGNED)))
      then model_uuid_get_loop m l' uuid (S i)
      else Some i
    else model_uuid_get_loop m l' uuid (S i)
  end.

Definition model_uuid_get (cfg : Kconfig) (m : bt_mesh_model)
  (uuid : option nat) : option nat :=
  model_uuid_get_loop m (take (CONFIG_BT_MESH_LABEL_COUNT cfg) (uuids m))
    uuid 0.

Record find_uuid_visitor_ctx : Set := {
  fu_entry : option nat;
  fu_mod : mref;
  fu_uuid : option nat;
}.

Definition find_uuid_mod_visitor (cfg : Kconfig) (comp : bt_mesh_comp)
  (m : mref) (ctx : find_uuid_visitor_ctx)
  : bt_mesh_walk * find_uuid_visitor_ctx :=
  if negb (elem_idx (rt (model_at comp m))
           =? elem_idx (rt (model_at comp (fu_mod ctx))))%Z
  then (BT_MESH_WALK_CONTINUE, ctx)
  else
    let entry := model_uuid_get cfg (model_at comp m) (fu_uuid ctx) in
    match entry with
    | Some _ =>
      (BT_MESH_WALK_STOP,
       {| fu_entry := entry; fu_mod := m; fu_uuid := fu_uuid ctx |})
    | None =>
      (BT_MESH_WALK_CONTINUE,
       {| fu_entry := entry; fu_mod := fu_mod ctx; fu_uuid := fu_uuid ctx |})
    end.

Definition bt_mesh_model_find_uuid (cfg : Kconfig) (fuel : nat)
  (comp : bt_mesh_comp) (m : mref) (uuid : option nat)
  : option (mref * option nat) :=
  if 0 <? CONFIG_BT_MESH_LABEL_COUNT cfg then
    let ctx := {| fu_entry := None; fu_mod := m; fu_uuid := uuid |} in
    ctx ← bt_mesh_model_extensions_walk cfg fuel comp m
            (find_uuid_mod_visitor cfg comp) ctx;
    Some (fu_mod ctx, fu_entry ctx)
  else Some (m, None).

Definition bt_mesh_model_has_key (m : bt_mesh_model) (key : Z) : bool :=
  existsb
    (λ k, (k =? key)%Z
          || ((k =? BT_MESH_KEY_DEV_ANY)%Z && BT_MESH_IS_DEV_KEY key))
    (keys m).

Definition model_has_dst (cfg : Kconfig) (fuel : nat) (comp : bt_mesh_comp)
  (m : mref) (dst : Z) (uuid : option nat) : option bool :=
  let e_idx := elem_idx (rt (model_at comp m)) in
  if BT_MESH_ADDR_IS_UNICAST dst then
    Some (addr (elem_at comp (Z.to_nat e_idx)) =? dst)%Z
  else if BT_MESH_ADDR_IS_VIRTUAL dst then
    r ← bt_mesh_model_find_uuid cfg fuel comp m uuid;
    Some (bool_decide (is_Some (snd r)))
  else if BT_MESH_ADDR_IS_GROUP dst
          || (BT_MESH_ADDR_IS_FIXED_GROUP dst && negb (e_idx =? 0)%Z)
  then
    r ← bt_mesh_model_find_group cfg fuel comp m dst;
    Some (bool_decide (is_Some (snd r)))
  else Some (e_idx =? 0)%Z.

Fixpoint find_op_in_table (l : list bt_mesh_model_op) (code : Z)
  : option bt_mesh_model_op :=
  match l with
  | [] => None
  | o :: l' =>
    if (opcode o =? code)%Z then Some o else find_op_in_table l' code
  end.

(** The model loop of [find_op]; [i] is the index of the head of [l]. *)
Fixpoint find_op_loop (cfg : Kconfig) (l : list bt_mesh_model)
  (opcode : Z) (cid : option Z) (i : nat)
  : option (bt_mesh_model_op * nat) :=
  match l with
  | [] => None
  | m :: l' =>
    if CONFIG_BT_MESH_MODEL_VND_MSG_CID_FORCE cfg
       && match cid with
          | Some c => negb (c =? vnd_company m)%Z
          | None => false
          end
    then find_op_loop cfg l' opcode cid (S i)
    else
      match find_op_in_table (op m) opcode with
      | Some o => Some (o, i)
      | None => find_op_loop cfg l' opcode cid (S i)
      end
  end.

(** [find_op]: the entry found and the pointer left in [*model].  The
    company id is [None] for [UINT32_MAX]. *)
Definition find_op (cfg : Kconfig) (elem : bt_mesh_elem) (e_idx : nat)
  (opcode : Z) : option (bt_mesh_model_op * mref) :=
  if BT_MESH_MODEL_OP_LEN opcode <? 3 then
    '(o, i) ← find_op_loop cfg (models elem) opcode None 0;
    Some (o, {| mr_elem := e_idx; mr_vnd := false; mr_idx := i |})
  else
    let cid := u16 (Z.land opcode 0xffff) in
    '(o, i) ← find_op_loop cfg (vnd_models elem) opcode (Some cid) 0;
    Some (o, {| mr_elem := e_idx; mr_vnd := true; mr_idx := i |}).

Definition set_rnd_delay (ctx : bt_mesh_msg_ctx) (b : bool)
  : bt_mesh_msg_ctx :=
  {| net_idx := net_idx ctx; app_idx := app_idx ctx;
     ctx_addr := ctx_addr ctx; recv_dst := recv_dst ctx; uuid := uuid ctx;
     rnd_delay := b |}.

(** [element_model_recv] for the element [&dev_comp->elem[e_idx]]: the
    status, the context as the function leaves it and the application
    state after the handler. *)
Definition element_model_recv {W : Type} (cfg : Kconfig) (env : app_env W)
  (fuel : nat) (st : access_state) (ctx : bt_mesh_msg_ctx)
  (buf : net_buf_simple) (e_idx : nat) (opcode : Z) (w : W)
  : option (access_status * bt_mesh_msg_ctx * W) :=
  let comp := dev_comp st in
  let elem := elem_at comp e_idx in
  match find_op cfg elem e_idx opcode with
  | None => Some (ACCESS_STATUS_WRONG_OPCODE, ctx, w)
  | Some (o, model) =>
    if negb (bt_mesh_model_has_key (model_at comp model) (app_idx ctx))
    then Some (ACCESS_STATUS_WRONG_KEY, ctx, w)
    else
      has_dst ← model_has_dst cfg fuel comp model (recv_dst ctx) (uuid ctx);
      if negb has_dst then Some (ACCESS_STATUS_INVALID_ADDRESS, ctx, w)
      else if (0 <=? len o)%Z
              && (Z.of_nat (length (data buf)) <? len o)%Z
      then Some (ACCESS_STATUS_MESSAGE_NOT_UNDERSTOOD, ctx, w)
      else if (len o <? 0)%Z
              && negb (Z.of_nat (length (data buf)) =? - len o)%Z
      then Some (ACCESS_STATUS_MESSAGE_NOT_UNDERSTOOD, ctx, w)
      else
        let ctx :=
          if CONFIG_BT_MESH_ACCESS_DELAYABLE_MSG_CTX_ENABLED cfg
          then set_rnd_delay ctx true else ctx in
        let '(w, err) := run_handler env (func o) model ctx buf w in
        if negb (err =? 0)%Z
        then Some (ACCESS_STATUS_MESSAGE_NOT_UNDERSTOOD, ctx, w)
        else Some (ACCESS_STATUS_SUCCESS, ctx, w)
  end.

(** The element loop of the non-unicast branch of [bt_mesh_model_recv];
    [index] is the index of the head of [elems]. *)
Fixpoint model_recv_all {W : Type} (cfg : Kconfig) (env : app_env W)
  (fuel : nat) (st : access_state) (ctx : bt_mesh_msg_ctx)
  (buf : net_buf_simple) (opcode : Z) (elems : list bt_mesh_elem)
  (index : nat) (err : access_status) (w : W)
  : option (access_status * bt_mesh_msg_ctx * W) :=
  match elems with
  | [] => Some (err, ctx, w)
  | _ :: elems' =>
    '(err_elem, ctx, w) ←
      element_model_recv cfg env fuel st ctx buf index opcode w;
    let err :=
      if bool_decide (err_elem = ACCESS_STATUS_SUCCESS) then err_elem
      else err in
    model_recv_all cfg env fuel st ctx buf opcode elems' (S index) err w
  end.

(** [if (IS_ENABLED(CONFIG_BT_MESH_ACCESS_LAYER_MSG) && msg_cb)
    msg_cb(opcode, ctx, buf);] *)
Definition msg_cb_call {W : Type} (cfg : Kconfig) (env : app_env W)
  (st : access_state) (opcode : Z) (ctx : bt_mesh_msg_ctx)
  (buf : net_buf_simple) (w : W) : W :=
  match msg_cb st with
  | Some cb =>
    if CONFIG_BT_MESH_ACCESS_LAYER_MSG cfg
    then run_msg_cb env cb opcode ctx buf w
    else w
  | None => w
  end.

(** [bt_mesh_model_recv]: the status returned and the application state
    it leaves. *)
Definition bt_mesh_model_recv {W : Type} (cfg : Kconfig) (env : app_env W)
  (fuel : nat) (st : access_state) (ctx : bt_mesh_msg_ctx)
  (buf : net_buf_simple) (w : W) : option (access_status * W) :=
  r ← get_opcode buf;
  match r with
  | inl _ => Some (ACCESS_STATUS_WRONG_OPCODE, w)
  | inr (opcode, buf) =>
    let comp := dev_comp st in
    dispatched ←
      (if BT_MESH_ADDR_IS_UNICAST (recv_dst ctx) then
         let index := u16 (recv_dst ctx - addr (elem_at comp 0)) in
         if (Z.of_nat (elem_count comp) <=? index)%Z
         then Some (inl ACCESS_STATUS_INVALID_ADDRESS)
         else
           inr <$> element_model_recv cfg env fuel st ctx buf
                     (Z.to_nat index) opcode w
       else
         inr <$> model_recv_all cfg env fuel st ctx buf opcode (elem comp) 0
                   ACCESS_STATUS_MESSAGE_NOT_UNDERSTOOD w);
    match dispatched with
    | inl err => Some (err, w)
    | inr (err, ctx, w) => Some (err, msg_cb_call cfg env st opcode ctx buf w)
    end
  end.

(** ** Publication *)

(** Modelled from the spec: the retransmit octet of section 3 (count in
    the 3 low bits, interval steps in the 5 high bits, total
    transmissions [1 + count]); the macros are declared in the public
    mesh header. *)
Definition BT_MESH_PUB_TRANSMIT_COUNT (transmit : Z) : Z :=
  Z.land transmit 7.
Definition BT_MESH_PUB_TRANSMIT_INT (transmit : Z) : Z :=
  ((Z.shiftr transmit 3 + 1) * 50)%Z.
Definition BT_MESH_PUB_MSG_TOTAL (pub : bt_mesh_model_pub) : Z :=
  (BT_MESH_PUB_TRANSMIT_COUNT (retransmit pub) + 1)%Z.

Definition RANDOM_DELAY_SHORT : Z := 30.
Definition RANDOM_DELAY_LONG : Z := 480.

(** What the kernel gives to one call: the uptime read by
    [k_uptime_get_32], the 16 bits [bt_rand] stores, and the value
    [k_work_reschedule] returns (negative when the work item could not
    be scheduled). *)
Record kernel_env : Set := {
  k_uptime_get_32 : Z;
  bt_rand_num : Z;
  k_work_reschedule_ret : Z;
}.

(** [timer] holds the delay in milliseconds after which the work item
    fires, counted from the call that scheduled it. *)
Definition set_timer (pub : bt_mesh_model_pub) (t : option Z)
  : bt_mesh_model_pub :=
  {| pub_addr := pub_addr pub; pub_key := pub_key pub; pub_ttl := pub_ttl pub;
     pub_cred := pub_cred pub; retransmit := retransmit pub;
     period := period pub; period_div := period_div pub;
     fast_period := fast_period pub; delayable := delayable pub;
     count := count pub; period_start := period_start pub;
     update := update pub; pub_msg := pub_msg pub; timer := t |}.

Definition set_count_start (pub : bt_mesh_model_pub) (c start : Z)
  : bt_mesh_model_pub :=
  {| pub_addr := pub_addr pub; pub_key := pub_key pub; pub_ttl := pub_ttl pub;
     pub_cred := pub_cred pub; retransmit := retransmit pub;
     period := period pub; period_div := period_div pub;
     fast_period := fast_period pub; delayable := delayable pub;
     count := c; period_start := start;
     update := update pub; pub_msg := pub_msg pub; timer := timer pub |}.

Definition k_work_reschedule (env : kernel_env) (pub : bt_mesh_model_pub)
  (delay : Z) : Z * bt_mesh_model_pub :=
  let ret := k_work_reschedule_ret env in
  (ret, if (ret <? 0)%Z then pub else set_timer pub (Some delay)).

Definition pub_delay_get (cfg : Kconfig) (env : kernel_env)
  (random_delay_window : Z) : Z :=
  if negb (CONFIG_BT_MESH_DELAYABLE_PUBLICATION cfg) then 0%Z
  else
    let num := u16 (bt_rand_num env) in
    u16 (20 + num mod random_delay_window).

(** [pub_delay_schedule]: [true] stands for the result 0, [false] for a
    negative one. *)
Definition pub_delay_schedule (cfg : Kconfig) (env : kernel_env)
  (pub : bt_mesh_model_pub) (delay : Z) : bool * bt_mesh_model_pub :=
  if negb (CONFIG_BT_MESH_DELAYABLE_PUBLICATION cfg) then (false, pub)
  else
    let random := pub_delay_get cfg env delay in
    let '(err, pub) := k_work_reschedule env pub random in
    if (err <? 0)%Z then (false, pub) else (true, pub).

Definition set_pub (m : bt_mesh_model) (p : option bt_mesh_model_pub)
  : bt_mesh_model :=
  {| id := id m; vnd_company := vnd_company m; vnd_id := vnd_id m;
     op := op m; keys := keys m; groups := groups m; uuids := uuids m;
     pub := p; metadata := metadata m; rt := rt m |}.

Definition bt_mesh_model_publish (cfg : Kconfig) (env : kernel_env)
  (st : access_state) (model : mref) : status * access_state :=
  match pub (model_at (dev_comp st) model) with
  | None => (Err ENOTSUP, st)
  | Some pub =>
    if (pub_addr pub =? BT_MESH_ADDR_UNASSIGNED)%Z
    then (Err EADDRNOTAVAIL, st)
    else
      match pub_msg pub with
      | None => (Err EINVAL, st)
      | Some msg =>
        if length (data msg) =? 0 then (Err EINVAL, st)
        else if BT_MESH_TX_SDU_MAX cfg
                <? length (data msg) + BT_MESH_MIC_SHORT
        then (Err EMSGSIZE, st)
        else
          let pub :=
            set_count_start pub (BT_MESH_PUB_MSG_TOTAL pub)
              (u32 (k_uptime_get_32 env)) in
          let '(delayed, pub_d) :=
            if delayable pub
            then pub_delay_schedule cfg env pub RANDOM_DELAY_LONG
            else (false, pub) in
          let pub :=
            if delayable pub && delayed then pub_d
            else snd (k_work_reschedule env pub_d 0) in
          (Ok,
           set_dev_comp st
             (update_model (dev_comp st) model (λ m, set_pub m (Some pub))))
      end
  end.

(** ** Stored page 128 as a sequence of elements

    The shape of a stored composition page as
    [bt_mesh_comp_128_elem_count] reads it: an element is a 2-octet
    location, NumS, NumV and then [2 * NumS + 4 * NumV] octets of model
    ids. *)

Definition cdp128_elem (e : list Z) : Prop :=
  ∃ l0 l1 ns nv ids,
    e = l0 :: l1 :: ns :: nv :: ids
    ∧ length ids = 2 * Z.to_nat ns + 4 * Z.to_nat nv.



(** ** Example nodes *)

(** Every option on; the relay feature only; a 100-octet persistence
    buffer. *)
Definition cfg_all : Kconfig :=
  {| CONFIG_BT_MESH_RELAY := true;
     CONFIG_BT_MESH_GATT_PROXY := false;
     CONFIG_BT_MESH_FRIEND := false;
     CONFIG_BT_MESH_LOW_POWER := false;
     CONFIG_BT_MESH_CRPL := 5;
     CONFIG_BT_MESH_COMP_PAGE_1 := true;
     CONFIG_BT_MESH_COMP_PAGE_2 := true;
     CONFIG_BT_MESH_LARGE_COMP_DATA_SRV := true;
     CONFIG_BT_MESH_HIGH_DATA_PAGES := true;
     CONFIG_BT_SETTINGS := true;
     CONFIG_BT_MESH_COMP_PST_BUF_SIZE := 100;
     CONFIG_BT_MESH_MODEL_EXTENSIONS := true;
     CONFIG_BT_MESH_MODEL_VND_MSG_CID_FORCE := false;
     CONFIG_BT_MESH_ACCESS_LAYER_MSG := true;
     CONFIG_BT_MESH_ACCESS_DELAYABLE_MSG_CTX_ENABLED := false;
     CONFIG_BT_MESH_DELAYABLE_PUBLICATION := true;
     CONFIG_BT_MESH_LABEL_COUNT := 1;
     BT_MESH_TX_SDU_MAX := 380 |}.

(** A SIG model as [mod_init] leaves it: no key bound, one empty group
    slot, one empty label slot, its position recorded in [rt]. *)
Definition sig_model (model_id e_idx m_idx : Z) : bt_mesh_model :=
  {| id := model_id; vnd_company := 0; vnd_id := 0; op := [];
     keys := [BT_MESH_KEY_UNUSED]; groups := [BT_MESH_ADDR_UNASSIGNED];
     uuids := [None]; pub := None; metadata := None;
     rt := {| elem_idx := e_idx; mod_idx := m_idx; flags := 0;
              next := None |} |}.

Definition store_with (recs : gmap string (list Z)) : settings_store :=
  {| records := recs; keep_empty := false; save_err := Ok; load_err := Ok |}.

(** One element with one SIG model 0x1000; CID 0x01AB, PID 2, VID 3;
    provisioned at address 1; nothing stored. *)
Definition node_one (recs : gmap string (list Z)) : access_state :=
  {| dev_comp :=
       {| cid := 0x01AB; pid := 0x0002; vid := 0x0003;
          elem := [ {| loc := 0x0102; addr := 1;
                       models := [sig_model 0x1000 0 0];
                       vnd_models := [] |} ] |};
     dev_comp2 := None; dev_primary_addr := 1; msg_cb := None;
     mod_rel_list := repeat mod_relation_zero 4;
     settings := store_with recs |}.

(** Page 0 of [node_one]. *)
Definition node_one_page0 : list Z :=
  [0xAB; 0x01; 0x02; 0x00; 0x03; 0x00; 0x05; 0x00; 0x01; 0x00;
   0x02; 0x01; 0x01; 0x00; 0x00; 0x10]%Z.

Definition sig_ref (e i : nat) : mref :=
  {| mr_elem := e; mr_vnd := false; mr_idx := i |}.

(** One element with four SIG models and an empty relation table of
    four slots. *)
Definition node_four_models : access_state :=
  {| dev_comp :=
       {| cid := 0x01AB; pid := 0x0002; vid := 0x0003;
          elem := [ {| loc := 0; addr := 1;
                       models := [sig_model 0x1000 0 0; sig_model 0x1001 0 1;
                                  sig_model 0x1002 0 2; sig_model 0x1003 0 3];
                       vnd_models := [] |} ] |};
     dev_comp2 := None; dev_primary_addr := 1; msg_cb := None;
     mod_rel_list := repeat mod_relation_zero 4;
     settings := store_with ∅ |}.

(** Four elements with one SIG model each and an empty relation table
    of four slots. *)
Definition node_four_elems : access_state :=
  {| dev_comp :=
       {| cid := 0x01AB; pid := 0x0002; vid := 0x0003;
          elem := [ {| loc := 0; addr := 1;
                       models := [sig_model 0x1000 0 0]; vnd_models := [] |};
                    {| loc := 0; addr := 2;
                       models := [sig_model 0x1001 1 0]; vnd_models := [] |};
                    {| loc := 0; addr := 3;
                       models := [sig_model 0x1002 2 0]; vnd_models := [] |};
                    {| loc := 0; addr := 4;
                       models := [sig_model 0x1003 3 0]; vnd_models := [] |} ]
       |};
     dev_comp2 := None; dev_primary_addr := 1; msg_cb := None;
     mod_rel_list := repeat mod_relation_zero 4;
     settings := store_with ∅ |}.

(** The state a call leaves, when it returns. *)
Definition state_after {A : Type} (st : access_state)
  (r : option (A * access_state)) : access_state :=
  match r with
  | Some (_, st') => st'
  | None => st
  end.

(** The largest correspondence id among the records of [l], starting
    from [acc]: the [cor_id] that the scan of
    [bt_mesh_model_correspond] keeps. *)
Definition max_cor_id (l : list mod_relation) (acc : Z) : Z :=
  fold_left
    (λ (acc : Z) (r : mod_relation),
       if (type r <? RELATION_TYPE_EXT)%Z && (type r >? acc)%Z then type r
       else acc)
    l acc.

(** A record that names the model as base or as extension. *)
Definition references (m : bt_mesh_model) (offset : Z) (r : mod_relation)
  : bool :=
  IS_MOD_BASE m r offset || IS_MOD_EXTENSION m r offset.

(** [node_four_elems] after the model of element 3 has extended the
    model of element 0. *)
Definition node_four_elems_extended : access_state :=
  state_after node_four_elems
    (bt_mesh_model_extend cfg_all 4 node_four_elems (sig_ref 3 0)
       (sig_ref 0 0)).

(** The model reached from [it] by following [k] links. *)
Fixpoint nth_next (comp : bt_mesh_comp) (k : nat) (it : option mref)
  : option mref :=
  match k with
  | 0 => it
  | S k' => nth_next comp k' (it ≫= λ i, next (rt (model_at comp i)))
  end.




(** One element with one SIG model that publishes, delayable, to the
    group 0xC000 with retransmit octet 0x2A (count 2, 5 interval steps)
    and a 3-octet message. *)
Definition node_pub : access_state :=
  {| dev_comp :=
       {| cid := 0x01AB; pid := 0x0002; vid := 0x0003;
          elem :=
            [ {| loc := 0; addr := 1;
                 models :=
                   [ set_pub (sig_model 0x1000 0 0)
                       (Some {| pub_addr := 0xC000; pub_key := 0;
                                pub_ttl := 7; pub_cred := false;
                                retransmit := 0x2A; period := 0x41;
                                period_div := 0; fast_period := false;
                                delayable := true; count := 0;
                                period_start := 0; update := None;
                                pub_msg :=
                                  Some {| data := [1; 2; 3]%Z; size := 10 |};
                                timer := None |}) ];
                 vnd_models := [] |} ] |};
     dev_comp2 := None; dev_primary_addr := 1; msg_cb := None;
     mod_rel_list := repeat mod_relation_zero 4;
     settings := store_with ∅ |}.

(** A pointer into the composition. *)
Definition valid_mref (comp : bt_mesh_comp) (m : mref) : Prop :=
  mr_elem m < length (elem comp)
  ∧ mr_idx m
    < length (if mr_vnd m then vnd_models (elem_at comp (mr_elem m))
              else models (elem_at comp (mr_elem m))).

(** What the kernel gives to a call of [publish] at uptime 1000 with
    the random number [num], when it schedules the work item. *)
Definition kernel_at (num : Z) : kernel_env :=
  {| k_uptime_get_32 := 1000; bt_rand_num := num;
     k_work_reschedule_ret := 0 |}.

(** The extension ring of [m] closes within [fuel] links: [m] is not
    linked, or following [next] from [m] comes back to [m]. *)
Definition ring_closed (fuel : nat) (comp : bt_mesh_comp) (m : mref)
  : Prop :=
  next (rt (model_at comp m)) = None
  ∨ ∃ k, k < fuel ∧ nth_next comp (S k) (Some m) = Some m.

(** The statuses of delivering a message to the elements [indices], one
    after the other, with the context and the application state the
    deliveries leave. *)
Fixpoint deliver_each {W : Type} (cfg : Kconfig) (env : app_env W)
  (fuel : nat) (st : access_state) (ctx : bt_mesh_msg_ctx)
  (buf : net_buf_simple) (opcode : Z) (indices : list nat) (w : W)
  : option (list access_status * bt_mesh_msg_ctx * W) :=
  match indices with
  | [] => Some ([], ctx, w)
  | i :: indices' =>
    '(s, ctx, w) ← element_model_recv cfg env fuel st ctx buf i opcode w;
    '(ss, ctx, w) ← deliver_each cfg env fuel st ctx buf opcode indices' w;
    Some (s :: ss, ctx, w)
  end.

(** An application that counts the calls of its raw-message callback;
    its handlers do nothing and succeed. *)
Definition counting_app : app_env nat :=
  {| run_handler := λ _ _ _ _ w, (w, 0%Z);
     run_msg_cb := λ _ _ _ _ w, S w |}.

(** [node_one] with a raw-message callback registered. *)
Definition node_one_cb : access_state :=
  {| dev_comp := dev_comp (node_one ∅); dev_comp2 := None;
     dev_primary_addr := 1; msg_cb := Some 0;
     mod_rel_list := repeat mod_relation_zero 4;
     settings := store_with ∅ |}.

(** A message context with application key 0 for the destination
    [dst]. *)
Definition ctx_to (dst : Z) : bt_mesh_msg_ctx :=
  {| net_idx := 0; app_idx := 0; ctx_addr := 0x0100; recv_dst := dst;
     uuid := None; rnd_delay := false |}.

(** Two elements: models 0x1000 and 0x1001 in the first, model 0x1002
    in the second. *)
Definition node_two_elems : access_state :=
  {| dev_comp :=
       {| cid := 0x01AB; pid := 0x0002; vid := 0x0003;
          elem := [ {| loc := 0; addr := 1;
                       models := [sig_model 0x1000 0 0; sig_model 0x1001 0 1];
                       vnd_models := [] |};
                    {| loc := 0; addr := 2;
                       models := [sig_model 0x1002 1 0]; vnd_models := [] |} ]
       |};
     dev_comp2 := None; dev_primary_addr := 1; msg_cb := None;
     mod_rel_list := repeat mod_relation_zero 4;
     settings := store_with ∅ |}.

(** [node_two_elems] after model 1 of element 0 has extended model 0 of
    element 0 and has been registered as corresponding to the model of
    element 1. *)
Definition node_extends_and_corresponds : access_state :=
  snd (bt_mesh_model_correspond
         (state_after node_two_elems
            (bt_mesh_model_extend cfg_all 4 node_two_elems (sig_ref 0 1)
               (sig_ref 0 0)))
         (sig_ref 0 1) (sig_ref 1 0)).

(** The octets one [get_page] call adds to an empty buffer with
    tailroom [B]. *)
Definition get_page_chunk (cfg : Kconfig) (st : access_state) (page : Z)
  (offset B : nat) : list Z :=
  data (snd (bt_mesh_comp_data_get_page cfg st (NET_BUF_SIMPLE B) page
               offset)).

(** The concatenation of [rounds] successive [get_page] calls, each
    starting where the one before stopped. *)
Fixpoint reassemble (cfg : Kconfig) (st : access_state) (page : Z)
  (B rounds offset : nat) : list Z :=
  match rounds with
  | 0 => []
  | S rounds' =>
    let chunk := get_page_chunk cfg st page offset B in
    chunk ++ reassemble cfg st page B rounds' (offset + length chunk)
  end.

(** ** Pages as octet lists

    What each page producer writes, as a plain list of octets, and the
    effect of offering a list of octets to a writer: the first [offset]
    octets are skipped and of the rest as many are appended as the
    tailroom takes. *)

Definition emit (w : writer) (bytes : list Z) : writer :=
  ({| data :=
        data (fst w)
        ++ take (net_buf_simple_tailroom (fst w)) (drop (snd w) bytes);
      size := size (fst w) |},
   snd w - length bytes).

Definition model_id_bytes (vnd : bool) (m : bt_mesh_model) : list Z :=
  if vnd then sys_put_le16 (vnd_company m) ++ sys_put_le16 (vnd_id m)
  else sys_put_le16 (id m).

Definition elem_bytes (e : bt_mesh_elem) : list Z :=
  sys_put_le16 (loc e)
  ++ [u8 (Z.of_nat (model_count e)); u8 (Z.of_nat (vnd_model_count e))]
  ++ concat (map (model_id_bytes false) (models e))
  ++ concat (map (model_id_bytes true) (vnd_models e)).

Definition page0_bytes (cfg : Kconfig) (comp : bt_mesh_comp) : list Z :=
  sys_put_le16 (cid comp) ++ sys_put_le16 (pid comp)
  ++ sys_put_le16 (vid comp) ++ sys_put_le16 (CONFIG_BT_MESH_CRPL cfg)
  ++ sys_put_le16 (comp_feat cfg)
  ++ concat (map elem_bytes (elem comp)).

Definition comp2_record_bytes (r : bt_mesh_comp2_record) : list Z :=
  sys_put_le16 (rec_id r)
  ++ [u8 (version_x r); u8 (version_y r); u8 (version_z r);
      u8 (Z.of_nat (elem_offset_cnt r))]
  ++ elem_offset r
  ++ sys_put_le16 (Z.of_nat (data_len r))
  ++ rec_data r.

Definition page2_bytes (comp2 : bt_mesh_comp2) : list Z :=
  concat (map comp2_record_bytes (record comp2)).

(** The header of a page 1 model item, with the correspondence id when
    there is one. *)
Definition model_item_header (rels : list mod_relation) (m : bt_mesh_model)
  (sig_offset : Z) : list Z :=
  let '(ext_mod_cnt, max_offset) := count_mod_ext rels m sig_offset in
  let mod_elem_info := u8 (Z.shiftl ext_mod_cnt 2) in
  let mod_elem_info :=
    if (ext_mod_cnt >? 31)%Z || (max_offset >? 3)%Z || (max_offset <? -4)%Z
    then Z.lor mod_elem_info (BIT 1) else mod_elem_info in
  match is_cor_present rels m sig_offset with
  | Some cor_id => [u8 (Z.lor mod_elem_info (BIT 0)); u8 cor_id]
  | None => [u8 mod_elem_info]
  end.

(** The entry of one relation record in the item of the model: empty
    unless the record is an extension of the model. *)
Definition model_item_entry (m : bt_mesh_model) (ext_mod_cnt sig_offset : Z)
  (r : mod_relation) : list Z :=
  if IS_MOD_EXTENSION m r sig_offset && (type r =? RELATION_TYPE_EXT)%Z
  then
    let elem_offset := (elem_idx (rt m) - elem_base r)%Z in
    if (ext_mod_cnt <? 32)%Z && (elem_offset <? 4)%Z && (elem_offset >? -5)%Z
    then
      [u8 (Z.lor (if (elem_offset <? 0)%Z then (elem_offset + 8)%Z
                  else elem_offset)
             (Z.shiftl (idx_base r) 3))]
    else
      [u8 (if (elem_offset <? 0)%Z then (elem_offset + 256)%Z
           else elem_offset);
       u8 (idx_base r)]
  else [].

Definition model_item_bytes (rels : list mod_relation) (sig_offset : Z)
  (m : bt_mesh_model) : list Z :=
  let ext_mod_cnt := fst (count_mod_ext rels m sig_offset) in
  model_item_header rels m sig_offset
  ++ (if (ext_mod_cnt =? 0)%Z then []
      else concat (map (model_item_entry m ext_mod_cnt sig_offset)
                     (MOD_REL_LIST_FOR_EACH rels))).

Definition page1_elem_bytes (rels : list mod_relation) (e : bt_mesh_elem)
  : list Z :=
  [u8 (Z.of_nat (model_count e)); u8 (Z.of_nat (vnd_model_count e))]
  ++ concat (map (model_item_bytes rels 0) (models e))
  ++ concat (map (model_item_bytes rels (Z.of_nat (model_count e)))
               (vnd_models e)).

Definition page1_bytes (st : access_state) : list Z :=
  concat (map (page1_elem_bytes (mod_rel_list st)) (elem (dev_comp st))).

(** The element sizes page 1 skips by agree with the octets it
    writes. *)
Definition page1_sizes_agree (st : access_state) : Prop :=
  Forall
    (λ e, page1_elem_size (mod_rel_list st) e
          = length (page1_elem_bytes (mod_rel_list st) e))
    (elem (dev_comp st)).



(** ** Page number of a Composition Data Get request *)

(** [net_buf_simple_pull_u8]: the leading octet, with the buffer
    advanced past it; an empty buffer has no leading octet. *)
Definition net_buf_simple_pull_u8 (buf : net_buf_simple)
  : option (Z * net_buf_simple) :=
  match data buf with
  | [] => None
  | b :: _ => Some (b, net_buf_simple_pull buf 1)
  end.

Definition bt_mesh_comp_parse_page (cfg : Kconfig) (buf : net_buf_simple)
  : option (Z * net_buf_simple) :=
  '(page, buf) ← net_buf_simple_pull_u8 buf;
  let high := CONFIG_BT_MESH_HIGH_DATA_PAGES cfg in
  Some
    (if high && CONFIG_BT_MESH_COMP_PAGE_2 cfg && (130 <=? page)%Z
     then 130%Z
     else if high && CONFIG_BT_MESH_COMP_PAGE_1 cfg && (129 <=? page)%Z
     then 129%Z
     else if high && (128 <=? page)%Z then 128%Z
     else if CONFIG_BT_MESH_COMP_PAGE_2 cfg && (2 <=? page)%Z then 2%Z
     else if CONFIG_BT_MESH_COMP_PAGE_1 cfg && (1 <=? page)%Z then 1%Z
     else 0%Z,
     buf).

(** A page that [get_page_contents] serves: its answer is not
    [-ENOENT]. *)
Definition page_served (cfg : Kconfig) (st : access_state) (page : Z)
  : Prop :=
  ∀ (buf : net_buf_simple) (offset : nat),
    fst (get_page_contents cfg st buf PAGE_TYPE_COMP page offset true)
    ≠ Err ENOENT.

Definition page_absent (cfg : Kconfig) (st : access_state) (page : Z)
  : Prop :=
  ∀ (buf : net_buf_simple) (offset : nat),
    fst (get_page_contents cfg st buf PAGE_TYPE_COMP page offset true)
    = Err ENOENT.

(** The pages below 128 that the build serves. *)
Definition low_page (cfg : Kconfig) (page : Z) : Prop :=
  page = 0%Z ∨ (CONFIG_BT_MESH_COMP_PAGE_1 cfg = true ∧ page = 1%Z)
  ∨ (CONFIG_BT_MESH_COMP_PAGE_2 cfg = true ∧ page = 2%Z).

(** ** Publication period *)

Definition i32 (z : Z) : Z :=
  let r := (z mod 4294967296)%Z in
  if (r <? 2147483648)%Z then r else (r - 4294967296)%Z.

Definition MSEC_PER_SEC : Z := 1000.

(** [BIT_MASK(n)] *)
Definition BIT_MASK (n : Z) : Z := (BIT n - 1)%Z.

(** [bt_mesh_model_pub_period_get]; the [default] branch of the switch
    is marked unreachable and has no result ([None]). *)
Definition bt_mesh_model_pub_period_get (m : bt_mesh_model) : option Z :=
  match pub m with
  | None => Some 0%Z
  | Some p =>
    let steps := Z.land (period p) (BIT_MASK 6) in
    period ←
      match Z.shiftr (period p) 6 with
      | 0%Z => Some (steps * 100)%Z
      | 1%Z => Some (steps * MSEC_PER_SEC)%Z
      | 2%Z => Some (steps * 10 * MSEC_PER_SEC)%Z
      | 3%Z => Some (steps * 600 * MSEC_PER_SEC)%Z
      | _ => None
      end;
    if fast_period p then
      if (period =? 0)%Z then Some 0%Z
      else Some (Z.max (Z.shiftr period (period_div p)) 100)
    else Some period
  end.

(** [next_period].  [BT_MESH_PUB_MSG_NUM] is a macro of the public mesh
    header; the function takes it as a parameter.  The publication
    context is dereferenced without a test, so a model without one has
    no result. *)
Definition next_period (env : kernel_env)
  (BT_MESH_PUB_MSG_NUM : bt_mesh_model_pub → Z) (m : bt_mesh_model)
  : option Z :=
  p ← pub m;
  let elapsed := u32 (k_uptime_get_32 env - period_start p) in
  let period :=
    if negb (count p =? 0)%Z
    then u32 (BT_MESH_PUB_TRANSMIT_INT (retransmit p)
              * BT_MESH_PUB_MSG_NUM p)
    else 0%Z in
  if negb (count p =? 0)%Z && negb (period =? 0)%Z && (period <=? elapsed)%Z
  then Some (BT_MESH_PUB_TRANSMIT_INT (retransmit p))
  else
    period' ←
      (if (period =? 0)%Z then u32 <$> bt_mesh_model_pub_period_get m
       else Some period);
    if (period =? 0)%Z && (period' =? 0)%Z then Some 0%Z
    else if (period' <=? elapsed)%Z then Some 1%Z
    else Some (i32 (period' - elapsed)).

(** ** Model lookup *)

Fixpoint bt_mesh_model_find_vnd_loop (l : list bt_mesh_model)
  (company model_id : Z) (i : nat) : option nat :=
  match l with
  | [] => None
  | m :: l' =>
    if (vnd_company m =? company)%Z && (vnd_id m =? model_id)%Z then Some i
    else bt_mesh_model_find_vnd_loop l' company model_id (S i)
  end.

(** [bt_mesh_model_find_vnd] for the element [&dev_comp->elem[e_idx]]. *)
Definition bt_mesh_model_find_vnd (elem : bt_mesh_elem) (e_idx : nat)
  (company model_id : Z) : option mref :=
  i ← bt_mesh_model_find_vnd_loop (vnd_models elem) company model_id 0;
  Some {| mr_elem := e_idx; mr_vnd := true; mr_idx := i |}.

Fixpoint bt_mesh_model_find_loop (l : list bt_mesh_model) (model_id : Z)
  (i : nat) : option nat :=
  match l with
  | [] => None
  | m :: l' =>
    if (id m =? model_id)%Z then Some i
    else bt_mesh_model_find_loop l' model_id (S i)
  end.

Definition bt_mesh_model_find (elem : bt_mesh_elem) (e_idx : nat)
  (model_id : Z) : option mref :=
  i ← bt_mesh_model_find_loop (models elem) model_id 0;
  Some {| mr_elem := e_idx; mr_vnd := false; mr_idx := i |}.

(** [bt_mesh_model_get]: [uint8_t] indices. *)
Definition bt_mesh_model_get (comp : bt_mesh_comp) (vnd : bool)
  (elem_idx mod_idx : Z) : option mref :=
  if (Z.of_nat (elem_count comp) <=? elem_idx)%Z then None
  else
    let elem := elem_at comp (Z.to_nat elem_idx) in
    if vnd then
      if (Z.of_nat (vnd_model_count elem) <=? mod_idx)%Z then None
      else Some {| mr_elem := Z.to_nat elem_idx; mr_vnd := true;
                   mr_idx := Z.to_nat mod_idx |}
    else
      if (Z.of_nat (model_count elem) <=? mod_idx)%Z then None
      else Some {| mr_elem := Z.to_nat elem_idx; mr_vnd := false;
                   mr_idx := Z.to_nat mod_idx |}.

(** ** Provisioning and element lookup *)

Definition set_addr (e : bt_mesh_elem) (a : Z) : bt_mesh_elem :=
  {| loc := loc e; addr := a; models := models e;
     vnd_models := vnd_models e |}.

Definition set_elem (comp : bt_mesh_comp) (l : list bt_mesh_elem)
  : bt_mesh_comp :=
  {| cid := cid comp; pid := pid comp; vid := vid comp; elem := l |}.

Definition set_dev_primary_addr (st : access_state) (a : Z) : access_state :=
  {| dev_comp := dev_comp st; dev_comp2 := dev_comp2 st;
     dev_primary_addr := a; msg_cb := msg_cb st;
     mod_rel_list := mod_rel_list st; settings := settings st |}.

(** The element loop of [bt_mesh_comp_provision]:
    [elem->rt->addr = addr++] with [addr] an [uint16_t]. *)
Fixpoint comp_provision_loop (elems : list bt_mesh_elem) (a : Z)
  : list bt_mesh_elem :=
  match elems with
  | [] => []
  | e :: elems' => set_addr e a :: comp_provision_loop elems' (u16 (a + 1))
  end.

Definition bt_mesh_comp_provision (st : access_state) (a : Z)
  : access_state :=
  let st := set_dev_primary_addr st a in
  set_dev_comp st
    (set_elem (dev_comp st) (comp_provision_loop (elem (dev_comp st)) a)).

Definition bt_mesh_comp_unprovision (st : access_state) : access_state :=
  let st := set_dev_primary_addr st BT_MESH_ADDR_UNASSIGNED in
  set_dev_comp st
    (set_elem (dev_comp st)
       (map (λ e, set_addr e BT_MESH_ADDR_UNASSIGNED) (elem (dev_comp st)))).

Definition bt_mesh_primary_addr (st : access_state) : Z :=
  dev_primary_addr st.

(** [bt_mesh_elem_find]: the index of the element found. *)
Definition bt_mesh_elem_find (st : access_state) (a : Z) : option nat :=
  if negb (BT_MESH_ADDR_IS_UNICAST a) then None
  else
    let index := u16 (a - addr (elem_at (dev_comp st) 0)) in
    if (Z.of_nat (elem_count (dev_comp st)) <=? index)%Z then None
    else Some (Z.to_nat index).

(** [bt_mesh_elem_find_group] for the element [&dev_comp->elem[e_idx]]. *)
Definition bt_mesh_elem_find_group (elem : bt_mesh_elem) (e_idx : nat)
  (group_addr : Z) : option mref :=
  match list_find (λ m, is_Some (model_group_get m group_addr))
          (models elem) with
  | Some (i, _) => Some {| mr_elem := e_idx; mr_vnd := false; mr_idx := i |}
  | None =>
    match list_find (λ m, is_Some (model_group_get m group_addr))
            (vnd_models elem) with
    | Some (i, _) =>
      Some {| mr_elem := e_idx; mr_vnd := true; mr_idx := i |}
    | None => None
    end
  end.

(** The element loop of [bt_mesh_has_addr]; [index] is the index of the
    head of [elems]. *)
Fixpoint has_addr_loop (elems : list bt_mesh_elem) (index : nat) (a : Z)
  : bool :=
  match elems with
  | [] => false
  | e :: elems' =>
    if bool_decide (is_Some (bt_mesh_elem_find_group e index a)) then true
    else has_addr_loop elems' (S index) a
  end.

Definition bt_mesh_has_addr (cfg : Kconfig) (st : access_state) (a : Z)
  : bool :=
  if BT_MESH_ADDR_IS_UNICAST a
  then bool_decide (is_Some (bt_mesh_elem_find st a))
  else if CONFIG_BT_MESH_ACCESS_LAYER_MSG cfg
          && bool_decide (is_Some (msg_cb st))
  then true
  else has_addr_loop (elem (dev_comp st)) 0 a.

(** [bt_mesh_msg_cb_set]; [None] is a [NULL] callback. *)
Definition bt_mesh_msg_cb_set (st : access_state) (cb : option nat)
  : access_state :=
  {| dev_comp := dev_comp st; dev_comp2 := dev_comp2 st;
     dev_primary_addr := dev_primary_addr st; msg_cb := cb;
     mod_rel_list := mod_rel_list st; settings := settings st |}.

(** [bt_mesh_comp2_register]; [None] is a [NULL] pointer. *)
Definition bt_mesh_comp2_register (cfg : Kconfig) (st : access_state)
  (comp2 : option bt_mesh_comp2) : status * access_state :=
  if negb (CONFIG_BT_MESH_COMP_PAGE_2 cfg) then (Err EINVAL, st)
  else
    (Ok,
     {| dev_comp := dev_comp st; dev_comp2 := comp2;
        dev_primary_addr := dev_primary_addr st; msg_cb := msg_cb st;
        mod_rel_list := mod_rel_list st; settings := settings st |}).

(** ** Receive entry point *)

(** The [int] that [bt_mesh_access_recv] returns: the literal 0, or the
    status of [bt_mesh_model_recv]. *)
Inductive access_recv_result : Set :=
  | ACCESS_RECV_ZERO
  | ACCESS_RECV_STATUS (s : access_status).

Definition bt_mesh_access_recv {W : Type} (cfg : Kconfig) (env : app_env W)
  (fuel : nat) (st : access_state) (ctx : bt_mesh_msg_ctx)
  (buf : net_buf_simple) (w : W) : option (access_recv_result * W) :=
  '(err, w) ← bt_mesh_model_recv cfg env fuel st ctx buf w;
  if CONFIG_BT_MESH_ACCESS_LAYER_MSG cfg
     && bool_decide (is_Some (msg_cb st))
  then Some (ACCESS_RECV_ZERO, w)
  else Some (ACCESS_RECV_STATUS err, w).

(** ** Clearing the staged pages *)

(** [bt_mesh_comp_data_pending_clear]: the result of each
    [settings_delete] is only logged. *)
Definition bt_mesh_comp_data_pending_clear (cfg : Kconfig)
  (st : access_state) : access_state :=
  if CONFIG_BT_MESH_HIGH_DATA_PAGES cfg && CONFIG_BT_SETTINGS cfg then
    fold_left
      (λ (st : access_state) (p : page_type * Z * string),
         set_settings st (snd (settings_delete (settings st) (snd p))))
      (stored_pages cfg) st
  else st.

(** ** Extension rings *)

(** [l] is a chain of [next] links that ends in [close]. *)
Fixpoint chain (comp : bt_mesh_comp) (l : list mref) (close : option mref)
  : Prop :=
  match l with
  | [] => True
  | x :: l' =>
    next (rt (model_at comp x))
    = match l' with
      | [] => close
      | y :: _ => Some y
      end
    ∧ chain comp l' close
  end.

(** The extension ring of [m]: [m] alone and not linked, or the models
    met by following [next] from [m] until it comes back to [m]. *)
Definition ring (comp : bt_mesh_comp) (m : mref) (rest : list mref)
  : Prop :=
  NoDup (m :: rest)
  ∧ (∀ x, x ∈ m :: rest → valid_mref comp x)
  ∧ match rest with
    | [] => next (rt (model_at comp m)) = None
    | _ :: _ => chain comp (m :: rest) (Some m)
    end.

(** The callbacks of a walk over the models [l], one after the other,
    until one of them stops the walk. *)
Fixpoint walk_list {S : Type} (cb : mref → S → bt_mesh_walk * S)
  (l : list mref) (user_data : S) : S :=
  match l with
  | [] => user_data
  | x :: l' =>
    match cb x user_data with
    | (BT_MESH_WALK_STOP, user_data) => user_data
    | (BT_MESH_WALK_CONTINUE, user_data) => walk_list cb l' user_data
    end
  end.

(** ** Large Composition Data Server (large_comp_data_srv.c) *)

Definition net_buf_simple_pull_le16 (buf : net_buf_simple)
  : option (Z * net_buf_simple) :=
  match data buf with
  | d0 :: d1 :: _ => Some (sys_get_le16 d0 d1, net_buf_simple_pull buf 2)
  | _ => None
  end.

(** [net_buf_simple_add_u8] and [net_buf_simple_add_le16]; adding past
    the tailroom fails the assertion of the buffer library: [None]. *)
Definition net_buf_simple_add_u8 (buf : net_buf_simple) (val : Z)
  : option net_buf_simple :=
  if 1 <=? net_buf_simple_tailroom buf
  then Some (net_buf_simple_add_mem buf [u8 val]) else None.

Definition net_buf_simple_add_le16 (buf : net_buf_simple) (val : Z)
  : option net_buf_simple :=
  if 2 <=? net_buf_simple_tailroom buf
  then Some (net_buf_simple_add_mem buf (sys_put_le16 val)) else None.


(** [rsp.size -= BT_MESH_MIC_SHORT] and [rsp.size += BT_MESH_MIC_SHORT]
    on the 16-bit size field. *)
Definition size_add (buf : net_buf_simple) (d : Z) : net_buf_simple :=
  {| data := data buf; size := Z.to_nat (u16 (Z.of_nat (size buf) + d)) |}.

(** [handle_large_comp_data_get].  [rsp] is the response buffer as
    [BT_MESH_MODEL_BUF_DEFINE] and [bt_mesh_model_msg_init] leave it,
    holding the opcode of the status message.  The result is the value
    returned and the message handed to [bt_mesh_model_send], whose own
    result is only logged. *)
Definition handle_large_comp_data_get (cfg : Kconfig) (st : access_state)
  (rsp buf : net_buf_simple) : option (status * option net_buf_simple) :=
  '(page, buf) ← bt_mesh_comp_parse_page cfg buf;
  '(offset, buf) ← net_buf_simple_pull_le16 buf;
  rsp ← net_buf_simple_add_u8 rsp page;
  rsp ← net_buf_simple_add_le16 rsp offset;
  let total_size := bt_mesh_comp_page_size cfg st page in
  rsp ← net_buf_simple_add_le16 rsp (Z.of_nat total_size);
  let rsp := size_add rsp (- Z.of_nat BT_MESH_MIC_SHORT) in
  match bt_mesh_comp_data_get_page cfg st rsp page (Z.to_nat offset) with
  | (Err e, _) => Some (Err e, None)
  | (Ok, rsp) =>
    let rsp := size_add rsp (Z.of_nat BT_MESH_MIC_SHORT) in
    Some (Ok, Some rsp)
  end.


(** ** Models Metadata page 0 as an octet list *)













(** ** Registration *)

(** The models of element [i] in the order [bt_mesh_model_foreach]
    visits them: the SIG models, then the vendor models. *)
Definition elem_mrefs (i : nat) (e : bt_mesh_elem) : list mref :=
  map (λ j, {| mr_elem := i; mr_vnd := false; mr_idx := j |})
    (seq 0 (model_count e))
  ++ map (λ j, {| mr_elem := i; mr_vnd := true; mr_idx := j |})
       (seq 0 (vnd_model_count e)).

Definition comp_mrefs (comp : bt_mesh_comp) : list mref :=
  flat_map (λ i, elem_mrefs i (elem_at comp i)) (seq 0 (elem_count comp)).

(** [bt_mesh_model_foreach]: [func] is called with the model, the index
    of its element, [vnd] and [primary]; [user_data] carries what the
    calls read and write, the state of the access layer included.  The
    element and model arrays are constant, so the models visited are
    those of the composition at the time of the call. *)
Definition bt_mesh_model_foreach {S : Type} (comp : bt_mesh_comp)
  (func : mref → nat → bool → bool → S → S) (user_data : S) : S :=
  fold_left
    (λ user_data m,
       func m (mr_elem m) (mr_vnd m) (mr_elem m =? 0) user_data)
    (comp_mrefs comp) user_data.

(** [bt_mesh_vnd_mod_msg_cid_check] *)
Fixpoint bt_mesh_vnd_mod_msg_cid_check_loop (company : Z)
  (ops : list bt_mesh_model_op) : status :=
  match ops with
  | [] => Ok
  | o :: ops' =>
    let cid := u16 (Z.land (opcode o) 0xffff) in
    if (cid =? company)%Z
    then bt_mesh_vnd_mod_msg_cid_check_loop company ops'
    else Err EINVAL
  end.

Definition bt_mesh_vnd_mod_msg_cid_check (m : bt_mesh_model) : status :=
  bt_mesh_vnd_mod_msg_cid_check_loop (vnd_company m) (op m).

Definition set_keys (m : bt_mesh_model) (k : list Z) : bt_mesh_model :=
  {| id := id m; vnd_company := vnd_company m; vnd_id := vnd_id m;
     op := op m; keys := k; groups := groups m; uuids := uuids m;
     pub := pub m; metadata := metadata m; rt := rt m |}.

(** The init callbacks of the models, [mod->cb->init]: application
    code, which may call into the access layer; [None] for a model
    without one. *)
Definition init_cbs : Type :=
  mref → option (access_state → status * access_state).

(** [mod_init]; [*err] and the state of the access layer are the user
    data.  The back pointer [pub->mod] is implicit, the publication
    context being a field of its model; [k_work_init_delayable] leaves
    the publication timer not scheduled. *)
Definition mod_init (cfg : Kconfig) (init : init_cbs) (m : mref)
  (elem : nat) (vnd primary : bool) (user_data : status * access_state)
  : status * access_state :=
  let '(err, st) := user_data in
  match err with
  | Err _ => (err, st)
  | Ok =>
    let comp :=
      update_model (dev_comp st) m
        (λ x, match pub x with
              | Some p => set_pub x (Some (set_timer p None))
              | None => x
              end) in
    let comp :=
      update_model comp m
        (λ x, set_keys x (map (λ _, BT_MESH_KEY_UNUSED) (keys x))) in
    let comp :=
      update_model comp m
        (λ x, set_rt x {| elem_idx := u8 (Z.of_nat elem);
                          mod_idx := mod_idx (rt x);
                          flags := flags (rt x); next := next (rt x) |}) in
    let comp :=
      update_model comp m
        (λ x, set_rt x {| elem_idx := elem_idx (rt x);
                          mod_idx := u8 (Z.of_nat (mr_idx m));
                          flags := flags (rt x); next := next (rt x) |}) in
    let st := set_dev_comp st comp in
    let err :=
      if vnd && CONFIG_BT_MESH_MODEL_VND_MSG_CID_FORCE cfg
      then bt_mesh_vnd_mod_msg_cid_check (model_at comp m)
      else Ok in
    match err with
    | Err _ => (err, st)
    | Ok =>
      match init m with
      | Some f => f st
      | None => (err, st)
      end
    end
  end.

(** [bt_mesh_comp_register]; [None] is the [NULL] composition. *)
Definition bt_mesh_comp_register (cfg : Kconfig) (init : init_cbs)
  (st : access_state) (comp : option bt_mesh_comp) : status * access_state :=
  match comp with
  | None => (Err EINVAL, st)
  | Some comp =>
    if elem_count comp =? 0 then (Err EINVAL, st)
    else
      let st := set_dev_comp st comp in
      let st :=
        if 0 <? length (mod_rel_list st)
        then set_mod_rel_list st
               (repeat mod_relation_zero (length (mod_rel_list st)))
        else st in
      bt_mesh_model_foreach comp (mod_init cfg init) (Ok, st)
  end.

(** The position fields of a model name the place of the model. *)
Definition positioned (comp : bt_mesh_comp) (m : mref) : Prop :=
  elem_idx (rt (model_at comp m)) = u8 (Z.of_nat (mr_elem m))
  ∧ mod_idx (rt (model_at comp m)) = u8 (Z.of_nat (mr_idx m)).

(** Init callbacks that leave the position fields of every model as
    they are. *)
Definition keeps_layout (init : init_cbs) : Prop :=
  ∀ m f st,
    init m = Some f →
    ∀ x,
      (valid_mref (dev_comp (snd (f st))) x ↔ valid_mref (dev_comp st) x)
      ∧ elem_idx (rt (model_at (dev_comp (snd (f st))) x))
        = elem_idx (rt (model_at (dev_comp st) x))
      ∧ mod_idx (rt (model_at (dev_comp (snd (f st))) x))
        = mod_idx (rt (model_at (dev_comp st) x)).

(** A model as [mod_init] leaves it. *)
Definition mod_init_model (m : mref) (x : bt_mesh_model) : bt_mesh_model :=
  {| id := id x; vnd_company := vnd_company x; vnd_id := vnd_id x;
     op := op x; keys := map (λ _, BT_MESH_KEY_UNUSED) (keys x);
     groups := groups x; uuids := uuids x;
     pub := match pub x with
            | Some p => Some (set_timer p None)
            | None => None
            end;
     metadata := metadata x;
     rt := {| elem_idx := u8 (Z.of_nat (mr_elem m));
              mod_idx := u8 (Z.of_nat (mr_idx m));
              flags := flags (rt x); next := next (rt x) |} |}.

(** ** Large Composition Data Server: init *)

(** The server context [srv]. *)
Record bt_mesh_large_comp_data_srv : Set := {
  srv_model : option mref;
}.

(** [large_comp_data_srv_init].  The model id of the Configuration
    Server, the device key index and the DEVKEY_ONLY flag are declared
    in headers and taken as parameters.  [model->keys[0]] of a model
    without key slots is outside the model: [None]. *)
Definition large_comp_data_srv_init (cfg : Kconfig) (fuel : nat)
  (BT_MESH_MODEL_ID_CFG_SRV BT_MESH_KEY_DEV BT_MESH_MOD_DEVKEY_ONLY : Z)
  (st : access_state) (srv : bt_mesh_large_comp_data_srv) (model : mref)
  : option (status * access_state * bt_mesh_large_comp_data_srv) :=
  let m := model_at (dev_comp st) model in
  match bt_mesh_model_find (bt_mesh_model_elem (dev_comp st) m)
          (Z.to_nat (elem_idx (rt m))) BT_MESH_MODEL_ID_CFG_SRV with
  | None => Some (Err EINVAL, st, srv)
  | Some config_srv =>
    match keys m with
    | [] => None
    | _ :: ks =>
      let comp :=
        update_model (dev_comp st) model
          (λ x, set_keys x (BT_MESH_KEY_DEV :: ks)) in
      let comp :=
        set_flags comp model (λ f, Z.lor f BT_MESH_MOD_DEVKEY_ONLY) in
      let srv := {| srv_model := Some model |} in
      '(_, st) ← bt_mesh_model_extend cfg fuel (set_dev_comp st comp) model
                   config_srv;
      Some (Ok, st, srv)
    end
  end.

(** One element with a Configuration Server (model id 0x0000) and a
    Large Composition Data Server (model id 0x0012), as [mod_init]
    leaves them, and a relation table without a free slot. *)
Definition node_large_comp_srv : access_state :=
  {| dev_comp :=
       {| cid := 0x01AB; pid := 0x0002; vid := 0x0003;
          elem := [ {| loc := 0; addr := 1;
                       models := [sig_model 0x0000 0 0; sig_model 0x0012 0 1];
                       vnd_models := [] |} ] |};
     dev_comp2 := None; dev_primary_addr := 1; msg_cb := None;
     mod_rel_list :=
       [ {| elem_base := 0; idx_base := 1; elem_ext := 0; idx_ext := 2;
            type := 0xFF |} ];
     settings := store_with ∅ |}.

(** ** Serialized pages read back from the store *)

(** An element that page 0 can describe: its model counts fit their
    octets. *)
Definition elem_counts_fit (e : bt_mesh_elem) : Prop :=
  model_count e < 256 ∧ vnd_model_count e < 256.

(** A page 2 record whose counts fit their fields. *)
Definition record_counts_fit (r : bt_mesh_comp2_record) : Prop :=
  elem_offset_cnt r < 256 ∧ (Z.of_nat (data_len r) < 65536)%Z.

(** Two page 2 records: one with two element offsets and three octets
    of data, one with neither. *)
Definition comp2_two_records : bt_mesh_comp2 :=
  {| record :=
       [ {| rec_id := 0x1600; version_x := 1; version_y := 0;
            version_z := 0; elem_offset := [0; 1]%Z;
            rec_data := [0xA1; 0xA2; 0xA3]%Z |};
         {| rec_id := 0x1601; version_x := 2; version_y := 1;
            version_z := 0; elem_offset := []; rec_data := [] |} ] |}.

(** The records that page 1 lists in the item of the model: its
    extension records. *)
Definition is_ext_of (m : bt_mesh_model) (sig_offset : Z) (r : mod_relation)
  : bool :=
  IS_MOD_EXTENSION m r sig_offset && (type r =? RELATION_TYPE_EXT)%Z.

(** The step of the loop of [count_mod_ext]. *)
Definition count_mod_ext_step (m : bt_mesh_model) (sig_offset : Z)
  (acc : Z * Z) (r : mod_relation) : Z * Z :=
  let '(extensions, offset_record) := acc in
  if IS_MOD_EXTENSION m r sig_offset && (type r =? RELATION_TYPE_EXT)%Z
  then
    let offset := i8 (elem_ext r - elem_base r) in
    (u8 (extensions + 1),
     if (Z.abs offset >? Z.abs offset_record)%Z then offset
     else offset_record)
  else acc.

(** A model whose item takes the short format: fewer than 32 extension
    records, each with an element offset (the model's element index
    minus the base's) from -4 to 3, that is with its base at most 3
    elements before and 4 elements after the model. *)
Definition short_items (rels : list mod_relation) (sig_offset : Z)
  (m : bt_mesh_model) : Prop :=
  let exts :=
    List.filter (is_ext_of m sig_offset) (MOD_REL_LIST_FOR_EACH rels) in
  length exts < 32
  ∧ Forall (λ r, (-4 ≤ elem_idx (rt m) - elem_base r ≤ 3)%Z) exts.

(** An element that page 1 can describe in the short format. *)
Definition page1_elem_short (rels : list mod_relation) (e : bt_mesh_elem)
  : Prop :=
  elem_counts_fit e
  ∧ Forall (short_items rels 0) (models e)
  ∧ Forall (short_items rels (Z.of_nat (model_count e))) (vnd_models e).

(** A model item whose header octet tells its length, as
    [next_elem_size_cdp129] reads it. *)
Definition item_parses (item : list Z) : Prop :=
  ∃ hdr rest,
    item = hdr :: rest
    ∧ length item
      = 1 + (if Z.testbit hdr 0 then 1 else 0)
        + (1 + (if Z.testbit hdr 1 then 1 else 0)) * Z.to_nat (Z.shiftr hdr 2).

(** A staged page 128: the 10-octet header and two elements with one
    SIG model each. *)
Definition staged_page_128 : list Z :=
  [0xAB; 0x01; 0x02; 0x00; 0x03; 0x00; 0x05; 0x00; 0x01; 0x00;
   0x00; 0x00; 0x01; 0x00; 0x00; 0x10;
   0x00; 0x00; 0x01; 0x00; 0x01; 0x10]%Z.

(** * Properties *)

Lemma shiftr6_cases (b0 : Z) :
  is_u8 b0 →
  (Z.shiftr b0 6 = 0 ∨ Z.shiftr b0 6 = 1 ∨ Z.shiftr b0 6 = 2
   ∨ Z.shiftr b0 6 = 3)%Z.
Proof.
  intros [Hlo Hhi]. rewrite Z.shiftr_div_pow2 by lia.
  change (2 ^ 6)%Z with 64%Z.
  assert (0 ≤ b0 / 64 < 4)%Z by (split; [apply Z.div_pos|apply Z.div_lt_upper_bound]; lia).
  lia.
Qed.

Lemma lor_shiftl_add (hi lo n : Z) :
  (0 ≤ n → 0 ≤ lo < 2 ^ n → Z.lor (Z.shiftl hi n) lo = hi * 2 ^ n + lo)%Z.
Proof.
  intros Hn Hlo.
  assert (Hland : Z.land (Z.shiftl hi n) lo = 0%Z).
  { apply Z.bits_inj'. intros k Hk.
    rewrite Z.land_spec, Z.bits_0.
    destruct (Z.lt_ge_cases k n) as [Hlt|Hge].
    - rewrite Z.shiftl_spec_low by lia. reflexivity.
    - rewrite <- (Z.mod_small lo (2 ^ n)) by lia.
      rewrite Z.mod_pow2_bits_high by lia. apply andb_false_r. }
  pose proof (Z.add_lor_land (Z.shiftl hi n) lo) as Hadd.
  rewrite Hland, Z.add_0_r in Hadd. rewrite Hadd.
  rewrite Z.shiftl_mul_pow2 by lia. reflexivity.
Qed.

Lemma shiftr6_eq (b0 k : Z) :
  (Z.shiftr b0 6 = k ↔ 64 * k ≤ b0 < 64 * k + 64)%Z.
Proof.
  rewrite Z.shiftr_div_pow2 by lia. change (2 ^ 6)%Z with 64%Z.
  pose proof (Z.div_mod b0 64). pose proof (Z.mod_pos_bound b0 64). lia.
Qed.

(** C6.  Opcode decoding, for a buffer with leading octet [b0]: the
    decoder always gives a result; it rejects exactly the octet 0x7F, a
    2-octet opcode (top bits 10) with fewer than 2 octets and a 3-octet
    opcode (top bits 11) with fewer than 3; a 1-octet opcode is the
    octet itself; a 2-octet opcode is read big-endian; a 3-octet opcode
    is the leading octet shifted left by 16 combined with the
    little-endian 16-bit company id of octets 1 and 2.  The buffer is
    advanced past the opcode. *)
Theorem get_opcode_decodes (b0 : Z) (rest : list Z) (sz : nat) :
  is_u8 b0 →
  let buf := {| data := b0 :: rest; size := sz |} in
  (∃ r, get_opcode buf = Some r)
  ∧ (∀ e, get_opcode buf = Some (inl e) ↔
          e = EINVAL
          ∧ (b0 = 0x7f%Z
             ∨ ((0x80 ≤ b0 < 0xc0)%Z ∧ length (b0 :: rest) < 2)
             ∨ ((0xc0 ≤ b0)%Z ∧ length (b0 :: rest) < 3)))
  ∧ ((b0 < 0x80)%Z → b0 ≠ 0x7f%Z →
     get_opcode buf = Some (inr (b0, {| data := rest; size := sz - 1 |})))
  ∧ (∀ b1 tl, (0x80 ≤ b0 < 0xc0)%Z → rest = b1 :: tl → is_u8 b1 →
       get_opcode buf
       = Some (inr ((b0 * 256 + b1)%Z, {| data := tl; size := sz - 2 |})))
  ∧ (∀ b1 b2 tl, (0xc0 ≤ b0)%Z → rest = b1 :: b2 :: tl →
       is_u8 b1 → is_u8 b2 →
       get_opcode buf
       = Some (inr ((b0 * 65536 + (b2 * 256 + b1))%Z,
                    {| data := tl; size := sz - 3 |}))).
Proof.
  intros Hb0 buf. unfold is_u8 in Hb0.
  assert (Hcase : (b0 < 0x80 ∨ 0x80 ≤ b0 < 0xc0 ∨ 0xc0 ≤ b0)%Z) by lia.
  unfold get_opcode, buf; simpl data.
  destruct Hcase as [H1|[H2|H3]].
  - (* one octet *)
    assert (Hs : (Z.shiftr b0 6 = 0 ∨ Z.shiftr b0 6 = 1)%Z).
    { rewrite !shiftr6_eq. lia. }
    destruct Hs as [Hs|Hs]; rewrite Hs;
      destruct (Z.eqb_spec b0 0x7f) as [Heq|Hne];
      (split; [eauto|]);
      (split; [intros e; split;
                 [intros [= <-] || intros [= ] | intros [-> Hor]]; try lia;
                 try (split; [reflexivity|lia]); try reflexivity
              |]);
      (split; [intros; first [lia | congruence | reflexivity]|]);
      (split; intros; lia).
  - (* two octets *)
    assert (Hs : Z.shiftr b0 6 = 2%Z) by (rewrite shiftr6_eq; lia).
    rewrite Hs. destruct rest as [|b1 tl]; simpl.
    + split; [eauto|]. split.
      * intros e; split; [intros [= <-]; split; [reflexivity|lia]|].
        intros [-> _]. reflexivity.
      * split; [intros; lia|]. split; [intros; discriminate|intros; lia].
    + split; [eauto|]. split.
      * intros e; split; [intros [= ]|]. intros [_ Hor]. simpl in Hor. lia.
      * split; [intros; lia|]. split; [|intros; lia].
        intros b1' tl' _ [= <- <-] Hb1. unfold sys_get_be16, is_u8 in *.
        rewrite (lor_shiftl_add b0 b1 8) by lia.
        reflexivity.
  - (* three octets *)
    assert (Hs : Z.shiftr b0 6 = 3%Z) by (rewrite shiftr6_eq; lia).
    rewrite Hs. destruct rest as [|b1 [|b2 tl]]; simpl.
    + split; [eauto|]. split.
      * intros e; split; [intros [= <-]; split; [reflexivity|lia]|].
        intros [-> _]. reflexivity.
      * split; [intros; lia|]. split; [intros; lia|intros; discriminate].
    + split; [eauto|]. split.
      * intros e; split; [intros [= <-]; split; [reflexivity|lia]|].
        intros [-> _]. reflexivity.
      * split; [intros; lia|]. split; [intros; lia|intros; discriminate].
    + split; [eauto|]. split.
      * intros e; split; [intros [= ]|]. intros [_ Hor]. simpl in Hor. lia.
      * split; [intros; lia|]. split; [intros; lia|].
        intros b1' b2' tl' _ [= <- <- <-] Hb1 Hb2.
        unfold sys_get_le16, is_u8 in *.
        rewrite (lor_shiftl_add b2 b1 8) by lia.
        rewrite (lor_shiftl_add b0 (b2 * 2 ^ 8 + b1) 16) by lia.
        reflexivity.
Qed.

Lemma get_opcode_decodes_witness :
  get_opcode {| data := [0xc1; 0x34; 0x12]%Z; size := 3 |}
  = Some (inr (0xc11234%Z, {| data := []; size := 0 |})).
Proof.
  assert (Hb : is_u8 0xc1) by (unfold is_u8; lia).
  destruct (get_opcode_decodes 0xc1 [0x34; 0x12]%Z 3 Hb)
    as (_ & _ & _ & _ & H3).
  apply (H3 0x34%Z 0x12%Z []); unfold is_u8; first [lia | reflexivity].
Defined.

(** ** Element count of the stored page 128 *)

Lemma stored_page_path_128 (cfg : Kconfig) :
  stored_page_path cfg PAGE_TYPE_COMP 128 = Some "bt/mesh/cmp/128"%string.
Proof. reflexivity. Qed.

Lemma next_elem_size_cdp128_elem (e tail : list Z) (sz : nat) :
  cdp128_elem e →
  next_elem_size_cdp128 {| data := e ++ tail; size := sz |} = length e
  ∧ 0 < length e.
Proof.
  intros (l0 & l1 & ns & nv & ids & -> & Hlen).
  unfold next_elem_size_cdp128. simpl. lia.
Qed.

Lemma comp_128_elem_count_loop_step (fuel : nat) (buf : net_buf_simple)
  (cnt : Z) :
  0 < next_elem_size_cdp128 buf →
  comp_128_elem_count_loop (S fuel) buf cnt
  = if length (data buf) <? next_elem_size_cdp128 buf then 0%Z
    else comp_128_elem_count_loop fuel
           (net_buf_simple_pull buf (next_elem_size_cdp128 buf))
           (u8 (cnt + 1)).
Proof.
  intros Hpos. simpl.
  destruct (next_elem_size_cdp128 buf); [lia|reflexivity].
Qed.

Lemma comp_128_elem_count_loop_end (fuel : nat) (buf : net_buf_simple)
  (cnt : Z) :
  next_elem_size_cdp128 buf = 0 →
  comp_128_elem_count_loop fuel buf cnt
  = if negb (length (data buf) =? 0) then 0%Z else cnt.
Proof. intros Hz. destruct fuel; simpl; rewrite Hz; reflexivity. Qed.


Lemma stored_page_read_cb_fresh (n : nat) (value : list Z) :
  stored_page_read_cb value (NET_BUF_SIMPLE n)
  = if n <? length value then NET_BUF_SIMPLE n
    else {| data := value; size := n |}.
Proof.
  unfold stored_page_read_cb, net_buf_simple_tailroom, NET_BUF_SIMPLE,
    net_buf_simple_add_mem.
  simpl. rewrite Nat.sub_0_r. reflexivity.
Qed.


(** ** The high-pages store *)

Lemma stored_page_path_high (cfg : Kconfig) (type : page_type) (page : Z)
  (path : string) :
  stored_page_path cfg type page = Some path → (128 ≤ page)%Z.
Proof.
  unfold stored_page_path, stored_pages.
  destruct (CONFIG_BT_MESH_COMP_PAGE_1 cfg),
    (CONFIG_BT_MESH_COMP_PAGE_2 cfg),
    (CONFIG_BT_MESH_LARGE_COMP_DATA_SRV cfg);
    cbn [stored_page_path_loop app];
    repeat match goal with
           | |- context [bool_decide (?a = ?b) && (?p =? page)%Z] =>
             destruct (Z.eqb_spec p page);
             [subst; intros; lia|rewrite ?andb_false_r]
           end; discriminate.
Qed.

Lemma current_page_size_set_settings (cfg : Kconfig) (st : access_state)
  (s : settings_store) (type : page_type) (page : Z) :
  current_page_size cfg (set_settings st s) type page
  = current_page_size cfg st type page.
Proof. reflexivity. Qed.

Lemma stored_page_size_get_empty (cfg : Kconfig) (st : access_state)
  (type : page_type) (page : Z) (path : string) :
  stored_page_path cfg type page = Some path →
  records (settings st) !! path = None
  ∨ records (settings st) !! path = Some [] →
  stored_page_size_get cfg st type page = 0.
Proof.
  intros Hpath Hrec. unfold stored_page_size_get. rewrite Hpath.
  unfold settings_load_subtree_direct.
  destruct (load_err (settings st)); [|reflexivity].
  destruct Hrec as [-> | ->]; reflexivity.
Qed.

Lemma settings_save_one_empty (s : settings_store) (path : string) :
  save_err s = Ok →
  ∃ s',
    settings_save_one s path [] = (Ok, s')
    ∧ records s' !! path = (if keep_empty s then Some [] else None).
Proof.
  intros Hsave. unfold settings_save_one. rewrite Hsave.
  eexists. split; [reflexivity|]. simpl.
  destruct (keep_empty s); simpl.
  - apply lookup_insert_eq.
  - apply lookup_delete_eq.
Qed.

Lemma settings_save_one_nonempty (s : settings_store) (path : string)
  (value : list Z) :
  save_err s = Ok → 0 < length value →
  ∃ s',
    settings_save_one s path value = (Ok, s')
    ∧ records s' !! path = Some value
    ∧ load_err s' = load_err s.
Proof.
  intros Hsave Hlen. unfold settings_save_one. rewrite Hsave.
  eexists. split; [reflexivity|]. simpl.
  destruct (Nat.eqb_spec (length value) 0) as [H0|_]; [lia|]. simpl.
  split; [apply lookup_insert_eq|reflexivity].
Qed.

Lemma new_page_data_is_equal_nil (cfg : Kconfig) (st : access_state)
  (type : page_type) (page : Z) :
  new_page_data_is_equal cfg st type page [] ≠ None.
Proof.
  unfold new_page_data_is_equal.
  destruct (negb _); [discriminate|].
  destruct (current_page_contents _ _ _ _ _ _ _) as [[|e] buf];
    [|discriminate].
  cbn [length]. destruct (Nat.ltb_spec (length (data buf)) 0); [lia|].
  discriminate.
Qed.

Lemma stored_page_size_get_nonempty (cfg : Kconfig) (st : access_state)
  (type : page_type) (page : Z) (path : string) (value : list Z) :
  stored_page_path cfg type page = Some path →
  load_err (settings st) = Ok →
  records (settings st) !! path = Some value →
  0 < length value →
  stored_page_size_get cfg st type page = length value.
Proof.
  intros Hpath Hload Hrec Hlen. unfold stored_page_size_get. rewrite Hpath.
  unfold settings_load_subtree_direct. rewrite Hload, Hrec.
  unfold stored_page_size_cb.
  destruct (Nat.ltb_spec 0 (length value)); [reflexivity|lia].
Qed.

(** A write of [len = 0] stores the sentinel; with a backend that loads,
    the high page then has size 0 and page 128 counts as changed. *)
Lemma stored_page_write_empty_data (cfg : Kconfig) (st : access_state)
  (type : page_type) (page : Z) (path : string) :
  CONFIG_BT_MESH_HIGH_DATA_PAGES cfg = true →
  CONFIG_BT_SETTINGS cfg = true →
  save_err (settings st) = Ok →
  stored_page_path cfg type page = Some path →
  ∃ st',
    stored_page_write cfg st type page [] = Some (Ok, st')
    ∧ records (settings st') !! path = Some [0%Z]
    ∧ (load_err (settings st) = Ok →
       page_size_get cfg st' type page = 0
       ∧ (type = PAGE_TYPE_COMP → page = 128%Z →
          bt_mesh_comp_128_changed cfg st' = true)).
Proof.
  intros Hhigh Hset Hsave Hpath.
  unfold stored_page_write. rewrite Hset, Hpath. simpl negb. cbv iota.
  destruct (new_page_data_is_equal cfg st type page []) as [eq|] eqn:Heq;
    [|exfalso; exact (new_page_data_is_equal_nil _ _ _ _ Heq)].
  simpl length. simpl Nat.eqb. cbv iota.
  destruct (settings_save_one_nonempty (settings st) path [0%Z] Hsave)
    as (s1 & -> & Hrec & Hload1); [simpl; lia|].
  exists (set_settings st s1). split; [reflexivity|].
  split; [exact Hrec|].
  intros Hload.
  assert (Hstored :
    stored_page_size_get cfg (set_settings st s1) type page = 1).
  { apply (stored_page_size_get_nonempty _ _ _ _ path [0%Z] Hpath);
      [simpl; congruence|exact Hrec|simpl; lia]. }
  split.
  - unfold page_size_get. rewrite Hhigh, Hset.
    pose proof (stored_page_path_high _ _ _ _ Hpath) as Hge.
    destruct (Z.leb_spec 128 page) as [_|Hlt]; [|lia]. simpl andb.
    rewrite Hstored. reflexivity.
  - intros -> ->. unfold bt_mesh_comp_128_changed. rewrite Hhigh, Hset.
    simpl andb. rewrite Hstored. reflexivity.
Qed.

(** A write of [len > 0] octets to a page whose live counterpart is
    computed to have another size stores the octets as they are. *)
Lemma stored_page_write_other_size (cfg : Kconfig) (st : access_state)
  (type : page_type) (page : Z) (new_data : list Z) (path : string) :
  CONFIG_BT_MESH_HIGH_DATA_PAGES cfg = true →
  CONFIG_BT_SETTINGS cfg = true →
  save_err (settings st) = Ok →
  stored_page_path cfg type page = Some path →
  0 < length new_data →
  current_page_size cfg st type (page mod 128) ≠ length new_data →
  ∃ st',
    stored_page_write cfg st type page new_data = Some (Ok, st')
    ∧ records (settings st') !! path = Some new_data
    ∧ (load_err (settings st) = Ok → type = PAGE_TYPE_COMP → page = 128%Z →
       bt_mesh_comp_128_changed cfg st' = true).
Proof.
  intros Hhigh Hset Hsave Hpath Hlen Hsize.
  assert (Hneq : new_page_data_is_equal cfg st type page new_data
                 = Some false).
  { unfold new_page_data_is_equal.
    destruct (Nat.eqb_spec (current_page_size cfg st type (page mod 128))
                (length new_data)) as [Heq|_]; [contradiction|reflexivity]. }
  unfold stored_page_write. rewrite Hset, Hpath, Hneq. simpl negb. cbv iota.
  destruct (Nat.eqb_spec (length new_data) 0) as [H0|_]; [lia|].
  rewrite firstn_all.
  destruct (settings_save_one_nonempty (settings st) path new_data Hsave Hlen)
    as (s1 & -> & Hrec & Hload1).
  exists (set_settings st s1). split; [reflexivity|].
  split; [exact Hrec|].
  intros Hload -> ->. unfold bt_mesh_comp_128_changed. rewrite Hhigh, Hset.
  simpl andb.
  rewrite (stored_page_size_get_nonempty _ _ _ _ path new_data Hpath);
    [|simpl; congruence|exact Hrec|exact Hlen].
  destruct (Nat.eqb_spec (length new_data) 0) as [H0|_]; [lia|reflexivity].
Qed.

(** C1 (amended).  With the high pages and the settings enabled, a page
    that has a settings path and a backend that accepts the save, what
    [stored_page_write] saves under the path is decided by [len] and by
    the comparison with the live page [page % 128]:
    - [len > 0], [len] equal to the size computed for the live page
      ([current_page_size]) and the data byte-identical to what reading
      the live page into the persistence buffer yields: a zero-length
      value is saved, not the sentinel; afterwards [page_size] of the
      high page is the size of the live page (which is [len], not 0),
      and for page 128 [bt_mesh_comp_128_changed] is false;
    - [len > 0] and [len] different from the size computed for the live
      page: the data is saved in full, whatever its octets, and with a
      backend that loads page 128 counts as changed;
    - [len = 0]: the one-octet sentinel 0x00 is saved, and with a
      backend that loads [page_size] of the high page is 0 and page 128
      counts as changed. *)
Theorem stored_page_write_equal_data (cfg : Kconfig) (st : access_state)
  (type : page_type) (page : Z) (new_data : list Z) (path : string) :
  CONFIG_BT_MESH_HIGH_DATA_PAGES cfg = true →
  CONFIG_BT_SETTINGS cfg = true →
  save_err (settings st) = Ok →
  stored_page_path cfg type page = Some path →
  (∀ live : net_buf_simple,
     0 < length new_data →
     current_page_size cfg st type (page mod 128) = length new_data →
     current_page_contents cfg st
       (NET_BUF_SIMPLE (CONFIG_BT_MESH_COMP_PST_BUF_SIZE cfg)) type
       (page mod 128) 0 true = (Ok, live) →
     data live = new_data →
     ∃ st',
       stored_page_write cfg st type page new_data = Some (Ok, st')
       ∧ records (settings st') !! path
         = (if keep_empty (settings st) then Some [] else None)
       ∧ records (settings st') !! path ≠ Some [0%Z]
       ∧ page_size_get cfg st' type page = length new_data
       ∧ page_size_get cfg st' type page ≠ 0
       ∧ (type = PAGE_TYPE_COMP → page = 128%Z →
          bt_mesh_comp_128_changed cfg st' = false))
  ∧ (0 < length new_data →
     current_page_size cfg st type (page mod 128) ≠ length new_data →
     ∃ st',
       stored_page_write cfg st type page new_data = Some (Ok, st')
       ∧ records (settings st') !! path = Some new_data
       ∧ (load_err (settings st) = Ok →
          type = PAGE_TYPE_COMP → page = 128%Z →
          bt_mesh_comp_128_changed cfg st' = true))
  ∧ (length new_data = 0 →
     ∃ st',
       stored_page_write cfg st type page new_data = Some (Ok, st')
       ∧ records (settings st') !! path = Some [0%Z]
       ∧ (load_err (settings st) = Ok →
          page_size_get cfg st' type page = 0
          ∧ (type = PAGE_TYPE_COMP → page = 128%Z →
             bt_mesh_comp_128_changed cfg st' = true))).
Proof.
  intros Hhigh Hset Hsave Hpath.
  split; [|split].
  2: { intros Hlen Hsize.
       exact (stored_page_write_other_size cfg st type page new_data path
                Hhigh Hset Hsave Hpath Hlen Hsize). }
  2: { intros Hlen. destruct new_data as [|d l]; [|discriminate Hlen].
       exact (stored_page_write_empty_data cfg st type page path
                Hhigh Hset Hsave Hpath). }
  intros live Hlen Hsize Hlive Hdata.
  assert (Heq : new_page_data_is_equal cfg st type page new_data
                = Some true).
  { unfold new_page_data_is_equal. rewrite Hsize, Nat.eqb_refl. simpl negb.
    cbv iota. rewrite Hlive, Hdata.
    rewrite Nat.ltb_irrefl, firstn_all.
    rewrite bool_decide_eq_true_2 by reflexivity. reflexivity. }
  unfold stored_page_write. rewrite Hset, Hpath, Heq. simpl negb. cbv iota.
  destruct (Nat.eqb_spec (length new_data) 0) as [H0|_]; [lia|].
  destruct (settings_save_one_empty (settings st) path Hsave)
    as (s1 & -> & Hrec).
  exists (set_settings st s1). split; [reflexivity|].
  split; [exact Hrec|].
  split; [simpl; rewrite Hrec; destruct (keep_empty (settings st));
          discriminate|].
  assert (Hstored : ∀ s',
    records s' !! path = (if keep_empty (settings st) then Some [] else None) →
    stored_page_size_get cfg (set_settings st s') type page = 0).
  { intros s' Hs'. apply (stored_page_size_get_empty _ _ _ _ path Hpath).
    simpl. rewrite Hs'. destruct (keep_empty (settings st)); auto. }
  assert (Hps : ∀ s',
    records s' !! path = (if keep_empty (settings st) then Some [] else None) →
    page_size_get cfg (set_settings st s') type page = length new_data).
  { intros s' Hs'. unfold page_size_get. rewrite Hhigh, Hset.
    pose proof (stored_page_path_high _ _ _ _ Hpath) as Hge.
    destruct (Z.leb_spec 128 page) as [_|Hlt]; [|lia]. simpl andb.
    rewrite (Hstored s' Hs'), current_page_size_set_settings. exact Hsize. }
  split; [apply Hps; exact Hrec|].
  split; [rewrite (Hps _ Hrec); lia|].
  intros -> ->. unfold bt_mesh_comp_128_changed. rewrite Hhigh, Hset.
  simpl andb. rewrite (Hstored _ Hrec). reflexivity.
Qed.

(** The three cases at concrete inputs: page 0 of [node_one] written to
    page 128; the 10 octets of page 1 of [node_extends_and_corresponds],
    whose size is computed as 11, written to page 129 and stored in
    full; an empty write to page 128. *)
Lemma stored_page_write_equal_data_witness :
  (∃ st',
     stored_page_write cfg_all (node_one ∅) PAGE_TYPE_COMP 128 node_one_page0
     = Some (Ok, st')
     ∧ page_size_get cfg_all st' PAGE_TYPE_COMP 128 = 16)
  ∧ (current_page_contents cfg_all node_extends_and_corresponds
       (NET_BUF_SIMPLE 100) PAGE_TYPE_COMP 1 0 true
     = (Ok, {| data := [2; 0; 0; 5; 0; 0; 1; 0; 1; 0]%Z; size := 100 |})
     ∧ current_page_size cfg_all node_extends_and_corresponds PAGE_TYPE_COMP 1
       = 11
     ∧ ∃ st',
         stored_page_write cfg_all node_extends_and_corresponds
           PAGE_TYPE_COMP 129 [2; 0; 0; 5; 0; 0; 1; 0; 1; 0]%Z
         = Some (Ok, st')
         ∧ records (settings st') !! "bt/mesh/cmp/129"%string
           = Some [2; 0; 0; 5; 0; 0; 1; 0; 1; 0]%Z)
  ∧ (∃ st',
       stored_page_write cfg_all (node_one ∅) PAGE_TYPE_COMP 128 []
       = Some (Ok, st')
       ∧ records (settings st') !! "bt/mesh/cmp/128"%string = Some [0%Z]
       ∧ page_size_get cfg_all st' PAGE_TYPE_COMP 128 = 0
       ∧ bt_mesh_comp_128_changed cfg_all st' = true).
Proof.
  split; [|split].
  - destruct (stored_page_write_equal_data cfg_all (node_one ∅)
                PAGE_TYPE_COMP 128 node_one_page0 "bt/mesh/cmp/128"
                eq_refl eq_refl eq_refl eq_refl) as (Heq & _ & _).
    destruct (Heq {| data := node_one_page0; size := 100 |})
      as (st' & Hw & _ & _ & Hsz & _);
      try reflexivity; [simpl; lia|].
    exists st'. split; [exact Hw|exact Hsz].
  - split; [reflexivity|]. split; [reflexivity|].
    destruct (stored_page_write_equal_data cfg_all
                node_extends_and_corresponds PAGE_TYPE_COMP 129
                [2; 0; 0; 5; 0; 0; 1; 0; 1; 0]%Z "bt/mesh/cmp/129"
                eq_refl eq_refl eq_refl eq_refl) as (_ & Hother & _).
    destruct Hother as (st' & Hw & Hrec & _);
      [simpl; lia|vm_compute; lia|].
    exists st'. split; [exact Hw|exact Hrec].
  - destruct (stored_page_write_equal_data cfg_all (node_one ∅)
                PAGE_TYPE_COMP 128 [] "bt/mesh/cmp/128"
                eq_refl eq_refl eq_refl eq_refl) as (_ & _ & Hempty).
    destruct (Hempty eq_refl) as (st' & Hw & Hrec & Hload).
    destruct (Hload eq_refl) as (Hsz & Hch).
    exists st'. split; [exact Hw|]. split; [exact Hrec|].
    split; [exact Hsz|exact (Hch eq_refl eq_refl)].
Defined.

(** C1, as stated, fails: [node_one_page0] is page 0 of [node_one]
    octet for octet, and writing it to page 128 leaves no sentinel
    record, a page size of 16 and [bt_mesh_comp_128_changed] false. *)
Lemma stored_page_write_equal_data_counterexample :
  bt_mesh_comp_data_get_page_0 cfg_all (node_one ∅) (NET_BUF_SIMPLE 100) 0
    true
  = (Ok, {| data := node_one_page0; size := 100 |})
  ∧ ∃ st',
      stored_page_write cfg_all (node_one ∅) PAGE_TYPE_COMP 128
        node_one_page0 = Some (Ok, st')
      ∧ records (settings st') !! "bt/mesh/cmp/128"%string ≠ Some [0%Z]
      ∧ page_size_get cfg_all st' PAGE_TYPE_COMP 128 ≠ 0
      ∧ bt_mesh_comp_128_changed cfg_all st' ≠ true.
Proof.
  split; [reflexivity|].
  eexists. split; [vm_compute; reflexivity|].
  split; [vm_compute; discriminate|].
  split; [vm_compute; discriminate|vm_compute; discriminate].
Qed.



(** ** Correspondence *)

(** When no record of the scan names either model with a type below
    0xFF, the scan registers the new record with the largest
    correspondence id it met, not with that id plus one. *)
Lemma correspond_scan_no_reference (st : access_state)
  (l : list mod_relation) (c b : mref) (bo co : Z) :
  ∀ cor_id : Z,
    Forall
      (λ r, (type r <? RELATION_TYPE_EXT)%Z = true →
            references (model_at (dev_comp st) b) bo r = false
            ∧ references (model_at (dev_comp st) c) co r = false) l →
    correspond_scan st l c b bo co cor_id
    = mod_rel_register st b c (max_cor_id l cor_id).
Proof.
  induction l as [|r l IH]; intros cor_id Hl; [reflexivity|].
  apply Forall_cons in Hl as [Hr Hl].
  simpl. unfold max_cor_id. simpl fold_left.
  unfold references in Hr.
  destruct (type r <? RELATION_TYPE_EXT)%Z eqn:Hty.
  - destruct (Hr eq_refl) as [Hb Hc].
    apply orb_false_elim in Hb as [Hb1 Hb2].
    apply orb_false_elim in Hc as [Hc1 Hc2].
    rewrite Hb1, Hb2, Hc1, Hc2. simpl. apply IH, Hl.
  - rewrite andb_false_r. simpl. apply IH, Hl.
Qed.

(** C2, at the failing input.  On [node_four_models] the first
    correspondence gets id 0.  A second correspondence between two
    models that no record names is registered with id 0 again: the
    largest id present, where the claim has that id plus one. *)
Theorem correspond_second_group_id :
  let st1 :=
    snd (bt_mesh_model_correspond node_four_models (sig_ref 0 1)
           (sig_ref 0 2)) in
  let r1 :=
    {| elem_base := 0; idx_base := 2; elem_ext := 0; idx_ext := 1;
       type := 0 |} in
  let r2 :=
    {| elem_base := 0; idx_base := 0; elem_ext := 0; idx_ext := 3;
       type := 0 |} in
  mod_rel_list st1 = [r1; mod_relation_zero; mod_relation_zero;
                      mod_relation_zero]
  ∧ max_cor_id (MOD_REL_LIST_FOR_EACH (mod_rel_list st1)) 0 = 0%Z
  ∧ (∀ r, r ∈ MOD_REL_LIST_FOR_EACH (mod_rel_list st1) →
          references (model_at (dev_comp st1) (sig_ref 0 3)) 0 r = false
          ∧ references (model_at (dev_comp st1) (sig_ref 0 0)) 0 r = false)
  ∧ fst (bt_mesh_model_correspond st1 (sig_ref 0 3) (sig_ref 0 0)) = Ok
  ∧ mod_rel_list
      (snd (bt_mesh_model_correspond st1 (sig_ref 0 3) (sig_ref 0 0)))
    = [r1; r2; mod_relation_zero; mod_relation_zero].
Proof.
  cbv zeta. split; [reflexivity|]. split; [reflexivity|].
  split; [|split; reflexivity].
  intros r Hr. vm_compute in Hr.
  apply list_elem_of_singleton in Hr as ->. split; reflexivity.
Qed.

(** ** Page 1 model items *)





(** ** Extension *)

Section update_model.
Context {B : Type} (P : bt_mesh_model → B) (f : bt_mesh_model → bt_mesh_model).
Hypothesis Hf : ∀ y, P (f y) = P y.

Lemma nth_alter_inv {A : Type} (Q : A → B) (g : A → A) (l : list A)
  (d : A) :
  (∀ y, Q (g y) = Q y) →
  ∀ i j, Q (nth i (alter g j l) d) = Q (nth i l d).
Proof.
  intros Hg.
  induction l as [|x l IH]; intros [|i] [|j]; simpl; rewrite ?Hg; auto.
  apply IH.
Qed.

Lemma model_at_update_inv (comp : bt_mesh_comp) (m x : mref) :
  P (model_at (update_model comp m f) x) = P (model_at comp x).
Proof.
  unfold model_at, elem_at, update_model. cbn [elem].
  apply (nth_alter_inv
           (λ e, P (nth (mr_idx x)
                      (if mr_vnd x then vnd_models e else models e)
                      model_zero))).
  intros e. destruct (mr_vnd m), (mr_vnd x); cbn [models vnd_models];
    try reflexivity; apply (nth_alter_inv P); exact Hf.
Qed.
End update_model.

Lemma elem_at_update_counts (comp : bt_mesh_comp) (m : mref)
  (f : bt_mesh_model → bt_mesh_model) (i : nat) :
  model_count (elem_at (update_model comp m f) i)
  = model_count (elem_at comp i)
  ∧ vnd_model_count (elem_at (update_model comp m f) i)
    = vnd_model_count (elem_at comp i).
Proof.
  unfold elem_at, update_model. cbn [elem].
  split.
  - apply (nth_alter_inv (B:=nat) model_count). intros e.
    unfold model_count. destruct (mr_vnd m); cbn [models];
      [reflexivity|apply length_alter].
  - apply (nth_alter_inv (B:=nat) vnd_model_count). intros e.
    unfold vnd_model_count. destruct (mr_vnd m); cbn [vnd_models];
      [apply length_alter|reflexivity].
Qed.





Lemma extend_list_contains_set_flags (fuel : nat) (comp : bt_mesh_comp)
  (m : mref) (g : Z → Z) (a b : mref) :
  ∀ it,
    extend_list_contains fuel (set_flags comp m g) a b it
    = extend_list_contains fuel comp a b it.
Proof.
  induction fuel as [|fuel IH]; intros it; [reflexivity|].
  simpl. destruct it as [i|]; [|reflexivity].
  unfold set_flags in *.
  rewrite (model_at_update_inv (λ y, next (rt y))) by reflexivity.
  rewrite IH. reflexivity.
Qed.







(** ** Publication trigger *)

Lemma nth_alter_same {A : Type} (g : A → A) (l : list A) (d : A) :
  ∀ i, i < length l → nth i (alter g i l) d = g (nth i l d).
Proof.
  induction l as [|x l IH]; intros [|i] Hi; simpl in *; try lia;
    [reflexivity|].
  apply IH. lia.
Qed.

Lemma model_at_update_same (comp : bt_mesh_comp) (m : mref)
  (f : bt_mesh_model → bt_mesh_model) :
  valid_mref comp m →
  model_at (update_model comp m f) m = f (model_at comp m).
Proof.
  intros [He Hi]. unfold model_at, elem_at, update_model in *. cbn [elem].
  rewrite nth_alter_same by exact He.
  destruct (mr_vnd m); cbn [models vnd_models];
    apply nth_alter_same; exact Hi.
Qed.

Lemma pub_Some_valid (comp : bt_mesh_comp) (m : mref)
  (p : bt_mesh_model_pub) :
  pub (model_at comp m) = Some p → valid_mref comp m.
Proof.
  unfold model_at, elem_at, valid_mref. intros Hp.
  destruct (Nat.lt_ge_cases (mr_elem m) (length (elem comp))) as [He|He].
  - split; [exact He|].
    destruct (Nat.lt_ge_cases (mr_idx m)
                (length (if mr_vnd m
                         then vnd_models (nth (mr_elem m) (elem comp) elem_zero)
                         else models (nth (mr_elem m) (elem comp) elem_zero))))
      as [Hi|Hi]; [exact Hi|].
    rewrite nth_overflow in Hp by exact Hi. discriminate.
  - rewrite (nth_overflow (elem comp)) in Hp by exact He.
    destruct (mr_vnd m), (mr_idx m); discriminate.
Qed.

Lemma pub_delay_get_long (cfg : Kconfig) (env : kernel_env) :
  CONFIG_BT_MESH_DELAYABLE_PUBLICATION cfg = true →
  pub_delay_get cfg env RANDOM_DELAY_LONG
  = (20 + (bt_rand_num env mod 65536) mod 480)%Z
  ∧ (20 ≤ pub_delay_get cfg env RANDOM_DELAY_LONG < 500)%Z.
Proof.
  intros Hcfg. unfold pub_delay_get, RANDOM_DELAY_LONG, u16.
  rewrite Hcfg. simpl negb. cbv iota.
  pose proof (Z.mod_pos_bound (bt_rand_num env mod 65536) 480 ltac:(lia)).
  rewrite (Z.mod_small (20 + _) 65536) by lia. lia.
Qed.

(** Every delay of the long window is the delay of some random number. *)
Lemma pub_delay_get_long_attained (cfg : Kconfig) (now ret d : Z) :
  CONFIG_BT_MESH_DELAYABLE_PUBLICATION cfg = true →
  (20 ≤ d < 500)%Z →
  ∃ num, is_u16 num
         ∧ pub_delay_get cfg
             {| k_uptime_get_32 := now; bt_rand_num := num;
                k_work_reschedule_ret := ret |} RANDOM_DELAY_LONG = d.
Proof.
  intros Hcfg Hd. exists (d - 20)%Z. split; [unfold is_u16; lia|].
  destruct (pub_delay_get_long cfg
              {| k_uptime_get_32 := now; bt_rand_num := (d - 20)%Z;
                 k_work_reschedule_ret := ret |} Hcfg) as [-> _].
  cbn [bt_rand_num]. rewrite (Z.mod_small (d - 20) 65536) by lia.
  rewrite Z.mod_small by lia. lia.
Qed.

(** C9 (amended).  For every model whose publish validity checks pass
    (address assigned, message present, len + MIC within the maximum
    SDU) and a kernel that schedules the work item, [publish] returns 0,
    sets count = 1 + retransmit count and period_start to the current
    uptime, and schedules the first transmission: after the delay
    20 + (r mod 480) ms, which lies in [20, 500), with r the random
    16-bit number, when the publication is delayable and delayable
    publication is compiled in; immediately otherwise. *)
Theorem bt_mesh_model_publish_trigger (cfg : Kconfig) (env : kernel_env)
  (st : access_state) (model : mref) (p : bt_mesh_model_pub)
  (msg : net_buf_simple) :
  pub (model_at (dev_comp st) model) = Some p →
  pub_addr p ≠ BT_MESH_ADDR_UNASSIGNED →
  pub_msg p = Some msg →
  0 < length (data msg) →
  length (data msg) + BT_MESH_MIC_SHORT ≤ BT_MESH_TX_SDU_MAX cfg →
  (0 ≤ k_work_reschedule_ret env)%Z →
  ∃ st' p',
    bt_mesh_model_publish cfg env st model = (Ok, st')
    ∧ pub (model_at (dev_comp st') model) = Some p'
    ∧ count p' = (1 + BT_MESH_PUB_TRANSMIT_COUNT (retransmit p))%Z
    ∧ period_start p' = u32 (k_uptime_get_32 env)
    ∧ (if delayable p && CONFIG_BT_MESH_DELAYABLE_PUBLICATION cfg
       then ∃ d, timer p' = Some d
                 ∧ d = (20 + (bt_rand_num env mod 65536) mod 480)%Z
                 ∧ (20 ≤ d < 500)%Z
       else timer p' = Some 0%Z).
Proof.
  intros Hpub Haddr Hmsg Hlen Hsdu Hret.
  pose proof (pub_Some_valid _ _ _ Hpub) as Hvalid.
  unfold bt_mesh_model_publish. rewrite Hpub.
  destruct (Z.eqb_spec (pub_addr p) BT_MESH_ADDR_UNASSIGNED) as [|_];
    [contradiction|].
  rewrite Hmsg.
  destruct (Nat.eqb_spec (length (data msg)) 0) as [|_]; [lia|].
  destruct (Nat.ltb_spec (BT_MESH_TX_SDU_MAX cfg)
              (length (data msg) + BT_MESH_MIC_SHORT)) as [|_]; [lia|].
  cbn [delayable set_count_start].
  assert (Hneg : (k_work_reschedule_ret env <? 0)%Z = false)
    by (apply Z.ltb_ge; exact Hret).
  unfold pub_delay_schedule, k_work_reschedule.
  destruct (delayable p) eqn:Hdel;
    [destruct (CONFIG_BT_MESH_DELAYABLE_PUBLICATION cfg) eqn:Hcfg|];
    simpl negb; cbv iota; rewrite ?Hneg; cbn [andb fst snd]; cbv iota;
    rewrite ?Hneg;
    eexists _, _; (split; [reflexivity|]); cbn [dev_comp set_dev_comp];
    rewrite model_at_update_same by exact Hvalid;
    (split; [reflexivity|]);
    (split; [unfold BT_MESH_PUB_MSG_TOTAL; cbn; lia|]);
    (split; [reflexivity|]); cbn [timer set_timer]; try reflexivity.
  destruct (pub_delay_get_long cfg env Hcfg) as [Heq Hrange].
  eexists. split; [reflexivity|]. split; [exact Heq|exact Hrange].
Qed.

Lemma bt_mesh_model_publish_trigger_witness :
  ∃ st' p',
    bt_mesh_model_publish cfg_all (kernel_at 12345) node_pub (sig_ref 0 0)
    = (Ok, st')
    ∧ pub (model_at (dev_comp st') (sig_ref 0 0)) = Some p'
    ∧ count p' = 3%Z
    ∧ period_start p' = 1000%Z
    ∧ timer p' = Some 365%Z.
Proof.
  assert (Haddr : 0xC000%Z ≠ BT_MESH_ADDR_UNASSIGNED) by discriminate.
  assert (Hlen : 0 < length [1; 2; 3]%Z) by (simpl; lia).
  assert (Hsdu : length [1; 2; 3]%Z + BT_MESH_MIC_SHORT
                 ≤ BT_MESH_TX_SDU_MAX cfg_all)
    by (unfold BT_MESH_MIC_SHORT; simpl; lia).
  assert (Hret : (0 ≤ k_work_reschedule_ret (kernel_at 12345))%Z)
    by (simpl; lia).
  destruct (bt_mesh_model_publish_trigger cfg_all (kernel_at 12345) node_pub
              (sig_ref 0 0)
              {| pub_addr := 0xC000; pub_key := 0; pub_ttl := 7;
                 pub_cred := false; retransmit := 0x2A; period := 0x41;
                 period_div := 0; fast_period := false; delayable := true;
                 count := 0; period_start := 0; update := None;
                 pub_msg := Some {| data := [1; 2; 3]%Z; size := 10 |};
                 timer := None |}
              {| data := [1; 2; 3]%Z; size := 10 |}
              eq_refl Haddr eq_refl Hlen Hsdu Hret)
    as (st' & p' & Hrun & Hpub & Hcount & Hstart & Htimer).
  exists st', p'. repeat split; try assumption.
  cbn in Htimer. destruct Htimer as (d & -> & -> & _). reflexivity.
Defined.

(** C9, as stated, fails: the delay of a delayable publication never
    reaches 500 ms, so no random number gives a delay in the upper part
    [500, 520) of the claimed window, for instance 510 ms. *)
Lemma publish_delay_counterexample :
  (∀ num : Z,
     (pub_delay_get cfg_all (kernel_at num) RANDOM_DELAY_LONG < 500)%Z)
  ∧ ¬ (∃ num : Z,
         pub_delay_get cfg_all (kernel_at num) RANDOM_DELAY_LONG = 510%Z)
  ∧ pub_delay_get cfg_all (kernel_at 479) RANDOM_DELAY_LONG = 499%Z.
Proof.
  assert (H : ∀ num : Z,
            (pub_delay_get cfg_all (kernel_at num) RANDOM_DELAY_LONG < 500)%Z).
  { intros num.
    destruct (pub_delay_get_long cfg_all (kernel_at num) eq_refl) as [_ Hr].
    lia. }
  split; [exact H|]. split; [|reflexivity].
  intros [num Hnum]. specialize (H num). lia.
Qed.

(** ** Dispatch *)

Lemma nth_next_None (comp : bt_mesh_comp) (k : nat) :
  nth_next comp k None = None.
Proof. induction k as [|k IH]; [reflexivity|exact IH]. Qed.

Lemma extensions_walk_loop_total {S : Type} (comp : bt_mesh_comp)
  (model : mref) (cb : mref → S → bt_mesh_walk * S) :
  ∀ (k fuel : nat) (it : option mref) (user_data : S),
    k < fuel →
    nth_next comp k it = Some model →
    is_Some (extensions_walk_loop fuel comp model cb user_data it).
Proof.
  induction k as [|k IH]; intros fuel it user_data Hk Hit;
    (destruct fuel as [|fuel]; [lia|]); simpl.
  - simpl in Hit. subst it.
    rewrite bool_decide_eq_true_2 by reflexivity. eauto.
  - destruct it as [i|]; [|rewrite nth_next_None in Hit; discriminate].
    destruct (bool_decide (i = model)); [eauto|].
    destruct (cb i user_data) as [[] user_data']; [eauto|].
    apply IH; [lia|exact Hit].
Qed.

Lemma bt_mesh_model_extensions_walk_total {S : Type} (cfg : Kconfig)
  (fuel : nat) (comp : bt_mesh_comp) (model : mref)
  (cb : mref → S → bt_mesh_walk * S) (user_data : S) :
  ring_closed fuel comp model →
  is_Some (bt_mesh_model_extensions_walk cfg fuel comp model cb user_data).
Proof.
  intros Hring. unfold bt_mesh_model_extensions_walk.
  destruct (negb (CONFIG_BT_MESH_MODEL_EXTENSIONS cfg)); [eauto|].
  destruct (cb model user_data) as [[] user_data']; [eauto|].
  destruct Hring as [-> | (k & Hk & Hclose)]; [eauto|].
  destruct (next (rt (model_at comp model))) as [n|] eqn:Hn; [|eauto].
  apply (extensions_walk_loop_total comp model cb k); [exact Hk|].
  simpl in Hclose. rewrite Hn in Hclose. exact Hclose.
Qed.

Lemma model_has_dst_total (cfg : Kconfig) (fuel : nat) (comp : bt_mesh_comp)
  (m : mref) (dst : Z) (uuid : option nat) :
  ring_closed fuel comp m →
  is_Some (model_has_dst cfg fuel comp m dst uuid).
Proof.
  intros Hring. unfold model_has_dst.
  destruct (BT_MESH_ADDR_IS_UNICAST dst); [eauto|].
  destruct (BT_MESH_ADDR_IS_VIRTUAL dst).
  - unfold bt_mesh_model_find_uuid.
    destruct (0 <? CONFIG_BT_MESH_LABEL_COUNT cfg); [|simpl; eauto].
    match goal with
    | |- context [bt_mesh_model_extensions_walk cfg fuel comp m ?cb ?ud] =>
      destruct (bt_mesh_model_extensions_walk_total cfg fuel comp m cb ud
                  Hring) as [r ->]
    end.
    simpl. eauto.
  - destruct (_ || _); [|eauto].
    unfold bt_mesh_model_find_group.
    match goal with
    | |- context [bt_mesh_model_extensions_walk cfg fuel comp m ?cb ?ud] =>
      destruct (bt_mesh_model_extensions_walk_total cfg fuel comp m cb ud
                  Hring) as [r ->]
    end.
    simpl. eauto.
Qed.

Lemma element_model_recv_total {W : Type} (cfg : Kconfig) (env : app_env W)
  (fuel : nat) (st : access_state) (ctx : bt_mesh_msg_ctx)
  (buf : net_buf_simple) (e_idx : nat) (opcode : Z) (w : W) :
  (∀ m, ring_closed fuel (dev_comp st) m) →
  is_Some (element_model_recv cfg env fuel st ctx buf e_idx opcode w).
Proof.
  intros Hring. unfold element_model_recv.
  destruct (find_op cfg (elem_at (dev_comp st) e_idx) e_idx opcode)
    as [[o model]|]; [|eauto].
  destruct (negb (bt_mesh_model_has_key _ _)); [eauto|].
  destruct (model_has_dst_total cfg fuel (dev_comp st) model (recv_dst ctx)
              (uuid ctx) (Hring model)) as [has_dst ->].
  simpl. destruct (negb has_dst); [eauto|].
  destruct (_ && _); [eauto|]. destruct (_ && _); [eauto|].
  destruct (run_handler env _ _ _ _ _) as [w' err].
  destruct (negb (err =? 0)%Z); eauto.
Qed.

Lemma deliver_each_total {W : Type} (cfg : Kconfig) (env : app_env W)
  (fuel : nat) (st : access_state) (buf : net_buf_simple) (opcode : Z) :
  (∀ m, ring_closed fuel (dev_comp st) m) →
  ∀ (indices : list nat) (ctx : bt_mesh_msg_ctx) (w : W),
    ∃ statuses ctx' w',
      deliver_each cfg env fuel st ctx buf opcode indices w
      = Some (statuses, ctx', w')
      ∧ length statuses = length indices.
Proof.
  intros Hring. induction indices as [|i indices IH]; intros ctx w.
  - exists [], ctx, w. split; reflexivity.
  - simpl.
    destruct (element_model_recv_total cfg env fuel st ctx buf i opcode w
                Hring) as [[[s ctx1] w1] ->].
    simpl. destruct (IH ctx1 w1) as (ss & ctx' & w' & -> & Hlen).
    simpl. exists (s :: ss), ctx', w'. split; [reflexivity|].
    simpl. rewrite Hlen. reflexivity.
Qed.

(** The element loop returns SUCCESS when a delivery did, and otherwise
    the status it started from. *)
Lemma model_recv_all_deliver_each {W : Type} (cfg : Kconfig)
  (env : app_env W) (fuel : nat) (st : access_state) (buf : net_buf_simple)
  (opcode : Z) :
  ∀ (elems : list bt_mesh_elem) (index : nat) (err : access_status)
    (ctx : bt_mesh_msg_ctx) (w : W),
    model_recv_all cfg env fuel st ctx buf opcode elems index err w
    = '(statuses, ctx', w') ←
        deliver_each cfg env fuel st ctx buf opcode
          (seq index (length elems)) w;
      Some (if bool_decide (ACCESS_STATUS_SUCCESS ∈ statuses)
            then ACCESS_STATUS_SUCCESS else err, ctx', w').
Proof.
  induction elems as [|e elems IH]; intros index err ctx w; [reflexivity|].
  simpl.
  destruct (element_model_recv cfg env fuel st ctx buf index opcode w)
    as [[[s ctx1] w1]|]; [|reflexivity].
  simpl. rewrite IH.
  destruct (deliver_each cfg env fuel st ctx1 buf opcode
              (seq (S index) (length elems)) w1) as [[[ss ctx2] w2]|];
    [|reflexivity].
  simpl. do 2 f_equal. f_equal.
  destruct (decide (s = ACCESS_STATUS_SUCCESS)) as [->|Hs].
  - rewrite (bool_decide_eq_true_2
               (ACCESS_STATUS_SUCCESS = ACCESS_STATUS_SUCCESS))
      by reflexivity.
    rewrite (bool_decide_eq_true_2
               (ACCESS_STATUS_SUCCESS ∈ ACCESS_STATUS_SUCCESS :: ss))
      by apply list_elem_of_here.
    destruct (bool_decide (ACCESS_STATUS_SUCCESS ∈ ss)); reflexivity.
  - rewrite (bool_decide_eq_false_2 (s = ACCESS_STATUS_SUCCESS))
      by exact Hs.
    destruct (decide (ACCESS_STATUS_SUCCESS ∈ ss)) as [Hin|Hnin].
    + rewrite (bool_decide_eq_true_2 (ACCESS_STATUS_SUCCESS ∈ ss))
        by exact Hin.
      rewrite (bool_decide_eq_true_2 (ACCESS_STATUS_SUCCESS ∈ s :: ss))
        by (apply list_elem_of_further; exact Hin).
      reflexivity.
    + rewrite (bool_decide_eq_false_2 (ACCESS_STATUS_SUCCESS ∈ ss))
        by exact Hnin.
      rewrite (bool_decide_eq_false_2 (ACCESS_STATUS_SUCCESS ∈ s :: ss)).
      * reflexivity.
      * intros [Heq|Hin]%elem_of_cons; [congruence|contradiction].
Qed.

(** C4 (amended).  For every received message whose opcode decodes and
    whose destination is not a unicast address, delivery is attempted to
    every element, in order, and the returned status is SUCCESS if at
    least one element's delivery returned SUCCESS and
    MESSAGE_NOT_UNDERSTOOD otherwise, whatever the elements returned. *)
Theorem model_recv_non_unicast {W : Type} (cfg : Kconfig) (env : app_env W)
  (fuel : nat) (st : access_state) (ctx : bt_mesh_msg_ctx)
  (buf buf' : net_buf_simple) (opcode : Z) (w : W) :
  get_opcode buf = Some (inr (opcode, buf')) →
  BT_MESH_ADDR_IS_UNICAST (recv_dst ctx) = false →
  (∀ m, ring_closed fuel (dev_comp st) m) →
  ∃ statuses ctx' w',
    deliver_each cfg env fuel st ctx buf' opcode
      (seq 0 (elem_count (dev_comp st))) w
    = Some (statuses, ctx', w')
    ∧ length statuses = elem_count (dev_comp st)
    ∧ bt_mesh_model_recv cfg env fuel st ctx buf w
      = Some (if bool_decide (ACCESS_STATUS_SUCCESS ∈ statuses)
              then ACCESS_STATUS_SUCCESS
              else ACCESS_STATUS_MESSAGE_NOT_UNDERSTOOD,
              msg_cb_call cfg env st opcode ctx' buf' w').
Proof.
  intros Hop Hdst Hring.
  destruct (deliver_each_total cfg env fuel st buf' opcode Hring
              (seq 0 (elem_count (dev_comp st))) ctx w)
    as (statuses & ctx' & w' & Hdel & Hlen).
  exists statuses, ctx', w'. split; [exact Hdel|].
  split; [rewrite Hlen; apply length_seq|].
  unfold bt_mesh_model_recv. rewrite Hop. simpl. rewrite Hdst.
  rewrite model_recv_all_deliver_each.
  unfold elem_count in Hdel. rewrite Hdel. reflexivity.
Qed.

Lemma node_four_elems_rings (fuel : nat) (m : mref) :
  ring_closed fuel (dev_comp node_four_elems) m.
Proof.
  left. destruct m as [e v i].
  destruct e as [|[|[|[|[|e]]]]], v, i as [|[|i]]; reflexivity.
Qed.

Lemma model_recv_non_unicast_witness :
  ∃ statuses ctx' w',
    deliver_each cfg_all counting_app 1 node_four_elems (ctx_to 0xC000)
      {| data := []; size := 0 |} 1
      (seq 0 (elem_count (dev_comp node_four_elems))) 0
    = Some (statuses, ctx', w')
    ∧ length statuses = elem_count (dev_comp node_four_elems)
    ∧ bt_mesh_model_recv cfg_all counting_app 1 node_four_elems
        (ctx_to 0xC000) {| data := [1%Z]; size := 1 |} 0
      = Some (if bool_decide (ACCESS_STATUS_SUCCESS ∈ statuses)
              then ACCESS_STATUS_SUCCESS
              else ACCESS_STATUS_MESSAGE_NOT_UNDERSTOOD,
              msg_cb_call cfg_all counting_app node_four_elems 1
                ctx' {| data := []; size := 0 |} w').
Proof.
  apply (model_recv_non_unicast cfg_all counting_app 1 node_four_elems
           (ctx_to 0xC000) {| data := [1%Z]; size := 1 |}
           {| data := []; size := 0 |} 1 0).
  - reflexivity.
  - reflexivity.
  - apply node_four_elems_rings.
Defined.

(** C4, as stated, fails: a message with opcode 0x01 for the group
    0xC000 is delivered to the four elements of [node_four_elems]; each
    delivery returns WRONG_OPCODE, and the status returned is
    MESSAGE_NOT_UNDERSTOOD, not the last status WRONG_OPCODE. *)
Lemma model_recv_non_unicast_counterexample :
  BT_MESH_ADDR_IS_UNICAST 0xC000 = false
  ∧ deliver_each cfg_all counting_app 1 node_four_elems (ctx_to 0xC000)
      {| data := []; size := 0 |} 1 (seq 0 4) 0
    = Some ([ACCESS_STATUS_WRONG_OPCODE; ACCESS_STATUS_WRONG_OPCODE;
             ACCESS_STATUS_WRONG_OPCODE; ACCESS_STATUS_WRONG_OPCODE],
            ctx_to 0xC000, 0)
  ∧ bt_mesh_model_recv cfg_all counting_app 1 node_four_elems
      (ctx_to 0xC000) {| data := [1%Z]; size := 1 |} 0
    = Some (ACCESS_STATUS_MESSAGE_NOT_UNDERSTOOD, 0)
  ∧ ACCESS_STATUS_MESSAGE_NOT_UNDERSTOOD ≠ ACCESS_STATUS_WRONG_OPCODE.
Proof. repeat split; try reflexivity. discriminate. Qed.

(** C5 (amended).  With a raw-message callback registered and the
    access-layer message option compiled in: when the opcode decodes and
    the destination is a unicast address of one of the node's elements,
    or is not a unicast address, the callback is invoked after the
    dispatch step, on the context and the application state the dispatch
    leaves; when the destination is a unicast address whose element
    index is out of range, the message is rejected with INVALID_ADDRESS
    and the callback is not invoked; when the opcode does not decode,
    WRONG_OPCODE is returned and the callback is not invoked. *)
Theorem model_recv_msg_cb {W : Type} (cfg : Kconfig) (env : app_env W)
  (fuel : nat) (st : access_state) (ctx : bt_mesh_msg_ctx)
  (buf : net_buf_simple) (w : W) (cb : nat) :
  msg_cb st = Some cb →
  CONFIG_BT_MESH_ACCESS_LAYER_MSG cfg = true →
  (∀ m, ring_closed fuel (dev_comp st) m) →
  let index := u16 (recv_dst ctx - addr (elem_at (dev_comp st) 0)) in
  (∀ e, get_opcode buf = Some (inl e) →
        bt_mesh_model_recv cfg env fuel st ctx buf w
        = Some (ACCESS_STATUS_WRONG_OPCODE, w))
  ∧ (∀ opcode buf',
       get_opcode buf = Some (inr (opcode, buf')) →
       BT_MESH_ADDR_IS_UNICAST (recv_dst ctx) = true →
       (Z.of_nat (elem_count (dev_comp st)) ≤ index)%Z →
       bt_mesh_model_recv cfg env fuel st ctx buf w
       = Some (ACCESS_STATUS_INVALID_ADDRESS, w))
  ∧ (∀ opcode buf',
       get_opcode buf = Some (inr (opcode, buf')) →
       BT_MESH_ADDR_IS_UNICAST (recv_dst ctx) = true →
       (index < Z.of_nat (elem_count (dev_comp st)))%Z →
       ∃ s ctx' w',
         element_model_recv cfg env fuel st ctx buf' (Z.to_nat index)
           opcode w = Some (s, ctx', w')
         ∧ bt_mesh_model_recv cfg env fuel st ctx buf w
           = Some (s, run_msg_cb env cb opcode ctx' buf' w'))
  ∧ (∀ opcode buf',
       get_opcode buf = Some (inr (opcode, buf')) →
       BT_MESH_ADDR_IS_UNICAST (recv_dst ctx) = false →
       ∃ s statuses ctx' w',
         deliver_each cfg env fuel st ctx buf' opcode
           (seq 0 (elem_count (dev_comp st))) w
         = Some (statuses, ctx', w')
         ∧ bt_mesh_model_recv cfg env fuel st ctx buf w
           = Some (s, run_msg_cb env cb opcode ctx' buf' w')).
Proof.
  intros Hcb Hcfg Hring index.
  assert (Hcall : ∀ opcode ctx' buf' w',
            msg_cb_call cfg env st opcode ctx' buf' w'
            = run_msg_cb env cb opcode ctx' buf' w').
  { intros. unfold msg_cb_call. rewrite Hcb, Hcfg. reflexivity. }
  repeat split.
  - intros e Hop. unfold bt_mesh_model_recv. rewrite Hop. reflexivity.
  - intros opcode buf' Hop Hdst Hidx.
    unfold bt_mesh_model_recv. rewrite Hop. simpl. rewrite Hdst.
    fold index.
    destruct (Z.leb_spec (Z.of_nat (elem_count (dev_comp st))) index);
      [reflexivity|lia].
  - intros opcode buf' Hop Hdst Hidx.
    destruct (element_model_recv_total cfg env fuel st ctx buf'
                (Z.to_nat index) opcode w Hring) as [[[s ctx'] w'] Hrecv].
    exists s, ctx', w'. split; [exact Hrecv|].
    unfold bt_mesh_model_recv. rewrite Hop. simpl. rewrite Hdst.
    fold index.
    destruct (Z.leb_spec (Z.of_nat (elem_count (dev_comp st))) index);
      [lia|].
    rewrite Hrecv. simpl. rewrite Hcall. reflexivity.
  - intros opcode buf' Hop Hdst.
    destruct (deliver_each_total cfg env fuel st buf' opcode Hring
                (seq 0 (elem_count (dev_comp st))) ctx w)
      as (statuses & ctx' & w' & Hdel & _).
    eexists _, statuses, ctx', w'. split; [exact Hdel|].
    unfold bt_mesh_model_recv. rewrite Hop. simpl. rewrite Hdst.
    rewrite model_recv_all_deliver_each.
    unfold elem_count in Hdel. rewrite Hdel. simpl. rewrite Hcall.
    reflexivity.
Qed.

Lemma node_one_cb_rings (fuel : nat) (m : mref) :
  ring_closed fuel (dev_comp node_one_cb) m.
Proof.
  left. destruct m as [e v i].
  destruct e as [|[|e]], v, i as [|[|i]]; reflexivity.
Qed.

Lemma model_recv_msg_cb_witness :
  bt_mesh_model_recv cfg_all counting_app 1 node_one_cb (ctx_to 1)
    {| data := [1%Z]; size := 1 |} 0
  = Some (ACCESS_STATUS_WRONG_OPCODE, 1).
Proof.
  destruct (model_recv_msg_cb cfg_all counting_app 1 node_one_cb (ctx_to 1)
              {| data := [1%Z]; size := 1 |} 0 0 eq_refl eq_refl
              (node_one_cb_rings 1)) as (_ & _ & Hin & _).
  assert (Hidx : (u16 (recv_dst (ctx_to 1)
                       - addr (elem_at (dev_comp node_one_cb) 0))
                  < Z.of_nat (elem_count (dev_comp node_one_cb)))%Z)
    by (vm_compute; reflexivity).
  destruct (Hin 1%Z {| data := []; size := 0 |} eq_refl eq_refl Hidx)
    as (s & ctx' & w' & Hel & Hrecv).
  rewrite Hrecv. vm_compute in Hel. injection Hel as <- <- <-.
  reflexivity.
Defined.

(** C5, as stated, fails: [node_one_cb] has one element at address 1
    and a registered raw-message callback.  A message for the unicast
    address 5 is rejected with INVALID_ADDRESS and the callback has not
    been called (the counter of [counting_app] stays 0); for the
    address 1 it is called once. *)
Lemma model_recv_msg_cb_counterexample :
  msg_cb node_one_cb = Some 0
  ∧ CONFIG_BT_MESH_ACCESS_LAYER_MSG cfg_all = true
  ∧ BT_MESH_ADDR_IS_UNICAST 5 = true
  ∧ bt_mesh_model_recv cfg_all counting_app 1 node_one_cb (ctx_to 5)
      {| data := [1%Z]; size := 1 |} 0
    = Some (ACCESS_STATUS_INVALID_ADDRESS, 0)
  ∧ bt_mesh_model_recv cfg_all counting_app 1 node_one_cb (ctx_to 1)
      {| data := [1%Z]; size := 1 |} 0
    = Some (ACCESS_STATUS_WRONG_OPCODE, 1).
Proof. repeat split; reflexivity. Qed.

(** ** Streaming *)

(** C7, at the failing input.  In [node_extends_and_corresponds] model 1
    of element 0 is the extending side of an extension record and of a
    correspondence record.  Page 1 read in one piece has 10 octets,
    while [mod_items_size] counts the correspondence record as an
    extension entry and the page size is reported as 11.  Read with a
    tailroom of 7, the first call gives 7 octets and the second call, at
    offset 7, skips element 0 as if it had 7 octets and starts again at
    the first octet of element 1: the concatenation is not the page. *)
Theorem page1_streaming_diverges :
  let st := node_extends_and_corresponds in
  MOD_REL_LIST_FOR_EACH (mod_rel_list st)
  = [ {| elem_base := 0; idx_base := 0; elem_ext := 0; idx_ext := 1;
         type := RELATION_TYPE_EXT |};
      {| elem_base := 1; idx_base := 0; elem_ext := 0; idx_ext := 1;
         type := 0 |} ]
  ∧ get_page_chunk cfg_all st 1 0 100 = [2; 0; 0; 5; 0; 0; 1; 0; 1; 0]%Z
  ∧ bt_mesh_comp_page_size cfg_all st 1 = 11
  ∧ get_page_chunk cfg_all st 1 0 7 = [2; 0; 0; 5; 0; 0; 1]%Z
  ∧ get_page_chunk cfg_all st 1 7 7 = [1; 0; 1; 0]%Z
  ∧ reassemble cfg_all st 1 7 11 0 = [2; 0; 0; 5; 0; 0; 1; 1; 0; 1; 0]%Z
  ∧ reassemble cfg_all st 1 7 11 0 ≠ get_page_chunk cfg_all st 1 0 100.
Proof.
  cbv zeta. repeat split; try reflexivity. vm_compute. discriminate.
Qed.

(** *** The writer as a window on a list of octets *)

Lemma emit_nil (w : writer) : emit w [] = w.
Proof.
  destruct w as [[d sz] off]. unfold emit. simpl.
  rewrite drop_nil, take_nil, app_nil_r, Nat.sub_0_r. reflexivity.
Qed.

Lemma data_buf_add_mem_offset_emit (w : writer) (mem : list Z) :
  data_buf_add_mem_offset w mem = emit w mem.
Proof.
  destruct w as [[d sz] off].
  unfold data_buf_add_mem_offset, emit, net_buf_simple_add_mem. simpl.
  destruct (Nat.leb_spec (length mem) off) as [Hle|Hlt].
  - rewrite drop_ge by exact Hle. rewrite take_nil, app_nil_r. reflexivity.
  - replace (off - length mem) with 0 by lia. do 3 f_equal.
    set (T := net_buf_simple_tailroom {| data := d; size := sz |}).
    destruct (Nat.le_gt_cases T (length mem - off)) as [H1|H1].
    + rewrite Nat.min_l by exact H1. reflexivity.
    + rewrite Nat.min_r by lia.
      rewrite !take_ge by (rewrite length_drop; lia). reflexivity.
Qed.

Lemma emit_app (w : writer) (a b : list Z) :
  emit (emit w a) b = emit w (a ++ b).
Proof.
  destruct w as [[d sz] off].
  unfold emit, net_buf_simple_tailroom. simpl. f_equal.
  - f_equal. rewrite <- app_assoc. f_equal.
    rewrite drop_app, take_app. f_equal. f_equal.
    rewrite length_app, length_take, length_drop. lia.
  - rewrite length_app. lia.
Qed.

Lemma emit_fold_left {A : Type} (f : A → list Z) (g : writer → A → writer)
  (l : list A) :
  (∀ w x, g w x = emit w (f x)) →
  ∀ w, fold_left g l w = emit w (concat (map f l)).
Proof.
  intros Hg. induction l as [|x l IH]; intros w; simpl.
  - symmetry. apply emit_nil.
  - rewrite IH, Hg, emit_app. reflexivity.
Qed.

Lemma emit_no_room (w : writer) (bytes : list Z) :
  net_buf_simple_tailroom (fst w) = 0 → fst (emit w bytes) = fst w.
Proof.
  destruct w as [[d sz] off]. unfold emit. simpl. intros ->.
  rewrite take_0, app_nil_r. reflexivity.
Qed.

Lemma emit_skip (w : writer) (bytes : list Z) :
  length bytes ≤ snd w → emit w bytes = (fst w, snd w - length bytes).
Proof.
  destruct w as [[d sz] off]. unfold emit. simpl. intros Hle.
  rewrite drop_ge by exact Hle. rewrite take_nil, app_nil_r. reflexivity.
Qed.

Lemma emit_fresh (B off : nat) (bytes : list Z) :
  data (fst (emit (NET_BUF_SIMPLE B, off) bytes)) = take B (drop off bytes).
Proof.
  unfold emit, net_buf_simple_tailroom. simpl. rewrite Nat.sub_0_r.
  reflexivity.
Qed.

Lemma data_buf_add_le16_offset_emit (w : writer) (val : Z) :
  data_buf_add_le16_offset w val = emit w (sys_put_le16 val).
Proof. apply data_buf_add_mem_offset_emit. Qed.

Lemma data_buf_add_u8_offset_emit (w : writer) (val : Z) :
  data_buf_add_u8_offset w val = emit w [u8 val].
Proof. apply data_buf_add_mem_offset_emit. Qed.

(** *** Page 0 *)

Lemma length_model_ids (vnd : bool) (l : list bt_mesh_model) :
  length (concat (map (model_id_bytes vnd) l))
  = length l * (if vnd then 4 else 2).
Proof.
  induction l as [|m l IH]; [reflexivity|].
  simpl. rewrite length_app, IH. destruct vnd; simpl; lia.
Qed.

Lemma length_elem_bytes (e : bt_mesh_elem) :
  length (elem_bytes e) = bt_mesh_comp_elem_size e.
Proof.
  unfold elem_bytes, bt_mesh_comp_elem_size, model_count, vnd_model_count.
  rewrite !length_app, !length_model_ids. simpl. lia.
Qed.

Lemma comp_add_model_emit (w : writer) (m : bt_mesh_model) (vnd : bool) :
  comp_add_model w m vnd = emit w (model_id_bytes vnd m).
Proof.
  unfold comp_add_model, model_id_bytes. destruct vnd.
  - rewrite !data_buf_add_le16_offset_emit, emit_app. reflexivity.
  - apply data_buf_add_le16_offset_emit.
Qed.

Lemma comp_add_elem_partial (w : writer) (e : bt_mesh_elem) :
  comp_add_elem w e true = (Ok, emit w (elem_bytes e))
  ∨ (comp_add_elem w e true = (Err ENOBUFS, w)
     ∧ net_buf_simple_tailroom (fst w) = 0).
Proof.
  destruct w as [buf off]. unfold comp_add_elem.
  destruct (Nat.leb_spec (bt_mesh_comp_elem_size e) off) as [Hle|Hlt].
  - left. rewrite emit_skip by (rewrite length_elem_bytes; exact Hle).
    rewrite length_elem_bytes. reflexivity.
  - cbn [negb andb orb].
    destruct (Nat.leb_spec (net_buf_simple_tailroom buf) 0) as [H0|Hpos].
    + right. split; [reflexivity|]. simpl. lia.
    + left. rewrite data_buf_add_le16_offset_emit.
      rewrite !data_buf_add_u8_offset_emit.
      rewrite (emit_fold_left (model_id_bytes true))
        by (intros; apply comp_add_model_emit).
      rewrite (emit_fold_left (model_id_bytes false))
        by (intros; apply comp_add_model_emit).
      rewrite !emit_app. unfold elem_bytes.
      rewrite <- ?app_assoc. reflexivity.
Qed.

Lemma comp_add_elems_partial (elems : list bt_mesh_elem) :
  ∀ w : writer,
    fst (comp_add_elems w elems true)
    = fst (emit w (concat (map elem_bytes elems))).
Proof.
  induction elems as [|e elems IH]; intros w;
    cbn [comp_add_elems map concat].
  - rewrite emit_nil. reflexivity.
  - destruct (comp_add_elem_partial w e) as [-> | [-> Hroom]].
    + rewrite IH, emit_app. reflexivity.
    + symmetry. apply emit_no_room, Hroom.
Qed.

(** Page 0 with partial elements allowed: the octets of the page from
    [offset] on, as far as the tailroom goes. *)
Lemma page0_contents (cfg : Kconfig) (st : access_state)
  (buf : net_buf_simple) (offset : nat) :
  bt_mesh_comp_data_get_page_0 cfg st buf offset true
  = (Ok, fst (emit (buf, offset) (page0_bytes cfg (dev_comp st)))).
Proof.
  unfold bt_mesh_comp_data_get_page_0, page0_bytes.
  rewrite !data_buf_add_le16_offset_emit, comp_add_elems_partial.
  rewrite !emit_app, <- ?app_assoc. reflexivity.
Qed.

Lemma comp_page_0_size_length (cfg : Kconfig) (st : access_state) :
  comp_page_0_size st = length (page0_bytes cfg (dev_comp st)).
Proof.
  unfold comp_page_0_size, page0_bytes.
  rewrite !length_app. simpl length.
  assert (H : ∀ (l : list bt_mesh_elem) (n : nat),
            fold_left (λ size e, size + bt_mesh_comp_elem_size e) l n
            = n + length (concat (map elem_bytes l))).
  { induction l as [|e l IH]; intros n; cbn [fold_left map concat];
      [simpl; lia|].
    rewrite IH, length_app, length_elem_bytes. lia. }
  rewrite H. lia.
Qed.

(** *** Page 2 *)

Lemma length_comp2_record_bytes (r : bt_mesh_comp2_record) :
  length (comp2_record_bytes r) = comp2_record_size r.
Proof.
  unfold comp2_record_bytes, comp2_record_size, elem_offset_cnt, data_len.
  rewrite !length_app. simpl. lia.
Qed.

Lemma data_buf_add_mem_offset_if (w : writer) (mem : list Z) :
  (if 0 <? length mem then data_buf_add_mem_offset w mem else w)
  = emit w mem.
Proof.
  destruct mem as [|x mem]; simpl Nat.ltb; cbv iota.
  - symmetry. apply emit_nil.
  - apply data_buf_add_mem_offset_emit.
Qed.

Lemma page2_add_records_partial (recs : list bt_mesh_comp2_record) :
  ∀ w : writer,
    fst (page2_add_records w recs true)
    = fst (emit w (concat (map comp2_record_bytes recs))).
Proof.
  induction recs as [|r recs IH]; intros [buf off];
    cbn [page2_add_records map concat].
  - rewrite emit_nil. reflexivity.
  - rewrite <- emit_app.
    destruct (Nat.leb_spec (comp2_record_size r) off) as [Hle|Hlt].
    + rewrite IH. f_equal. f_equal.
      rewrite emit_skip by (rewrite length_comp2_record_bytes; exact Hle).
      rewrite length_comp2_record_bytes. reflexivity.
    + cbn [negb andb orb].
      destruct (Nat.leb_spec (net_buf_simple_tailroom buf) 0) as [H0|Hpos].
      * rewrite !emit_no_room; [reflexivity| |];
          rewrite ?emit_no_room; simpl; lia.
      * rewrite IH. f_equal. f_equal.
        unfold elem_offset_cnt, data_len.
        rewrite !data_buf_add_mem_offset_if.
        rewrite !data_buf_add_le16_offset_emit, !data_buf_add_u8_offset_emit.
        rewrite !emit_app. unfold comp2_record_bytes.
        rewrite <- ?app_assoc. reflexivity.
Qed.

Lemma comp_page_2_size_length (st : access_state) (comp2 : bt_mesh_comp2) :
  dev_comp2 st = Some comp2 →
  comp_page_2_size st = length (page2_bytes comp2).
Proof.
  intros Hc. unfold comp_page_2_size, page2_bytes. rewrite Hc.
  assert (H : ∀ (l : list bt_mesh_comp2_record) (n : nat),
            fold_left
              (λ size r, size + (8 + elem_offset_cnt r + data_len r)) l n
            = n + length (concat (map comp2_record_bytes l))).
  { induction l as [|r l IH]; intros n; cbn [fold_left map concat];
      [simpl; lia|].
    rewrite IH, length_app, length_comp2_record_bytes.
    unfold comp2_record_size. lia. }
  rewrite H. lia.
Qed.

(** *** Page 1 *)

Lemma prep_model_item_header_emit (rels : list mod_relation)
  (m : bt_mesh_model) (w : writer) (sig_offset : Z) :
  prep_model_item_header rels m w sig_offset
  = (fst (count_mod_ext rels m sig_offset),
     emit w (model_item_header rels m sig_offset)).
Proof.
  unfold prep_model_item_header, model_item_header.
  destruct (count_mod_ext rels m sig_offset) as [cnt max_offset].
  destruct (is_cor_present rels m sig_offset) as [cor_id|]; simpl fst;
    simpl is_Some_dec; cbv iota.
  - rewrite !data_buf_add_u8_offset_emit, emit_app. reflexivity.
  - rewrite data_buf_add_u8_offset_emit. reflexivity.
Qed.

Lemma add_items_to_page_emit (rels : list mod_relation) (w : writer)
  (m : bt_mesh_model) (ext_mod_cnt sig_offset : Z) :
  add_items_to_page rels w m ext_mod_cnt sig_offset
  = emit w (concat (map (model_item_entry m ext_mod_cnt sig_offset)
                      (MOD_REL_LIST_FOR_EACH rels))).
Proof.
  unfold add_items_to_page. apply emit_fold_left.
  intros w' r. unfold model_item_entry.
  destruct (_ && (type r =? RELATION_TYPE_EXT)%Z);
    [|symmetry; apply emit_nil].
  destruct (_ && _ && _).
  - apply data_buf_add_u8_offset_emit.
  - rewrite !data_buf_add_u8_offset_emit, emit_app. reflexivity.
Qed.

Lemma page1_add_model_emit (rels : list mod_relation) (sig_offset : Z)
  (w : writer) (m : bt_mesh_model) :
  page1_add_model rels sig_offset w m
  = emit w (model_item_bytes rels sig_offset m).
Proof.
  unfold page1_add_model, model_item_bytes.
  rewrite prep_model_item_header_emit.
  destruct (fst (count_mod_ext rels m sig_offset) =? 0)%Z.
  - rewrite app_nil_r. reflexivity.
  - rewrite add_items_to_page_emit, emit_app. reflexivity.
Qed.

Lemma page1_add_elems_partial (rels : list mod_relation)
  (elems : list bt_mesh_elem) :
  Forall (λ e, page1_elem_size rels e = length (page1_elem_bytes rels e))
    elems →
  ∀ w : writer,
    fst (page1_add_elems rels w elems true)
    = fst (emit w (concat (map (page1_elem_bytes rels) elems))).
Proof.
  induction elems as [|e elems IH]; intros Hsz [buf off];
    cbn [page1_add_elems map concat].
  - rewrite emit_nil. reflexivity.
  - apply Forall_cons in Hsz as [He Hsz]. rewrite <- emit_app.
    destruct (Nat.leb_spec (page1_elem_size rels e) off) as [Hle|Hlt].
    + rewrite (IH Hsz). f_equal. f_equal.
      rewrite emit_skip by (rewrite <- He; exact Hle).
      rewrite <- He. reflexivity.
    + cbn [negb andb orb].
      destruct (Nat.leb_spec (net_buf_simple_tailroom buf) 0) as [H0|Hpos].
      * rewrite !emit_no_room; [reflexivity| |];
          rewrite ?emit_no_room; simpl; lia.
      * rewrite (IH Hsz). f_equal. f_equal.
        rewrite !data_buf_add_u8_offset_emit.
        rewrite (emit_fold_left
                   (model_item_bytes rels (Z.of_nat (model_count e))))
          by (intros; apply page1_add_model_emit).
        rewrite (emit_fold_left (model_item_bytes rels 0))
          by (intros; apply page1_add_model_emit).
        rewrite !emit_app. unfold page1_elem_bytes.
        rewrite <- ?app_assoc. reflexivity.
Qed.

Lemma comp_page_1_size_length (st : access_state) :
  page1_sizes_agree st → comp_page_1_size st = length (page1_bytes st).
Proof.
  unfold page1_sizes_agree, comp_page_1_size, page1_bytes.
  generalize (mod_rel_list st) as rels. intros rels.
  assert (H : ∀ (l : list bt_mesh_elem) (n : nat),
            Forall (λ e, page1_elem_size rels e
                         = length (page1_elem_bytes rels e)) l →
            fold_left (λ size e, size + page1_elem_size rels e) l n
            = n + length (concat (map (page1_elem_bytes rels) l))).
  { induction l as [|e l IH]; intros n Hl; cbn [fold_left map concat];
      [simpl; lia|].
    apply Forall_cons in Hl as [He Hl].
    rewrite (IH _ Hl), length_app, He. lia. }
  intros Hagree. rewrite (H _ 0 Hagree). lia.
Qed.

(** *** Reassembly *)

Lemma take_drop_rest (l : list Z) (B : nat) :
  take B l ++ drop (length (take B l)) l = l.
Proof.
  rewrite length_take.
  destruct (Nat.le_gt_cases B (length l)) as [Hle|Hgt].
  - rewrite Nat.min_l by exact Hle. apply take_drop.
  - rewrite Nat.min_r by lia. rewrite drop_all, app_nil_r.
    apply take_ge. lia.
Qed.

(** When every call yields the window of [bytes] it is asked for,
    enough calls with a positive tailroom yield [bytes] from the
    starting offset to the end. *)
Lemma reassemble_window (cfg : Kconfig) (st : access_state) (page : Z)
  (bytes : list Z) (B : nat) :
  (∀ off, get_page_chunk cfg st page off B = take B (drop off bytes)) →
  0 < B →
  ∀ rounds off,
    length bytes - off ≤ rounds →
    reassemble cfg st page B rounds off = drop off bytes.
Proof.
  intros Hchunk HB. induction rounds as [|rounds IH]; intros off Hr.
  - simpl. rewrite drop_ge by lia. reflexivity.
  - cbn [reassemble]. rewrite Hchunk.
    rewrite IH.
    + rewrite <- drop_drop. apply take_drop_rest.
    + rewrite length_take, length_drop. lia.
Qed.

Lemma get_page_contents_current (cfg : Kconfig) (st : access_state)
  (buf : net_buf_simple) (page : Z) (offset : nat) :
  (0 ≤ page < 128)%Z →
  get_page_contents cfg st buf PAGE_TYPE_COMP page offset true
  = current_page_contents cfg st buf PAGE_TYPE_COMP page offset true.
Proof.
  intros Hp. unfold get_page_contents.
  destruct (CONFIG_BT_MESH_HIGH_DATA_PAGES cfg); [|reflexivity].
  destruct (Z.leb_spec 128 page) as [|_]; [lia|].
  rewrite andb_false_r, Z.mod_small by lia. reflexivity.
Qed.

Lemma page_size_get_current (cfg : Kconfig) (st : access_state) (page : Z) :
  (0 ≤ page < 128)%Z →
  bt_mesh_comp_page_size cfg st page
  = current_page_size cfg st PAGE_TYPE_COMP page.
Proof.
  intros Hp. unfold bt_mesh_comp_page_size, page_size_get.
  destruct (CONFIG_BT_MESH_HIGH_DATA_PAGES cfg); [|reflexivity].
  destruct (Z.leb_spec 128 page) as [|_]; [lia|].
  rewrite andb_false_r, Z.mod_small by lia. reflexivity.
Qed.

(** Page 0 round trip: the size is the number of octets of the page,
    one call with that much tailroom yields the page, and successive
    calls with any positive tailroom, from any offset, yield the page
    from that offset on. *)
Lemma page0_streaming (cfg : Kconfig) (st : access_state) (B offset : nat) :
  CONFIG_BT_MESH_LARGE_COMP_DATA_SRV cfg = true →
  0 < B →
  let page := page0_bytes cfg (dev_comp st) in
  bt_mesh_comp_page_size cfg st 0 = length page
  ∧ get_page_chunk cfg st 0 0 (length page) = page
  ∧ reassemble cfg st 0 B (bt_mesh_comp_page_size cfg st 0) offset
    = drop offset page.
Proof.
  intros Hsrv HB page.
  assert (Hchunk : ∀ off n,
            get_page_chunk cfg st 0 off n = take n (drop off page)).
  { intros off n. unfold get_page_chunk, bt_mesh_comp_data_get_page.
    rewrite Hsrv, get_page_contents_current by lia.
    unfold current_page_contents. simpl Z.eqb. cbv iota.
    rewrite page0_contents. apply emit_fresh. }
  assert (Hsize : bt_mesh_comp_page_size cfg st 0 = length page).
  { rewrite page_size_get_current by lia.
    apply (comp_page_0_size_length cfg st). }
  split; [exact Hsize|]. split.
  - rewrite Hchunk, drop_0. apply take_ge. lia.
  - apply reassemble_window; [intros; apply Hchunk|exact HB|lia].
Qed.

(** Page 2 round trip, when page 2 is compiled in and registered. *)
Lemma page2_streaming (cfg : Kconfig) (st : access_state)
  (comp2 : bt_mesh_comp2) (B offset : nat) :
  CONFIG_BT_MESH_LARGE_COMP_DATA_SRV cfg = true →
  CONFIG_BT_MESH_COMP_PAGE_2 cfg = true →
  dev_comp2 st = Some comp2 →
  0 < B →
  let page := page2_bytes comp2 in
  bt_mesh_comp_page_size cfg st 2 = length page
  ∧ get_page_chunk cfg st 2 0 (length page) = page
  ∧ reassemble cfg st 2 B (bt_mesh_comp_page_size cfg st 2) offset
    = drop offset page.
Proof.
  intros Hsrv Hp2 Hc2 HB page.
  assert (Hchunk : ∀ off n,
            get_page_chunk cfg st 2 off n = take n (drop off page)).
  { intros off n. unfold get_page_chunk, bt_mesh_comp_data_get_page.
    rewrite Hsrv, get_page_contents_current by lia.
    unfold current_page_contents. rewrite Hp2. simpl Z.eqb.
    rewrite andb_false_r. cbn [andb]. cbv iota.
    unfold bt_mesh_comp_data_get_page_2. rewrite Hc2.
    cbn [snd]. rewrite page2_add_records_partial. apply emit_fresh. }
  assert (Hsize : bt_mesh_comp_page_size cfg st 2 = length page).
  { rewrite page_size_get_current by lia. unfold current_page_size.
    rewrite Hp2. simpl Z.eqb. rewrite andb_false_r. cbn [andb]. cbv iota.
    apply comp_page_2_size_length, Hc2. }
  split; [exact Hsize|]. split.
  - rewrite Hchunk, drop_0. apply take_ge. lia.
  - apply reassemble_window; [intros; apply Hchunk|exact HB|lia].
Qed.

(** Page 1 round trip, when page 1 is compiled in and the element sizes
    agree with the octets written. *)
Lemma page1_streaming_consistent (cfg : Kconfig) (st : access_state)
  (B offset : nat) :
  CONFIG_BT_MESH_LARGE_COMP_DATA_SRV cfg = true →
  CONFIG_BT_MESH_COMP_PAGE_1 cfg = true →
  page1_sizes_agree st →
  0 < B →
  let page := page1_bytes st in
  bt_mesh_comp_page_size cfg st 1 = length page
  ∧ get_page_chunk cfg st 1 0 (length page) = page
  ∧ reassemble cfg st 1 B (bt_mesh_comp_page_size cfg st 1) offset
    = drop offset page.
Proof.
  intros Hsrv Hp1 Hagree HB page.
  assert (Hchunk : ∀ off n,
            get_page_chunk cfg st 1 off n = take n (drop off page)).
  { intros off n. unfold get_page_chunk, bt_mesh_comp_data_get_page.
    rewrite Hsrv, get_page_contents_current by lia.
    unfold current_page_contents. rewrite Hp1. simpl Z.eqb.
    cbn [andb]. cbv iota.
    unfold bt_mesh_comp_data_get_page_1. cbn [snd].
    rewrite page1_add_elems_partial by exact Hagree. apply emit_fresh. }
  assert (Hsize : bt_mesh_comp_page_size cfg st 1 = length page).
  { rewrite page_size_get_current by lia. unfold current_page_size.
    rewrite Hp1. simpl Z.eqb. cbn [andb]. cbv iota.
    apply comp_page_1_size_length, Hagree. }
  split; [exact Hsize|]. split.
  - rewrite Hchunk, drop_0. apply take_ge. lia.
  - apply reassemble_window; [intros; apply Hchunk|exact HB|lia].
Qed.

(** The sizes do not agree in [node_extends_and_corresponds]. *)
Lemma node_extends_and_corresponds_sizes :
  ¬ page1_sizes_agree node_extends_and_corresponds.
Proof.
  unfold page1_sizes_agree. intros H.
  apply Forall_cons in H as [H _]. vm_compute in H. discriminate.
Qed.

(** ** Page number of a Composition Data Get request *)

Lemma current_page_contents_low (cfg : Kconfig) (st : access_state)
  (buf : net_buf_simple) (page : Z) (offset : nat) :
  fst (current_page_contents cfg st buf PAGE_TYPE_COMP page offset true)
  = Err ENOENT
  ↔ ¬ (page = 0%Z ∨ (CONFIG_BT_MESH_COMP_PAGE_1 cfg = true ∧ page = 1%Z)
       ∨ (CONFIG_BT_MESH_COMP_PAGE_2 cfg = true ∧ page = 2%Z)).
Proof.
  unfold current_page_contents, bt_mesh_comp_data_get_page_0,
    bt_mesh_comp_data_get_page_1, bt_mesh_comp_data_get_page_2.
  destruct (CONFIG_BT_MESH_COMP_PAGE_1 cfg), (CONFIG_BT_MESH_COMP_PAGE_2 cfg),
    (Z.eqb_spec page 0) as [E0|E0], (Z.eqb_spec page 1) as [E1|E1],
    (Z.eqb_spec page 2) as [E2|E2], (dev_comp2 st); cbn [andb fst];
    (split; [try discriminate; intros _ H|
             intros H; try reflexivity; exfalso; apply H]);
    try tauto; try lia; intuition (try discriminate; try lia).
Qed.

Lemma stored_page_path_comp_None (cfg : Kconfig) (page : Z) :
  stored_page_path cfg PAGE_TYPE_COMP page = None
  ↔ ¬ (page = 128%Z ∨ (CONFIG_BT_MESH_COMP_PAGE_1 cfg = true ∧ page = 129%Z)
       ∨ (CONFIG_BT_MESH_COMP_PAGE_2 cfg = true ∧ page = 130%Z)).
Proof.
  unfold stored_page_path, stored_pages.
  destruct (CONFIG_BT_MESH_COMP_PAGE_1 cfg),
    (CONFIG_BT_MESH_COMP_PAGE_2 cfg),
    (CONFIG_BT_MESH_LARGE_COMP_DATA_SRV cfg);
    cbn [stored_page_path_loop app];
    destruct (Z.eqb_spec 128 page), (Z.eqb_spec 129 page),
      (Z.eqb_spec 130 page);
    cbn [andb bool_decide decide_rel page_type_eq_dec];
    simpl; intuition (try discriminate; try lia).
Qed.

Lemma get_page_contents_served (cfg : Kconfig) (st : access_state)
  (page : Z) :
  (if CONFIG_BT_MESH_HIGH_DATA_PAGES cfg then low_page cfg (page mod 128)
   else low_page cfg page) →
  page_served cfg st page.
Proof.
  intros Hlow buf offset. unfold get_page_contents.
  destruct (CONFIG_BT_MESH_HIGH_DATA_PAGES cfg).
  - assert (Hcur : fst (current_page_contents cfg st buf PAGE_TYPE_COMP
                          (page mod 128) offset true) ≠ Err ENOENT).
    { intros H. apply current_page_contents_low in H. apply H, Hlow. }
    destruct (CONFIG_BT_SETTINGS cfg && (128 <=? page)%Z); [|exact Hcur].
    destruct (stored_page_read cfg st buf PAGE_TYPE_COMP page offset true)
      as [[|e] buf'].
    + discriminate.
    + destruct (bool_decide_reflect (e = ENOENT)); [exact Hcur|].
      simpl. congruence.
  - intros H. apply current_page_contents_low in H. apply H, Hlow.
Qed.

Lemma get_page_contents_absent (cfg : Kconfig) (st : access_state)
  (page : Z) :
  ¬ low_page cfg
      (if CONFIG_BT_MESH_HIGH_DATA_PAGES cfg then page mod 128 else page) →
  (CONFIG_BT_MESH_HIGH_DATA_PAGES cfg = true →
   stored_page_path cfg PAGE_TYPE_COMP page = None) →
  page_absent cfg st page.
Proof.
  intros Hlow Hpath buf offset. unfold get_page_contents.
  destruct (CONFIG_BT_MESH_HIGH_DATA_PAGES cfg);
    [specialize (Hpath eq_refl)|].
  - assert (Hcur : fst (current_page_contents cfg st buf PAGE_TYPE_COMP
                          (page mod 128) offset true) = Err ENOENT)
      by (apply current_page_contents_low, Hlow).
    destruct (CONFIG_BT_SETTINGS cfg) eqn:Hs; [|exact Hcur].
    destruct (Z.leb_spec 128 page) as [Hge|Hlt]; [|exact Hcur].
    cbn [andb]. unfold stored_page_read. rewrite Hs, Hpath. simpl.
    exact Hcur.
  - apply current_page_contents_low, Hlow.
Qed.

(** X1.  [bt_mesh_comp_parse_page] consumes the leading octet of the
    request and answers the highest page not above it that
    [get_page_contents] serves: the page returned is never answered
    with [-ENOENT], and every page between it and the requested one
    is. *)
Theorem parse_page_highest_served (cfg : Kconfig) (st : access_state)
  (b : Z) (rest : list Z) (sz : nat) :
  is_u8 b →
  ∃ r,
    bt_mesh_comp_parse_page cfg {| data := b :: rest; size := sz |}
    = Some (r, {| data := rest; size := sz - 1 |})
    ∧ (0 ≤ r ≤ b)%Z
    ∧ page_served cfg st r
    ∧ ∀ q, (r < q ≤ b)%Z → page_absent cfg st q.
Proof.
  intros [Hlo Hhi]. unfold bt_mesh_comp_parse_page, net_buf_simple_pull_u8.
  cbn [data mbind option_bind]. eexists. split; [reflexivity|].
  assert (Hmod : ∀ q, (0 ≤ q < 256)%Z →
            (q < 128 ∧ q mod 128 = q)%Z ∨ (128 ≤ q ∧ q mod 128 = q - 128)%Z).
  { intros q Hq. destruct (Z.lt_ge_cases q 128); [left|right];
      (split; [assumption|]).
    - apply Z.mod_small. lia.
    - symmetry. apply Z.mod_unique with (q := 1%Z); lia. }
  destruct (CONFIG_BT_MESH_HIGH_DATA_PAGES cfg) eqn:Hh,
    (CONFIG_BT_MESH_COMP_PAGE_1 cfg) eqn:H1,
    (CONFIG_BT_MESH_COMP_PAGE_2 cfg) eqn:H2;
    cbn [andb];
    repeat match goal with
           | |- context [(?k <=? b)%Z] => destruct (Z.leb_spec k b)
           end;
    (split; [lia|]);
    (split;
     [apply get_page_contents_served; rewrite Hh; unfold low_page;
      rewrite ?H1, ?H2; simpl; tauto
     |intros q Hq; destruct (Hmod q ltac:(lia)) as [[? Hm]|[? Hm]];
      (apply get_page_contents_absent;
       [rewrite Hh, ?Hm; unfold low_page; rewrite ?H1, ?H2;
        intuition (try discriminate; try lia)
       |rewrite Hh; intros Hen;
        first [discriminate Hen
              |apply stored_page_path_comp_None; rewrite ?H1, ?H2;
               intuition (try discriminate; try lia)]])]).
Qed.

Lemma parse_page_highest_served_witness :
  is_u8 200
  ∧ ∃ r,
      bt_mesh_comp_parse_page cfg_all {| data := [200; 0; 0]%Z; size := 3 |}
      = Some (r, {| data := [0; 0]%Z; size := 3 - 1 |})
      ∧ (0 ≤ r ≤ 200)%Z
      ∧ page_served cfg_all (node_one ∅) r
      ∧ ∀ q, (r < q ≤ 200)%Z → page_absent cfg_all (node_one ∅) q.
Proof.
  assert (H : is_u8 200) by (unfold is_u8; lia).
  split; [exact H|].
  exact (parse_page_highest_served cfg_all (node_one ∅) 200 [0; 0]%Z 3 H).
Defined.

(** ** Publication period and model lookup *)

Lemma land_63_bounds (x : Z) : (0 ≤ x → 0 ≤ Z.land x 63 ≤ 63)%Z.
Proof.
  intros Hx. split; [apply Z.land_nonneg; lia|].
  replace (Z.land x 63) with (x mod 64)%Z
    by (symmetry; apply (Z.land_ones x 6); lia).
  pose proof (Z.mod_pos_bound x 64). lia.
Qed.

Lemma shiftr_le_self (x n : Z) : (0 ≤ x → 0 ≤ n → 0 ≤ Z.shiftr x n ≤ x)%Z.
Proof.
  intros Hx Hn. rewrite Z.shiftr_div_pow2 by lia.
  assert (0 < 2 ^ n)%Z by (apply Z.pow_pos_nonneg; lia).
  split; [apply Z.div_pos; lia|].
  apply Z.div_le_upper_bound; [lia|]. nia.
Qed.

(** X2.  The publish period of a model with a publication context: the
    result is 0 exactly when the period octet has no steps; a non-zero
    period is at least 100 ms and at most 63 steps of 10 minutes,
    whatever the fast-period divisor. *)
Theorem pub_period_get_bounds (m : bt_mesh_model) (p : bt_mesh_model_pub) :
  pub m = Some p →
  is_u8 (period p) →
  (0 ≤ period_div p)%Z →
  ∃ ms,
    bt_mesh_model_pub_period_get m = Some ms
    ∧ (ms = 0%Z ↔ Z.land (period p) 0x3f = 0%Z)
    ∧ (ms ≠ 0%Z → 100 ≤ ms ≤ 37800000)%Z.
Proof.
  intros Hp Hu8 Hdiv. unfold bt_mesh_model_pub_period_get. rewrite Hp.
  change (BIT_MASK 6) with 63%Z. unfold MSEC_PER_SEC.
  pose proof (land_63_bounds (period p) ltac:(unfold is_u8 in Hu8; lia))
    as Hsteps.
  set (steps := Z.land (period p) 63) in *.
  destruct (shiftr6_cases _ Hu8) as [E|[E|[E|E]]]; rewrite E;
    cbv beta iota; cbn [mbind option_bind];
    match goal with
    | |- context [(?b =? 0)%Z] => set (base := b) in *
    end;
    (assert (Hbase : (base = 0 ↔ steps = 0)%Z
                     ∧ (base ≠ 0 → 100 ≤ base ≤ 37800000)%Z)
       by (subst base; lia));
    clearbody base;
    (destruct (fast_period p);
     [destruct (Z.eqb_spec base 0) as [->|Hnz];
      [eexists; split; [reflexivity|]; split; [tauto|]; lia
      |pose proof (shiftr_le_self base (period_div p) ltac:(lia) Hdiv);
       eexists; split; [reflexivity|]; split; lia]
     |eexists; split; [reflexivity|]; tauto]).
Qed.

Lemma pub_period_get_witness_model :
  pub (model_at (dev_comp node_pub) (sig_ref 0 0))
  = Some {| pub_addr := 0xC000; pub_key := 0; pub_ttl := 7;
            pub_cred := false; retransmit := 0x2A; period := 0x41;
            period_div := 0; fast_period := false; delayable := true;
            count := 0; period_start := 0; update := None;
            pub_msg := Some {| data := [1; 2; 3]%Z; size := 10 |};
            timer := None |}.
Proof. reflexivity. Qed.

Lemma pub_period_get_bounds_witness :
  ∃ ms,
    bt_mesh_model_pub_period_get (model_at (dev_comp node_pub) (sig_ref 0 0))
    = Some ms
    ∧ (ms = 0%Z ↔ Z.land 0x41 0x3f = 0%Z)
    ∧ (ms ≠ 0%Z → 100 ≤ ms ≤ 37800000)%Z.
Proof.
  apply (pub_period_get_bounds _ _ pub_period_get_witness_model);
    [unfold is_u8; simpl; lia|simpl; lia].
Defined.

Lemma pub_period_get_some (m : bt_mesh_model) (p : bt_mesh_model_pub) :
  pub m = Some p →
  is_u8 (period p) →
  (0 ≤ period_div p)%Z →
  ∃ ms,
    bt_mesh_model_pub_period_get m = Some ms ∧ (0 ≤ ms ≤ 37800000)%Z.
Proof.
  intros Hp Hu8 Hdiv. unfold bt_mesh_model_pub_period_get. rewrite Hp.
  change (BIT_MASK 6) with 63%Z. unfold MSEC_PER_SEC.
  pose proof (land_63_bounds (period p) ltac:(unfold is_u8 in Hu8; lia))
    as Hsteps.
  set (steps := Z.land (period p) 63) in *.
  destruct (shiftr6_cases _ Hu8) as [E|[E|[E|E]]]; rewrite E;
    cbv beta iota; cbn [mbind option_bind];
    match goal with
    | |- context [(?b =? 0)%Z] => set (base := b) in *
    end;
    (assert (Hbase : (0 ≤ base ≤ 37800000)%Z) by (subst base; lia));
    clearbody base;
    (destruct (fast_period p);
     [destruct (Z.eqb_spec base 0) as [->|Hnz];
      [eexists; split; [reflexivity|]; lia
      |pose proof (shiftr_le_self base (period_div p) ltac:(lia) Hdiv);
       eexists; split; [reflexivity|]; lia]
     |eexists; split; [reflexivity|]; lia]).
Qed.

Lemma BT_MESH_PUB_TRANSMIT_INT_pos (r : Z) :
  (0 ≤ r → 50 ≤ BT_MESH_PUB_TRANSMIT_INT r)%Z.
Proof.
  intros Hr. unfold BT_MESH_PUB_TRANSMIT_INT.
  pose proof (shiftr_le_self r 3 Hr ltac:(lia)). lia.
Qed.

Lemma u32_small (z : Z) : (0 ≤ z < 4294967296 → u32 z = z)%Z.
Proof. intros H. unfold u32. apply Z.mod_small. exact H. Qed.

Lemma u32_range (z : Z) : (0 ≤ u32 z < 4294967296)%Z.
Proof. unfold u32. apply Z.mod_pos_bound. lia. Qed.

Lemma i32_small (z : Z) : (0 ≤ z < 2147483648 → i32 z = z)%Z.
Proof.
  intros H. unfold i32. rewrite Z.mod_small by lia.
  destruct (Z.ltb_spec z 2147483648); lia.
Qed.

Lemma i32_nonzero (z : Z) : (0 < z < 4294967296 → i32 z ≠ 0)%Z.
Proof.
  intros H. unfold i32. rewrite Z.mod_small by lia.
  destruct (Z.ltb_spec z 2147483648); lia.
Qed.

(** X3.  [next_period] answers 0, which stops the periodic publication,
    only when the publish period of the model is 0; without a
    retransmission under way and with a non-zero period the answer is
    the rest of the period, or 1 ms when the period has already
    elapsed. *)
Theorem next_period_zero_only_when_disabled (env : kernel_env)
  (BT_MESH_PUB_MSG_NUM : bt_mesh_model_pub → Z) (m : bt_mesh_model)
  (p : bt_mesh_model_pub) :
  pub m = Some p →
  is_u8 (period p) →
  (0 ≤ period_div p)%Z →
  (0 ≤ retransmit p)%Z →
  ∃ d,
    next_period env BT_MESH_PUB_MSG_NUM m = Some d
    ∧ (d = 0%Z → bt_mesh_model_pub_period_get m = Some 0%Z)
    ∧ (count p = 0%Z →
       ∀ ms, bt_mesh_model_pub_period_get m = Some ms → ms ≠ 0%Z →
         let elapsed := u32 (k_uptime_get_32 env - period_start p) in
         d = (if (ms <=? elapsed)%Z then 1 else ms - elapsed)%Z
         ∧ (1 ≤ d ≤ ms)%Z).
Proof.
  intros Hp Hu8 Hdiv Hre.
  destruct (pub_period_get_some m p Hp Hu8 Hdiv) as (ms & Hms & Hrange).
  pose proof (BT_MESH_PUB_TRANSMIT_INT_pos _ Hre) as Hint.
  unfold next_period. rewrite Hp. cbn [mbind option_bind].
  set (elapsed := u32 (k_uptime_get_32 env - period_start p)).
  pose proof (u32_range (k_uptime_get_32 env - period_start p)) as Hel.
  fold elapsed in Hel.
  destruct (Z.eqb_spec (count p) 0) as [Hc|Hc]; cbn [negb andb].
  - (* no retransmission under way *)
    simpl Z.eqb. cbv iota. rewrite Hms. cbn [fmap option_fmap option_map
      mbind option_bind andb].
    rewrite u32_small by lia.
    destruct (Z.eqb_spec ms 0) as [->|Hnz].
    + eexists. split; [reflexivity|]. split; [reflexivity|].
      intros _ ms' [= <-] Hne. contradiction.
    + destruct (Z.leb_spec ms elapsed) as [Hle|Hlt].
      * eexists. split; [reflexivity|]. split; [discriminate|].
        intros _ ms' [= <-] _. cbv zeta. fold elapsed.
        destruct (Z.leb_spec ms elapsed); lia.
      * eexists. split; [reflexivity|].
        rewrite i32_small by lia. split; [lia|].
        intros _ ms' [= <-] _. cbv zeta. fold elapsed.
        destruct (Z.leb_spec ms elapsed); lia.
  - (* retransmission under way *)
    set (rp := u32 (BT_MESH_PUB_TRANSMIT_INT (retransmit p)
                    * BT_MESH_PUB_MSG_NUM p)).
    pose proof (u32_range (BT_MESH_PUB_TRANSMIT_INT (retransmit p)
                           * BT_MESH_PUB_MSG_NUM p)) as Hrp.
    fold rp in Hrp.
    destruct (Z.eqb_spec rp 0) as [Hz|Hnz]; cbn [negb andb].
    + rewrite Hms. cbn [fmap option_fmap option_map mbind option_bind].
      rewrite u32_small by lia.
      destruct (Z.eqb_spec ms 0) as [->|Hmz].
      * eexists. split; [reflexivity|]. split; [reflexivity|].
        intros Hc'. contradiction.
      * destruct (Z.leb_spec ms elapsed) as [Hle|Hlt].
        -- eexists. split; [reflexivity|]. split; [discriminate|].
           intros Hc'. contradiction.
        -- eexists. split; [reflexivity|].
           rewrite i32_small by lia. split; [lia|].
           intros Hc'. contradiction.
    + destruct (Z.leb_spec rp elapsed) as [Hle|Hlt].
      * eexists. split; [reflexivity|]. split; [lia|].
        intros Hc'. contradiction.
      * cbn [mbind option_bind].
        destruct (Z.eqb_spec rp 0) as [|_]; [contradiction|]. cbn [andb].
        destruct (Z.leb_spec rp elapsed) as [|_]; [lia|].
        eexists. split; [reflexivity|].
        split; [|intros Hc'; contradiction].
        intros H0. exfalso. revert H0. apply i32_nonzero. lia.
Qed.

Lemma next_period_zero_only_when_disabled_witness :
  let m := model_at (dev_comp node_pub) (sig_ref 0 0) in
  ∃ d,
    next_period (kernel_at 0) (λ _, 1%Z) m = Some d
    ∧ (d = 0%Z → bt_mesh_model_pub_period_get m = Some 0%Z)
    ∧ (0%Z = 0%Z →
       ∀ ms, bt_mesh_model_pub_period_get m = Some ms → ms ≠ 0%Z →
         let elapsed := u32 (1000 - 0) in
         d = (if (ms <=? elapsed)%Z then 1 else ms - elapsed)%Z
         ∧ (1 ≤ d ≤ ms)%Z).
Proof.
  apply (next_period_zero_only_when_disabled (kernel_at 0) (λ _, 1%Z) _ _
           pub_period_get_witness_model);
    [unfold is_u8; simpl; lia|simpl; lia|simpl; lia].
Defined.

(** *** Lookup by id *)

Lemma bt_mesh_model_find_loop_spec (l : list bt_mesh_model) (model_id : Z) :
  ∀ i,
    match bt_mesh_model_find_loop l model_id i with
    | Some k =>
      ∃ j m, k = i + j ∧ l !! j = Some m ∧ id m = model_id
             ∧ ∀ j' m', j' < j → l !! j' = Some m' → id m' ≠ model_id
    | None => Forall (λ m, id m ≠ model_id) l
    end.
Proof.
  induction l as [|x l IH]; intros i; cbn [bt_mesh_model_find_loop].
  - constructor.
  - destruct (Z.eqb_spec (id x) model_id) as [He|Hne].
    + exists 0, x. repeat split; [lia|exact He|]. intros j' m' Hj. lia.
    + specialize (IH (S i)).
      destruct (bt_mesh_model_find_loop l model_id (S i)) as [k|].
      * destruct IH as (j & m & -> & Hj & Hid & Hfirst).
        exists (S j), m. repeat split; [lia|exact Hj|exact Hid|].
        intros [|j'] m' Hlt Hl; simpl in Hl.
        -- injection Hl as <-. exact Hne.
        -- apply (Hfirst j' m'); [lia|exact Hl].
      * constructor; assumption.
Qed.

(** X4.  [bt_mesh_model_find] answers the first SIG model of the element
    that has the id, and [NULL] exactly when the element has no SIG
    model with that id. *)
Theorem bt_mesh_model_find_first (elem : bt_mesh_elem) (e_idx : nat)
  (model_id : Z) :
  match bt_mesh_model_find elem e_idx model_id with
  | Some r =>
    mr_elem r = e_idx ∧ mr_vnd r = false
    ∧ (∃ m, models elem !! mr_idx r = Some m ∧ id m = model_id)
    ∧ ∀ j m, j < mr_idx r → models elem !! j = Some m → id m ≠ model_id
  | None => Forall (λ m, id m ≠ model_id) (models elem)
  end.
Proof.
  unfold bt_mesh_model_find.
  pose proof (bt_mesh_model_find_loop_spec (models elem) model_id 0) as H.
  destruct (bt_mesh_model_find_loop (models elem) model_id 0) as [k|];
    cbn [mbind option_bind].
  - destruct H as (j & m & -> & Hj & Hid & Hfirst). cbn [mr_elem mr_vnd mr_idx].
    repeat split; [exists m; split; assumption|exact Hfirst].
  - exact H.
Qed.

Lemma bt_mesh_model_find_vnd_loop_spec (l : list bt_mesh_model)
  (company model_id : Z) :
  ∀ i,
    match bt_mesh_model_find_vnd_loop l company model_id i with
    | Some k =>
      ∃ j m, k = i + j ∧ l !! j = Some m
             ∧ vnd_company m = company ∧ vnd_id m = model_id
             ∧ ∀ j' m', j' < j → l !! j' = Some m' →
                 ¬ (vnd_company m' = company ∧ vnd_id m' = model_id)
    | None =>
      Forall (λ m, ¬ (vnd_company m = company ∧ vnd_id m = model_id)) l
    end.
Proof.
  induction l as [|x l IH]; intros i; cbn [bt_mesh_model_find_vnd_loop].
  - constructor.
  - destruct (Z.eqb_spec (vnd_company x) company) as [Hc|Hc],
      (Z.eqb_spec (vnd_id x) model_id) as [Hi|Hi]; cbn [andb].
    1: { exists 0, x. repeat split; [lia|exact Hc|exact Hi|].
         intros j' m' Hj. lia. }
    all: specialize (IH (S i));
      destruct (bt_mesh_model_find_vnd_loop l company model_id (S i))
        as [k|];
      [destruct IH as (j & m & -> & Hj & Hcm & Him & Hfirst);
       exists (S j), m; repeat split; [lia|exact Hj|exact Hcm|exact Him|];
       intros [|j'] m' Hlt Hl; simpl in Hl;
       [injection Hl as <-; tauto|apply (Hfirst j' m'); [lia|exact Hl]]
      |constructor; [tauto|assumption]].
Qed.

(** X5.  [bt_mesh_model_find_vnd] answers the first vendor model of the
    element with the company and the id, and [NULL] exactly when there
    is none. *)
Theorem bt_mesh_model_find_vnd_first (elem : bt_mesh_elem) (e_idx : nat)
  (company model_id : Z) :
  match bt_mesh_model_find_vnd elem e_idx company model_id with
  | Some r =>
    mr_elem r = e_idx ∧ mr_vnd r = true
    ∧ (∃ m, vnd_models elem !! mr_idx r = Some m
            ∧ vnd_company m = company ∧ vnd_id m = model_id)
    ∧ ∀ j m, j < mr_idx r → vnd_models elem !! j = Some m →
        ¬ (vnd_company m = company ∧ vnd_id m = model_id)
  | None =>
    Forall (λ m, ¬ (vnd_company m = company ∧ vnd_id m = model_id))
      (vnd_models elem)
  end.
Proof.
  unfold bt_mesh_model_find_vnd.
  pose proof (bt_mesh_model_find_vnd_loop_spec (vnd_models elem) company
                model_id 0) as H.
  destruct (bt_mesh_model_find_vnd_loop (vnd_models elem) company model_id 0)
    as [k|]; cbn [mbind option_bind].
  - destruct H as (j & m & -> & Hj & Hc & Hi & Hfirst).
    cbn [mr_elem mr_vnd mr_idx].
    repeat split; [exists m; repeat split; assumption|exact Hfirst].
  - exact H.
Qed.

(** ** Provisioning, addresses and the receive entry point *)

Lemma comp_provision_loop_length (elems : list bt_mesh_elem) :
  ∀ a, length (comp_provision_loop elems a) = length elems.
Proof.
  induction elems as [|e elems IH]; intros a; simpl; [reflexivity|].
  rewrite IH. reflexivity.
Qed.

Lemma comp_provision_loop_nth (elems : list bt_mesh_elem) :
  ∀ a i,
    (0 ≤ a)%Z → (a + Z.of_nat (length elems) ≤ 65536)%Z →
    i < length elems →
    nth i (comp_provision_loop elems a) elem_zero
    = set_addr (nth i elems elem_zero) (a + Z.of_nat i).
Proof.
  induction elems as [|e elems IH]; intros a i Ha Hn Hi; simpl in Hi;
    [lia|].
  destruct i as [|i]; simpl.
  - rewrite Z.add_0_r. reflexivity.
  - simpl length in Hn. unfold u16.
    destruct elems as [|e' elems]; [simpl in Hi; lia|].
    rewrite Z.mod_small by (simpl length in Hn; lia).
    rewrite IH by (simpl length in *; lia).
    f_equal. lia.
Qed.

(** X6.  After [bt_mesh_comp_provision(addr)] with a unicast address and
    all element addresses below 0x8000, the primary address is [addr],
    element [i] has the address [addr + i], and [bt_mesh_elem_find]
    answers element [i] exactly for the address [addr + i]. *)
Theorem provision_elem_find (st : access_state) (a : Z) :
  is_u16 a →
  BT_MESH_ADDR_IS_UNICAST a = true →
  (a + Z.of_nat (elem_count (dev_comp st)) ≤ 0x8000)%Z →
  let st' := bt_mesh_comp_provision st a in
  bt_mesh_primary_addr st' = a
  ∧ elem_count (dev_comp st') = elem_count (dev_comp st)
  ∧ (∀ i, i < elem_count (dev_comp st) →
       addr (elem_at (dev_comp st') i) = (a + Z.of_nat i)%Z)
  ∧ ∀ x i, is_u16 x →
      (bt_mesh_elem_find st' x = Some i
       ↔ i < elem_count (dev_comp st) ∧ x = (a + Z.of_nat i)%Z).
Proof.
  intros [Ha0 _] Hu Hn st'.
  assert (Ha : (0 < a < 0x8000)%Z).
  { unfold BT_MESH_ADDR_IS_UNICAST in Hu.
    apply andb_true_iff in Hu as [H1 H2].
    apply negb_true_iff, Z.eqb_neq in H1. apply Z.ltb_lt in H2.
    unfold elem_count in Hn. lia. }
  unfold elem_count in *.
  assert (Hlen : length (elem (dev_comp st')) = length (elem (dev_comp st)))
    by apply comp_provision_loop_length.
  assert (Haddr : ∀ i, i < length (elem (dev_comp st)) →
            addr (elem_at (dev_comp st') i) = (a + Z.of_nat i)%Z).
  { intros i Hi. unfold elem_at, st', bt_mesh_comp_provision. cbn [dev_comp
      set_dev_comp set_dev_primary_addr set_elem elem].
    rewrite comp_provision_loop_nth by lia. reflexivity. }
  split; [reflexivity|]. split; [exact Hlen|]. split; [exact Haddr|].
  intros x i [Hx0 Hx1]. unfold bt_mesh_elem_find, elem_count.
  rewrite Hlen.
  destruct (length (elem (dev_comp st))) as [|n] eqn:Hcnt.
  { (* no element *)
    destruct (BT_MESH_ADDR_IS_UNICAST x); cbn [negb].
    - pose proof (Z.mod_pos_bound (x - addr (elem_at (dev_comp st') 0)) 65536
                    ltac:(lia)).
      unfold u16. destruct (Z.leb_spec (Z.of_nat 0) ((x - addr (elem_at (dev_comp st') 0)) mod 65536)); [|lia].
      split; [discriminate|lia].
    - split; [discriminate|lia]. }
  rewrite (Haddr 0) by lia. rewrite Z.add_0_r.
  unfold BT_MESH_ADDR_IS_UNICAST.
  destruct (Z.eqb_spec x 0) as [->|Hx]; cbn [negb andb].
  { split; [discriminate|lia]. }
  destruct (Z.ltb_spec x 0x8000) as [Hlt|Hge]; cbn [negb].
  - unfold u16.
    destruct (Z.lt_ge_cases x a) as [Hxa|Hxa].
    + replace ((x - a) mod 65536)%Z with (x - a + 65536)%Z
        by (apply Z.mod_unique with (q := (-1)%Z); lia).
      destruct (Z.leb_spec (Z.of_nat (S n)) (x - a + 65536)) as [_|H];
        [split; [discriminate|lia]|lia].
    + rewrite Z.mod_small by lia.
      destruct (Z.leb_spec (Z.of_nat (S n)) (x - a)) as [H|H].
      * split; [discriminate|lia].
      * split.
        -- intros [= <-]. lia.
        -- intros [Hi ->]. f_equal. lia.
  - split; [discriminate|lia].
Qed.

Lemma provision_elem_find_witness :
  let st' := bt_mesh_comp_provision node_four_elems 0x0100 in
  bt_mesh_primary_addr st' = 0x0100%Z
  ∧ elem_count (dev_comp st') = elem_count (dev_comp node_four_elems)
  ∧ (∀ i, i < elem_count (dev_comp node_four_elems) →
       addr (elem_at (dev_comp st') i) = (0x0100 + Z.of_nat i)%Z)
  ∧ ∀ x i, is_u16 x →
      (bt_mesh_elem_find st' x = Some i
       ↔ i < elem_count (dev_comp node_four_elems)
         ∧ x = (0x0100 + Z.of_nat i)%Z).
Proof.
  apply (provision_elem_find node_four_elems 0x0100);
    [unfold is_u16; lia|reflexivity|vm_compute; discriminate].
Defined.

Lemma nth_map_set_addr (elems : list bt_mesh_elem) (i : nat) :
  addr (nth i (map (λ e, set_addr e BT_MESH_ADDR_UNASSIGNED) elems)
          elem_zero)
  = 0%Z.
Proof.
  revert i. induction elems as [|e elems IH]; intros [|i]; simpl;
    try reflexivity. apply IH.
Qed.

(** X7.  After [bt_mesh_comp_unprovision] the primary address and the
    address of every element are unassigned, and no model accepts a
    unicast destination; [bt_mesh_elem_find], which takes the element
    index as the distance from the address of element 0, still answers
    element [x] for every unicast address [x] below the element
    count. *)
Theorem unprovision_addresses (cfg : Kconfig) (st : access_state) :
  let st' := bt_mesh_comp_unprovision st in
  bt_mesh_primary_addr st' = BT_MESH_ADDR_UNASSIGNED
  ∧ (∀ i, addr (elem_at (dev_comp st') i) = BT_MESH_ADDR_UNASSIGNED)
  ∧ (∀ fuel m dst uuid,
       BT_MESH_ADDR_IS_UNICAST dst = true →
       model_has_dst cfg fuel (dev_comp st') m dst uuid = Some false)
  ∧ ∀ x, is_u16 x → BT_MESH_ADDR_IS_UNICAST x = true →
      bt_mesh_elem_find st' x
      = if (x <? Z.of_nat (elem_count (dev_comp st)))%Z
        then Some (Z.to_nat x) else None.
Proof.
  intros st'.
  assert (Haddr : ∀ i, addr (elem_at (dev_comp st') i) = 0%Z)
    by (intros i; apply nth_map_set_addr).
  split; [reflexivity|]. split; [exact Haddr|]. split.
  - intros fuel m dst uuid Hu. unfold model_has_dst. rewrite Hu, Haddr.
    unfold BT_MESH_ADDR_IS_UNICAST in Hu.
    apply andb_true_iff in Hu as [H1 _].
    apply negb_true_iff, Z.eqb_neq in H1.
    destruct (Z.eqb_spec 0 dst); [lia|reflexivity].
  - intros x [Hx0 Hx1] Hu. unfold bt_mesh_elem_find. rewrite Hu, Haddr.
    cbn [negb]. rewrite Z.sub_0_r. unfold u16.
    rewrite Z.mod_small by lia.
    assert (Hcnt : elem_count (dev_comp st') = elem_count (dev_comp st))
      by apply length_map.
    rewrite Hcnt.
    destruct (Z.leb_spec (Z.of_nat (elem_count (dev_comp st))) x),
      (Z.ltb_spec x (Z.of_nat (elem_count (dev_comp st))));
      first [reflexivity|lia].
Qed.

Lemma model_group_get_loop_Some (l : list Z) (a : Z) :
  ∀ i, is_Some (model_group_get_loop l a i) ↔ a ∈ l.
Proof.
  induction l as [|g l IH]; intros i; cbn [model_group_get_loop].
  - split; [intros [? [=]]|intros H; inversion H].
  - destruct (Z.eqb_spec g a) as [->|Hne].
    + split; [intros _; left|intros _; eexists; reflexivity].
    + rewrite IH. split; [intros H; right; exact H|].
      intros H. inversion H; subst; [contradiction|assumption].
Qed.

Lemma bt_mesh_elem_find_group_Some (e : bt_mesh_elem) (i : nat) (a : Z) :
  is_Some (bt_mesh_elem_find_group e i a)
  ↔ ∃ m, (m ∈ models e ∨ m ∈ vnd_models e) ∧ a ∈ groups m.
Proof.
  unfold bt_mesh_elem_find_group.
  destruct (list_find _ (models e)) as [[j m]|] eqn:Hs.
  - apply list_find_Some in Hs as (Hj & Hm & _).
    split; [intros _|intros _; eexists; reflexivity].
    exists m. split; [left; eapply list_elem_of_lookup_2; exact Hj|].
    apply (model_group_get_loop_Some _ _ 0), Hm.
  - apply list_find_None in Hs.
    destruct (list_find _ (vnd_models e)) as [[j m]|] eqn:Hv.
    + apply list_find_Some in Hv as (Hj & Hm & _).
      split; [intros _|intros _; eexists; reflexivity].
      exists m. split; [right; eapply list_elem_of_lookup_2; exact Hj|].
      apply (model_group_get_loop_Some _ _ 0), Hm.
    + apply list_find_None in Hv.
      split; [intros [? [=]]|].
      intros (m & [Hin|Hin] & Ha); exfalso.
      * rewrite Forall_forall in Hs. apply (Hs m Hin).
        apply (model_group_get_loop_Some _ _ 0), Ha.
      * rewrite Forall_forall in Hv. apply (Hv m Hin).
        apply (model_group_get_loop_Some _ _ 0), Ha.
Qed.

(** X8.  For an address that is not unicast and with no raw-message
    callback in use, [bt_mesh_has_addr] is true exactly when some model
    of some element holds the address in its own group list. *)
Theorem has_addr_group (cfg : Kconfig) (st : access_state) (a : Z) :
  BT_MESH_ADDR_IS_UNICAST a = false →
  CONFIG_BT_MESH_ACCESS_LAYER_MSG cfg = false ∨ msg_cb st = None →
  (bt_mesh_has_addr cfg st a = true
   ↔ ∃ e m, e ∈ elem (dev_comp st)
            ∧ (m ∈ models e ∨ m ∈ vnd_models e) ∧ a ∈ groups m).
Proof.
  intros Hu Hcb. unfold bt_mesh_has_addr. rewrite Hu.
  replace (CONFIG_BT_MESH_ACCESS_LAYER_MSG cfg
           && bool_decide (is_Some (msg_cb st))) with false.
  2: { destruct Hcb as [-> | ->]; [reflexivity|].
       symmetry. apply andb_false_iff. right.
       apply bool_decide_eq_false. intros [? [=]]. }
  generalize 0 as index. generalize (elem (dev_comp st)) as elems.
  induction elems as [|e elems IH]; intros index; cbn [has_addr_loop].
  - split; [discriminate|]. intros (e & m & He & _). inversion He.
  - destruct (bool_decide_reflect
                (is_Some (bt_mesh_elem_find_group e index a))) as [Hs|Hs].
    + split; [intros _|reflexivity].
      apply bt_mesh_elem_find_group_Some in Hs as (m & Hm & Ha).
      exists e, m. split; [left|]. split; assumption.
    + rewrite IH. split.
      * intros (e' & m & He & Hm). exists e', m. split; [right|]; assumption.
      * intros (e' & m & He & Hm & Ha). inversion He; subst.
        -- exfalso. apply Hs, bt_mesh_elem_find_group_Some.
           exists m. split; assumption.
        -- exists e', m. repeat split; assumption.
Qed.

Lemma has_addr_group_witness :
  BT_MESH_ADDR_IS_UNICAST 0xC000 = false
  ∧ (bt_mesh_has_addr cfg_all (node_one ∅) 0xC000 = true
     ↔ ∃ e m, e ∈ elem (dev_comp (node_one ∅))
              ∧ (m ∈ models e ∨ m ∈ vnd_models e) ∧ 0xC000%Z ∈ groups m).
Proof.
  split; [reflexivity|].
  apply (has_addr_group cfg_all (node_one ∅) 0xC000);
    [reflexivity|right; reflexivity].
Defined.

(** X9.  With a raw-message callback registered, [bt_mesh_access_recv]
    answers 0 also for a message that the callback never sees: one whose
    opcode is rejected by the decoder, and one for a unicast address
    outside the elements of the node.  The application state is as
    before in both cases. *)
Theorem access_recv_unseen_message {W : Type} (cfg : Kconfig)
  (env : app_env W) (fuel : nat) (st : access_state) (ctx : bt_mesh_msg_ctx)
  (buf : net_buf_simple) (w : W) (cb : nat) :
  CONFIG_BT_MESH_ACCESS_LAYER_MSG cfg = true →
  msg_cb st = Some cb →
  (∃ e, get_opcode buf = Some (inl e))
  ∨ ((∃ r, get_opcode buf = Some (inr r))
     ∧ BT_MESH_ADDR_IS_UNICAST (recv_dst ctx) = true
     ∧ (Z.of_nat (elem_count (dev_comp st))
        ≤ u16 (recv_dst ctx - addr (elem_at (dev_comp st) 0)))%Z) →
  bt_mesh_access_recv cfg env fuel st ctx buf w = Some (ACCESS_RECV_ZERO, w).
Proof.
  intros Hcfg Hcb Hcase.
  unfold bt_mesh_access_recv, bt_mesh_model_recv. rewrite Hcfg, Hcb.
  destruct Hcase as [[e ->] | ([[opcode buf'] ->] & Hu & Hidx)];
    cbn [mbind option_bind].
  - reflexivity.
  - rewrite Hu.
    destruct (Z.leb_spec (Z.of_nat (elem_count (dev_comp st)))
                (u16 (recv_dst ctx - addr (elem_at (dev_comp st) 0))))
      as [_|Hlt]; [|lia].
    reflexivity.
Qed.

Lemma access_recv_unseen_message_witness :
  bt_mesh_access_recv cfg_all counting_app 1 node_one_cb (ctx_to 0x0005)
    {| data := [0x01%Z]; size := 1 |} 0
  = Some (ACCESS_RECV_ZERO, 0).
Proof.
  apply (access_recv_unseen_message cfg_all counting_app 1 node_one_cb
           (ctx_to 0x0005) {| data := [0x01%Z]; size := 1 |} 0 0);
    [reflexivity|reflexivity|].
  right. split; [eexists; reflexivity|]. split; [reflexivity|].
  vm_compute. discriminate.
Defined.

Lemma pending_clear_fold (l : list (page_type * Z * string)) :
  ∀ st,
    save_err (settings st) = Ok →
    ∃ s',
      fold_left
        (λ (st : access_state) (p : page_type * Z * string),
           set_settings st (snd (settings_delete (settings st) (snd p))))
        l st
      = set_settings st s'
      ∧ load_err s' = load_err (settings st)
      ∧ (∀ p, p ∈ l → records s' !! snd p = None)
      ∧ (∀ path, records (settings st) !! path = None →
                 records s' !! path = None).
Proof.
  induction l as [|x l IH]; intros st Hsave; cbn [fold_left].
  - exists (settings st). split; [destruct st; reflexivity|].
    split; [reflexivity|]. split; [intros p Hp; inversion Hp|auto].
  - cbv beta.
    set (s1 := {| records := delete (snd x) (records (settings st));
                  keep_empty := keep_empty (settings st);
                  save_err := save_err (settings st);
                  load_err := load_err (settings st) |}).
    assert (Hstep : set_settings st
                      (snd (settings_delete (settings st) (snd x)))
                    = set_settings st s1)
      by (subst s1; unfold settings_delete;
          destruct (save_err (settings st)); [reflexivity|discriminate]).
    rewrite Hstep.
    destruct (IH (set_settings st s1) Hsave) as (s' & -> & Hload & Hl & Hkeep).
    exists s'. split; [reflexivity|]. split; [exact Hload|]. split.
    + intros p Hp. inversion Hp; subst.
      * apply Hkeep. apply lookup_delete_eq.
      * apply Hl. assumption.
    + intros path Hnone. apply Hkeep. cbn [settings set_settings s1 records].
      rewrite lookup_delete_None. right. exact Hnone.
Qed.

Lemma stored_page_path_loop_In (l : list (page_type * Z * string))
  (type : page_type) (page : Z) (path : string) :
  stored_page_path_loop l type page = Some path →
  ∃ p, p ∈ l ∧ snd p = path.
Proof.
  induction l as [|[[t q] pa] l IH]; cbn [stored_page_path_loop];
    [discriminate|].
  destruct (bool_decide (t = type) && (q =? page)%Z).
  - intros [= <-]. exists (t, q, pa). split; [left|reflexivity].
  - intros H. destruct (IH H) as (p & Hp & Hs). exists p.
    split; [right; exact Hp|exact Hs].
Qed.

(** X10.  [bt_mesh_comp_data_pending_clear] with a working backend removes
    every staged page: afterwards page 128 does not count as changed,
    the size of every page is the size of the live page [page % 128],
    and with partial elements allowed the contents of every page are
    those of the live page.  The composition is left as it was. *)
Theorem pending_clear_restores (cfg : Kconfig) (st : access_state) :
  CONFIG_BT_MESH_HIGH_DATA_PAGES cfg = true →
  CONFIG_BT_SETTINGS cfg = true →
  save_err (settings st) = Ok →
  let st' := bt_mesh_comp_data_pending_clear cfg st in
  dev_comp st' = dev_comp st
  ∧ bt_mesh_comp_128_changed cfg st' = false
  ∧ (∀ type page,
       page_size_get cfg st' type page
       = current_page_size cfg st type (page mod 128))
  ∧ (load_err (settings st) = Ok →
     ∀ buf type page offset,
       get_page_contents cfg st' buf type page offset true
       = current_page_contents cfg st buf type (page mod 128) offset true).
Proof.
  intros Hhigh Hset Hsave. cbv zeta.
  unfold bt_mesh_comp_data_pending_clear. rewrite Hhigh, Hset.
  cbn [andb].
  destruct (pending_clear_fold (stored_pages cfg) st Hsave)
    as (s' & -> & Hload & Hnone & _).
  assert (Hrec : ∀ type page path,
            stored_page_path cfg type page = Some path →
            records s' !! path = None).
  { intros type page path Hp.
    apply stored_page_path_loop_In in Hp as (p & Hin & <-).
    apply Hnone, Hin. }
  assert (Hsize : ∀ type page,
            stored_page_size_get cfg (set_settings st s') type page = 0).
  { intros type page. unfold stored_page_size_get.
    destruct (stored_page_path cfg type page) as [path|] eqn:Hp;
      [|reflexivity].
    unfold settings_load_subtree_direct. cbn [settings set_settings].
    destruct (load_err s'); [|reflexivity].
    rewrite (Hrec _ _ _ Hp). reflexivity. }
  split; [reflexivity|]. split; [|split].
  - unfold bt_mesh_comp_128_changed. rewrite Hhigh, Hset, Hsize. reflexivity.
  - intros type page. unfold page_size_get. rewrite Hhigh, Hset.
    cbn [andb]. rewrite Hsize.
    destruct (128 <=? page)%Z; reflexivity.
  - intros Hl buf type page offset. unfold get_page_contents.
    rewrite Hhigh, Hset. cbn [andb].
    destruct (128 <=? page)%Z; [|reflexivity].
    unfold stored_page_read. rewrite Hset. cbn [negb andb].
    destruct (stored_page_path cfg type page) as [path|] eqn:Hp;
      [|reflexivity].
    unfold settings_load_subtree_direct. cbn [settings set_settings].
    rewrite Hload, Hl, (Hrec _ _ _ Hp). reflexivity.
Qed.

Lemma pending_clear_restores_witness :
  let st := node_one {[ "bt/mesh/cmp/128"%string := [1; 2; 3]%Z ]} in
  let st' := bt_mesh_comp_data_pending_clear cfg_all st in
  dev_comp st' = dev_comp st
  ∧ bt_mesh_comp_128_changed cfg_all st' = false
  ∧ (∀ type page,
       page_size_get cfg_all st' type page
       = current_page_size cfg_all st type (page mod 128))
  ∧ (load_err (settings st) = Ok →
     ∀ buf type page offset,
       get_page_contents cfg_all st' buf type page offset true
       = current_page_contents cfg_all st buf type (page mod 128) offset
           true).
Proof.
  apply (pending_clear_restores cfg_all
           (node_one {[ "bt/mesh/cmp/128"%string := [1; 2; 3]%Z ]}));
    reflexivity.
Defined.

(** ** Registration of page 2 *)

(** X11.  Composition Data Page 2 is served only once a page 2
    composition has been registered.  Without page 2 compiled in,
    [bt_mesh_comp2_register] fails with [-EINVAL] and changes nothing.
    With it, and as long as nothing is registered, the page has size 0
    and reading it fails with [-ENODEV]; after
    [bt_mesh_comp2_register(comp2)] the size is the number of octets of
    the records and successive reads with any positive tailroom yield
    the page from the starting offset on. *)
Theorem comp2_register_page2 (cfg : Kconfig) (st : access_state)
  (comp2 : bt_mesh_comp2) (B offset : nat) :
  CONFIG_BT_MESH_LARGE_COMP_DATA_SRV cfg = true →
  0 < B →
  (CONFIG_BT_MESH_COMP_PAGE_2 cfg = false →
   bt_mesh_comp2_register cfg st (Some comp2) = (Err EINVAL, st))
  ∧ (CONFIG_BT_MESH_COMP_PAGE_2 cfg = true →
     (dev_comp2 st = None →
      bt_mesh_comp_page_size cfg st 2 = 0
      ∧ ∀ buf off,
          bt_mesh_comp_data_get_page cfg st buf 2 off = (Err ENODEV, buf))
     ∧ ∃ st',
         bt_mesh_comp2_register cfg st (Some comp2) = (Ok, st')
         ∧ dev_comp st' = dev_comp st
         ∧ bt_mesh_comp_page_size cfg st' 2 = length (page2_bytes comp2)
         ∧ reassemble cfg st' 2 B (bt_mesh_comp_page_size cfg st' 2) offset
           = drop offset (page2_bytes comp2)).
Proof.
  intros Hsrv HB. split.
  - intros Hp2. unfold bt_mesh_comp2_register. rewrite Hp2. reflexivity.
  - intros Hp2. split.
    + intros Hnone. split.
      * rewrite page_size_get_current by lia. unfold current_page_size.
        rewrite Hp2. simpl Z.eqb. rewrite andb_false_r. cbn [andb].
        cbv iota. unfold comp_page_2_size. rewrite Hnone. reflexivity.
      * intros buf off. unfold bt_mesh_comp_data_get_page.
        rewrite Hsrv, get_page_contents_current by lia.
        unfold current_page_contents. rewrite Hp2. simpl Z.eqb.
        rewrite andb_false_r. cbn [andb]. cbv iota.
        unfold bt_mesh_comp_data_get_page_2. rewrite Hnone. reflexivity.
    + unfold bt_mesh_comp2_register. rewrite Hp2. cbn [negb].
      eexists. split; [reflexivity|]. split; [reflexivity|].
      match goal with
      | |- context [bt_mesh_comp_page_size cfg ?s 2] =>
        destruct (page2_streaming cfg s comp2 B offset Hsrv Hp2 eq_refl HB)
          as (Hsize & _ & Hre)
      end.
      split; [exact Hsize|exact Hre].
Qed.

Lemma comp2_register_page2_witness :
  let comp2 :=
    {| record := [ {| rec_id := 0x0107; version_x := 1; version_y := 0;
                      version_z := 2; elem_offset := [0%Z];
                      rec_data := [9; 8]%Z |} ] |} in
  (CONFIG_BT_MESH_COMP_PAGE_2 cfg_all = false →
   bt_mesh_comp2_register cfg_all (node_one ∅) (Some comp2)
   = (Err EINVAL, node_one ∅))
  ∧ (CONFIG_BT_MESH_COMP_PAGE_2 cfg_all = true →
     (dev_comp2 (node_one ∅) = None →
      bt_mesh_comp_page_size cfg_all (node_one ∅) 2 = 0
      ∧ ∀ buf off,
          bt_mesh_comp_data_get_page cfg_all (node_one ∅) buf 2 off
          = (Err ENODEV, buf))
     ∧ ∃ st',
         bt_mesh_comp2_register cfg_all (node_one ∅) (Some comp2) = (Ok, st')
         ∧ dev_comp st' = dev_comp (node_one ∅)
         ∧ bt_mesh_comp_page_size cfg_all st' 2 = length (page2_bytes comp2)
         ∧ reassemble cfg_all st' 2 4 (bt_mesh_comp_page_size cfg_all st' 2) 0
           = drop 0 (page2_bytes comp2)).
Proof.
  intros comp2.
  apply (comp2_register_page2 cfg_all (node_one ∅) comp2 4 0);
    [reflexivity|lia].
Defined.

(** ** Reading whole elements and staging pages *)

(** *** Whole elements *)

Lemma emit_room (buf : net_buf_simple) (bytes : list Z) :
  length bytes ≤ net_buf_simple_tailroom buf →
  emit (buf, 0) bytes
  = ({| data := data buf ++ bytes; size := size buf |}, 0).
Proof.
  intros Hroom. unfold emit. cbn [fst snd]. rewrite drop_0.
  rewrite take_ge by exact Hroom. reflexivity.
Qed.

Lemma comp_add_elem_whole (buf : net_buf_simple) (e : bt_mesh_elem) :
  comp_add_elem (buf, 0) e false
  = if net_buf_simple_tailroom buf
       <? bt_mesh_comp_elem_size e + BT_MESH_MIC_SHORT
    then (Err ENOBUFS, (buf, 0))
    else (Ok, ({| data := data buf ++ elem_bytes e; size := size buf |}, 0)).
Proof.
  unfold comp_add_elem.
  destruct (Nat.leb_spec (bt_mesh_comp_elem_size e) 0) as [H0|_];
    [unfold bt_mesh_comp_elem_size in H0; lia|].
  cbn [negb andb]. rewrite Nat.sub_0_r.
  destruct (Nat.ltb_spec (net_buf_simple_tailroom buf)
              (bt_mesh_comp_elem_size e + BT_MESH_MIC_SHORT)) as [Hlt|Hge];
    cbn [orb]; [reflexivity|].
  destruct (Nat.leb_spec (net_buf_simple_tailroom buf) 0) as [H0|_];
    [unfold BT_MESH_MIC_SHORT in Hge; lia|].
  rewrite data_buf_add_le16_offset_emit, !data_buf_add_u8_offset_emit.
  rewrite (emit_fold_left (model_id_bytes true))
    by (intros; apply comp_add_model_emit).
  rewrite (emit_fold_left (model_id_bytes false))
    by (intros; apply comp_add_model_emit).
  rewrite !emit_app.
  replace (sys_put_le16 (loc e)
           ++ [u8 (Z.of_nat (model_count e))]
           ++ [u8 (Z.of_nat (vnd_model_count e))]
           ++ concat (map (model_id_bytes false) (models e))
           ++ concat (map (model_id_bytes true) (vnd_models e)))
    with (elem_bytes e) by reflexivity.
  rewrite emit_room by (rewrite length_elem_bytes; lia). reflexivity.
Qed.

(** The number of leading elements that [comp_add_elem] accepts one
    after the other when partial elements are not allowed and [T]
    octets of tailroom are left. *)
Lemma comp_add_elems_whole (elems : list bt_mesh_elem) :
  ∀ buf : net_buf_simple,
    ∃ k,
      k ≤ length elems
      ∧ comp_add_elems (buf, 0) elems false
        = ({| data := data buf ++ concat (map elem_bytes (take k elems));
              size := size buf |}, 0)
      ∧ (0 < k →
         length (concat (map elem_bytes (take k elems))) + BT_MESH_MIC_SHORT
         ≤ net_buf_simple_tailroom buf)
      ∧ (k < length elems →
         net_buf_simple_tailroom buf
         < length (concat (map elem_bytes (take (S k) elems)))
           + BT_MESH_MIC_SHORT).
Proof.
  induction elems as [|e elems IH]; intros buf.
  - exists 0. split; [simpl; lia|]. split.
    + simpl. rewrite app_nil_r. destruct buf; reflexivity.
    + split; simpl; lia.
  - cbn [comp_add_elems]. rewrite comp_add_elem_whole.
    destruct (Nat.ltb_spec (net_buf_simple_tailroom buf)
                (bt_mesh_comp_elem_size e + BT_MESH_MIC_SHORT)) as [Hlt|Hge].
    + exists 0. split; [simpl; lia|]. split.
      * simpl. rewrite app_nil_r. destruct buf; reflexivity.
      * split; [lia|]. intros _. cbn [firstn map concat].
        rewrite take_0. cbn [map concat].
        rewrite app_nil_r, length_elem_bytes. exact Hlt.
    + set (buf1 := {| data := data buf ++ elem_bytes e; size := size buf |}).
      destruct (IH buf1) as (k & Hk & -> & Hroom & Hmax).
      assert (Ht1 : net_buf_simple_tailroom buf1 + length (elem_bytes e)
                    = net_buf_simple_tailroom buf).
      { unfold net_buf_simple_tailroom, buf1 in *. cbn [data size] in *.
        rewrite length_app, length_elem_bytes in *. lia. }
      exists (S k). split; [simpl; lia|]. split.
      * cbn [firstn map concat buf1 data size]. rewrite <- app_assoc.
        reflexivity.
      * cbn [firstn map concat]. rewrite !length_app. split.
        -- intros _. destruct k as [|k'].
           ++ rewrite take_0. cbn [map concat length].
              rewrite length_elem_bytes in *. lia.
           ++ specialize (Hroom ltac:(lia)). lia.
        -- intros Hlt. specialize (Hmax ltac:(simpl in Hlt; lia)). lia.
Qed.

(** X12.  [bt_mesh_comp_data_get_elems] on page 0 with room for the
    10-octet header: the result is the header followed by whole
    elements only, as many as fit with the room of a short MIC left
    after them. *)
Theorem comp_data_get_elems_page0 (cfg : Kconfig) (st : access_state)
  (buf : net_buf_simple) :
  10 ≤ net_buf_simple_tailroom buf →
  ∃ k,
    let elems := elem (dev_comp st) in
    let written :=
      take 10 (page0_bytes cfg (dev_comp st))
      ++ concat (map elem_bytes (take k elems)) in
    k ≤ length elems
    ∧ bt_mesh_comp_data_get_elems cfg st buf 0
      = (Ok, {| data := data buf ++ written; size := size buf |})
    ∧ written = take (length written) (page0_bytes cfg (dev_comp st))
    ∧ (0 < k →
       length written + BT_MESH_MIC_SHORT ≤ net_buf_simple_tailroom buf)
    ∧ (k < length elems →
       net_buf_simple_tailroom buf
       < 10 + length (concat (map elem_bytes (take (S k) elems)))
         + BT_MESH_MIC_SHORT).
Proof.
  intros Hroom.
  set (hdr := sys_put_le16 (cid (dev_comp st))
              ++ sys_put_le16 (pid (dev_comp st))
              ++ sys_put_le16 (vid (dev_comp st))
              ++ sys_put_le16 (CONFIG_BT_MESH_CRPL cfg)
              ++ sys_put_le16 (comp_feat cfg)).
  assert (Hpage : page0_bytes cfg (dev_comp st)
                  = hdr ++ concat (map elem_bytes (elem (dev_comp st)))).
  { unfold page0_bytes, hdr. rewrite <- ?app_assoc. reflexivity. }
  assert (Hhdr : length hdr = 10) by reflexivity.
  set (buf1 := {| data := data buf ++ hdr; size := size buf |}).
  destruct (comp_add_elems_whole (elem (dev_comp st)) buf1)
    as (k & Hk & Hadd & Hfit & Hmax).
  assert (Ht1 : net_buf_simple_tailroom buf1 + 10
                = net_buf_simple_tailroom buf).
  { unfold net_buf_simple_tailroom, buf1 in *. cbn [data size] in *.
    rewrite length_app, Hhdr. lia. }
  exists k. cbv zeta.
  assert (Htake : take 10 (page0_bytes cfg (dev_comp st)) = hdr).
  { rewrite Hpage, take_app_length'; [reflexivity|exact Hhdr]. }
  rewrite Htake. split; [exact Hk|]. split; [|split; [|split]].
  - unfold bt_mesh_comp_data_get_elems.
    assert (Hcur : get_page_contents cfg st buf PAGE_TYPE_COMP 0 0 false
                   = current_page_contents cfg st buf PAGE_TYPE_COMP 0 0
                       false).
    { unfold get_page_contents.
      destruct (CONFIG_BT_MESH_HIGH_DATA_PAGES cfg); [|reflexivity].
      simpl Z.leb. rewrite andb_false_r. reflexivity. }
    rewrite Hcur. unfold current_page_contents. simpl Z.eqb. cbv iota.
    unfold bt_mesh_comp_data_get_page_0.
    rewrite !data_buf_add_le16_offset_emit, !emit_app.
    fold hdr. rewrite emit_room by lia. fold buf1.
    rewrite Hadd. cbn [fst buf1 data size]. rewrite <- app_assoc.
    reflexivity.
  - rewrite Hpage, length_app, Hhdr.
    rewrite take_app_add'; [|exact Hhdr]. f_equal.
    assert (He : concat (map elem_bytes (elem (dev_comp st)))
                 = concat (map elem_bytes (take k (elem (dev_comp st))))
                   ++ concat (map elem_bytes (drop k (elem (dev_comp st)))))
      by (rewrite <- concat_app, <- map_app, take_drop; reflexivity).
    rewrite He, take_app_length. reflexivity.
  - intros Hpos. rewrite length_app, Hhdr. specialize (Hfit Hpos). lia.
  - intros Hlt. specialize (Hmax Hlt). lia.
Qed.

Lemma comp_data_get_elems_page0_witness :
  ∃ k,
    let elems := elem (dev_comp (node_one ∅)) in
    let written :=
      take 10 (page0_bytes cfg_all (dev_comp (node_one ∅)))
      ++ concat (map elem_bytes (take k elems)) in
    k ≤ length elems
    ∧ bt_mesh_comp_data_get_elems cfg_all (node_one ∅) (NET_BUF_SIMPLE 30) 0
      = (Ok, {| data := data (NET_BUF_SIMPLE 30) ++ written;
                size := size (NET_BUF_SIMPLE 30) |})
    ∧ written
      = take (length written) (page0_bytes cfg_all (dev_comp (node_one ∅)))
    ∧ (0 < k →
       length written + BT_MESH_MIC_SHORT
       ≤ net_buf_simple_tailroom (NET_BUF_SIMPLE 30))
    ∧ (k < length elems →
       net_buf_simple_tailroom (NET_BUF_SIMPLE 30)
       < 10 + length (concat (map elem_bytes (take (S k) elems)))
         + BT_MESH_MIC_SHORT).
Proof.
  apply (comp_data_get_elems_page0 cfg_all (node_one ∅) (NET_BUF_SIMPLE 30)).
  vm_compute. lia.
Defined.

(** *** Staging a page and reading it back *)



(** X14.  Staging an empty page: [bt_mesh_comp_data_set] with [len = 0]
    stores the one-octet sentinel; afterwards the page has size 0,
    every read of it succeeds without adding an octet, and for page 128
    the composition counts as changed and the element count of the
    staged page is 0. *)
Theorem comp_data_set_empty (cfg : Kconfig) (st : access_state) (page : Z)
  (path : string) :
  CONFIG_BT_MESH_HIGH_DATA_PAGES cfg = true →
  CONFIG_BT_SETTINGS cfg = true →
  CONFIG_BT_MESH_LARGE_COMP_DATA_SRV cfg = true →
  1 ≤ CONFIG_BT_MESH_COMP_PST_BUF_SIZE cfg →
  save_err (settings st) = Ok →
  load_err (settings st) = Ok →
  stored_page_path cfg PAGE_TYPE_COMP page = Some path →
  ∃ st',
    bt_mesh_comp_data_set cfg st page [] = Some (Ok, st')
    ∧ records (settings st') !! path = Some [0%Z]
    ∧ bt_mesh_comp_page_size cfg st' page = 0
    ∧ (∀ buf off,
         bt_mesh_comp_data_get_page cfg st' buf page off = (Ok, buf))
    ∧ (page = 128%Z →
       bt_mesh_comp_128_changed cfg st' = true
       ∧ bt_mesh_comp_128_elem_count cfg st' = 0%Z).
Proof.
  intros Hhigh Hset Hsrv Hpst Hsave Hload Hpath.
  pose proof (stored_page_path_high _ _ _ _ Hpath) as Hge.
  unfold bt_mesh_comp_data_set, stored_page_write.
  rewrite Hhigh, Hset, Hpath. cbn [andb negb].
  destruct (new_page_data_is_equal cfg st PAGE_TYPE_COMP page []) as [eq|]
    eqn:Heq; [|exfalso; exact (new_page_data_is_equal_nil _ _ _ _ Heq)].
  cbn [length Nat.eqb].
  destruct (settings_save_one_nonempty (settings st) path [0%Z] Hsave)
    as (s1 & -> & Hrec & Hload1); [simpl; lia|].
  exists (set_settings st s1). split; [reflexivity|].
  split; [exact Hrec|].
  assert (Hstored :
    stored_page_size_get cfg (set_settings st s1) PAGE_TYPE_COMP page = 1).
  { unfold stored_page_size_get. rewrite Hpath.
    unfold settings_load_subtree_direct. cbn [settings set_settings].
    rewrite Hload1, Hload, Hrec. reflexivity. }
  assert (Hcb : stored_page_read_cb [0%Z]
                  (NET_BUF_SIMPLE (CONFIG_BT_MESH_COMP_PST_BUF_SIZE cfg))
                = {| data := [0%Z];
                     size := CONFIG_BT_MESH_COMP_PST_BUF_SIZE cfg |}).
  { unfold stored_page_read_cb, NET_BUF_SIMPLE, net_buf_simple_tailroom,
      net_buf_simple_add_mem. cbn [data size length].
    destruct (Nat.ltb_spec (CONFIG_BT_MESH_COMP_PST_BUF_SIZE cfg - 0) 1);
      [lia|reflexivity]. }
  split; [|split].
  - unfold bt_mesh_comp_page_size, page_size_get. rewrite Hhigh, Hset.
    destruct (Z.leb_spec 128 page) as [_|]; [|lia]. cbn [andb].
    rewrite Hstored. reflexivity.
  - intros buf off. unfold bt_mesh_comp_data_get_page. rewrite Hsrv.
    unfold get_page_contents. rewrite Hhigh, Hset.
    destruct (Z.leb_spec 128 page) as [_|]; [|lia]. cbn [andb].
    unfold stored_page_read. rewrite Hset, Hpath. cbn [negb andb].
    unfold settings_load_subtree_direct. cbn [settings set_settings].
    rewrite Hload1, Hload, Hrec, Hcb. reflexivity.
  - intros ->. split.
    + unfold bt_mesh_comp_128_changed. rewrite Hhigh, Hset.
      cbn [andb]. rewrite Hstored. reflexivity.
    + unfold bt_mesh_comp_128_elem_count. rewrite Hhigh, Hset, Hpath.
      change (default _ (Some path)) with path.
      unfold settings_load_subtree_direct.
      cbn [settings set_settings]. rewrite Hload1, Hload, Hrec, Hcb.
      reflexivity.
Qed.

Lemma comp_data_set_empty_witness :
  ∃ st',
    bt_mesh_comp_data_set cfg_all (node_one ∅) 128 [] = Some (Ok, st')
    ∧ records (settings st') !! "bt/mesh/cmp/128"%string = Some [0%Z]
    ∧ bt_mesh_comp_page_size cfg_all st' 128 = 0
    ∧ (∀ buf off,
         bt_mesh_comp_data_get_page cfg_all st' buf 128 off = (Ok, buf))
    ∧ (128%Z = 128%Z →
       bt_mesh_comp_128_changed cfg_all st' = true
       ∧ bt_mesh_comp_128_elem_count cfg_all st' = 0%Z).
Proof.
  apply (comp_data_set_empty cfg_all (node_one ∅) 128
           "bt/mesh/cmp/128"%string);
    first [reflexivity|simpl; lia].
Defined.

(** *** Whole elements of a staged page 128 *)

Lemma length_cdp128_elem (e : list Z) : cdp128_elem e → 4 ≤ length e.
Proof. intros (l0 & l1 & ns & nv & ids & -> & _). simpl. lia. Qed.

Lemma length_concat_cdp128 (elems : list (list Z)) :
  Forall cdp128_elem elems → length elems ≤ length (concat elems).
Proof.
  induction 1 as [|e elems He _ IH]; [simpl; lia|].
  simpl. rewrite length_app. pose proof (length_cdp128_elem e He). lia.
Qed.

Lemma write_cdp_elems_loop_whole (cfg : Kconfig) (elems : list (list Z)) :
  Forall cdp128_elem elems →
  ∀ (fuel : nat) (buf : net_buf_simple) (sz : nat),
    length elems ≤ fuel →
    ∃ k,
      k ≤ length elems
      ∧ write_cdp_elems_loop cfg fuel buf
          {| data := concat elems; size := sz |} 128
        = (Ok, {| data := data buf ++ concat (take k elems);
                  size := size buf |})
      ∧ length (concat (take k elems)) ≤ net_buf_simple_tailroom buf
      ∧ (k < length elems →
         net_buf_simple_tailroom buf < length (concat (take (S k) elems))).
Proof.
  induction 1 as [|e elems He Hall IH]; intros fuel buf sz Hfuel.
  - exists 0. split; [simpl; lia|]. split.
    + destruct fuel; simpl; rewrite app_nil_r; destruct buf; reflexivity.
    + split; simpl; lia.
  - destruct fuel as [|fuel]; [simpl in Hfuel; lia|].
    cbn [write_cdp_elems_loop concat].
    unfold next_elem_size. simpl Z.eqb. cbv iota.
    destruct (next_elem_size_cdp128_elem e (concat elems) sz He)
      as [Hsize Hpos].
    rewrite Hsize.
    destruct (length e) as [|n] eqn:Hlen; [lia|]. rewrite <- Hlen.
    cbn [data]. rewrite length_app.
    destruct (Nat.ltb_spec (length e + length (concat elems)) (length e))
      as [|_]; [lia|].
    destruct (Nat.ltb_spec (net_buf_simple_tailroom buf) (length e))
      as [Hfull|Hroom].
    + exists 0. split; [simpl; lia|]. split.
      * simpl. rewrite app_nil_r. destruct buf; reflexivity.
      * split; [simpl; lia|]. intros _. cbn [firstn concat].
        rewrite take_0. cbn [concat]. rewrite app_nil_r. exact Hfull.
    + unfold net_buf_simple_pull_mem, net_buf_simple_pull. cbn [data size].
      rewrite take_app_length, drop_app_length.
      set (buf1 := net_buf_simple_add_mem buf e).
      destruct (IH fuel buf1 (sz - length e) ltac:(simpl in Hfuel; lia))
        as (k & Hk & -> & Hfit & Hmax).
      assert (Ht1 : net_buf_simple_tailroom buf1 + length e
                    = net_buf_simple_tailroom buf).
      { unfold net_buf_simple_tailroom, buf1, net_buf_simple_add_mem in *.
        cbn [data size] in *. rewrite length_app. lia. }
      exists (S k). split; [simpl; lia|]. split.
      * cbn [firstn concat buf1 net_buf_simple_add_mem data size].
        rewrite <- app_assoc. reflexivity.
      * cbn [firstn concat]. rewrite !length_app. split; [lia|].
        intros Hlt. specialize (Hmax ltac:(simpl in Hlt; lia)). lia.
Qed.

(** Reading the staged page 128 element by element: the 10-octet
    header is copied, then the loop of [write_cdp_elems] runs on the
    rest of the record. *)
Lemma get_elems_stored_128_loop (cfg : Kconfig) (st : access_state)
  (buf : net_buf_simple) (hdr rest : list Z) :
  CONFIG_BT_MESH_HIGH_DATA_PAGES cfg = true →
  CONFIG_BT_SETTINGS cfg = true →
  load_err (settings st) = Ok →
  records (settings st) !! "bt/mesh/cmp/128"%string = Some (hdr ++ rest) →
  length hdr = 10 →
  length (hdr ++ rest) ≤ CONFIG_BT_MESH_COMP_PST_BUF_SIZE cfg →
  ∀ buf',
    write_cdp_elems_loop cfg (length rest) (net_buf_simple_add_mem buf hdr)
      {| data := rest; size := CONFIG_BT_MESH_COMP_PST_BUF_SIZE cfg - 10 |}
      128
    = (Ok, buf') →
    bt_mesh_comp_data_get_elems cfg st buf 128 = (Ok, buf').
Proof.
  intros Hhigh Hset Hload Hrec Hhdr Hfit buf' Hloop.
  unfold bt_mesh_comp_data_get_elems, get_page_contents.
  rewrite Hhigh, Hset. simpl Z.leb. cbn [andb].
  unfold stored_page_read. rewrite Hset. cbn [negb andb].
  rewrite bool_decide_eq_true_2 by reflexivity. cbn [negb orb Nat.eqb].
  rewrite stored_page_path_128.
  unfold settings_load_subtree_direct. rewrite Hload, Hrec.
  rewrite stored_page_read_cb_fresh.
  destruct (Nat.ltb_spec (CONFIG_BT_MESH_COMP_PST_BUF_SIZE cfg)
              (length (hdr ++ rest))) as [|_]; [lia|].
  cbn [data]. rewrite length_app, Hhdr. cbn [Nat.add Nat.eqb].
  destruct (bool_decide_reflect (hdr ++ rest = [0%Z])) as [E|_].
  { apply (f_equal length) in E. rewrite length_app, Hhdr in E.
    simpl in E. lia. }
  cbn [Nat.ltb Nat.leb].
  unfold write_cdp_elems. simpl Z.eqb. cbv iota. cbn [data].
  rewrite length_app, Hhdr.
  destruct (Nat.ltb_spec (10 + length rest) 10) as [|_]; [lia|].
  unfold net_buf_simple_pull_mem, net_buf_simple_pull. cbn [data size].
  rewrite <- Hhdr, take_app_length, drop_app_length. rewrite Hhdr.
  rewrite Hloop. reflexivity.
Qed.

(** X15.  [bt_mesh_comp_data_get_elems] on a staged page 128 that is a
    10-octet header followed by elements and is no larger than the
    persistence buffer, read into a buffer with room for the header:
    the result is the header followed by whole elements only, as many
    as the tailroom takes. *)
Theorem comp_data_get_elems_stored_128 (cfg : Kconfig) (st : access_state)
  (buf : net_buf_simple) (hdr : list Z) (elems : list (list Z)) :
  CONFIG_BT_MESH_HIGH_DATA_PAGES cfg = true →
  CONFIG_BT_SETTINGS cfg = true →
  load_err (settings st) = Ok →
  records (settings st) !! "bt/mesh/cmp/128"%string
  = Some (hdr ++ concat elems) →
  length hdr = 10 →
  Forall cdp128_elem elems →
  length (hdr ++ concat elems) ≤ CONFIG_BT_MESH_COMP_PST_BUF_SIZE cfg →
  10 ≤ net_buf_simple_tailroom buf →
  ∃ k,
    let written := hdr ++ concat (take k elems) in
    k ≤ length elems
    ∧ bt_mesh_comp_data_get_elems cfg st buf 128
      = (Ok, {| data := data buf ++ written; size := size buf |})
    ∧ length written ≤ net_buf_simple_tailroom buf
    ∧ (k < length elems →
       net_buf_simple_tailroom buf
       < 10 + length (concat (take (S k) elems))).
Proof.
  intros Hhigh Hset Hload Hrec Hhdr Hall Hfit Hroom.
  set (buf1 := net_buf_simple_add_mem buf hdr).
  destruct (write_cdp_elems_loop_whole cfg elems Hall
              (length (concat elems)) buf1
              (CONFIG_BT_MESH_COMP_PST_BUF_SIZE cfg - 10)
              (length_concat_cdp128 elems Hall))
    as (k & Hk & Hloop & Hfits & Hmax).
  assert (Ht1 : net_buf_simple_tailroom buf1 + 10
                = net_buf_simple_tailroom buf).
  { unfold net_buf_simple_tailroom, buf1, net_buf_simple_add_mem in *.
    cbn [data size] in *. rewrite length_app, Hhdr. lia. }
  exists k. cbv zeta. split; [exact Hk|]. split; [|split].
  - apply (get_elems_stored_128_loop cfg st buf hdr (concat elems));
      try assumption.
    fold buf1. rewrite Hloop. cbn [buf1 net_buf_simple_add_mem data size].
    rewrite <- app_assoc. reflexivity.
  - rewrite length_app, Hhdr. lia.
  - intros Hlt. specialize (Hmax Hlt). lia.
Qed.

Lemma comp_data_get_elems_stored_128_witness :
  ∃ k,
    let hdr := take 10 staged_page_128 in
    let elems := [take 6 (drop 10 staged_page_128);
                  drop 16 staged_page_128] in
    let buf := {| data := [0x02%Z]; size := 20 |} in
    let written := hdr ++ concat (take k elems) in
    k ≤ length elems
    ∧ bt_mesh_comp_data_get_elems cfg_all
        (node_one {[ "bt/mesh/cmp/128"%string := staged_page_128 ]}) buf 128
      = (Ok, {| data := data buf ++ written; size := size buf |})
    ∧ length written ≤ net_buf_simple_tailroom buf
    ∧ (k < length elems →
       net_buf_simple_tailroom buf
       < 10 + length (concat (take (S k) elems))).
Proof.
  apply (comp_data_get_elems_stored_128 cfg_all
           (node_one {[ "bt/mesh/cmp/128"%string := staged_page_128 ]})
           {| data := [0x02%Z]; size := 20 |}
           (take 10 staged_page_128)
           [take 6 (drop 10 staged_page_128); drop 16 staged_page_128]).
  - reflexivity.
  - reflexivity.
  - reflexivity.
  - vm_compute. reflexivity.
  - reflexivity.
  - repeat apply Forall_cons_2; try apply Forall_nil_2.
    + exists 0%Z, 0%Z, 1%Z, 0%Z, [0x00; 0x10]%Z. split; reflexivity.
    + exists 0%Z, 0%Z, 1%Z, 0%Z, [0x01; 0x10]%Z. split; reflexivity.
  - vm_compute. lia.
  - vm_compute. lia.
Defined.

(** ** Extension rings *)

Lemma nth_alter_ne {A : Type} (g : A → A) (l : list A) (d : A) :
  ∀ i j, i ≠ j → nth i (alter g j l) d = nth i l d.
Proof.
  induction l as [|x l IH]; intros [|i] [|j] Hne; simpl; try reflexivity;
    try lia.
  apply IH. lia.
Qed.

Lemma model_at_update_other (comp : bt_mesh_comp) (m x : mref)
  (f : bt_mesh_model → bt_mesh_model) :
  x ≠ m → model_at (update_model comp m f) x = model_at comp x.
Proof.
  intros Hne. unfold model_at, elem_at, update_model. cbn [elem].
  destruct (Nat.eq_dec (mr_elem x) (mr_elem m)) as [He|He].
  - destruct (Nat.lt_ge_cases (mr_elem m) (length (elem comp))) as [Hv|Hv].
    + rewrite He, nth_alter_same by exact Hv.
      destruct (mr_vnd m) eqn:Hvm, (mr_vnd x) eqn:Hvx; cbn [models vnd_models];
        try reflexivity; apply nth_alter_ne; intros Hi; apply Hne;
        destruct x, m; simpl in *; congruence.
    + rewrite !(nth_overflow _ elem_zero)
        by (rewrite ?length_alter; lia).
      reflexivity.
  - rewrite nth_alter_ne by exact He. reflexivity.
Qed.

Lemma valid_mref_update (comp : bt_mesh_comp) (m x : mref)
  (f : bt_mesh_model → bt_mesh_model) :
  valid_mref (update_model comp m f) x ↔ valid_mref comp x.
Proof.
  unfold valid_mref.
  assert (Hlen : length (elem (update_model comp m f)) = length (elem comp))
    by (unfold update_model; cbn [elem]; apply length_alter).
  rewrite Hlen.
  destruct (elem_at_update_counts comp m f (mr_elem x)) as [Hm Hv].
  unfold model_count, vnd_model_count in *.
  destruct (mr_vnd x); rewrite ?Hm, ?Hv; reflexivity.
Qed.

Lemma next_set_flags (comp : bt_mesh_comp) (m x : mref) (g : Z → Z) :
  next (rt (model_at (set_flags comp m g) x))
  = next (rt (model_at comp x)).
Proof.
  unfold set_flags.
  apply (model_at_update_inv (λ y, next (rt y))). reflexivity.
Qed.

Lemma next_set_next_same (comp : bt_mesh_comp) (m : mref) (n : option mref) :
  valid_mref comp m →
  next (rt (model_at (set_next comp m n) m)) = n.
Proof.
  intros Hv. unfold set_next. rewrite model_at_update_same by exact Hv.
  reflexivity.
Qed.

Lemma next_set_next_other (comp : bt_mesh_comp) (m x : mref)
  (n : option mref) :
  x ≠ m →
  next (rt (model_at (set_next comp m n) x)) = next (rt (model_at comp x)).
Proof.
  intros Hne. unfold set_next. rewrite model_at_update_other by exact Hne.
  reflexivity.
Qed.

Lemma chain_ext (comp comp' : bt_mesh_comp) (l : list mref)
  (close : option mref) :
  (∀ x, x ∈ l →
        next (rt (model_at comp' x)) = next (rt (model_at comp x))) →
  chain comp l close → chain comp' l close.
Proof.
  induction l as [|x l IH]; intros Hsame; [auto|].
  cbn [chain]. intros [Hx Hl]. split.
  - rewrite Hsame by left. exact Hx.
  - apply IH; [|exact Hl]. intros y Hy. apply Hsame. right. exact Hy.
Qed.

Lemma chain_app (comp : bt_mesh_comp) (l1 l2 : list mref)
  (close : option mref) :
  l2 ≠ [] →
  chain comp (l1 ++ l2) close
  ↔ chain comp l1 (head l2) ∧ chain comp l2 close.
Proof.
  intros Hne. induction l1 as [|x l1 IH]; cbn [app chain].
  - tauto.
  - rewrite IH. destruct l1 as [|y l1]; cbn [app].
    + destruct l2 as [|z l2]; [contradiction|]. cbn [head]. tauto.
    + tauto.
Qed.

Lemma walk_loop_chain {S : Type} (comp : bt_mesh_comp) (model : mref)
  (cb : mref → S → bt_mesh_walk * S) :
  ∀ (l : list mref) (fuel : nat) (user_data : S),
    length l < fuel →
    model ∉ l →
    chain comp l (Some model) →
    extensions_walk_loop fuel comp model cb user_data
      (match l with [] => Some model | x :: _ => Some x end)
    = Some (walk_list cb l user_data).
Proof.
  induction l as [|x l IH]; intros fuel user_data Hfuel Hnotin Hchain;
    (destruct fuel as [|fuel]; [simpl in Hfuel; lia|]);
    cbn [extensions_walk_loop walk_list].
  - rewrite bool_decide_eq_true_2 by reflexivity. reflexivity.
  - rewrite bool_decide_eq_false_2
      by (intros ->; apply Hnotin; left).
    destruct (cb x user_data) as [[] user_data']; [reflexivity|].
    cbn [chain] in Hchain. destruct Hchain as [Hx Hl]. rewrite Hx.
    apply (IH fuel user_data'); [simpl in Hfuel; lia| |exact Hl].
    intros Hin. apply Hnotin. right. exact Hin.
Qed.

(** X16.  A walk over the extensions of a model calls the callback on the
    model and then on each other model of its ring, once each and in
    the order of the links, until a callback stops the walk; without
    model extensions compiled in it calls the callback on the model
    alone. *)
Theorem extensions_walk_ring {S : Type} (cfg : Kconfig) (fuel : nat)
  (comp : bt_mesh_comp) (m : mref) (rest : list mref)
  (cb : mref → S → bt_mesh_walk * S) (user_data : S) :
  ring comp m rest →
  length rest < fuel →
  bt_mesh_model_extensions_walk cfg fuel comp m cb user_data
  = Some (if CONFIG_BT_MESH_MODEL_EXTENSIONS cfg
          then walk_list cb (m :: rest) user_data
          else snd (cb m user_data)).
Proof.
  intros (Hnodup & _ & Hring) Hfuel.
  unfold bt_mesh_model_extensions_walk.
  destruct (CONFIG_BT_MESH_MODEL_EXTENSIONS cfg); cbn [negb]; [|reflexivity].
  cbn [walk_list].
  destruct (cb m user_data) as [[] user_data']; [reflexivity|].
  destruct rest as [|y rest].
  - rewrite Hring. reflexivity.
  - cbn [chain] in Hring. destruct Hring as [Hm Hrest]. rewrite Hm.
    apply NoDup_cons in Hnodup as [Hnotin _].
    apply (walk_loop_chain comp m cb (y :: rest) fuel user_data' Hfuel Hnotin
             Hrest).
Qed.

Lemma ring_unlinked (comp : bt_mesh_comp) (m : mref) :
  valid_mref comp m → next (rt (model_at comp m)) = None → ring comp m [].
Proof.
  intros Hv Hn. split; [|split].
  - apply NoDup_singleton.
  - intros x Hx. apply list_elem_of_singleton in Hx as ->. exact Hv.
  - exact Hn.
Qed.

Lemma ring_node_four_elems_extended :
  ring (dev_comp node_four_elems_extended) (sig_ref 3 0) [sig_ref 0 0].
Proof.
  split; [|split].
  - apply NoDup_cons. split; [|apply NoDup_singleton].
    intros Hin. apply list_elem_of_singleton in Hin. discriminate Hin.
  - intros x Hx. apply elem_of_cons in Hx as [->|Hx];
      [|apply list_elem_of_singleton in Hx as ->]; vm_compute; lia.
  - vm_compute. repeat split.
Qed.

Lemma extensions_walk_ring_witness :
  bt_mesh_model_extensions_walk cfg_all 4
    (dev_comp node_four_elems_extended) (sig_ref 3 0)
    (λ x visited, (BT_MESH_WALK_CONTINUE, visited ++ [x])) []
  = Some (if CONFIG_BT_MESH_MODEL_EXTENSIONS cfg_all
          then walk_list (λ x visited, (BT_MESH_WALK_CONTINUE, visited ++ [x]))
                 [sig_ref 3 0; sig_ref 0 0] []
          else [sig_ref 3 0]).
Proof.
  apply (extensions_walk_ring cfg_all 4 (dev_comp node_four_elems_extended)
           (sig_ref 3 0) [sig_ref 0 0]
           (λ x visited, (BT_MESH_WALK_CONTINUE, visited ++ [x])) []);
    [exact ring_node_four_elems_extended|simpl; lia].
Defined.

Lemma extend_list_contains_chain (comp : bt_mesh_comp) (a b : mref) :
  ∀ (l : list mref) (x : mref) (fuel : nat),
    length (x :: l) < fuel →
    b ∉ x :: l →
    chain comp (x :: l) (Some a) ∨ (l = [] ∧ next (rt (model_at comp x)) = None) →
    extend_list_contains fuel comp a b (Some x) = Some false.
Proof.
  induction l as [|y l IH]; intros x fuel Hfuel Hb Hchain;
    (destruct fuel as [|fuel]; [simpl in Hfuel; lia|]);
    cbn [extend_list_contains].
  - destruct Hchain as [[Hx _] | [_ Hx]].
    + rewrite bool_decide_eq_true_2 by exact Hx. reflexivity.
    + rewrite Hx. rewrite bool_decide_eq_false_2 by discriminate.
      rewrite bool_decide_eq_false_2 by (intros ->; apply Hb; left).
      destruct fuel as [|fuel]; [simpl in Hfuel; lia|]. reflexivity.
  - destruct Hchain as [[Hx Hl] | [[=] _]].
    destruct (bool_decide (next (rt (model_at comp x)) = Some a));
      [reflexivity|].
    rewrite bool_decide_eq_false_2 by (intros ->; apply Hb; left).
    rewrite Hx. apply IH; [simpl in *; lia| |left; exact Hl].
    intros Hin. apply Hb. right. exact Hin.
Qed.

Lemma ring_next_head (comp : bt_mesh_comp) (m : mref) (rest : list mref) :
  ring comp m rest →
  next (rt (model_at comp m)) = head rest.
Proof.
  intros (_ & _ & Hring). destruct rest as [|y rest]; [exact Hring|].
  cbn [chain] in Hring. destruct Hring as [Hm _]. exact Hm.
Qed.

Lemma ring_chain_rest (comp : bt_mesh_comp) (m : mref) (rest : list mref) :
  ring comp m rest → chain comp rest (Some m).
Proof.
  intros (_ & _ & Hring). destruct rest as [|y rest]; [exact I|].
  cbn [chain] in Hring. destruct Hring as [_ Hrest]. exact Hrest.
Qed.

(** X17.  Extending a model by a model of another ring joins the two
    extension rings into one.  For the rings [a :: ra] and [b :: rb]
    with no model in common, [bt_mesh_model_extend(a, b)] returns and
    leaves the ring [a :: rb ++ b :: ra]; the links of every model
    other than [a] and [b] are as before. *)
Theorem extend_merges_rings (cfg : Kconfig) (fuel : nat) (st : access_state)
  (a b : mref) (ra rb : list mref) :
  ring (dev_comp st) a ra →
  ring (dev_comp st) b rb →
  (∀ x, x ∈ a :: ra → x ∉ b :: rb) →
  length (a :: ra) < fuel →
  ∃ r st',
    bt_mesh_model_extend cfg fuel st a b = Some (r, st')
    ∧ ring (dev_comp st') a (rb ++ b :: ra)
    ∧ ∀ x, x ≠ a → x ≠ b →
        next (rt (model_at (dev_comp st') x))
        = next (rt (model_at (dev_comp st) x)).
Proof.
  intros Hra Hrb Hdisj Hfuel.
  pose proof (ring_next_head _ _ _ Hra) as Hanext.
  pose proof (ring_next_head _ _ _ Hrb) as Hbnext.
  pose proof (ring_chain_rest _ _ _ Hra) as Hcra.
  pose proof (ring_chain_rest _ _ _ Hrb) as Hcrb.
  destruct Hra as (Hnda & Hva & Hringa). destruct Hrb as (Hndb & Hvb & Hringb).
  assert (Hab : a ≠ b).
  { intros ->. apply (Hdisj b); left. }
  assert (Hb_notin : b ∉ a :: ra).
  { intros Hin. apply (Hdisj b Hin). left. }
  set (comp0 := set_flags (dev_comp st) b (λ f, Z.lor f BT_MESH_MOD_EXTENDED)).
  set (comp1 := set_next comp0 b
                  (Some (match head ra with Some n => n | None => a end))).
  set (comp2 := set_next comp1 a
                  (Some (match head rb with Some n => n | None => b end))).
  assert (Hv0 : ∀ x, valid_mref comp0 x ↔ valid_mref (dev_comp st) x)
    by (intros x; apply valid_mref_update).
  assert (Hv1 : ∀ x, valid_mref comp1 x ↔ valid_mref (dev_comp st) x)
    by (intros x; unfold comp1, set_next; rewrite valid_mref_update;
        apply Hv0).
  assert (Hv2 : ∀ x, valid_mref comp2 x ↔ valid_mref (dev_comp st) x)
    by (intros x; unfold comp2, set_next; rewrite valid_mref_update;
        apply Hv1).
  assert (Hdev : ∃ r st',
            bt_mesh_model_extend cfg fuel st a b = Some (r, st')
            ∧ dev_comp st' = comp2).
  { unfold bt_mesh_model_extend.
    rewrite bool_decide_eq_false_2 by exact Hab.
    rewrite extend_list_contains_set_flags.
    rewrite (extend_list_contains_chain (dev_comp st) a b ra a fuel Hfuel
               Hb_notin).
    2: { destruct ra as [|y ra]; [right; split; [reflexivity|exact Hringa]|].
         left. exact Hringa. }
    rewrite Hanext, Hbnext. fold comp0.
    assert (Hc2 :
      match head rb with
      | Some n =>
        set_next
          match head ra with
          | Some n0 => set_next comp0 b (Some n0)
          | None => set_next comp0 b (Some a)
          end a (Some n)
      | None =>
        set_next
          match head ra with
          | Some n0 => set_next comp0 b (Some n0)
          | None => set_next comp0 b (Some a)
          end a (Some b)
      end = comp2).
    { unfold comp2, comp1. destruct (head ra), (head rb); reflexivity. }
    rewrite Hc2. cbn [mod_rel_list set_dev_comp].
    destruct (0 <? length (mod_rel_list st)).
    - unfold mod_rel_register. cbn [mod_rel_list set_dev_comp dev_comp].
      destruct (mod_rel_list_put _ _); eexists _, _;
        (split; [reflexivity|reflexivity]).
    - destruct (CONFIG_BT_MESH_COMP_PAGE_1 cfg); eexists _, _;
        (split; [reflexivity|reflexivity]). }
  destruct Hdev as (r & st' & Hext & Hcomp). exists r, st'.
  split; [exact Hext|]. rewrite Hcomp.
  assert (Hother : ∀ x, x ≠ a → x ≠ b →
            next (rt (model_at comp2 x))
            = next (rt (model_at (dev_comp st) x))).
  { intros x Hxa Hxb. unfold comp2.
    rewrite next_set_next_other by exact Hxa. unfold comp1.
    rewrite next_set_next_other by exact Hxb. apply next_set_flags. }
  assert (Hna : next (rt (model_at comp2 a))
                = Some (match head rb with Some n => n | None => b end)).
  { unfold comp2. apply next_set_next_same, Hv1, Hva. left. }
  assert (Hnb : next (rt (model_at comp2 b))
                = Some (match head ra with Some n => n | None => a end)).
  { unfold comp2. rewrite next_set_next_other by (intros E; apply Hab; auto).
    unfold comp1. apply next_set_next_same, Hv0, Hvb. left. }
  split; [|exact Hother].
  split; [|split].
  - (* no model twice *)
    apply NoDup_cons in Hnda as [Hana Hndra].
    apply NoDup_cons in Hndb as [Hbnb Hndrb].
    apply NoDup_cons. split.
    + rewrite elem_of_app, elem_of_cons. intros [Hin|[Hin|Hin]].
      * apply (Hdisj a); [left|right; exact Hin].
      * contradiction.
      * contradiction.
    + apply NoDup_app. split; [exact Hndrb|]. split.
      * intros x Hx. rewrite elem_of_cons. intros [->|Hin]; [contradiction|].
        apply (Hdisj x); [right; exact Hin|right; exact Hx].
      * apply NoDup_cons. split; [|exact Hndra].
        intros Hin. apply Hb_notin. right. exact Hin.
  - intros x Hx. apply Hv2.
    rewrite elem_of_cons, elem_of_app, elem_of_cons in Hx.
    destruct Hx as [->|[Hx|[->|Hx]]].
    + apply Hva. left.
    + apply Hvb. right. exact Hx.
    + apply Hvb. left.
    + apply Hva. right. exact Hx.
  - (* the links *)
    assert (Hrb2 : chain comp2 rb (Some b)).
    { apply (chain_ext (dev_comp st)); [|exact Hcrb].
      intros x Hx. apply Hother.
      - intros ->. apply (Hdisj a); [left|right; exact Hx].
      - intros ->. apply NoDup_cons in Hndb as [Hbnb _]. contradiction. }
    assert (Hra2 : chain comp2 ra (Some a)).
    { apply (chain_ext (dev_comp st)); [|exact Hcra].
      intros x Hx. apply Hother.
      - intros ->. apply NoDup_cons in Hnda as [Hana _]. contradiction.
      - intros ->. apply Hb_notin. right. exact Hx. }
    assert (Hbra : chain comp2 (b :: ra) (Some a)).
    { cbn [chain]. split; [|exact Hra2]. rewrite Hnb.
      destruct ra; reflexivity. }
    destruct (rb ++ b :: ra) as [|y l] eqn:Hl.
    { destruct rb; discriminate. }
    rewrite <- Hl. change (a :: rb ++ b :: ra) with ([a] ++ (rb ++ b :: ra)).
    apply chain_app; [rewrite Hl; discriminate|]. split.
    + cbn [chain]. split; [|exact I]. rewrite Hna.
      destruct rb; reflexivity.
    + apply chain_app; [discriminate|]. split; [exact Hrb2|exact Hbra].
Qed.

Lemma extend_merges_rings_witness :
  ∃ r st',
    bt_mesh_model_extend cfg_all 4 node_four_elems_extended (sig_ref 1 0)
      (sig_ref 3 0) = Some (r, st')
    ∧ ring (dev_comp st') (sig_ref 1 0) [sig_ref 0 0; sig_ref 3 0]
    ∧ ∀ x, x ≠ sig_ref 1 0 → x ≠ sig_ref 3 0 →
        next (rt (model_at (dev_comp st') x))
        = next (rt (model_at (dev_comp node_four_elems_extended) x)).
Proof.
  apply (extend_merges_rings cfg_all 4 node_four_elems_extended (sig_ref 1 0)
           (sig_ref 3 0) [] [sig_ref 0 0]).
  - apply ring_unlinked; [vm_compute; lia|reflexivity].
  - exact ring_node_four_elems_extended.
  - intros x Hx. apply list_elem_of_singleton in Hx as ->.
    intros Hin. apply elem_of_cons in Hin as [Hin|Hin];
      [discriminate Hin|].
    apply list_elem_of_singleton in Hin. discriminate Hin.
  - simpl. lia.
Defined.

Lemma model_group_get_Some (m : bt_mesh_model) (a : Z) :
  is_Some (model_group_get m a) ↔ a ∈ groups m.
Proof.
  unfold model_group_get. generalize 0 as i.
  induction (groups m) as [|g l IH]; intros i; cbn [model_group_get_loop].
  - split; [intros [? [=]]|intros H; inversion H].
  - destruct (Z.eqb_spec g a) as [->|Hne].
    + split; [intros _; left|intros _; eexists; reflexivity].
    + rewrite IH. split; [intros H; right; exact H|].
      intros H. inversion H; subst; [contradiction|assumption].
Qed.

Lemma find_group_walk_list (comp : bt_mesh_comp) (l : list mref) :
  ∀ ctx,
    fg_entry ctx = None →
    is_Some (fg_entry (walk_list (find_group_mod_visitor comp) l ctx))
    ↔ ∃ x, x ∈ l
           ∧ elem_idx (rt (model_at comp x))
             = elem_idx (rt (model_at comp (fg_mod ctx)))
           ∧ fg_addr ctx ∈ groups (model_at comp x).
Proof.
  induction l as [|x l IH]; intros ctx Hnone; cbn [walk_list].
  - rewrite Hnone. split; [intros [? [=]]|].
    intros (x & Hx & _). inversion Hx.
  - unfold find_group_mod_visitor at 1.
    destruct (Z.eqb_spec (elem_idx (rt (model_at comp x)))
                (elem_idx (rt (model_at comp (fg_mod ctx))))) as [He|He];
      cbn [negb].
    + destruct (model_group_get (model_at comp x) (fg_addr ctx)) as [i|]
        eqn:Hg.
      * cbn [fg_entry]. split; [intros _|intros _; eexists; reflexivity].
        exists x. split; [left|]. split; [exact He|].
        apply model_group_get_Some. rewrite Hg. eexists; reflexivity.
      * rewrite IH by reflexivity. cbn [fg_mod fg_addr]. split.
        -- intros (y & Hy & Hrest). exists y. split; [right; exact Hy|].
           exact Hrest.
        -- intros (y & Hy & Hey & Hgy). inversion Hy; subst.
           ++ exfalso. apply model_group_get_Some in Hgy.
              rewrite Hg in Hgy. destruct Hgy as [? [=]].
           ++ exists y. repeat split; assumption.
    + rewrite IH by exact Hnone. split.
      * intros (y & Hy & Hrest). exists y. split; [right; exact Hy|].
        exact Hrest.
      * intros (y & Hy & Hey & Hgy). inversion Hy; subst.
        -- contradiction.
        -- exists y. repeat split; assumption.
Qed.

(** X18.  A model accepts a group destination exactly when the model or
    a model of its extension ring in the same element holds the group
    in its subscription list; without model extensions compiled in,
    exactly when the model itself does. *)
Theorem model_has_dst_group_ring (cfg : Kconfig) (fuel : nat)
  (comp : bt_mesh_comp) (m : mref) (rest : list mref) (dst : Z)
  (uuid : option nat) :
  ring comp m rest →
  length rest < fuel →
  BT_MESH_ADDR_IS_GROUP dst = true →
  ∃ b,
    model_has_dst cfg fuel comp m dst uuid = Some b
    ∧ (b = true
       ↔ ∃ x, x ∈ (if CONFIG_BT_MESH_MODEL_EXTENSIONS cfg then m :: rest
                   else [m])
              ∧ elem_idx (rt (model_at comp x))
                = elem_idx (rt (model_at comp m))
              ∧ dst ∈ groups (model_at comp x)).
Proof.
  intros Hring Hfuel Hgroup.
  assert (Hrange : (0xc000 ≤ dst < 0xff00)%Z).
  { unfold BT_MESH_ADDR_IS_GROUP in Hgroup.
    apply andb_true_iff in Hgroup as [H1 H2].
    apply Z.leb_le in H1. apply Z.ltb_lt in H2. lia. }
  unfold model_has_dst.
  assert (Hu : BT_MESH_ADDR_IS_UNICAST dst = false).
  { unfold BT_MESH_ADDR_IS_UNICAST. apply andb_false_iff. right.
    apply Z.ltb_ge. lia. }
  assert (Hv : BT_MESH_ADDR_IS_VIRTUAL dst = false).
  { unfold BT_MESH_ADDR_IS_VIRTUAL. apply andb_false_iff. right.
    apply Z.ltb_ge. lia. }
  rewrite Hu, Hv, Hgroup. cbn [orb].
  unfold bt_mesh_model_find_group.
  set (ctx0 := {| fg_entry := None; fg_mod := m; fg_addr := dst |}).
  assert (Hwalk :
    bt_mesh_model_extensions_walk cfg fuel comp m
      (find_group_mod_visitor comp) ctx0
    = Some (walk_list (find_group_mod_visitor comp)
              (if CONFIG_BT_MESH_MODEL_EXTENSIONS cfg then m :: rest
               else [m]) ctx0)).
  { destruct Hring as (Hnodup & _ & Hring).
    unfold bt_mesh_model_extensions_walk.
    destruct (CONFIG_BT_MESH_MODEL_EXTENSIONS cfg); cbn [negb walk_list].
    - destruct (find_group_mod_visitor comp m ctx0) as [[] ctx1];
        [reflexivity|].
      destruct rest as [|y rest]; [rewrite Hring; reflexivity|].
      cbn [chain] in Hring. destruct Hring as [Hm Hrest]. rewrite Hm.
      apply NoDup_cons in Hnodup as [Hnotin _].
      apply (walk_loop_chain comp m _ (y :: rest) fuel ctx1 Hfuel Hnotin
               Hrest).
    - destruct (find_group_mod_visitor comp m ctx0) as [[] ctx1];
        reflexivity. }
  rewrite Hwalk. cbn [mbind option_bind snd].
  eexists. split; [reflexivity|].
  rewrite bool_decide_eq_true.
  apply (find_group_walk_list comp _ ctx0). reflexivity.
Qed.

Lemma model_has_dst_group_ring_witness :
  ∃ b,
    model_has_dst cfg_all 4 (dev_comp node_four_elems_extended)
      (sig_ref 3 0) 0xC000 None = Some b
    ∧ (b = true
       ↔ ∃ x, x ∈ (if CONFIG_BT_MESH_MODEL_EXTENSIONS cfg_all
                   then [sig_ref 3 0; sig_ref 0 0] else [sig_ref 3 0])
              ∧ elem_idx (rt (model_at (dev_comp node_four_elems_extended) x))
                = elem_idx
                    (rt (model_at (dev_comp node_four_elems_extended)
                           (sig_ref 3 0)))
              ∧ 0xC000%Z
                ∈ groups (model_at (dev_comp node_four_elems_extended) x)).
Proof.
  apply (model_has_dst_group_ring cfg_all 4
           (dev_comp node_four_elems_extended) (sig_ref 3 0) [sig_ref 0 0]
           0xC000 None);
    [exact ring_node_four_elems_extended|simpl; lia|reflexivity].
Defined.

(** X19.  [bt_mesh_model_extend] marks the base model as extended and
    leaves the flags of every other model, the extending one included,
    as they were; this holds whatever the call returns. *)
Theorem extend_marks_base (cfg : Kconfig) (fuel : nat) (st st' : access_state)
  (a b : mref) (r : status) :
  valid_mref (dev_comp st) b →
  bt_mesh_model_extend cfg fuel st a b = Some (r, st') →
  bt_mesh_model_is_extended (dev_comp st') b = true
  ∧ ∀ x, x ≠ b →
      flags (rt (model_at (dev_comp st') x))
      = flags (rt (model_at (dev_comp st) x)).
Proof.
  intros Hvb Hext.
  set (comp0 := set_flags (dev_comp st) b (λ f, Z.lor f BT_MESH_MOD_EXTENDED)).
  assert (Hflags_next : ∀ comp m n x,
            flags (rt (model_at (set_next comp m n) x))
            = flags (rt (model_at comp x))).
  { intros comp m n x. unfold set_next.
    apply (model_at_update_inv (λ y, flags (rt y))). reflexivity. }
  assert (Hcomp : ∀ x, flags (rt (model_at (dev_comp st') x))
                       = flags (rt (model_at comp0 x))).
  { intros x. unfold bt_mesh_model_extend in Hext. fold comp0 in Hext.
    destruct (bool_decide (a = b)).
    { injection Hext as _ <-. reflexivity. }
    destruct (extend_list_contains fuel comp0 a b (Some a)) as [[]|];
      [| |discriminate].
    - injection Hext as Hext. cbn [mod_rel_list set_dev_comp] in Hext.
      destruct (0 <? length (mod_rel_list st)).
      + unfold mod_rel_register in Hext.
        destruct (mod_rel_list_put _ _); injection Hext as _ <-;
          reflexivity.
      + destruct (CONFIG_BT_MESH_COMP_PAGE_1 cfg); injection Hext as _ <-;
          reflexivity.
    - injection Hext as Hext. cbn [mod_rel_list set_dev_comp] in Hext.
      assert (Hdev : flags (rt (model_at (dev_comp st') x))
                     = flags (rt (model_at comp0 x)));
        [|exact Hdev].
      destruct (0 <? length (mod_rel_list st)).
      + unfold mod_rel_register in Hext.
        destruct (mod_rel_list_put _ _); injection Hext as _ <-;
          cbn [dev_comp set_dev_comp set_mod_rel_list];
          destruct (next (rt (model_at (dev_comp st) a))),
            (next (rt (model_at (dev_comp st) b)));
          rewrite !Hflags_next; reflexivity.
      + destruct (CONFIG_BT_MESH_COMP_PAGE_1 cfg); injection Hext as _ <-;
          cbn [dev_comp set_dev_comp];
          destruct (next (rt (model_at (dev_comp st) a))),
            (next (rt (model_at (dev_comp st) b)));
          rewrite !Hflags_next; reflexivity. }
  split.
  - unfold bt_mesh_model_is_extended. rewrite Hcomp. unfold comp0, set_flags.
    rewrite model_at_update_same by exact Hvb. cbn [rt set_rt flags].
    apply negb_true_iff, Z.eqb_neq. intros Hz.
    assert (Hbit : Z.testbit (Z.land (Z.lor (flags (rt (model_at (dev_comp st) b)))
                                        BT_MESH_MOD_EXTENDED)
                                BT_MESH_MOD_EXTENDED) 3 = true).
    { rewrite Z.land_spec, Z.lor_spec.
      change (Z.testbit BT_MESH_MOD_EXTENDED 3) with true.
      rewrite orb_true_r. reflexivity. }
    rewrite Hz in Hbit. discriminate.
  - intros x Hx. rewrite Hcomp. unfold comp0, set_flags.
    rewrite model_at_update_other by exact Hx. reflexivity.
Qed.

Lemma extend_marks_base_witness :
  bt_mesh_model_is_extended (dev_comp node_four_elems_extended) (sig_ref 0 0)
  = true
  ∧ ∀ x, x ≠ sig_ref 0 0 →
      flags (rt (model_at (dev_comp node_four_elems_extended) x))
      = flags (rt (model_at (dev_comp node_four_elems) x)).
Proof.
  apply (extend_marks_base cfg_all 4 node_four_elems node_four_elems_extended
           (sig_ref 3 0) (sig_ref 0 0) Ok);
    [vm_compute; lia|vm_compute; reflexivity].
Defined.

(** ** Opcode lookup *)

Lemma find_op_in_table_spec (l : list bt_mesh_model_op) (code : Z) :
  match find_op_in_table l code with
  | Some o => o ∈ l ∧ opcode o = code
  | None => ∀ o, o ∈ l → opcode o ≠ code
  end.
Proof.
  induction l as [|x l IH]; cbn [find_op_in_table].
  - intros o Ho. inversion Ho.
  - destruct (Z.eqb_spec (opcode x) code) as [He|Hne].
    + split; [left|exact He].
    + destruct (find_op_in_table l code) as [o|].
      * destruct IH as [Hin Ho]. split; [right; exact Hin|exact Ho].
      * intros o Ho. inversion Ho; subst; [exact Hne|apply IH; assumption].
Qed.

Lemma find_op_loop_spec (cfg : Kconfig) (l : list bt_mesh_model) (code : Z)
  (cid : option Z) :
  let skipped (m : bt_mesh_model) :=
    CONFIG_BT_MESH_MODEL_VND_MSG_CID_FORCE cfg
    && match cid with
       | Some c => negb (c =? vnd_company m)%Z
       | None => false
       end in
  ∀ i,
    match find_op_loop cfg l code cid i with
    | Some (o, k) =>
      ∃ j m, k = i + j ∧ l !! j = Some m ∧ skipped m = false
             ∧ o ∈ op m ∧ opcode o = code
             ∧ ∀ j' m', j' < j → l !! j' = Some m' → skipped m' = false →
                 ∀ o', o' ∈ op m' → opcode o' ≠ code
    | None =>
      ∀ m, m ∈ l → skipped m = false → ∀ o', o' ∈ op m → opcode o' ≠ code
    end.
Proof.
  intros skipped. induction l as [|x l IH]; intros i; cbn [find_op_loop].
  - intros m Hm. inversion Hm.
  - fold (skipped x). destruct (skipped x) eqn:Hsk.
    + specialize (IH (S i)).
      destruct (find_op_loop cfg l code cid (S i)) as [[o k]|].
      * destruct IH as (j & m & -> & Hj & Hm & Ho & Hc & Hfirst).
        exists (S j), m. repeat split; try assumption; [lia|].
        intros [|j'] m' Hlt Hl Hs; simpl in Hl.
        -- injection Hl as <-. congruence.
        -- apply (Hfirst j' m'); [lia|exact Hl|exact Hs].
      * intros m Hm Hs. inversion Hm; subst; [congruence|].
        apply IH; assumption.
    + pose proof (find_op_in_table_spec (op x) code) as Ht.
      destruct (find_op_in_table (op x) code) as [o|].
      * destruct Ht as [Hin Ho]. exists 0, x.
        repeat split; try assumption; [lia|]. intros j' m' Hlt. lia.
      * specialize (IH (S i)).
        destruct (find_op_loop cfg l code cid (S i)) as [[o k]|].
        -- destruct IH as (j & m & -> & Hj & Hm & Ho & Hc & Hfirst).
           exists (S j), m. repeat split; try assumption; [lia|].
           intros [|j'] m' Hlt Hl Hs; simpl in Hl.
           ++ injection Hl as <-. exact Ht.
           ++ apply (Hfirst j' m'); [lia|exact Hl|exact Hs].
        -- intros m Hm Hs. inversion Hm; subst; [exact Ht|].
           apply IH; assumption.
Qed.

(** X20.  [find_op] looks a 1- or 2-octet opcode up among the SIG models
    of the element only and a 3-octet opcode among its vendor models
    only, there passing over the models of another company when the
    company id is enforced.  It answers the first model, in the order
    of the element, whose table lists the opcode, with an entry of that
    table carrying the opcode; it answers [NULL] exactly when no such
    model lists the opcode. *)
Theorem find_op_first_model (cfg : Kconfig) (elem : bt_mesh_elem)
  (e_idx : nat) (code : Z) :
  let vendor := negb (BT_MESH_MODEL_OP_LEN code <? 3) in
  let candidates := if vendor then vnd_models elem else models elem in
  let skipped (m : bt_mesh_model) :=
    CONFIG_BT_MESH_MODEL_VND_MSG_CID_FORCE cfg && vendor
    && negb (u16 (Z.land code 0xffff) =? vnd_company m)%Z in
  match find_op cfg elem e_idx code with
  | Some (o, r) =>
    mr_elem r = e_idx ∧ mr_vnd r = vendor
    ∧ ∃ m, candidates !! mr_idx r = Some m ∧ skipped m = false
           ∧ o ∈ op m ∧ opcode o = code
           ∧ ∀ j m', j < mr_idx r → candidates !! j = Some m' →
               skipped m' = false → ∀ o', o' ∈ op m' → opcode o' ≠ code
  | None =>
    ∀ m, m ∈ candidates → skipped m = false →
      ∀ o', o' ∈ op m → opcode o' ≠ code
  end.
Proof.
  intros vendor candidates skipped. unfold find_op.
  subst vendor candidates skipped.
  destruct (BT_MESH_MODEL_OP_LEN code <? 3); cbn [negb].
  - pose proof (find_op_loop_spec cfg (models elem) code None 0) as H.
    cbv zeta in H.
    destruct (find_op_loop cfg (models elem) code None 0) as [[o k]|];
      cbn [mbind option_bind].
    + destruct H as (j & m & -> & Hj & Hm & Ho & Hc & Hfirst).
      cbn [mr_elem mr_vnd mr_idx Nat.add].
      split; [reflexivity|]. split; [reflexivity|].
      exists m. rewrite andb_false_r.
      split; [exact Hj|]. split; [reflexivity|]. split; [exact Ho|].
      split; [exact Hc|].
      intros j' m' Hlt Hl _. apply (Hfirst j' m' Hlt Hl).
      apply andb_false_r.
    + intros m Hm _. apply (H m Hm). apply andb_false_r.
  - pose proof (find_op_loop_spec cfg (vnd_models elem) code
                  (Some (u16 (Z.land code 0xffff))) 0) as H.
    cbv zeta in H.
    destruct (find_op_loop cfg (vnd_models elem) code
                (Some (u16 (Z.land code 65535))) 0) as [[o k]|];
      cbn [mbind option_bind].
    + destruct H as (j & m & -> & Hj & Hm & Ho & Hc & Hfirst).
      cbn [mr_elem mr_vnd mr_idx Nat.add].
      split; [reflexivity|]. split; [reflexivity|].
      exists m. rewrite andb_true_r.
      split; [exact Hj|]. split; [exact Hm|]. split; [exact Ho|].
      split; [exact Hc|].
      intros j' m' Hlt Hl Hs. apply (Hfirst j' m' Hlt Hl).
      rewrite ?andb_true_r in Hs. exact Hs.
    + intros m Hm Hs. apply (H m Hm). rewrite ?andb_true_r in Hs. exact Hs.
Qed.

(** ** Large Composition Data Server *)

Lemma sys_get_put_le16 (d0 d1 : Z) :
  is_u8 d0 → is_u8 d1 → sys_put_le16 (sys_get_le16 d0 d1) = [d0; d1].
Proof.
  intros H0 H1. unfold sys_put_le16, sys_get_le16, u8.
  rewrite lor_shiftl_add by (unfold is_u8 in *; simpl; lia).
  change (2 ^ 8)%Z with 256%Z.
  rewrite Z.shiftr_div_pow2 by lia. change (2 ^ 8)%Z with 256%Z.
  unfold is_u8 in *.
  replace ((d1 * 256 + d0) mod 256)%Z with d0
    by (apply Z.mod_unique with (q := d1); lia).
  replace ((d1 * 256 + d0) / 256)%Z with d1
    by (apply Z.div_unique with (r := d0); lia).
  rewrite Z.mod_small by lia. reflexivity.
Qed.

Lemma sys_get_le16_value (d0 d1 : Z) :
  is_u8 d0 → is_u8 d1 → sys_get_le16 d0 d1 = (d0 + 256 * d1)%Z.
Proof.
  intros H0 H1. unfold sys_get_le16.
  rewrite lor_shiftl_add by (unfold is_u8 in *; simpl; lia).
  change (2 ^ 8)%Z with 256%Z. lia.
Qed.

Lemma size_add_sub_mic (buf : net_buf_simple) :
  BT_MESH_MIC_SHORT ≤ size buf → (Z.of_nat (size buf) < 65536)%Z →
  size_add buf (- Z.of_nat BT_MESH_MIC_SHORT)
  = {| data := data buf; size := size buf - BT_MESH_MIC_SHORT |}.
Proof.
  intros Hlo Hhi. unfold size_add, u16. f_equal.
  rewrite Z.mod_small by (unfold BT_MESH_MIC_SHORT in *; lia). lia.
Qed.

Lemma size_add_add_mic (d : list Z) (n : nat) :
  BT_MESH_MIC_SHORT ≤ n → (Z.of_nat n < 65536)%Z →
  size_add {| data := d; size := n - BT_MESH_MIC_SHORT |}
    (Z.of_nat BT_MESH_MIC_SHORT)
  = {| data := d; size := n |}.
Proof.
  intros Hlo Hhi. unfold size_add, u16. cbn [data size]. f_equal.
  rewrite Z.mod_small by (unfold BT_MESH_MIC_SHORT in *; lia). lia.
Qed.

(** The five octets that open a status message: page, offset and total
    size. *)
Lemma status_header_added (rsp : net_buf_simple) (page offset total : Z) :
  length (data rsp) + 5 ≤ size rsp →
  (rsp ← net_buf_simple_add_u8 rsp page;
   rsp ← net_buf_simple_add_le16 rsp offset;
   net_buf_simple_add_le16 rsp total)
  = Some {| data := data rsp ++ [u8 page] ++ sys_put_le16 offset
                    ++ sys_put_le16 total;
            size := size rsp |}.
Proof.
  intros Hroom.
  assert (Hlen16 : ∀ v, length (sys_put_le16 v) = 2) by reflexivity.
  unfold net_buf_simple_add_u8, net_buf_simple_add_le16,
    net_buf_simple_tailroom, net_buf_simple_add_mem.
  destruct (Nat.leb_spec 1 (size rsp - length (data rsp))); [|lia].
  cbn [mbind option_bind data size]. rewrite !length_app. cbn [length].
  destruct (Nat.leb_spec 2 (size rsp - (length (data rsp) + 1))); [|lia].
  cbn [mbind option_bind data size]. rewrite !length_app, Hlen16.
  cbn [length].
  destruct (Nat.leb_spec 2 (size rsp - (length (data rsp) + 1 + 2)));
    [|lia].
  rewrite <- !app_assoc. reflexivity.
Qed.

(** X21.  The answer to a Large Composition Data Get for page 0.  The
    status message carries, after its opcode, the page number 0, the
    offset of the request, the size of page 0 in 16 bits and then the
    octets of page 0 from the offset on, as many as fit in the response
    with the room of a short MIC left; the handler returns 0. *)
Theorem large_comp_data_get_page0 (cfg : Kconfig) (st : access_state)
  (rsp : net_buf_simple) (o0 o1 : Z) (sz : nat) :
  CONFIG_BT_MESH_LARGE_COMP_DATA_SRV cfg = true →
  is_u8 o0 → is_u8 o1 →
  length (data rsp) + 5 + BT_MESH_MIC_SHORT ≤ size rsp →
  (Z.of_nat (size rsp) < 65536)%Z →
  let page := page0_bytes cfg (dev_comp st) in
  let offset := Z.to_nat (o0 + 256 * o1) in
  let room := size rsp - BT_MESH_MIC_SHORT - (length (data rsp) + 5) in
  handle_large_comp_data_get cfg st rsp
    {| data := [0; o0; o1]%Z; size := sz |}
  = Some (Ok,
          Some {| data :=
                    data rsp ++ [0; o0; o1]%Z
                    ++ sys_put_le16 (Z.of_nat (length page))
                    ++ take room (drop offset page);
                  size := size rsp |}).
Proof.
  intros Hsrv H0 H1 Hroom Hmax page offset room.
  unfold handle_large_comp_data_get, bt_mesh_comp_parse_page,
    net_buf_simple_pull_u8, net_buf_simple_pull_le16.
  cbn [data mbind option_bind net_buf_simple_pull drop].
  assert (Hp0 : (if CONFIG_BT_MESH_HIGH_DATA_PAGES cfg
                    && CONFIG_BT_MESH_COMP_PAGE_2 cfg && (130 <=? 0)%Z
                 then 130%Z
                 else if CONFIG_BT_MESH_HIGH_DATA_PAGES cfg
                         && CONFIG_BT_MESH_COMP_PAGE_1 cfg && (129 <=? 0)%Z
                 then 129%Z
                 else if CONFIG_BT_MESH_HIGH_DATA_PAGES cfg && (128 <=? 0)%Z
                 then 128%Z
                 else if CONFIG_BT_MESH_COMP_PAGE_2 cfg && (2 <=? 0)%Z
                 then 2%Z
                 else if CONFIG_BT_MESH_COMP_PAGE_1 cfg && (1 <=? 0)%Z
                 then 1%Z else 0%Z) = 0%Z).
  { simpl Z.leb. rewrite !andb_false_r. reflexivity. }
  rewrite Hp0. clear Hp0.
  assert (Hsize : bt_mesh_comp_page_size cfg st 0 = length page).
  { rewrite page_size_get_current by lia.
    apply (comp_page_0_size_length cfg st). }
  rewrite Hsize.
  pose proof (status_header_added rsp 0 (sys_get_le16 o0 o1)
                (Z.of_nat (length page)) ltac:(lia)) as Hhdr.
  cbn [mbind option_bind] in Hhdr.
  destruct (net_buf_simple_add_u8 rsp 0) as [r1|]; [|discriminate Hhdr].
  cbn [mbind option_bind] in Hhdr |- *.
  destruct (net_buf_simple_add_le16 r1 _) as [r2|]; [|discriminate Hhdr].
  cbn [mbind option_bind] in Hhdr |- *.
  rewrite Hhdr. cbn [mbind option_bind].
  rewrite size_add_sub_mic by (cbn [size]; lia). cbn [data size].
  unfold bt_mesh_comp_data_get_page. rewrite Hsrv.
  rewrite get_page_contents_current by lia.
  unfold current_page_contents. simpl Z.eqb. cbv iota.
  rewrite page0_contents. cbn [fst].
  rewrite sys_get_put_le16 by assumption.
  rewrite sys_get_le16_value by assumption.
  unfold emit, net_buf_simple_tailroom. cbn [fst snd data size].
  rewrite size_add_add_mic by lia.
  rewrite !length_app. cbn [length].
  assert (Hlen16 : ∀ v, length (sys_put_le16 v) = 2) by reflexivity.
  rewrite Hlen16. change (u8 0) with 0%Z.
  replace (size rsp - BT_MESH_MIC_SHORT
           - (length (data rsp) + (1 + (2 + 2)))) with room
    by (unfold room; lia).
  fold offset. rewrite <- !app_assoc. reflexivity.
Qed.

Lemma large_comp_data_get_page0_witness :
  let rsp := {| data := [0x80; 0x75]%Z; size := 16 |} in
  let page := page0_bytes cfg_all (dev_comp (node_one ∅)) in
  let offset := Z.to_nat (3 + 256 * 0) in
  let room := size rsp - BT_MESH_MIC_SHORT - (length (data rsp) + 5) in
  handle_large_comp_data_get cfg_all (node_one ∅) rsp
    {| data := [0; 3; 0]%Z; size := 3 |}
  = Some (Ok,
          Some {| data :=
                    data rsp ++ [0; 3; 0]%Z
                    ++ sys_put_le16 (Z.of_nat (length page))
                    ++ take room (drop offset page);
                  size := size rsp |}).
Proof.
  apply (large_comp_data_get_page0 cfg_all (node_one ∅)
           {| data := [0x80; 0x75]%Z; size := 16 |} 3 0 3);
    [reflexivity|unfold is_u8; lia|unfold is_u8; lia|vm_compute; lia
    |reflexivity].
Defined.

(** ** Models Metadata page 0 *)






















(** ** Elements of the stored page 128 *)

Lemma comp_128_elem_count_loop_elems (es : list (list Z)) :
  ∀ (fuel : nat) (sz : nat) (cnt : Z),
    Forall cdp128_elem es →
    length (concat es) ≤ fuel →
    is_u8 cnt →
    comp_128_elem_count_loop fuel {| data := concat es; size := sz |} cnt
    = u8 (cnt + Z.of_nat (length es)).
Proof.
  induction es as [|e es IH]; intros fuel sz cnt Hes Hfuel Hcnt.
  - rewrite comp_128_elem_count_loop_end by reflexivity.
    cbn [concat data length Nat.eqb negb]. unfold u8, is_u8 in *.
    rewrite Z.add_0_r, Z.mod_small by lia. reflexivity.
  - apply Forall_cons in Hes as [He Hes].
    cbn [concat] in *.
    destruct (next_elem_size_cdp128_elem e (concat es) sz He) as [Hsz Hpos].
    destruct fuel as [|fuel]; [rewrite length_app in Hfuel; lia|].
    rewrite comp_128_elem_count_loop_step by (rewrite Hsz; exact Hpos).
    rewrite Hsz. cbn [data].
    destruct (Nat.ltb_spec (length (e ++ concat es)) (length e)) as [Hlt|_];
      [rewrite length_app in Hlt; lia|].
    unfold net_buf_simple_pull. cbn [data size].
    rewrite drop_app_length.
    rewrite IH.
    + unfold u8. cbn [length]. rewrite Zplus_mod_idemp_l. f_equal. lia.
    + exact Hes.
    + rewrite length_app in Hfuel. lia.
    + unfold is_u8, u8. pose proof (Z.mod_pos_bound (cnt + 1) 256). lia.
Qed.

(** X24.  [bt_mesh_comp_128_elem_count] counts elements from the first
    octet of the stored page-128 record: for a record that fits the
    persistence buffer and consists of complete elements, each a
    4-octet header followed by the model ids it announces, it returns
    their number as an 8-bit value. *)
Theorem comp_128_elem_count_elems (cfg : Kconfig) (st : access_state)
  (es : list (list Z)) :
  CONFIG_BT_MESH_HIGH_DATA_PAGES cfg = true →
  CONFIG_BT_SETTINGS cfg = true →
  load_err (settings st) = Ok →
  records (settings st) !! "bt/mesh/cmp/128"%string = Some (concat es) →
  length (concat es) ≤ CONFIG_BT_MESH_COMP_PST_BUF_SIZE cfg →
  Forall cdp128_elem es →
  es ≠ [] →
  bt_mesh_comp_128_elem_count cfg st = u8 (Z.of_nat (length es)).
Proof.
  intros Hhigh Hset Hload Hrec Hfit Hes Hne.
  unfold bt_mesh_comp_128_elem_count.
  rewrite Hhigh, Hset, stored_page_path_128. simpl default.
  unfold settings_load_subtree_direct. rewrite Hload, Hrec.
  rewrite stored_page_read_cb_fresh.
  destruct (Nat.ltb_spec (CONFIG_BT_MESH_COMP_PST_BUF_SIZE cfg)
              (length (concat es))) as [Hlt|_]; [lia|].
  cbn [data].
  assert (Hlen : length (concat es) ≠ 0).
  { destruct es as [|e es]; [contradiction|].
    apply Forall_cons in Hes as [(l0 & l1 & ns & nv & ids & -> & _) _].
    simpl. lia. }
  destruct (Nat.eqb_spec (length (concat es)) 0) as [H0|_]; [contradiction|].
  rewrite comp_128_elem_count_loop_elems;
    [reflexivity|exact Hes|lia|unfold is_u8; lia].
Qed.

Lemma comp_128_elem_count_elems_witness :
  bt_mesh_comp_128_elem_count cfg_all
    (node_one {[ "bt/mesh/cmp/128"%string
                 := concat [[0; 0; 1; 0; 0x00; 0x10]%Z;
                            [0; 0; 0; 1; 0xAB; 0x01; 0x05; 0x00]%Z] ]})
  = u8 (Z.of_nat (length [[0; 0; 1; 0; 0x00; 0x10]%Z;
                          [0; 0; 0; 1; 0xAB; 0x01; 0x05; 0x00]%Z])).
Proof.
  apply (comp_128_elem_count_elems cfg_all
           (node_one {[ "bt/mesh/cmp/128"%string
                        := concat [[0; 0; 1; 0; 0x00; 0x10]%Z;
                                   [0; 0; 0; 1; 0xAB; 0x01; 0x05; 0x00]%Z] ]})
           [[0; 0; 1; 0; 0x00; 0x10]%Z;
            [0; 0; 0; 1; 0xAB; 0x01; 0x05; 0x00]%Z]).
  - reflexivity.
  - reflexivity.
  - reflexivity.
  - vm_compute. reflexivity.
  - vm_compute. lia.
  - repeat apply Forall_cons_2; try apply Forall_nil_2.
    + exists 0%Z, 0%Z, 1%Z, 0%Z, [0x00; 0x10]%Z. split; reflexivity.
    + exists 0%Z, 0%Z, 0%Z, 1%Z, [0xAB; 0x01; 0x05; 0x00]%Z.
      split; reflexivity.
  - discriminate.
Defined.

(** ** Registration *)

Lemma elem_mrefs_spec (i : nat) (e : bt_mesh_elem) (m : mref) :
  m ∈ elem_mrefs i e
  ↔ mr_elem m = i
    ∧ mr_idx m < length (if mr_vnd m then vnd_models e else models e).
Proof.
  unfold elem_mrefs, model_count, vnd_model_count.
  rewrite elem_of_app, !list_elem_of_fmap.
  setoid_rewrite elem_of_seq.
  destruct m as [me mv mi]. cbn [mr_elem mr_vnd mr_idx]. split.
  - intros [(j & [= -> -> ->] & Hj)|(j & [= -> -> ->] & Hj)];
      split; [reflexivity|lia|reflexivity|lia].
  - intros [-> Hlt]. destruct mv.
    + right. exists mi. split; [reflexivity|lia].
    + left. exists mi. split; [reflexivity|lia].
Qed.

Lemma comp_mrefs_valid (comp : bt_mesh_comp) (m : mref) :
  m ∈ comp_mrefs comp ↔ valid_mref comp m.
Proof.
  unfold comp_mrefs, valid_mref, elem_count.
  rewrite list_elem_of_In, in_flat_map. split.
  - intros (i & Hi & Hm). apply in_seq in Hi.
    apply list_elem_of_In, elem_mrefs_spec in Hm as [-> Hlt].
    split; [lia|exact Hlt].
  - intros [He Hi]. exists (mr_elem m). split; [apply in_seq; lia|].
    apply list_elem_of_In, elem_mrefs_spec. split; [reflexivity|exact Hi].
Qed.

(** The four stores of [mod_init] through the model pointer. *)
Lemma mod_init_stores (comp : bt_mesh_comp) (m : mref)
  (f1 f2 f3 f4 : bt_mesh_model → bt_mesh_model) :
  let comp' :=
    update_model (update_model (update_model (update_model comp m f1) m f2)
                    m f3) m f4 in
  (∀ x, valid_mref comp' x ↔ valid_mref comp x)
  ∧ (valid_mref comp m →
     model_at comp' m = f4 (f3 (f2 (f1 (model_at comp m)))))
  ∧ ∀ x, x ≠ m → model_at comp' x = model_at comp x.
Proof.
  cbv zeta. split; [|split].
  - intros x. rewrite !valid_mref_update. reflexivity.
  - intros Hv.
    rewrite !model_at_update_same; [reflexivity|..];
      rewrite ?valid_mref_update; exact Hv.
  - intros x Hx. rewrite !model_at_update_other by exact Hx. reflexivity.
Qed.

Lemma mod_init_step (cfg : Kconfig) (init : init_cbs) (m : mref)
  (vnd primary : bool) (st : access_state) :
  keeps_layout init →
  valid_mref (dev_comp st) m →
  let r := mod_init cfg init m (mr_elem m) vnd primary (Ok, st) in
  (∀ x, valid_mref (dev_comp (snd r)) x ↔ valid_mref (dev_comp st) x)
  ∧ positioned (dev_comp (snd r)) m
  ∧ ∀ x, x ≠ m →
      elem_idx (rt (model_at (dev_comp (snd r)) x))
      = elem_idx (rt (model_at (dev_comp st) x))
      ∧ mod_idx (rt (model_at (dev_comp (snd r)) x))
        = mod_idx (rt (model_at (dev_comp st) x)).
Proof.
  intros Hkeep Hv. unfold mod_init.
  match goal with
  | |- context [set_dev_comp st ?c] => set (comp4 := c)
  end.
  destruct (mod_init_stores (dev_comp st) m
              (λ x, match pub x with
                    | Some p => set_pub x (Some (set_timer p None))
                    | None => x
                    end)
              (λ x, set_keys x (map (λ _, BT_MESH_KEY_UNUSED) (keys x)))
              (λ x, set_rt x {| elem_idx := u8 (Z.of_nat (mr_elem m));
                                mod_idx := mod_idx (rt x);
                                flags := flags (rt x); next := next (rt x) |})
              (λ x, set_rt x {| elem_idx := elem_idx (rt x);
                                mod_idx := u8 (Z.of_nat (mr_idx m));
                                flags := flags (rt x); next := next (rt x) |}))
    as (Hvalid & Hsame & Hother).
  fold comp4 in Hvalid, Hsame, Hother. specialize (Hsame Hv).
  assert (Hpos : positioned comp4 m).
  { unfold positioned. rewrite Hsame. split; reflexivity. }
  assert (Hrest : ∀ x, x ≠ m →
            elem_idx (rt (model_at comp4 x))
            = elem_idx (rt (model_at (dev_comp st) x))
            ∧ mod_idx (rt (model_at comp4 x))
              = mod_idx (rt (model_at (dev_comp st) x))).
  { intros x Hx. rewrite (Hother x Hx). split; reflexivity. }
  cbv zeta.
  destruct (if vnd && CONFIG_BT_MESH_MODEL_VND_MSG_CID_FORCE cfg
            then bt_mesh_vnd_mod_msg_cid_check (model_at comp4 m)
            else Ok) as [|e].
  - destruct (init m) as [f|] eqn:Hinit.
    + pose proof (Hkeep m f (set_dev_comp st comp4) Hinit) as Hf.
      cbn [dev_comp set_dev_comp] in Hf.
      split; [|split].
      * intros x. destruct (Hf x) as (Hfv & _). rewrite Hfv. apply Hvalid.
      * unfold positioned. destruct (Hf m) as (_ & -> & ->). exact Hpos.
      * intros x Hx. destruct (Hf x) as (_ & -> & ->). apply Hrest, Hx.
    + cbn [snd dev_comp set_dev_comp]. auto.
  - cbn [snd dev_comp set_dev_comp]. auto.
Qed.

Lemma mod_init_foreach_positions (cfg : Kconfig) (init : init_cbs) :
  keeps_layout init →
  ∀ (l : list mref) (err : status) (st : access_state),
    (∀ m, m ∈ l → valid_mref (dev_comp st) m) →
    let r :=
      fold_left
        (λ user_data m,
           mod_init cfg init m (mr_elem m) (mr_vnd m) (mr_elem m =? 0)
             user_data)
        l (err, st) in
    (∀ x, valid_mref (dev_comp (snd r)) x ↔ valid_mref (dev_comp st) x)
    ∧ (fst r = Ok →
       err = Ok
       ∧ (∀ m, m ∈ l → positioned (dev_comp (snd r)) m)
       ∧ ∀ x, positioned (dev_comp st) x → positioned (dev_comp (snd r)) x).
Proof.
  intros Hkeep. induction l as [|m l IH]; intros err st Hl; cbv zeta.
  - cbn [fold_left fst snd]. split; [tauto|]. intros ->.
    split; [reflexivity|]. split; [|tauto].
    intros m Hm. apply elem_of_nil in Hm. contradiction.
  - cbn [fold_left]. destruct err as [|e].
    + pose proof (mod_init_step cfg init m (mr_vnd m) (mr_elem m =? 0) st
                    Hkeep (Hl m ltac:(left))) as Hstep.
      cbv zeta in Hstep.
      destruct (mod_init cfg init m (mr_elem m) (mr_vnd m) (mr_elem m =? 0)
                  (Ok, st)) as [err1 st1].
      cbn [snd] in Hstep. destruct Hstep as (Hv1 & Hpos1 & Hrest1).
      specialize (IH err1 st1). cbv zeta in IH.
      destruct IH as [IHv IHp].
      { intros x Hx. apply Hv1, Hl. right. exact Hx. }
      split.
      * intros x. rewrite IHv. apply Hv1.
      * intros Hok. destruct (IHp Hok) as (_ & Hin & Hkept).
        split; [reflexivity|]. split.
        -- intros x Hx. apply elem_of_cons in Hx as [->|Hx];
             [apply Hkept, Hpos1|apply Hin, Hx].
        -- intros x Hx. apply Hkept.
           destruct (decide (x = m)) as [->|Hne]; [exact Hpos1|].
           unfold positioned. destruct (Hrest1 x Hne) as [-> ->]. exact Hx.
    + assert (Herr : mod_init cfg init m (mr_elem m) (mr_vnd m)
                       (mr_elem m =? 0) (Err e, st) = (Err e, st))
        by reflexivity.
      rewrite Herr. specialize (IH (Err e) st). cbv zeta in IH.
      destruct IH as [IHv IHp].
      { intros x Hx. apply Hl. right. exact Hx. }
      split; [exact IHv|].
      intros Hok. destruct (IHp Hok) as (Habs & _). discriminate Habs.
Qed.

Lemma mod_init_model_idem (m : mref) (x : bt_mesh_model) :
  mod_init_model m (mod_init_model m x) = mod_init_model m x.
Proof.
  unfold mod_init_model. cbn [id vnd_company vnd_id op keys groups uuids pub
                              metadata rt flags next].
  rewrite map_map. destruct (pub x); reflexivity.
Qed.

Lemma mod_init_plain_step (cfg : Kconfig) (init : init_cbs) (m : mref)
  (vnd primary : bool) (st : access_state) :
  (∀ x, init x = None) →
  CONFIG_BT_MESH_MODEL_VND_MSG_CID_FORCE cfg = false →
  valid_mref (dev_comp st) m →
  ∃ comp',
    mod_init cfg init m (mr_elem m) vnd primary (Ok, st)
    = (Ok, set_dev_comp st comp')
    ∧ (∀ x, valid_mref comp' x ↔ valid_mref (dev_comp st) x)
    ∧ model_at comp' m = mod_init_model m (model_at (dev_comp st) m)
    ∧ ∀ x, x ≠ m → model_at comp' x = model_at (dev_comp st) x.
Proof.
  intros Hnone Hcid Hv. unfold mod_init.
  match goal with
  | |- context [set_dev_comp st ?c] => set (comp4 := c)
  end.
  destruct (mod_init_stores (dev_comp st) m
              (λ x, match pub x with
                    | Some p => set_pub x (Some (set_timer p None))
                    | None => x
                    end)
              (λ x, set_keys x (map (λ _, BT_MESH_KEY_UNUSED) (keys x)))
              (λ x, set_rt x {| elem_idx := u8 (Z.of_nat (mr_elem m));
                                mod_idx := mod_idx (rt x);
                                flags := flags (rt x); next := next (rt x) |})
              (λ x, set_rt x {| elem_idx := elem_idx (rt x);
                                mod_idx := u8 (Z.of_nat (mr_idx m));
                                flags := flags (rt x); next := next (rt x) |}))
    as (Hvalid & Hsame & Hother).
  fold comp4 in Hvalid, Hsame, Hother. specialize (Hsame Hv).
  exists comp4. rewrite Hcid, andb_false_r, Hnone.
  split; [reflexivity|]. split; [exact Hvalid|]. split; [|exact Hother].
  rewrite Hsame. unfold mod_init_model.
  destruct (model_at (dev_comp st) m) as [? ? ? ? ? ? ? [p|] ? ?];
    reflexivity.
Qed.

Lemma mod_init_foreach_plain (cfg : Kconfig) (init : init_cbs)
  (comp : bt_mesh_comp) :
  (∀ x, init x = None) →
  CONFIG_BT_MESH_MODEL_VND_MSG_CID_FORCE cfg = false →
  ∀ (l : list mref) (st : access_state),
    (∀ m, m ∈ l → valid_mref (dev_comp st) m) →
    (∀ x, model_at (dev_comp st) x = model_at comp x
          ∨ model_at (dev_comp st) x = mod_init_model x (model_at comp x)) →
    ∃ comp',
      fold_left
        (λ user_data m,
           mod_init cfg init m (mr_elem m) (mr_vnd m) (mr_elem m =? 0)
             user_data)
        l (Ok, st)
      = (Ok, set_dev_comp st comp')
      ∧ (∀ x, model_at comp' x = model_at comp x
              ∨ model_at comp' x = mod_init_model x (model_at comp x))
      ∧ (∀ x, model_at (dev_comp st) x = mod_init_model x (model_at comp x) →
              model_at comp' x = mod_init_model x (model_at comp x))
      ∧ ∀ m, m ∈ l → model_at comp' m = mod_init_model m (model_at comp m).
Proof.
  intros Hnone Hcid. induction l as [|m l IH]; intros st Hl Hinv.
  - exists (dev_comp st). cbn [fold_left]. split; [destruct st; reflexivity|].
    split; [exact Hinv|]. split; [tauto|].
    intros m Hm. apply elem_of_nil in Hm. contradiction.
  - cbn [fold_left].
    destruct (mod_init_plain_step cfg init m (mr_vnd m) (mr_elem m =? 0) st
                Hnone Hcid (Hl m ltac:(left)))
      as (comp1 & -> & Hv1 & Hm1 & Hrest1).
    assert (Hdone : model_at comp1 m = mod_init_model m (model_at comp m)).
    { rewrite Hm1. destruct (Hinv m) as [-> | ->];
        [reflexivity|apply mod_init_model_idem]. }
    destruct (IH (set_dev_comp st comp1)) as (comp' & Hfold & Hinv' & Hkept
                                               & Hin).
    { intros x Hx. cbn [dev_comp set_dev_comp]. apply Hv1, Hl. right.
      exact Hx. }
    { intros x. cbn [dev_comp set_dev_comp].
      destruct (decide (x = m)) as [->|Hne]; [right; exact Hdone|].
      rewrite (Hrest1 x Hne). apply Hinv. }
    cbn [dev_comp set_dev_comp] in Hkept.
    exists comp'. split; [rewrite Hfold; reflexivity|].
    split; [exact Hinv'|]. split.
    + intros x Hx. apply Hkept.
      destruct (decide (x = m)) as [->|Hne]; [exact Hdone|].
      rewrite (Hrest1 x Hne). exact Hx.
    + intros x Hx. apply elem_of_cons in Hx as [->|Hx];
        [apply Hkept, Hdone|apply Hin, Hx].
Qed.

(** X25.  A successful [bt_mesh_comp_register] was given a composition
    with at least one element and leaves every model of it with its
    position recorded: [elem_idx] is the index of its element and
    [mod_idx] its index in the model array, as 8-bit values.  This holds
    with any init callbacks that leave the position fields alone. *)
Theorem comp_register_positions (cfg : Kconfig) (init : init_cbs)
  (st : access_state) (comp : option bt_mesh_comp) :
  keeps_layout init →
  fst (bt_mesh_comp_register cfg init st comp) = Ok →
  ∃ c,
    comp = Some c
    ∧ elem c ≠ []
    ∧ ∀ m, valid_mref c m →
        let comp' := dev_comp (snd (bt_mesh_comp_register cfg init st comp)) in
        valid_mref comp' m ∧ positioned comp' m.
Proof.
  intros Hkeep. unfold bt_mesh_comp_register.
  destruct comp as [c|]; [|discriminate].
  unfold elem_count.
  destruct (Nat.eqb_spec (length (elem c)) 0) as [H0|Hlen]; [discriminate|].
  unfold bt_mesh_model_foreach.
  match goal with
  | |- context [fold_left _ _ (Ok, ?s)] => set (st0 := s)
  end.
  assert (Hc0 : dev_comp st0 = c).
  { unfold st0. destruct (0 <? _); reflexivity. }
  destruct (mod_init_foreach_positions cfg init Hkeep (comp_mrefs c) Ok st0)
    as [Hvalid Hpos].
  { intros m Hm. rewrite Hc0. apply comp_mrefs_valid, Hm. }
  intros Hok. destruct (Hpos Hok) as (_ & Hin & _).
  exists c. split; [reflexivity|].
  split; [intros Hnil; rewrite Hnil in Hlen; apply Hlen; reflexivity|].
  intros m Hm. cbv zeta. split.
  - apply Hvalid. rewrite Hc0. exact Hm.
  - apply Hin, comp_mrefs_valid, Hm.
Qed.

(** X26.  [bt_mesh_comp_register] of a composition with at least one
    element whose models have no init callback, without the forced
    company id check: it returns 0, installs the composition, clears
    the relation table, and leaves every model with all its keys
    unused, its publication timer idle, its position recorded and
    everything else as it was given. *)
Theorem comp_register_plain (cfg : Kconfig) (init : init_cbs)
  (st : access_state) (comp : bt_mesh_comp) :
  (∀ x, init x = None) →
  CONFIG_BT_MESH_MODEL_VND_MSG_CID_FORCE cfg = false →
  elem comp ≠ [] →
  ∃ comp',
    bt_mesh_comp_register cfg init st (Some comp)
    = (Ok,
       {| dev_comp := comp'; dev_comp2 := dev_comp2 st;
          dev_primary_addr := dev_primary_addr st; msg_cb := msg_cb st;
          mod_rel_list :=
            repeat mod_relation_zero (length (mod_rel_list st));
          settings := settings st |})
    ∧ ∀ m, valid_mref comp m →
        valid_mref comp' m
        ∧ model_at comp' m = mod_init_model m (model_at comp m).
Proof.
  intros Hnone Hcid Hne. unfold bt_mesh_comp_register, elem_count.
  destruct (Nat.eqb_spec (length (elem comp)) 0) as [H0|_].
  { destruct (elem comp); [contradiction|discriminate]. }
  unfold bt_mesh_model_foreach.
  match goal with
  | |- context [fold_left _ _ (Ok, ?s)] => set (st0 := s)
  end.
  assert (Hst0 : st0 = {| dev_comp := comp; dev_comp2 := dev_comp2 st;
                          dev_primary_addr := dev_primary_addr st;
                          msg_cb := msg_cb st;
                          mod_rel_list :=
                            repeat mod_relation_zero
                              (length (mod_rel_list st));
                          settings := settings st |}).
  { unfold st0, set_mod_rel_list, set_dev_comp.
    cbn [dev_comp dev_comp2 dev_primary_addr msg_cb mod_rel_list settings].
    destruct (mod_rel_list st); reflexivity. }
  clearbody st0. subst st0.
  match goal with
  | |- context [fold_left _ _ (Ok, ?s)] => set (st0 := s)
  end.
  destruct (mod_init_foreach_plain cfg init comp Hnone Hcid (comp_mrefs comp)
              st0) as (comp' & Hfold & _ & _ & Hin).
  { intros m Hm. apply comp_mrefs_valid, Hm. }
  { intros x. left. reflexivity. }
  assert (Hvalid : ∀ x, valid_mref comp' x ↔ valid_mref comp x).
  { intros x.
    destruct (mod_init_foreach_positions cfg init
                ltac:(intros m f s Hf; rewrite Hnone in Hf; discriminate Hf)
                (comp_mrefs comp) Ok st0) as [Hv _].
    { intros m Hm. apply comp_mrefs_valid, Hm. }
    cbv zeta in Hv. rewrite Hfold in Hv. apply Hv. }
  exists comp'. split; [rewrite Hfold; reflexivity|].
  intros m Hm. split; [apply Hvalid, Hm|apply Hin, comp_mrefs_valid, Hm].
Qed.

Lemma comp_register_positions_witness :
  ∃ c,
    Some (dev_comp node_four_elems) = Some c
    ∧ elem c ≠ []
    ∧ ∀ m, valid_mref c m →
        let comp' :=
          dev_comp (snd (bt_mesh_comp_register cfg_all (λ _, None)
                           (node_one ∅) (Some (dev_comp node_four_elems)))) in
        valid_mref comp' m ∧ positioned comp' m.
Proof.
  apply (comp_register_positions cfg_all (λ _, None) (node_one ∅)
           (Some (dev_comp node_four_elems))).
  - intros m f s Hf. discriminate Hf.
  - vm_compute. reflexivity.
Defined.

Lemma comp_register_plain_witness :
  ∃ comp',
    bt_mesh_comp_register cfg_all (λ _, None) (node_one ∅)
      (Some (dev_comp node_pub))
    = (Ok,
       {| dev_comp := comp'; dev_comp2 := dev_comp2 (node_one ∅);
          dev_primary_addr := dev_primary_addr (node_one ∅);
          msg_cb := msg_cb (node_one ∅);
          mod_rel_list :=
            repeat mod_relation_zero (length (mod_rel_list (node_one ∅)));
          settings := settings (node_one ∅) |})
    ∧ ∀ m, valid_mref (dev_comp node_pub) m →
        valid_mref comp' m
        ∧ model_at comp' m = mod_init_model m (model_at (dev_comp node_pub) m).
Proof.
  apply (comp_register_plain cfg_all (λ _, None) (node_one ∅)
           (dev_comp node_pub));
    [reflexivity|reflexivity|discriminate].
Defined.

(** ** Large Composition Data Server: init *)

Lemma mod_rel_list_put_full (l : list mod_relation) (r : mod_relation) :
  Forall (λ x, rel_unused x = false) l → mod_rel_list_put l r = None.
Proof.
  induction 1 as [|x l Hx _ IH]; cbn [mod_rel_list_put]; [reflexivity|].
  rewrite Hx, IH. reflexivity.
Qed.

(** What a call of [bt_mesh_model_extend] that returns leaves: the
    composition with the base marked and at most the links of the two
    models changed; a full relation table as it was. *)
Lemma extend_result (cfg : Kconfig) (fuel : nat) (st st' : access_state)
  (a b : mref) (r : status) :
  bt_mesh_model_extend cfg fuel st a b = Some (r, st') →
  let comp0 :=
    set_flags (dev_comp st) b (λ f, Z.lor f BT_MESH_MOD_EXTENDED) in
  (dev_comp st' = comp0
   ∨ ∃ n1 n2, dev_comp st' = set_next (set_next comp0 b n1) a n2)
  ∧ (Forall (λ x, rel_unused x = false) (mod_rel_list st) →
     mod_rel_list st' = mod_rel_list st).
Proof.
  intros Hext. cbv zeta.
  set (comp0 := set_flags (dev_comp st) b (λ f, Z.lor f BT_MESH_MOD_EXTENDED)).
  unfold bt_mesh_model_extend in Hext. fold comp0 in Hext.
  assert (Hreg : ∀ comp,
            let st1 := set_dev_comp st comp in
            (if 0 <? length (mod_rel_list st1)
             then mod_rel_register st1 b a RELATION_TYPE_EXT
             else if CONFIG_BT_MESH_COMP_PAGE_1 cfg then (Err ENOMEM, st1)
                  else (Ok, st1)) = (r, st') →
            dev_comp st' = comp
            ∧ (Forall (λ x, rel_unused x = false) (mod_rel_list st) →
               mod_rel_list st' = mod_rel_list st)).
  { intros comp st1 Hr. subst st1.
    cbn [mod_rel_list set_dev_comp] in Hr.
    destruct (0 <? length (mod_rel_list st)).
    - unfold mod_rel_register in Hr. cbn [mod_rel_list set_dev_comp] in Hr.
      destruct (mod_rel_list_put _ _) as [l|] eqn:Hput;
        injection Hr as _ <-; (split; [reflexivity|]); intros Hfull.
      + rewrite (mod_rel_list_put_full _ _ Hfull) in Hput. discriminate.
      + reflexivity.
    - destruct (CONFIG_BT_MESH_COMP_PAGE_1 cfg); injection Hr as _ <-;
        (split; [reflexivity|]); intros _; reflexivity. }
  destruct (bool_decide (a = b)).
  { injection Hext as _ <-. split; [left; reflexivity|]. reflexivity. }
  destruct (extend_list_contains fuel comp0 a b (Some a)) as [[]|];
    [| |discriminate]; injection Hext as Hext;
    apply Hreg in Hext as [Hc Hl]; (split; [|exact Hl]).
  - left. exact Hc.
  - right. rewrite Hc.
    destruct (next (rt (model_at (dev_comp st) a))),
      (next (rt (model_at (dev_comp st) b))); eauto.
Qed.

Lemma bt_mesh_model_find_loop_bound (l : list bt_mesh_model) (model_id : Z) :
  ∀ i j, bt_mesh_model_find_loop l model_id i = Some j →
         i ≤ j < i + length l.
Proof.
  induction l as [|m l IH]; intros i j; cbn [bt_mesh_model_find_loop length];
    [discriminate|].
  destruct (id m =? model_id)%Z.
  - intros [= <-]. lia.
  - intros Hj. apply IH in Hj. lia.
Qed.

Lemma land_lor_same (f d : Z) : Z.land (Z.lor f d) d = d.
Proof.
  apply Z.bits_inj'. intros n Hn.
  rewrite Z.land_spec, Z.lor_spec. destruct (Z.testbit d n);
    [rewrite orb_true_r|rewrite andb_false_r]; reflexivity.
Qed.

(** X27.  [large_comp_data_srv_init] for a server model that is not yet
    linked to another model.  Without a Configuration Server among the
    SIG models of its element it fails with [-EINVAL] and changes
    nothing.  With one it returns 0 and leaves the device key in the
    first key slot, the DEVKEY_ONLY flag set and the Configuration
    Server marked as extended; the result of [bt_mesh_model_extend] is
    not looked at, so 0 is returned also when the relation table is
    full and the extension is not recorded in it. *)
Theorem large_comp_data_srv_init_spec (cfg : Kconfig) (fuel : nat)
  (BT_MESH_MODEL_ID_CFG_SRV BT_MESH_KEY_DEV BT_MESH_MOD_DEVKEY_ONLY : Z)
  (st : access_state) (srv : bt_mesh_large_comp_data_srv) (model : mref) :
  valid_mref (dev_comp st) model →
  keys (model_at (dev_comp st) model) ≠ [] →
  next (rt (model_at (dev_comp st) model)) = None →
  2 ≤ fuel →
  let m := model_at (dev_comp st) model in
  let e_idx := Z.to_nat (elem_idx (rt m)) in
  let init :=
    large_comp_data_srv_init cfg fuel BT_MESH_MODEL_ID_CFG_SRV
      BT_MESH_KEY_DEV BT_MESH_MOD_DEVKEY_ONLY st srv model in
  match bt_mesh_model_find_loop (models (elem_at (dev_comp st) e_idx))
          BT_MESH_MODEL_ID_CFG_SRV 0 with
  | None => init = Some (Err EINVAL, st, srv)
  | Some i =>
    let config_srv := {| mr_elem := e_idx; mr_vnd := false; mr_idx := i |} in
    ∃ st',
      init = Some (Ok, st', {| srv_model := Some model |})
      ∧ keys (model_at (dev_comp st') model) = BT_MESH_KEY_DEV :: tl (keys m)
      ∧ Z.land (flags (rt (model_at (dev_comp st') model)))
          BT_MESH_MOD_DEVKEY_ONLY
        = BT_MESH_MOD_DEVKEY_ONLY
      ∧ bt_mesh_model_is_extended (dev_comp st') config_srv = true
      ∧ (Forall (λ x, rel_unused x = false) (mod_rel_list st) →
         mod_rel_list st' = mod_rel_list st)
  end.
Proof.
  intros Hv Hkeys Hnext Hfuel m e_idx init.
  unfold init, large_comp_data_srv_init, bt_mesh_model_find,
    bt_mesh_model_elem.
  fold m. fold e_idx.
  destruct (bt_mesh_model_find_loop (models (elem_at (dev_comp st) e_idx))
              BT_MESH_MODEL_ID_CFG_SRV 0) as [i|] eqn:Hfind;
    cbn [mbind option_bind]; [|reflexivity].
  cbv zeta. set (c := {| mr_elem := e_idx; mr_vnd := false; mr_idx := i |}).
  destruct (keys m) as [|k ks] eqn:Hk; [contradiction|]. cbn [tl].
  set (comp1 := update_model (dev_comp st) model
                  (λ x, set_keys x (BT_MESH_KEY_DEV :: ks))).
  set (comp2 := set_flags comp1 model
                  (λ f, Z.lor f BT_MESH_MOD_DEVKEY_ONLY)).
  set (comp0 := set_flags comp2 c (λ f, Z.lor f BT_MESH_MOD_EXTENDED)).
  assert (Hv1 : ∀ x, valid_mref comp1 x ↔ valid_mref (dev_comp st) x)
    by (intros x; apply valid_mref_update).
  assert (Hv2 : ∀ x, valid_mref comp2 x ↔ valid_mref (dev_comp st) x)
    by (intros x; unfold comp2, set_flags; rewrite valid_mref_update;
        apply Hv1).
  assert (Hvc : valid_mref (dev_comp st) c).
  { apply bt_mesh_model_find_loop_bound in Hfind.
    unfold valid_mref. cbn [mr_elem mr_vnd mr_idx c].
    split; [|lia].
    destruct (Nat.lt_ge_cases e_idx (length (elem (dev_comp st))))
      as [Hlt|Hge]; [exact Hlt|].
    unfold elem_at in Hfind. rewrite nth_overflow in Hfind by exact Hge.
    simpl in Hfind. lia. }
  assert (Hnext0 : next (rt (model_at comp0 model)) = None).
  { unfold comp0, comp2, comp1, set_flags.
    rewrite !(model_at_update_inv (λ y, next (rt y))) by reflexivity.
    exact Hnext. }
  assert (Hret : ∃ r st',
            bt_mesh_model_extend cfg fuel (set_dev_comp st comp2) model c
            = Some (r, st')).
  { unfold bt_mesh_model_extend. cbn [dev_comp set_dev_comp]. fold comp0.
    destruct (bool_decide (model = c)) eqn:Hmc; [eauto|].
    apply bool_decide_eq_false in Hmc.
    destruct fuel as [|[|fuel]]; [lia|lia|].
    cbn [extend_list_contains]. rewrite Hnext0.
    rewrite bool_decide_eq_false_2 by discriminate.
    rewrite bool_decide_eq_false_2 by exact Hmc.
    destruct (_ : status * access_state) as [r st'] eqn:Hreg.
    exists r, st'. reflexivity. }
  destruct Hret as (r & st' & Hext). rewrite Hext. cbn [mbind option_bind].
  exists st'. split; [reflexivity|].
  destruct (extend_result cfg fuel _ st' model c r Hext) as [Hcomp Hfull].
  cbn [dev_comp mod_rel_list set_dev_comp] in Hcomp, Hfull. fold comp0 in Hcomp.
  assert (Hrt : ∀ (B : Type) (P : bt_mesh_model → B),
            (∀ y n, P (set_rt y {| elem_idx := elem_idx (rt y);
                                   mod_idx := mod_idx (rt y);
                                   flags := flags (rt y); next := n |})
                    = P y) →
            ∀ x, P (model_at (dev_comp st') x) = P (model_at comp0 x)).
  { intros B P HP x. destruct Hcomp as [-> | (n1 & n2 & ->)];
      [reflexivity|].
    unfold set_next.
    rewrite !(model_at_update_inv P) by (intros y; apply HP).
    reflexivity. }
  assert (Hm1 : model_at comp1 model = set_keys m (BT_MESH_KEY_DEV :: ks)).
  { unfold comp1. rewrite model_at_update_same by exact Hv. reflexivity. }
  assert (Hm2 : flags (rt (model_at comp2 model))
                = Z.lor (flags (rt m)) BT_MESH_MOD_DEVKEY_ONLY).
  { unfold comp2, set_flags.
    rewrite model_at_update_same by (apply Hv1, Hv). rewrite Hm1.
    reflexivity. }
  split; [|split; [|split; [|exact Hfull]]].
  - rewrite (Hrt _ keys) by reflexivity.
    unfold comp0, comp2, set_flags.
    rewrite !(model_at_update_inv keys) by reflexivity.
    rewrite Hm1. reflexivity.
  - rewrite (Hrt _ (λ y, flags (rt y))) by reflexivity.
    destruct (decide (model = c)) as [Heq|Hne].
    + unfold comp0, set_flags. rewrite <- Heq.
      rewrite model_at_update_same by (apply Hv2, Hv).
      cbn [rt set_rt flags]. rewrite Hm2.
      apply Z.bits_inj'. intros n Hn.
      rewrite Z.land_spec, !Z.lor_spec.
      destruct (Z.testbit BT_MESH_MOD_DEVKEY_ONLY n);
        [rewrite orb_true_r|rewrite andb_false_r]; reflexivity.
    + unfold comp0, set_flags.
      rewrite model_at_update_other by exact Hne.
      fold (set_flags comp1 model (λ f, Z.lor f BT_MESH_MOD_DEVKEY_ONLY)).
      fold comp2. rewrite Hm2. apply land_lor_same.
  - unfold bt_mesh_model_is_extended.
    rewrite (Hrt _ (λ y, flags (rt y))) by reflexivity.
    unfold comp0, set_flags.
    rewrite model_at_update_same by (apply Hv2, Hvc).
    cbn [rt set_rt flags]. rewrite land_lor_same. reflexivity.
Qed.

Lemma large_comp_data_srv_init_spec_witness :
  ∃ st',
    large_comp_data_srv_init cfg_all 4 0x0000 0xfffe 0x10
      node_large_comp_srv {| srv_model := None |} (sig_ref 0 1)
    = Some (Ok, st', {| srv_model := Some (sig_ref 0 1) |})
    ∧ keys (model_at (dev_comp st') (sig_ref 0 1)) = [0xfffe%Z]
    ∧ Z.land (flags (rt (model_at (dev_comp st') (sig_ref 0 1)))) 0x10
      = 0x10%Z
    ∧ bt_mesh_model_is_extended (dev_comp st') (sig_ref 0 0) = true
    ∧ (Forall (λ x, rel_unused x = false)
         (mod_rel_list node_large_comp_srv) →
       mod_rel_list st' = mod_rel_list node_large_comp_srv).
Proof.
  apply (large_comp_data_srv_init_spec cfg_all 4 0x0000 0xfffe 0x10
           node_large_comp_srv {| srv_model := None |} (sig_ref 0 1)).
  - vm_compute. lia.
  - discriminate.
  - reflexivity.
  - lia.
Defined.

(** ** Serialized pages read back from the store *)

Lemma elem_bytes_cdp128 (e : bt_mesh_elem) :
  elem_counts_fit e → cdp128_elem (elem_bytes e).
Proof.
  intros [Hs Hv]. unfold cdp128_elem, elem_bytes, sys_put_le16.
  exists (u8 (loc e)), (u8 (Z.shiftr (loc e) 8)),
    (u8 (Z.of_nat (model_count e))), (u8 (Z.of_nat (vnd_model_count e))),
    (concat (map (model_id_bytes false) (models e))
     ++ concat (map (model_id_bytes true) (vnd_models e))).
  split; [reflexivity|].
  rewrite length_app, !length_model_ids.
  unfold u8. rewrite !Z.mod_small by lia. rewrite !Nat2Z.id.
  unfold model_count, vnd_model_count. lia.
Qed.

Lemma page0_bytes_header (cfg : Kconfig) (comp : bt_mesh_comp) :
  page0_bytes cfg comp
  = take 10 (page0_bytes cfg comp) ++ concat (map elem_bytes (elem comp))
  ∧ length (take 10 (page0_bytes cfg comp)) = 10.
Proof. unfold page0_bytes, sys_put_le16. split; reflexivity. Qed.

(** X28.  The page-128 reader accepts what the page-0 writer produces.
    When the staged page 128 is the serialization of a composition as
    page 0, each element with fewer than 256 SIG and 256 vendor models,
    the staged page is no larger than the persistence buffer and the
    response buffer has room for the header,
    [bt_mesh_comp_data_get_elems] on page 128 yields the 10-octet
    header followed by the serialized elements of that composition,
    whole, as many as the tailroom takes. *)
Theorem staged_page0_get_elems (cfg : Kconfig) (st : access_state)
  (comp : bt_mesh_comp) (buf : net_buf_simple) :
  CONFIG_BT_MESH_HIGH_DATA_PAGES cfg = true →
  CONFIG_BT_SETTINGS cfg = true →
  load_err (settings st) = Ok →
  records (settings st) !! "bt/mesh/cmp/128"%string
  = Some (page0_bytes cfg comp) →
  Forall elem_counts_fit (elem comp) →
  length (page0_bytes cfg comp) ≤ CONFIG_BT_MESH_COMP_PST_BUF_SIZE cfg →
  10 ≤ net_buf_simple_tailroom buf →
  ∃ k,
    let written :=
      take 10 (page0_bytes cfg comp)
      ++ concat (map elem_bytes (take k (elem comp))) in
    k ≤ length (elem comp)
    ∧ bt_mesh_comp_data_get_elems cfg st buf 128
      = (Ok, {| data := data buf ++ written; size := size buf |})
    ∧ length written ≤ net_buf_simple_tailroom buf
    ∧ (k < length (elem comp) →
       net_buf_simple_tailroom buf
       < 10 + length (concat (map elem_bytes (take (S k) (elem comp))))).
Proof.
  intros Hhigh Hset Hload Hrec Hfitc Hfit Hroom.
  destruct (page0_bytes_header cfg comp) as [Hpage Hhdr].
  set (hdr := take 10 (page0_bytes cfg comp)) in *.
  set (elems := map elem_bytes (elem comp)).
  assert (Hall : Forall cdp128_elem elems).
  { unfold elems. apply Forall_fmap. eapply Forall_impl; [exact Hfitc|].
    intros e He. apply elem_bytes_cdp128, He. }
  set (buf1 := net_buf_simple_add_mem buf hdr).
  destruct (write_cdp_elems_loop_whole cfg elems Hall
              (length (concat elems)) buf1
              (CONFIG_BT_MESH_COMP_PST_BUF_SIZE cfg - 10)
              (length_concat_cdp128 elems Hall))
    as (k & Hk & Hloop & Hfits & Hmax).
  assert (Ht1 : net_buf_simple_tailroom buf1 + 10
                = net_buf_simple_tailroom buf).
  { unfold net_buf_simple_tailroom, buf1, net_buf_simple_add_mem in *.
    cbn [data size] in *. rewrite length_app, Hhdr. lia. }
  assert (Htake : ∀ n, take n elems = map elem_bytes (take n (elem comp))).
  { intros n. unfold elems. symmetry. apply fmap_take. }
  unfold elems in Hk. rewrite length_map in Hk.
  rewrite !Htake in *. unfold elems in Hmax. rewrite length_map in Hmax.
  exists k. cbv zeta. split; [exact Hk|]. split; [|split].
  - apply (get_elems_stored_128_loop cfg st buf hdr (concat elems));
      try assumption; try (rewrite <- Hpage; assumption).
    fold buf1. rewrite Hloop. cbn [buf1 net_buf_simple_add_mem data size].
    rewrite <- app_assoc. reflexivity.
  - rewrite length_app, Hhdr. lia.
  - intros Hlt. specialize (Hmax Hlt). lia.
Qed.

Lemma staged_page0_get_elems_witness :
  ∃ k,
    let comp := dev_comp node_four_elems in
    let st := node_one {[ "bt/mesh/cmp/128"%string := page0_bytes cfg_all comp ]} in
    let buf := NET_BUF_SIMPLE 24 in
    let written :=
      take 10 (page0_bytes cfg_all comp)
      ++ concat (map elem_bytes (take k (elem comp))) in
    k ≤ length (elem comp)
    ∧ bt_mesh_comp_data_get_elems cfg_all st buf 128
      = (Ok, {| data := data buf ++ written; size := size buf |})
    ∧ length written ≤ net_buf_simple_tailroom buf
    ∧ (k < length (elem comp) →
       net_buf_simple_tailroom buf
       < 10 + length (concat (map elem_bytes (take (S k) (elem comp))))).
Proof.
  apply (staged_page0_get_elems cfg_all
           (node_one {[ "bt/mesh/cmp/128"%string
                        := page0_bytes cfg_all (dev_comp node_four_elems) ]})
           (dev_comp node_four_elems) (NET_BUF_SIMPLE 24)).
  - reflexivity.
  - reflexivity.
  - reflexivity.
  - vm_compute. reflexivity.
  - repeat apply Forall_cons_2; try apply Forall_nil_2;
      unfold elem_counts_fit; vm_compute; lia.
  - vm_compute. lia.
  - vm_compute. lia.
Defined.

(** *** Page 2 records *)

Lemma sys_get_put_le16_value (v : Z) :
  (0 ≤ v < 65536)%Z →
  sys_get_le16 (u8 v) (u8 (Z.shiftr v 8)) = v.
Proof.
  intros Hv. unfold sys_get_le16, u8.
  rewrite Z.shiftr_div_pow2 by lia. change (2 ^ 8)%Z with 256%Z.
  rewrite (Z.mod_small (v / 256)) by
    (split; [apply Z.div_pos; lia|apply Z.div_lt_upper_bound; lia]).
  rewrite lor_shiftl_add.
  - change (2 ^ 8)%Z with 256%Z. pose proof (Z.div_mod v 256). lia.
  - lia.
  - change (2 ^ 8)%Z with 256%Z. apply Z.mod_pos_bound. lia.
Qed.

Lemma next_elem_size_cdp130_record (r : bt_mesh_comp2_record)
  (tail : list Z) (sz : nat) :
  record_counts_fit r →
  next_elem_size_cdp130 {| data := comp2_record_bytes r ++ tail; size := sz |}
  = length (comp2_record_bytes r)
  ∧ 0 < length (comp2_record_bytes r).
Proof.
  intros [Hoff Hlen].
  pose proof (length_comp2_record_bytes r) as Hsize.
  unfold comp2_record_size in Hsize.
  split; [|lia].
  unfold next_elem_size_cdp130. cbn [data].
  rewrite length_app, Hsize.
  destruct (Nat.ltb_spec (8 + elem_offset_cnt r + data_len r + length tail) 8)
    as [|_]; [lia|].
  assert (H5 : nth 5 (comp2_record_bytes r ++ tail) 0%Z
               = Z.of_nat (elem_offset_cnt r)).
  { unfold comp2_record_bytes, sys_put_le16. cbn [app nth].
    unfold u8. apply Z.mod_small. lia. }
  rewrite H5, Nat2Z.id.
  destruct (Nat.ltb_spec (8 + elem_offset_cnt r + data_len r + length tail)
              (6 + elem_offset_cnt r + 2)) as [|_]; [lia|].
  assert (Hsplit : comp2_record_bytes r ++ tail
                   = (sys_put_le16 (rec_id r)
                      ++ [u8 (version_x r); u8 (version_y r);
                          u8 (version_z r);
                          u8 (Z.of_nat (elem_offset_cnt r))]
                      ++ elem_offset r)
                     ++ sys_put_le16 (Z.of_nat (data_len r))
                     ++ rec_data r ++ tail).
  { unfold comp2_record_bytes. rewrite <- !app_assoc. reflexivity. }
  assert (Hpre : length (sys_put_le16 (rec_id r)
                         ++ [u8 (version_x r); u8 (version_y r);
                             u8 (version_z r);
                             u8 (Z.of_nat (elem_offset_cnt r))]
                         ++ elem_offset r)
                 = 6 + elem_offset_cnt r).
  { rewrite !length_app. unfold elem_offset_cnt. reflexivity. }
  rewrite Hsplit.
  set (pre := sys_put_le16 (rec_id r) ++ _ ++ elem_offset r) in *.
  rewrite (app_nth2 pre _ 0%Z (n := 6 + elem_offset_cnt r)) by lia.
  rewrite (app_nth2 pre _ 0%Z (n := 6 + elem_offset_cnt r + 1)) by lia.
  rewrite Hpre.
  replace (6 + elem_offset_cnt r - (6 + elem_offset_cnt r)) with 0 by lia.
  replace (6 + elem_offset_cnt r + 1 - (6 + elem_offset_cnt r)) with 1
    by lia.
  unfold sys_put_le16. cbn [app nth].
  rewrite sys_get_put_le16_value by lia.
  rewrite Nat2Z.id. lia.
Qed.

Lemma write_cdp_elems_loop_elems (cfg : Kconfig) (page : Z)
  (elems : list (list Z)) :
  Forall
    (λ e, ∀ tail sz,
       next_elem_size cfg {| data := e ++ tail; size := sz |} page = length e
       ∧ 0 < length e)
    elems →
  ∀ (fuel : nat) (buf : net_buf_simple) (sz : nat),
    length elems ≤ fuel →
    ∃ k,
      k ≤ length elems
      ∧ write_cdp_elems_loop cfg fuel buf
          {| data := concat elems; size := sz |} page
        = (Ok, {| data := data buf ++ concat (take k elems);
                  size := size buf |})
      ∧ length (concat (take k elems)) ≤ net_buf_simple_tailroom buf
      ∧ (k < length elems →
         net_buf_simple_tailroom buf < length (concat (take (S k) elems))).
Proof.
  induction 1 as [|e elems He Hall IH]; intros fuel buf sz Hfuel.
  - exists 0. split; [simpl; lia|]. split.
    + assert (Hz : next_elem_size cfg {| data := []; size := sz |} page = 0).
      { unfold next_elem_size, next_elem_size_cdp128, next_elem_size_cdp129,
          next_elem_size_cdp130. cbn [data length Nat.ltb Nat.leb].
        destruct (page =? 128)%Z; [reflexivity|].
        destruct (_ && (page =? 129)%Z); [reflexivity|].
        destruct (_ && (page =? 130)%Z); reflexivity. }
      destruct fuel; cbn [write_cdp_elems_loop concat]; rewrite Hz;
        cbn [data length Nat.eqb negb take firstn concat];
        rewrite ?take_0, app_nil_r; destruct buf; reflexivity.
    + split; simpl; lia.
  - destruct fuel as [|fuel]; [simpl in Hfuel; lia|].
    cbn [write_cdp_elems_loop concat].
    destruct (He (concat elems) sz) as [Hsize Hpos].
    rewrite Hsize.
    destruct (length e) as [|n] eqn:Hlen; [lia|]. rewrite <- Hlen.
    cbn [data]. rewrite length_app.
    destruct (Nat.ltb_spec (length e + length (concat elems)) (length e))
      as [|_]; [lia|].
    destruct (Nat.ltb_spec (net_buf_simple_tailroom buf) (length e))
      as [Hfull|Hroom].
    + exists 0. split; [simpl; lia|]. split.
      * simpl. rewrite app_nil_r. destruct buf; reflexivity.
      * split; [simpl; lia|]. intros _. cbn [firstn concat].
        rewrite take_0. cbn [concat]. rewrite app_nil_r. exact Hfull.
    + unfold net_buf_simple_pull_mem, net_buf_simple_pull. cbn [data size].
      rewrite take_app_length, drop_app_length.
      set (buf1 := net_buf_simple_add_mem buf e).
      destruct (IH fuel buf1 (sz - length e) ltac:(simpl in Hfuel; lia))
        as (k & Hk & -> & Hfit & Hmax).
      assert (Ht1 : net_buf_simple_tailroom buf1 + length e
                    = net_buf_simple_tailroom buf).
      { unfold net_buf_simple_tailroom, buf1, net_buf_simple_add_mem in *.
        cbn [data size] in *. rewrite length_app. lia. }
      exists (S k). split; [simpl; lia|]. split.
      * cbn [firstn concat buf1 net_buf_simple_add_mem data size].
        rewrite <- app_assoc. reflexivity.
      * cbn [firstn concat]. rewrite !length_app. split; [lia|].
        intros Hlt. specialize (Hmax ltac:(simpl in Hlt; lia)). lia.
Qed.

Lemma stored_page_path_130 (cfg : Kconfig) :
  CONFIG_BT_MESH_COMP_PAGE_2 cfg = true →
  stored_page_path cfg PAGE_TYPE_COMP 130 = Some "bt/mesh/cmp/130"%string.
Proof.
  intros Hp2. unfold stored_page_path, stored_pages. rewrite Hp2.
  destruct (CONFIG_BT_MESH_COMP_PAGE_1 cfg); reflexivity.
Qed.

(** X29.  The page-130 reader accepts what the page-2 writer produces.
    When the staged page 130 is the serialization of at least one page
    2 record, each with fewer than 256 element offsets and fewer than
    65536 octets of data, and the staged page is no larger than the
    persistence buffer, [bt_mesh_comp_data_get_elems] on page 130
    yields the serialized records, whole, as many as the tailroom
    takes. *)
Theorem staged_page2_get_elems (cfg : Kconfig) (st : access_state)
  (comp2 : bt_mesh_comp2) (buf : net_buf_simple) :
  CONFIG_BT_MESH_HIGH_DATA_PAGES cfg = true →
  CONFIG_BT_SETTINGS cfg = true →
  CONFIG_BT_MESH_COMP_PAGE_2 cfg = true →
  load_err (settings st) = Ok →
  records (settings st) !! "bt/mesh/cmp/130"%string
  = Some (page2_bytes comp2) →
  record comp2 ≠ [] →
  Forall record_counts_fit (record comp2) →
  length (page2_bytes comp2) ≤ CONFIG_BT_MESH_COMP_PST_BUF_SIZE cfg →
  ∃ k,
    let written := concat (map comp2_record_bytes (take k (record comp2))) in
    k ≤ length (record comp2)
    ∧ bt_mesh_comp_data_get_elems cfg st buf 130
      = (Ok, {| data := data buf ++ written; size := size buf |})
    ∧ length written ≤ net_buf_simple_tailroom buf
    ∧ (k < length (record comp2) →
       net_buf_simple_tailroom buf
       < length (concat (map comp2_record_bytes
                           (take (S k) (record comp2))))).
Proof.
  intros Hhigh Hset Hp2 Hload Hrec Hne Hfitc Hfit.
  set (elems := map comp2_record_bytes (record comp2)).
  assert (Hall : Forall
            (λ e, ∀ tail sz,
               next_elem_size cfg {| data := e ++ tail; size := sz |} 130
               = length e ∧ 0 < length e) elems).
  { unfold elems. apply Forall_fmap. eapply Forall_impl; [exact Hfitc|].
    intros r Hr tail sz. cbn [compose].
    unfold next_elem_size. rewrite Hp2. simpl Z.eqb.
    rewrite andb_false_r. cbn [andb]. cbv iota.
    apply next_elem_size_cdp130_record, Hr. }
  assert (Hlen : length elems ≤ length (concat elems)).
  { clear -Hall. induction Hall as [|e l He _ IH]; [simpl; lia|].
    cbn [concat length]. rewrite length_app.
    destruct (He [] 0) as [_ Hpos]. lia. }
  destruct (write_cdp_elems_loop_elems cfg 130 elems Hall
              (length (concat elems)) buf
              (CONFIG_BT_MESH_COMP_PST_BUF_SIZE cfg) Hlen)
    as (k & Hk & Hloop & Hfits & Hmax).
  assert (Htake : ∀ n,
            take n elems = map comp2_record_bytes (take n (record comp2))).
  { intros n. unfold elems. symmetry. apply fmap_take. }
  assert (Hpos : 8 ≤ length (page2_bytes comp2)).
  { unfold page2_bytes. destruct (record comp2) as [|r rs]; [contradiction|].
    cbn [map concat]. rewrite length_app, length_comp2_record_bytes.
    unfold comp2_record_size. lia. }
  unfold elems in Hk, Hmax. rewrite length_map in Hk, Hmax.
  rewrite !Htake in *.
  exists k. cbv zeta. split; [exact Hk|]. split; [|split].
  - unfold bt_mesh_comp_data_get_elems, get_page_contents.
    rewrite Hhigh, Hset. simpl Z.leb. cbn [andb].
    unfold stored_page_read. rewrite Hset. cbn [negb andb].
    rewrite bool_decide_eq_true_2 by reflexivity. cbn [negb orb Nat.eqb].
    rewrite stored_page_path_130 by exact Hp2.
    unfold settings_load_subtree_direct. rewrite Hload, Hrec.
    rewrite stored_page_read_cb_fresh.
    destruct (Nat.ltb_spec (CONFIG_BT_MESH_COMP_PST_BUF_SIZE cfg)
                (length (page2_bytes comp2))) as [|_]; [lia|].
    cbn [data].
    destruct (Nat.eqb_spec (length (page2_bytes comp2)) 0) as [|_]; [lia|].
    destruct (bool_decide_reflect (page2_bytes comp2 = [0%Z])) as [E|_].
    { rewrite E in Hpos. simpl in Hpos. lia. }
    cbn [Nat.ltb Nat.leb].
    unfold write_cdp_elems. simpl Z.eqb. cbv iota. cbn [data].
    fold elems in Hloop. unfold page2_bytes. fold elems.
    rewrite Hloop. reflexivity.
  - exact Hfits.
  - intros Hlt. apply Hmax, Hlt.
Qed.

Lemma staged_page2_get_elems_witness :
  ∃ k,
    let st :=
      node_one {[ "bt/mesh/cmp/130"%string
                  := page2_bytes comp2_two_records ]} in
    let buf := NET_BUF_SIMPLE 16 in
    let written :=
      concat (map comp2_record_bytes (take k (record comp2_two_records))) in
    k ≤ length (record comp2_two_records)
    ∧ bt_mesh_comp_data_get_elems cfg_all st buf 130
      = (Ok, {| data := data buf ++ written; size := size buf |})
    ∧ length written ≤ net_buf_simple_tailroom buf
    ∧ (k < length (record comp2_two_records) →
       net_buf_simple_tailroom buf
       < length (concat (map comp2_record_bytes
                           (take (S k) (record comp2_two_records))))).
Proof.
  apply (staged_page2_get_elems cfg_all
           (node_one {[ "bt/mesh/cmp/130"%string
                        := page2_bytes comp2_two_records ]})
           comp2_two_records (NET_BUF_SIMPLE 16)).
  - reflexivity.
  - reflexivity.
  - reflexivity.
  - reflexivity.
  - vm_compute. reflexivity.
  - discriminate.
  - repeat apply Forall_cons_2; try apply Forall_nil_2;
      unfold record_counts_fit; vm_compute; split; first [lia|reflexivity].
  - vm_compute. lia.
Defined.

(** ** Page 1 read back from the store *)

Lemma i8_small (z : Z) : (-128 ≤ z < 128)%Z → i8 z = z.
Proof.
  intros Hz. unfold i8.
  destruct (Z.neg_nonneg_cases z) as [Hneg|Hpos].
  - assert (Hm : (z mod 256 = z + 256)%Z).
    { symmetry. apply Z.mod_unique with (q := (-1)%Z); lia. }
    rewrite Hm. destruct (Z.ltb_spec (z + 256) 128); lia.
  - rewrite Z.mod_small by lia. destruct (Z.ltb_spec z 128); lia.
Qed.

Lemma count_mod_ext_fold (m : bt_mesh_model) (sig_offset : Z) :
  ∀ (l : list mod_relation) (c mx : Z),
    (0 ≤ c)%Z →
    (c + Z.of_nat (length (List.filter (is_ext_of m sig_offset) l)) < 256)%Z →
    (-4 ≤ mx ≤ 3)%Z →
    Forall (λ r, (-4 ≤ elem_idx (rt m) - elem_base r ≤ 3)%Z)
      (List.filter (is_ext_of m sig_offset) l) →
    ∃ mx',
      fold_left (count_mod_ext_step m sig_offset) l (c, mx)
      = ((c + Z.of_nat (length (List.filter (is_ext_of m sig_offset) l)))%Z,
         mx')
      ∧ (-4 ≤ mx' ≤ 3)%Z.
Proof.
  induction l as [|r l IH]; intros c mx Hc Hlen Hmx Hall;
    cbn [fold_left List.filter length].
  - exists mx. split; [f_equal; simpl; lia|exact Hmx].
  - cbn [List.filter] in Hlen, Hall.
    assert (Hstep : count_mod_ext_step m sig_offset (c, mx) r
                    = if is_ext_of m sig_offset r
                      then (u8 (c + 1),
                            if (Z.abs (i8 (elem_ext r - elem_base r))
                                >? Z.abs mx)%Z
                            then i8 (elem_ext r - elem_base r) else mx)
                      else (c, mx)) by reflexivity.
    rewrite Hstep. clear Hstep.
    destruct (is_ext_of m sig_offset r) eqn:Hr.
    + cbn [length] in Hlen. apply Forall_cons in Hall as [Hin Hall].
      assert (Hext : elem_ext r = elem_idx (rt m)).
      { unfold is_ext_of in Hr.
        apply andb_true_iff in Hr as [Hr _]. unfold IS_MOD_EXTENSION in Hr.
        apply andb_true_iff in Hr as [Hr _]. apply Z.eqb_eq, Hr. }
      rewrite Hext, i8_small by lia.
      assert (Hu : u8 (c + 1) = (c + 1)%Z)
        by (unfold u8; apply Z.mod_small; lia).
      rewrite Hu.
      destruct (IH (c + 1)%Z
                  (if (Z.abs (elem_idx (rt m) - elem_base r) >? Z.abs mx)%Z
                   then (elem_idx (rt m) - elem_base r)%Z else mx))
        as (mx' & Hfold & Hmx'); [lia|lia| |exact Hall|].
      { destruct (_ >? _)%Z; lia. }
      exists mx'. rewrite Hfold. split; [f_equal; cbn [length]; lia|].
      exact Hmx'.
    + apply (IH c mx Hc Hlen Hmx Hall).
Qed.

Lemma count_mod_ext_short (rels : list mod_relation) (sig_offset : Z)
  (m : bt_mesh_model) :
  short_items rels sig_offset m →
  ∃ mx,
    count_mod_ext rels m sig_offset
    = (Z.of_nat (length (List.filter (is_ext_of m sig_offset)
                           (MOD_REL_LIST_FOR_EACH rels))), mx)
    ∧ (-4 ≤ mx ≤ 3)%Z.
Proof.
  intros [Hlen Hall]. unfold count_mod_ext.
  change (fold_left _ ?l ?a)
    with (fold_left (count_mod_ext_step m sig_offset) l a).
  destruct (count_mod_ext_fold m sig_offset (MOD_REL_LIST_FOR_EACH rels) 0 0)
    as (mx & Hfold & Hmx); [lia|lia|lia|exact Hall|].
  exists mx. rewrite Hfold. split; [reflexivity|exact Hmx].
Qed.

Lemma length_short_entries (m : bt_mesh_model) (cnt sig_offset : Z) :
  (cnt < 32)%Z →
  ∀ l : list mod_relation,
    Forall (λ r, (-4 ≤ elem_idx (rt m) - elem_base r ≤ 3)%Z)
      (List.filter (is_ext_of m sig_offset) l) →
    length (concat (map (model_item_entry m cnt sig_offset) l))
    = length (List.filter (is_ext_of m sig_offset) l).
Proof.
  intros Hcnt. induction l as [|r l IH]; intros Hall; [reflexivity|].
  cbn [map concat List.filter] in *. rewrite length_app.
  unfold model_item_entry at 1. unfold is_ext_of at 1.
  unfold is_ext_of at 1 in Hall.
  destruct (IS_MOD_EXTENSION m r sig_offset
            && (type r =? RELATION_TYPE_EXT)%Z).
  - apply Forall_cons in Hall as [Hin Hall]. cbv zeta.
    destruct (Z.ltb_spec cnt 32); [|lia].
    destruct (Z.ltb_spec (elem_idx (rt m) - elem_base r) 4); [|lia].
    destruct (Z.gtb_spec (elem_idx (rt m) - elem_base r) (-5)); [|lia].
    cbn [andb length]. rewrite IH by exact Hall. reflexivity.
  - cbn [length]. apply IH, Hall.
Qed.

Lemma header_octet_bits (c b : Z) :
  (0 ≤ c < 32)%Z → (b = 0 ∨ b = 1)%Z →
  let hdr := (4 * c + b)%Z in
  Z.testbit hdr 0 = (b =? 1)%Z
  ∧ Z.testbit hdr 1 = false
  ∧ Z.shiftr hdr 2 = c.
Proof.
  intros Hc Hb. cbv zeta. split; [|split].
  - rewrite Z.bit0_odd. destruct Hb as [-> | ->].
    + rewrite Z.add_0_r. replace (4 * c)%Z with (2 * (2 * c))%Z by lia.
      apply Z.odd_even.
    + replace (4 * c + 1)%Z with (2 * (2 * c) + 1)%Z by lia.
      apply Z.odd_odd.
  - rewrite Z.testbit_odd, Z.shiftr_div_pow2 by lia.
    change (2 ^ 1)%Z with 2%Z.
    replace ((4 * c + b) / 2)%Z with (2 * c)%Z
      by (apply Z.div_unique with (r := b); lia).
    apply Z.odd_even.
  - rewrite Z.shiftr_div_pow2 by lia. change (2 ^ 2)%Z with 4%Z.
    symmetry. apply Z.div_unique with (r := b); lia.
Qed.

Lemma model_item_parses (rels : list mod_relation) (sig_offset : Z)
  (m : bt_mesh_model) :
  short_items rels sig_offset m →
  item_parses (model_item_bytes rels sig_offset m).
Proof.
  intros Hshort.
  destruct (count_mod_ext_short rels sig_offset m Hshort)
    as (mx & Hcount & Hmx).
  destruct Hshort as [Hlen Hall].
  set (n := length (List.filter (is_ext_of m sig_offset)
                      (MOD_REL_LIST_FOR_EACH rels))) in *.
  assert (Hentries :
            length (if (Z.of_nat n =? 0)%Z then []
                    else concat (map (model_item_entry m (Z.of_nat n)
                                        sig_offset)
                                   (MOD_REL_LIST_FOR_EACH rels)))
            = n).
  { destruct (Z.eqb_spec (Z.of_nat n) 0) as [H0|_]; [simpl; lia|].
    rewrite length_short_entries by (try exact Hall; lia). reflexivity. }
  assert (Hinfo : u8 (Z.shiftl (Z.of_nat n) 2) = (4 * Z.of_nat n)%Z).
  { rewrite Z.shiftl_mul_pow2 by lia. change (2 ^ 2)%Z with 4%Z.
    unfold u8. rewrite Z.mod_small by lia. lia. }
  unfold item_parses, model_item_bytes, model_item_header.
  rewrite Hcount. cbn [fst].
  destruct (Z.gtb_spec (Z.of_nat n) 31) as [|_]; [lia|].
  destruct (Z.gtb_spec mx 3) as [|_]; [lia|].
  destruct (Z.ltb_spec mx (-4)) as [|_]; [lia|].
  cbn [orb]. rewrite Hinfo.
  destruct (is_cor_present rels m sig_offset) as [cor_id|].
  - assert (Hh : u8 (Z.lor (4 * Z.of_nat n) (BIT 0)) = (4 * Z.of_nat n + 1)%Z).
    { change (BIT 0) with 1%Z.
      assert (Hlor : Z.lor (4 * Z.of_nat n) 1 = (4 * Z.of_nat n + 1)%Z).
      { transitivity (Z.of_nat n * 2 ^ 2 + 1)%Z;
          [|change (2 ^ 2)%Z with 4%Z; lia].
        rewrite <- lor_shiftl_add by (change (2 ^ 2)%Z with 4%Z; lia).
        f_equal. rewrite Z.shiftl_mul_pow2 by lia.
        change (2 ^ 2)%Z with 4%Z. lia. }
      rewrite Hlor. unfold u8. apply Z.mod_small. lia. }
    rewrite Hh.
    destruct (header_octet_bits (Z.of_nat n) 1 ltac:(lia) ltac:(right; lia))
      as (Hb0 & Hb1 & Hsh).
    eexists _, _. split; [reflexivity|].
    rewrite Hb0, Hb1, Hsh, Nat2Z.id.
    cbn [app length Z.eqb Pos.eqb]. rewrite Hentries. lia.
  - assert (Hh : u8 (4 * Z.of_nat n) = (4 * Z.of_nat n + 0)%Z)
      by (unfold u8; rewrite Z.mod_small by lia; lia).
    rewrite Hh.
    destruct (header_octet_bits (Z.of_nat n) 0 ltac:(lia) ltac:(left; lia))
      as (Hb0 & Hb1 & Hsh).
    eexists _, _. split; [reflexivity|].
    rewrite Hb0, Hb1, Hsh, Nat2Z.id.
    cbn [app length Z.eqb]. rewrite Hentries. lia.
Qed.

(** The model-item loop of the page-129 reader on items that parse. *)
Lemma next_elem_size_cdp129_loop_items (items : list (list Z)) :
  Forall item_parses items →
  ∀ (pre tail : list Z) (sz : nat),
    next_elem_size_cdp129_loop (length items)
      {| data := pre ++ concat items ++ tail; size := sz |} (length pre)
    = Some (length pre + length (concat items)).
Proof.
  induction 1 as [|item items Hitem _ IH]; intros pre tail sz.
  - cbn [length next_elem_size_cdp129_loop concat]. f_equal. lia.
  - cbn [length next_elem_size_cdp129_loop concat data].
    destruct Hitem as (hdr & rest & -> & Hlen).
    assert (Hlook : (pre ++ ((hdr :: rest) ++ concat items) ++ tail)
                    !! length pre = Some hdr).
    { rewrite lookup_app_r by lia. rewrite Nat.sub_diag. reflexivity. }
    assert (Hdata : pre ++ ((hdr :: rest) ++ concat items) ++ tail
                    = (pre ++ hdr :: rest) ++ concat items ++ tail)
      by (rewrite <- !app_assoc; reflexivity).
    rewrite Hlook, <- Hlen, Hdata.
    replace (length pre + length (hdr :: rest))
      with (length (pre ++ hdr :: rest))
      by (rewrite length_app; reflexivity).
    rewrite IH. f_equal. rewrite !length_app. lia.
Qed.

Lemma next_elem_size_cdp129_elem (rels : list mod_relation)
  (e : bt_mesh_elem) (tail : list Z) (sz : nat) :
  page1_elem_short rels e →
  next_elem_size_cdp129
    {| data := page1_elem_bytes rels e ++ tail; size := sz |}
  = length (page1_elem_bytes rels e)
  ∧ 0 < length (page1_elem_bytes rels e).
Proof.
  intros ([Hs Hv] & Hsig & Hvnd).
  set (items := map (model_item_bytes rels 0) (models e)
                ++ map (model_item_bytes rels (Z.of_nat (model_count e)))
                     (vnd_models e)).
  assert (Hitems : Forall item_parses items).
  { unfold items. apply Forall_app. split; apply Forall_fmap;
      (eapply Forall_impl; [eassumption|]); intros m Hm;
      apply model_item_parses, Hm. }
  assert (Hbytes : page1_elem_bytes rels e ++ tail
                   = [u8 (Z.of_nat (model_count e));
                      u8 (Z.of_nat (vnd_model_count e))]
                     ++ concat items ++ tail).
  { unfold page1_elem_bytes, items. rewrite concat_app, <- !app_assoc.
    reflexivity. }
  assert (Hlen : length (page1_elem_bytes rels e)
                 = 2 + length (concat items)).
  { unfold page1_elem_bytes, items. rewrite concat_app, !length_app.
    reflexivity. }
  split; [|lia].
  unfold next_elem_size_cdp129. cbn [data]. rewrite Hbytes.
  cbn [app]. unfold u8. rewrite !Z.mod_small by lia. rewrite !Nat2Z.id.
  replace (model_count e + vnd_model_count e) with (length items)
    by (unfold items, model_count, vnd_model_count;
        rewrite length_app, !length_map; reflexivity).
  pose proof (next_elem_size_cdp129_loop_items items Hitems
                [Z.of_nat (model_count e); Z.of_nat (vnd_model_count e)]
                tail sz) as Hloop.
  cbn [app length] in Hloop. rewrite Hloop.
  change (2 + length (concat items) = length (page1_elem_bytes rels e)).
  lia.
Qed.

Lemma stored_page_path_129 (cfg : Kconfig) :
  CONFIG_BT_MESH_COMP_PAGE_1 cfg = true →
  stored_page_path cfg PAGE_TYPE_COMP 129 = Some "bt/mesh/cmp/129"%string.
Proof.
  intros Hp1. unfold stored_page_path, stored_pages. rewrite Hp1.
  reflexivity.
Qed.

(** X30.  The page-129 reader accepts what the page-1 writer produces in
    the short format.  When the staged page 129 is the serialization,
    as page 1, of a composition with at least one element and a
    relation table in which every element has fewer than 256 SIG and
    256 vendor models and every model fewer than 32 extension records,
    each with an element offset (the model's element index minus the
    base's) from -4 to 3, that is with its base at most 3 elements
    before and 4 elements after the model, and the staged page is no
    larger than the persistence buffer, [bt_mesh_comp_data_get_elems]
    on page 129 yields the serialized elements, whole, as many as the
    tailroom takes. *)
Theorem staged_page1_get_elems (cfg : Kconfig) (st new : access_state)
  (buf : net_buf_simple) :
  CONFIG_BT_MESH_HIGH_DATA_PAGES cfg = true →
  CONFIG_BT_SETTINGS cfg = true →
  CONFIG_BT_MESH_COMP_PAGE_1 cfg = true →
  load_err (settings st) = Ok →
  records (settings st) !! "bt/mesh/cmp/129"%string
  = Some (page1_bytes new) →
  elem (dev_comp new) ≠ [] →
  Forall (page1_elem_short (mod_rel_list new)) (elem (dev_comp new)) →
  length (page1_bytes new) ≤ CONFIG_BT_MESH_COMP_PST_BUF_SIZE cfg →
  ∃ k,
    let written :=
      concat (map (page1_elem_bytes (mod_rel_list new))
                (take k (elem (dev_comp new)))) in
    k ≤ length (elem (dev_comp new))
    ∧ bt_mesh_comp_data_get_elems cfg st buf 129
      = (Ok, {| data := data buf ++ written; size := size buf |})
    ∧ length written ≤ net_buf_simple_tailroom buf
    ∧ (k < length (elem (dev_comp new)) →
       net_buf_simple_tailroom buf
       < length (concat (map (page1_elem_bytes (mod_rel_list new))
                           (take (S k) (elem (dev_comp new)))))).
Proof.
  intros Hhigh Hset Hp1 Hload Hrec Hne Hshort Hfit.
  set (rels := mod_rel_list new) in *.
  set (elems := map (page1_elem_bytes rels) (elem (dev_comp new))).
  assert (Hall : Forall
            (λ e, ∀ tail sz,
               next_elem_size cfg {| data := e ++ tail; size := sz |} 129
               = length e ∧ 0 < length e) elems).
  { unfold elems. apply Forall_fmap. eapply Forall_impl; [exact Hshort|].
    intros e He tail sz. cbn [compose].
    unfold next_elem_size. rewrite Hp1. simpl Z.eqb. cbn [andb]. cbv iota.
    apply next_elem_size_cdp129_elem, He. }
  assert (Hlen : length elems ≤ length (concat elems)).
  { clear -Hall. induction Hall as [|e l He _ IH]; [simpl; lia|].
    cbn [concat length]. rewrite length_app.
    destruct (He [] 0) as [_ Hpos]. lia. }
  destruct (write_cdp_elems_loop_elems cfg 129 elems Hall
              (length (concat elems)) buf
              (CONFIG_BT_MESH_COMP_PST_BUF_SIZE cfg) Hlen)
    as (k & Hk & Hloop & Hfits & Hmax).
  assert (Htake : ∀ n,
            take n elems
            = map (page1_elem_bytes rels) (take n (elem (dev_comp new)))).
  { intros n. unfold elems. symmetry. apply fmap_take. }
  assert (Hpage : page1_bytes new = concat elems) by reflexivity.
  assert (Hpos : 2 ≤ length (page1_bytes new)).
  { rewrite Hpage. unfold elems.
    destruct (elem (dev_comp new)) as [|e es]; [contradiction|].
    cbn [map concat]. rewrite length_app.
    unfold page1_elem_bytes. rewrite !length_app. cbn [length]. lia. }
  unfold elems in Hk, Hmax. rewrite length_map in Hk, Hmax.
  rewrite !Htake in *.
  exists k. cbv zeta. split; [exact Hk|]. split; [|split].
  - unfold bt_mesh_comp_data_get_elems, get_page_contents.
    rewrite Hhigh, Hset. simpl Z.leb. cbn [andb].
    unfold stored_page_read. rewrite Hset. cbn [negb andb].
    rewrite bool_decide_eq_true_2 by reflexivity. cbn [negb orb Nat.eqb].
    rewrite stored_page_path_129 by exact Hp1.
    unfold settings_load_subtree_direct. rewrite Hload, Hrec.
    rewrite stored_page_read_cb_fresh.
    destruct (Nat.ltb_spec (CONFIG_BT_MESH_COMP_PST_BUF_SIZE cfg)
                (length (page1_bytes new))) as [|_]; [lia|].
    cbn [data].
    destruct (Nat.eqb_spec (length (page1_bytes new)) 0) as [|_]; [lia|].
    destruct (bool_decide_reflect (page1_bytes new = [0%Z])) as [E|_].
    { rewrite E in Hpos. simpl in Hpos. lia. }
    cbn [Nat.ltb Nat.leb].
    unfold write_cdp_elems. simpl Z.eqb. cbv iota. cbn [data].
    rewrite Hpage, Hloop. reflexivity.
  - exact Hfits.
  - intros Hlt. apply Hmax, Hlt.
Qed.

Lemma node_four_elems_extended_short :
  Forall (page1_elem_short (mod_rel_list node_four_elems_extended))
    (elem (dev_comp node_four_elems_extended)).
Proof.
  assert (Hshort : ∀ rels off m,
            (length (List.filter (is_ext_of m off)
                       (MOD_REL_LIST_FOR_EACH rels)) <? 32) = true →
            forallb
              (λ r, (-4 <=? elem_idx (rt m) - elem_base r)%Z
                    && (elem_idx (rt m) - elem_base r <=? 3)%Z)
              (List.filter (is_ext_of m off) (MOD_REL_LIST_FOR_EACH rels))
            = true →
            short_items rels off m).
  { intros rels off m Hlen Hall. split; [apply Nat.ltb_lt, Hlen|].
    apply Forall_forall. intros r Hr.
    rewrite forallb_forall in Hall.
    specialize (Hall r ltac:(apply list_elem_of_In; exact Hr)).
    apply andb_true_iff in Hall as [H1 H2].
    apply Z.leb_le in H1. apply Z.leb_le in H2. lia. }
  repeat apply Forall_cons_2; try apply Forall_nil_2;
    (split; [split; vm_compute; lia|]);
    (split; repeat apply Forall_cons_2; try apply Forall_nil_2);
    apply Hshort; reflexivity.
Qed.

Lemma staged_page1_get_elems_witness :
  ∃ k,
    let new := node_four_elems_extended in
    let st := node_one {[ "bt/mesh/cmp/129"%string := page1_bytes new ]} in
    let buf := NET_BUF_SIMPLE 8 in
    let written :=
      concat (map (page1_elem_bytes (mod_rel_list new))
                (take k (elem (dev_comp new)))) in
    k ≤ length (elem (dev_comp new))
    ∧ bt_mesh_comp_data_get_elems cfg_all st buf 129
      = (Ok, {| data := data buf ++ written; size := size buf |})
    ∧ length written ≤ net_buf_simple_tailroom buf
    ∧ (k < length (elem (dev_comp new)) →
       net_buf_simple_tailroom buf
       < length (concat (map (page1_elem_bytes (mod_rel_list new))
                           (take (S k) (elem (dev_comp new)))))).
Proof.
  apply (staged_page1_get_elems cfg_all
           (node_one {[ "bt/mesh/cmp/129"%string
                        := page1_bytes node_four_elems_extended ]})
           node_four_elems_extended (NET_BUF_SIMPLE 8)).
  - reflexivity.
  - reflexivity.
  - reflexivity.
  - reflexivity.
  - vm_compute. reflexivity.
  - vm_compute. discriminate.
  - exact node_four_elems_extended_short.
  - vm_compute. lia.
Defined.
